(** * pyzk for Node.js: codec, session and bulk-read layer

    A shallow embedding of the JavaScript sources
      - [src/utils.js]      (module [Utils]: checksum, header, time codec, auth key),
      - [zk/base.js]        (module [Base]: the line-by-line port of pyzk's base.py),
      - [node-zk/src/zk.js] (module [Zk]: the promise based client),
    together with the part of the Node.js runtime they rely on ([JS], [Buf],
    [Date]), and the properties of these functions. *)

From Stdlib Require Import ZArith List Lia Bool String Ascii.
From Stdlib Require Import DecimalString DecimalN.
From coqutil Require Import Byte Word.LittleEndianList.
Import ListNotations.
Local Open Scope Z_scope.

(* ===================================================================== *)
(** * Part I: the embedding                                               *)
(* ===================================================================== *)

(** ** JavaScript numbers and exceptions

    Every number the modelled code handles is an integer well below 2^53, so a
    JavaScript number is a [Z].  The 32-bit operators first convert their
    operands with ToInt32 / ToUint32, as ECMAScript prescribes. *)

Inductive exn : Type :=
| RangeError                 (* ERR_OUT_OF_RANGE of the Buffer accessors *)
| TypeError                  (* property access on null *)
| Error (msg : string).      (* new Error(msg), transport rejections *)

(** The outcome of a call: a value, an exception, or (for the one unbounded
    [while] loop that is run on fuel) the fuel running out. *)
Inductive res (A : Type) : Type :=
| Ok (a : A)
| Throw (e : exn)
| OutOfFuel.
Arguments Ok {A} a.
Arguments Throw {A} e.
Arguments OutOfFuel {A}.

Definition res_bind {A B} (r : res A) (k : A -> res B) : res B :=
  match r with
  | Ok a => k a
  | Throw e => Throw e
  | OutOfFuel => OutOfFuel
  end.

Fixpoint res_mapM {A B} (f : A -> res B) (l : list A) : res (list B) :=
  match l with
  | [] => Ok []
  | a :: l' =>
      match f a with
      | Ok b => res_bind (res_mapM f l') (fun bs => Ok (b :: bs))
      | Throw e => Throw e
      | OutOfFuel => OutOfFuel
      end
  end.

Notation "'let*' x ':=' r 'in' k" := (res_bind r (fun x => k))
  (at level 10, x pattern, r at level 100, k at level 200).

Module JS.

Definition ToInt32 (z : Z) : Z := (z + 2147483648) mod 4294967296 - 2147483648.
Definition ToUint32 (z : Z) : Z := z mod 4294967296.

(** [a & b], [a | b], [a ^ b], [~a], [a << n], [a >>> n]. *)
Definition band (a b : Z) : Z := Z.land (ToInt32 a) (ToInt32 b).
Definition bor (a b : Z) : Z := Z.lor (ToInt32 a) (ToInt32 b).
Definition bxor (a b : Z) : Z := Z.lxor (ToInt32 a) (ToInt32 b).
Definition bnot (a : Z) : Z := Z.lnot (ToInt32 a).
Definition shl (a n : Z) : Z := ToInt32 (Z.shiftl (ToInt32 a) (ToUint32 n mod 32)).
Definition ushr (a n : Z) : Z := Z.shiftr (ToUint32 a) (ToUint32 n mod 32).

(** Truthiness of a number: everything but 0 (NaN does not occur). *)
Definition truthy (z : Z) : bool := negb (z =? 0).

(** [String(n)] for an integer: its decimal numeral. *)
Definition StringOf (n : Z) : string :=
  if n <? 0
  then String.String "-" (NilEmpty.string_of_uint (N.to_uint (Z.to_N (- n))))
  else NilEmpty.string_of_uint (N.to_uint (Z.to_N n)).

(** Truthiness of a string: everything but the empty string. *)
Definition nonEmpty (s : string) : bool := negb (String.eqb s EmptyString).

(** [list.includes(x)] on numbers. *)
Definition includes (l : list Z) (x : Z) : bool := existsb (Z.eqb x) l.

(** [s.split('\x00')[0]]: the part of [s] before its first NUL. *)
Fixpoint splitNul (s : string) : string :=
  match s with
  | EmptyString => EmptyString
  | String c s' => if Ascii.eqb c Ascii.zero then EmptyString else String c (splitNul s')
  end.

(** The string functions of the runtime that the sources call and whose
    definition (UTF-8 decoding with replacement characters, Unicode white
    space, numeric literals) is left open: every result holds for any
    behaviour of them.  A string is the sequence of the bytes of its UTF-8
    form.  [Number s] is [None] for NaN. *)
Class Runtime : Type := {
  toStringUtf8 : list byte -> string;
  trim : string -> string;
  Number : string -> option Z
}.

End JS.

(** ** Node.js Buffer

    A buffer is the list of its bytes.  Accessors raise [RangeError] when the
    offset leaves the buffer or the value leaves the range of the field, as
    Node's [checkInt] and [boundsError] do. *)

Definition Buffer : Type := list byte.

Module Buf.

Definition length (b : Buffer) : Z := Z.of_nat (List.length b).

(** [Buffer.alloc(n)]; [Buffer.allocUnsafe(n)] is used by the sources only
    where every byte is overwritten before it is read, and is modelled by
    the zero-filled buffer too. *)
Definition alloc (n : nat) : Buffer := repeat Byte.x00 n.
Definition allocUnsafe (n : nat) : Buffer := alloc n.

(** [Buffer.from([v0, v1, ...])]: each number is stored modulo 256. *)
Definition from (l : list Z) : Buffer := map byte.of_Z l.

(** [buf[i]] for an index inside the buffer. *)
Definition get (b : Buffer) (i : nat) : Z := byte.unsigned (nth i b Byte.x00).

(** [buf.slice(start, end)] and [buf.slice(start)], non-negative indices. *)
Definition slice (b : Buffer) (s e : Z) : Buffer :=
  firstn (Z.to_nat e - Z.to_nat s) (skipn (Z.to_nat s) b).
Definition sliceFrom (b : Buffer) (s : Z) : Buffer := skipn (Z.to_nat s) b.

Definition inBounds (b : Buffer) (off : Z) (n : nat) : bool :=
  (0 <=? off) && (off + Z.of_nat n <=? length b).

Definition readUIntLE (n : nat) (b : Buffer) (off : Z) : res Z :=
  if inBounds b off n
  then Ok (le_combine (firstn n (skipn (Z.to_nat off) b)))
  else Throw RangeError.

Definition readIntLE (n : nat) (b : Buffer) (off : Z) : res Z :=
  let* u := readUIntLE n b off in
  let half := 2 ^ (8 * Z.of_nat n - 1) in
  Ok (if u <? half then u else u - 2 * half).

(** Store the low [n] bytes of [v] (two's complement) at [off]. *)
Definition store (n : nat) (b : Buffer) (v off : Z) : Buffer :=
  firstn (Z.to_nat off) b ++ le_split n v ++ skipn (Z.to_nat off + n) b.

Definition writeUIntLE (n : nat) (b : Buffer) (v off : Z) : res Buffer :=
  if (0 <=? v) && (v <? 2 ^ (8 * Z.of_nat n))
  then if inBounds b off n then Ok (store n b v off) else Throw RangeError
  else Throw RangeError.

Definition writeIntLE (n : nat) (b : Buffer) (v off : Z) : res Buffer :=
  let half := 2 ^ (8 * Z.of_nat n - 1) in
  if (- half <=? v) && (v <? half)
  then if inBounds b off n then Ok (store n b v off) else Throw RangeError
  else Throw RangeError.

Definition readUInt8 := readUIntLE 1.
Definition readUInt16LE := readUIntLE 2.
Definition readUInt32LE := readUIntLE 4.
Definition readInt32LE := readIntLE 4.
Definition writeUInt8 := writeUIntLE 1.
Definition writeUInt16LE := writeUIntLE 2.
Definition writeUInt32LE := writeUIntLE 4.
Definition writeInt8 := writeIntLE 1.
Definition writeInt16LE := writeIntLE 2.
Definition writeInt32LE := writeIntLE 4.

(** [Buffer.from(s, 'utf8')] *)
Definition fromString (s : string) : Buffer :=
  map Ascii.byte_of_ascii (list_ascii_of_string s).

(** [src.copy(target, targetStart)]: as many bytes as fit. *)
Definition copy (src target : Buffer) (targetStart : Z) : Buffer :=
  let t := Z.to_nat targetStart in
  let k := Nat.min (List.length src) (List.length target - t) in
  firstn t target ++ firstn k src ++ skipn (t + k) target.

End Buf.

(** ** Plain user objects [{uid, privilege, password, name, card, groupId, userId}] *)

Module User.
Record t : Type := mk {
  uid : Z;
  privilege : Z;
  password : string;
  name : string;
  card : Z;
  groupId : string;
  userId : string
}.
End User.

(** ** Protocol constants *)

Module CONST.

(** Modelled from the spec: [src/const.js] is not among the sources; the
    values are those of the specification's list of wire constants and
    command codes. *)
Definition USHRT_MAX : Z := 65535.
Definition CMD_CONNECT : Z := 1000.
Definition CMD_EXIT : Z := 1001.
Definition CMD_AUTH : Z := 1102.
Definition CMD_PREPARE_DATA : Z := 1500.
Definition CMD_DATA : Z := 1501.
Definition CMD_FREE_DATA : Z := 1502.
Definition _CMD_PREPARE_BUFFER : Z := 1503.
Definition _CMD_READ_BUFFER : Z := 1504.
Definition CMD_USER_WRQ : Z := 8.
Definition CMD_USERTEMP_RRQ : Z := 9.
Definition CMD_GET_FREE_SIZES : Z := 50.
Definition CMD_REFRESHDATA : Z := 1013.
Definition CMD_ACK_OK : Z := 2000.
Definition CMD_ACK_UNAUTH : Z := 2005.
Definition FCT_USER : Z := 5.
Definition USER_DEFAULT : Z := 0.
Definition USER_ADMIN : Z := 14.
Definition CMD_ENABLEDEVICE : Z := 1002.
Definition CMD_DISABLEDEVICE : Z := 1003.
Definition CMD_RESTART : Z := 1004.
Definition CMD_POWEROFF : Z := 1005.
Definition CMD_TESTVOICE : Z := 1017.
Definition CMD_DB_RRQ : Z := 7.
Definition CMD_OPTIONS_RRQ : Z := 11.
Definition CMD_OPTIONS_WRQ : Z := 12.
Definition CMD_ATTLOG_RRQ : Z := 13.
Definition CMD_CLEAR_DATA : Z := 14.
Definition CMD_CLEAR_ATTLOG : Z := 15.
Definition CMD_DELETE_USER : Z := 18.
Definition CMD_DELETE_USERTEMP : Z := 19.
Definition CMD_UNLOCK : Z := 31.
Definition CMD_STARTVERIFY : Z := 60.
Definition CMD_STARTENROLL : Z := 61.
Definition CMD_CANCELCAPTURE : Z := 62.
Definition CMD_WRITE_LCD : Z := 66.
Definition CMD_CLEAR_LCD : Z := 67.
Definition CMD_GET_PINWIDTH : Z := 69.
Definition CMD_DOORSTATE_RRQ : Z := 75.
Definition _CMD_GET_USERTEMP : Z := 88.
Definition _CMD_SAVE_USERTEMPS : Z := 110.
Definition _CMD_DEL_USER_TEMP : Z := 134.
Definition CMD_GET_TIME : Z := 201.
Definition CMD_SET_TIME : Z := 202.
Definition CMD_REG_EVENT : Z := 500.
Definition CMD_GET_VERSION : Z := 1100.
Definition FCT_FINGERTMP : Z := 2.

Definition MACHINE_PREPARE_DATA_1 : Z := 20560. (* 0x5050 *)
Definition MACHINE_PREPARE_DATA_2 : Z := 33303. (* 0x8217 *)

End CONST.

(** ** The Date object

    [new Date(year, monthIndex, day, hours, minutes, seconds)] and the local
    getters, for a host whose local time has a constant offset from UTC (no
    daylight-saving jumps).  A date is its time value in milliseconds, built by
    ECMAScript's MakeDay / MakeTime / MakeDate over the proleptic Gregorian
    calendar and read back by YearFromTime, MonthFromTime and DateFromTime. *)

Module Date.

Definition msPerDay : Z := 86400000.

(** Day number (days since 1970-01-01) of the civil date [y]-[m]-[d],
    [m] in 1..12; [d] may exceed the month, as in MakeDay. *)
Definition daysFromCivil (y m d : Z) : Z :=
  let y' := if m <=? 2 then y - 1 else y in
  let era := y' / 400 in
  let yoe := y' - era * 400 in
  let mp := if m >? 2 then m - 3 else m + 9 in
  let doy := (153 * mp + 2) / 5 + d - 1 in
  let doe := yoe * 365 + yoe / 4 - yoe / 100 + doy in
  era * 146097 + doe - 719468.

(** The civil date (year, month 1..12, day) of a day number. *)
Definition civilFromDays (z : Z) : Z * Z * Z :=
  let z := z + 719468 in
  let era := z / 146097 in
  let doe := z - era * 146097 in
  let yoe := (doe - doe / 1460 + doe / 36524 - doe / 146096) / 365 in
  let doy := doe - (365 * yoe + yoe / 4 - yoe / 100) in
  let mp := (5 * doy + 2) / 153 in
  let d := doy - (153 * mp + 2) / 5 + 1 in
  let m := if mp <? 10 then mp + 3 else mp - 9 in
  let y := yoe + era * 400 in
  (if m <=? 2 then y + 1 else y, m, d).

(** The time value. *)
Definition t : Type := Z.

Definition make (year monthIndex day hours minutes seconds : Z) : t :=
  let ym := year + monthIndex / 12 in
  let mn := monthIndex mod 12 in
  let dayNumber := daysFromCivil ym (mn + 1) 1 + day - 1 in
  dayNumber * msPerDay + (hours * 3600000 + minutes * 60000 + seconds * 1000).

Definition getFullYear (d : t) : Z := fst (fst (civilFromDays (d / msPerDay))).
Definition getMonth (d : t) : Z := snd (fst (civilFromDays (d / msPerDay))) - 1.
Definition getDate (d : t) : Z := snd (civilFromDays (d / msPerDay)).
Definition getHours (d : t) : Z := (d / 3600000) mod 24.
Definition getMinutes (d : t) : Z := (d / 60000) mod 60.
Definition getSeconds (d : t) : Z := (d / 1000) mod 60.

(** Length of month [m] (1..12) of year [y] in that calendar. *)
Definition isLeap (y : Z) : bool :=
  ((y mod 4 =? 0) && negb (y mod 100 =? 0)) || (y mod 400 =? 0).
Definition daysInMonth (y m : Z) : Z :=
  if m =? 2 then (if isLeap y then 29 else 28)
  else if (m =? 4) || (m =? 6) || (m =? 9) || (m =? 11) then 30
  else 31.

End Date.

(** ** src/utils.js *)

Module Utils.
Import CONST.

(** The body of [while (checksum > USHRT_MAX) checksum -= USHRT_MAX].  Each
    turn removes 65535, so [Z.to_nat checksum] turns always suffice. *)
Fixpoint reduceLoop (fuel : nat) (checksum : Z) : Z :=
  match fuel with
  | O => checksum
  | S fuel' =>
      if checksum >? USHRT_MAX
      then reduceLoop fuel' (checksum - USHRT_MAX)
      else checksum
  end.

(** The first loop of [createChecksum]: it consumes the buffer two bytes at
    a time while more than one byte remains, and returns the running sum and
    the bytes left (none or one). *)
Fixpoint sumWords (buffer : Buffer) (checksum : Z) : Z * Buffer :=
  match buffer with
  | b0 :: b1 :: rest =>
      let checksum := checksum + (byte.unsigned b0 + JS.shl (byte.unsigned b1) 8) in
      let checksum := if checksum >? USHRT_MAX then checksum - USHRT_MAX else checksum in
      sumWords rest checksum
  | _ => (checksum, buffer)
  end.

Definition createChecksum (buffer : Buffer) : Z :=
  let '(checksum, remaining) := sumWords buffer 0 in
  let checksum :=
    match remaining with
    | [] => checksum
    | _ => checksum + byte.unsigned (last buffer Byte.x00)
    end in
  let checksum := reduceLoop (Z.to_nat checksum) checksum in
  JS.band (JS.bnot checksum) 65535.

Definition createHeader (command : Z) (commandString : Buffer)
    (sessionId replyId : Z) : res Buffer :=
  let header := Buf.allocUnsafe 8 in
  let* header := Buf.writeUInt16LE header command 0 in
  let* header := Buf.writeUInt16LE header 0 2 in
  let* header := Buf.writeUInt16LE header sessionId 4 in
  let nextReplyId := replyId + 1 in
  let nextReplyId :=
    if nextReplyId >=? USHRT_MAX then nextReplyId - USHRT_MAX else nextReplyId in
  let* header := Buf.writeUInt16LE header nextReplyId 6 in
  let merged := header ++ commandString in
  let checksum := createChecksum merged in
  let* header := Buf.writeUInt16LE header checksum 2 in
  Ok (header ++ commandString).

Definition createTcpTop (packet : Buffer) : res Buffer :=
  let top := Buf.allocUnsafe 8 in
  let* top := Buf.writeUInt16LE top MACHINE_PREPARE_DATA_1 0 in
  let* top := Buf.writeUInt16LE top MACHINE_PREPARE_DATA_2 2 in
  let* top := Buf.writeUInt32LE top (Buf.length packet) 4 in
  Ok (top ++ packet).

(** [readHeader] returns the array [command, checksum, session, reply]. *)
Definition readHeader (buffer : Buffer) : res (list Z) :=
  let* h0 := Buf.readUInt16LE buffer 0 in
  let* h1 := Buf.readUInt16LE buffer 2 in
  let* h2 := Buf.readUInt16LE buffer 4 in
  let* h3 := Buf.readUInt16LE buffer 6 in
  Ok [h0; h1; h2; h3].

Definition decodeTime (buffer : Buffer) : res Date.t :=
  let* raw := Buf.readUInt32LE buffer 0 in
  let t := raw in
  let second := t mod 60 in
  let t := t / 60 in
  let minute := t mod 60 in
  let t := t / 60 in
  let hour := t mod 24 in
  let t := t / 24 in
  let day := (t mod 31) + 1 in
  let t := t / 31 in
  let month := (t mod 12) + 1 in
  let year := t / 12 + 2000 in
  Ok (Date.make year (month - 1) day hour minute second).

Definition encodeTime (dt : Date.t) : Z :=
  let year := Date.getFullYear dt mod 100 in
  let month := Date.getMonth dt + 1 in
  let day := Date.getDate dt in
  let hour := Date.getHours dt in
  let minute := Date.getMinutes dt in
  let second := Date.getSeconds dt in
  let d := ((year * 12 * 31) + ((month - 1) * 31) + day - 1) *
           (24 * 60 * 60) + (hour * 60 + minute) * 60 + second in
  JS.ushr d 0.

(** One turn of the bit loop of [makeCommKey]. *)
Definition keyStep (pass : Z) (k : Z) (i : nat) : Z :=
  if JS.truthy (JS.band pass (JS.shl 1 (Z.of_nat i)))
  then JS.bor (JS.shl k 1) 1
  else JS.shl k 1.

Definition makeCommKey (key sessionId ticks : Z) : Buffer :=
  let pass := key in
  let sid := sessionId in
  let k := fold_left (keyStep pass) (seq 0 32) 0 in
  let k := k + sid in
  let tmp := Buf.store 4 (Buf.allocUnsafe 4) (JS.ushr k 0) 0 in
  let xored := Buf.from
    [ JS.bxor (Buf.get tmp 0) 90 (* 'Z' *);
      JS.bxor (Buf.get tmp 1) 75 (* 'K' *);
      JS.bxor (Buf.get tmp 2) 83 (* 'S' *);
      JS.bxor (Buf.get tmp 3) 79 (* 'O' *) ] in
  let swapped := Buf.allocUnsafe 4 in
  let swapped := Buf.store 2 swapped (le_combine (Buf.slice xored 2 4)) 0 in
  let swapped := Buf.store 2 swapped (le_combine (Buf.slice xored 0 2)) 2 in
  let B := JS.band 255 ticks in
  Buf.from
    [ JS.bxor (Buf.get swapped 0) B;
      JS.bxor (Buf.get swapped 1) B;
      B;
      JS.bxor (Buf.get swapped 3) B ].

End Utils.


(** ** zk/base.js: the codec of the port of pyzk's base.py *)

Module Base.
Import CONST.

(** One turn of the bit loop of [makeCommKey]. *)
Definition keyStep (keyVal : Z) (k : Z) (i : nat) : Z :=
  if JS.truthy (JS.band keyVal (JS.shl 1 (Z.of_nat i)))
  then JS.bor (JS.shl k 1) 1
  else JS.shl k 1.

Definition makeCommKey (key sessionId ticks : Z) : Buffer :=
  let keyVal := key in
  let k := fold_left (keyStep keyVal) (seq 0 32) 0 in
  let k := k + sessionId in
  let tmp := Buf.store 4 (Buf.alloc 4) (JS.ushr k 0) 0 in
  let arr := Buf.from
    [ JS.bxor (Buf.get tmp 0) 90 (* 'Z' *);
      JS.bxor (Buf.get tmp 1) 75 (* 'K' *);
      JS.bxor (Buf.get tmp 2) 83 (* 'S' *);
      JS.bxor (Buf.get tmp 3) 79 (* 'O' *) ] in
  let swap := Buf.alloc 4 in
  let swap := Buf.store 2 swap (le_combine (Buf.slice arr 2 4)) 0 in
  let swap := Buf.store 2 swap (le_combine (Buf.slice arr 0 2)) 2 in
  let B := JS.band ticks 255 in
  Buf.from
    [ JS.bxor (Buf.get swap 0) B;
      JS.bxor (Buf.get swap 1) B;
      B;
      JS.bxor (Buf.get swap 3) B ].

(** [while (checksum > USHRT_MAX) checksum -= USHRT_MAX] *)
Fixpoint lowerLoop (fuel : nat) (checksum : Z) : Z :=
  match fuel with
  | O => checksum
  | S fuel' =>
      if checksum >? USHRT_MAX
      then lowerLoop fuel' (checksum - USHRT_MAX)
      else checksum
  end.

(** [while (checksum < 0) checksum += USHRT_MAX] *)
Fixpoint raiseLoop (fuel : nat) (checksum : Z) : Z :=
  match fuel with
  | O => checksum
  | S fuel' =>
      if checksum <? 0
      then raiseLoop fuel' (checksum + USHRT_MAX)
      else checksum
  end.

Fixpoint sumWords (buffer : Buffer) (checksum : Z) : Z * Buffer :=
  match buffer with
  | b0 :: b1 :: rest =>
      let value := JS.bor (byte.unsigned b0) (JS.shl (byte.unsigned b1) 8) in
      let checksum := checksum + value in
      let checksum := if checksum >? USHRT_MAX then checksum - USHRT_MAX else checksum in
      sumWords rest checksum
  | _ => (checksum, buffer)
  end.

Definition __create_checksum (buffer : Buffer) : Z :=
  let '(checksum, remaining) := sumWords buffer 0 in
  let checksum :=
    match remaining with
    | [] => checksum
    | _ => checksum + byte.unsigned (last buffer Byte.x00)
    end in
  let checksum := lowerLoop (Z.to_nat checksum) checksum in
  let checksum := JS.bnot checksum in
  let checksum := raiseLoop (Z.to_nat (- checksum)) checksum in
  JS.band checksum 65535.

Definition __create_header (command : Z) (commandString : Buffer)
    (sessionId replyId : Z) : res Buffer :=
  let payload := Buf.alloc (8 + List.length commandString) in
  let* payload := Buf.writeUInt16LE payload command 0 in
  let* payload := Buf.writeUInt16LE payload 0 2 in
  let* payload := Buf.writeUInt16LE payload sessionId 4 in
  let* payload := Buf.writeUInt16LE payload replyId 6 in
  let payload := Buf.copy commandString payload 8 in
  let checksum := __create_checksum payload in
  let nextReply := replyId + 1 in
  let nextReply :=
    if nextReply >=? USHRT_MAX then nextReply - USHRT_MAX else nextReply in
  let header := Buf.alloc (8 + List.length commandString) in
  let* header := Buf.writeUInt16LE header command 0 in
  let* header := Buf.writeUInt16LE header checksum 2 in
  let* header := Buf.writeUInt16LE header sessionId 4 in
  let* header := Buf.writeUInt16LE header nextReply 6 in
  let header := Buf.copy commandString header 8 in
  Ok header.

Definition __unpack_header (buffer : Buffer) : res (Z * Z * Z * Z) :=
  let* command := Buf.readUInt16LE buffer 0 in
  let* checksum := Buf.readUInt16LE buffer 2 in
  let* sessionId := Buf.readUInt16LE buffer 4 in
  let* replyId := Buf.readUInt16LE buffer 6 in
  Ok (command, checksum, sessionId, replyId).

(** The tail of [get_users]: [maxUid] is the largest uid seen and [ids] the
    user-id strings of the parsed users.  The loop advances only
    [next_user_id]; [None] when the fuel runs out. *)
Fixpoint freshLoop (fuel : nat) (ids : list string) (maxUid : Z) : option Z :=
  match fuel with
  | O => None
  | S fuel' =>
      if existsb (String.eqb (JS.StringOf maxUid)) ids
      then freshLoop fuel' ids (maxUid + 1)
      else Some maxUid
  end.

(** [(next_uid, next_user_id)] as [get_users] leaves them. *)
Definition nextHints (fuel : nat) (ids : list string) (maxUid : Z)
    : option (Z * string) :=
  let maxUid := maxUid + 1 in
  let next_uid := maxUid in
  match freshLoop fuel ids maxUid with
  | Some m => Some (next_uid, JS.StringOf m)
  | None => None
  end.

End Base.

(** ** node-zk/src/zk.js *)

Module Zk.
Import CONST.

(** *** The network

    What the socket delivers to its listeners, in order: a ['message'] /
    ['data'] event carrying bytes, or an ['error'] event.  When the list is
    exhausted nothing arrives any more and the timer of the pending request
    fires. *)
Inductive event : Type :=
| Message (b : Buffer)
| SocketError.

Record world : Type := mkWorld {
  reachable : bool;        (* does opening a socket succeed? *)
  opened : nat;            (* sockets created so far *)
  closed : nat;            (* sockets closed so far *)
  outbox : list Buffer;    (* everything written to the socket, oldest first *)
  inbox : list event       (* what the socket is still going to deliver *)
}.

(** *** The fields of a [ZK] instance *)
Record t : Type := mkZk {
  password : Z;
  tcp : bool;
  sessionId : Z;
  replyId : Z;
  socket : bool;           (* [this.socket] is not null *)
  isConnected : bool;
  usersCount : Z;
  recordsCount : Z;
  userPacketSize : Z;
  nextUid : Z;
  nextUserId : string
}.

Definition set_sessionId (v : Z) (z : t) : t :=
  mkZk (password z) (tcp z) v (replyId z) (socket z) (isConnected z)
       (usersCount z) (recordsCount z) (userPacketSize z) (nextUid z) (nextUserId z).
Definition set_replyId (v : Z) (z : t) : t :=
  mkZk (password z) (tcp z) (sessionId z) v (socket z) (isConnected z)
       (usersCount z) (recordsCount z) (userPacketSize z) (nextUid z) (nextUserId z).
Definition set_socket (v : bool) (z : t) : t :=
  mkZk (password z) (tcp z) (sessionId z) (replyId z) v (isConnected z)
       (usersCount z) (recordsCount z) (userPacketSize z) (nextUid z) (nextUserId z).
Definition set_isConnected (v : bool) (z : t) : t :=
  mkZk (password z) (tcp z) (sessionId z) (replyId z) (socket z) v
       (usersCount z) (recordsCount z) (userPacketSize z) (nextUid z) (nextUserId z).
Definition set_usersCount (v : Z) (z : t) : t :=
  mkZk (password z) (tcp z) (sessionId z) (replyId z) (socket z) (isConnected z)
       v (recordsCount z) (userPacketSize z) (nextUid z) (nextUserId z).
Definition set_recordsCount (v : Z) (z : t) : t :=
  mkZk (password z) (tcp z) (sessionId z) (replyId z) (socket z) (isConnected z)
       (usersCount z) v (userPacketSize z) (nextUid z) (nextUserId z).
Definition set_userPacketSize (v : Z) (z : t) : t :=
  mkZk (password z) (tcp z) (sessionId z) (replyId z) (socket z) (isConnected z)
       (usersCount z) (recordsCount z) v (nextUid z) (nextUserId z).
Definition set_nextUid (v : Z) (z : t) : t :=
  mkZk (password z) (tcp z) (sessionId z) (replyId z) (socket z) (isConnected z)
       (usersCount z) (recordsCount z) (userPacketSize z) v (nextUserId z).
Definition set_nextUserId (v : string) (z : t) : t :=
  mkZk (password z) (tcp z) (sessionId z) (replyId z) (socket z) (isConnected z)
       (usersCount z) (recordsCount z) (userPacketSize z) (nextUid z) v.

(** [new ZK({ip, password, forceUdp})] *)
Definition new (password : Z) (forceUdp : bool) : t :=
  mkZk password (negb forceUdp) 0 (USHRT_MAX - 1) false false 0 0 28 1 "1".

(** *** Async methods: state and exception passing *)
Definition M (A : Type) : Type := t -> world -> res A * t * world.

Definition ret {A} (a : A) : M A := fun z w => (Ok a, z, w).
Definition throw {A} (e : exn) : M A := fun z w => (Throw e, z, w).
Definition lift {A} (r : res A) : M A := fun z w => (r, z, w).
Definition bind {A B} (m : M A) (k : A -> M B) : M B := fun z w =>
  match m z w with
  | (Ok a, z', w') => k a z' w'
  | (Throw e, z', w') => (Throw e, z', w')
  | (OutOfFuel, z', w') => (OutOfFuel, z', w')
  end.
Definition this : M t := fun z w => (Ok z, z, w).
Definition update (f : t -> t) : M unit := fun z w => (Ok tt, f z, w).

Notation "x <- m ;; k" := (bind m (fun x => k))
  (at level 61, m at next level, right associativity).
Notation "' pat <- m ;; k" := (bind m (fun x => match x with pat => k end))
  (at level 61, pat pattern, m at next level, right associativity).
Notation "m ;;; k" := (bind m (fun _ => k))
  (at level 61, right associativity).

(** *** Sockets *)

Definition _closeSocket : M unit := fun z w =>
  if socket z
  then (Ok tt, set_socket false z,
        mkWorld (reachable w) (opened w) (S (closed w)) (outbox w) (inbox w))
  else (Ok tt, z, w).

(** [_createTcpSocket] / [_createUdpSocket]: the promise resolves on
    ['connect'] / ['listening'] and rejects on ['error'] or ['timeout']. *)
Definition _openSocket : M unit := fun z w =>
  let w' := mkWorld (reachable w) (S (opened w)) (closed w) (outbox w) (inbox w) in
  if reachable w
  then (Ok tt, set_socket true z, w')
  else (Throw (Error "socket error"), z, w').

Definition _createSocket : M unit :=
  z <- this ;;
  (if socket z then _closeSocket else ret tt) ;;;
  _openSocket.

Definition socketWrite (b : Buffer) : M unit := fun z w =>
  (Ok tt, z, mkWorld (reachable w) (opened w) (closed w) (outbox w ++ [b]) (inbox w)).

Definition _sendUdp (packet : Buffer) : M Buffer := fun z w =>
  if negb (socket z) then (Throw TypeError, z, w) else
  let w := mkWorld (reachable w) (opened w) (closed w) (outbox w ++ [packet]) (inbox w) in
  match inbox w with
  | [] => (Throw (Error "UDP response timeout"), z, w)
  | SocketError :: rest =>
      (Throw (Error "socket error"), z,
       mkWorld (reachable w) (opened w) (closed w) (outbox w) rest)
  | Message msg :: rest =>
      (Ok msg, z, mkWorld (reachable w) (opened w) (closed w) (outbox w) rest)
  end.

Definition _validateTcpTop (packet : Buffer) : res bool :=
  if Buf.length packet <? 8 then Ok false else
  let* h1 := Buf.readUInt16LE packet 0 in
  let* h2 := Buf.readUInt16LE packet 2 in
  Ok ((h1 =? MACHINE_PREPARE_DATA_1) && (h2 =? MACHINE_PREPARE_DATA_2)).

(** The ['data'] listener of [_sendTcp], run over the coming events:
    [merged] is [Buffer.concat(chunks)]. *)
Fixpoint onData (events : list event) (merged : Buffer) (total : Z) (target : option Z)
    : res Buffer * list event :=
  match events with
  | [] => (Throw (Error "TCP response timeout"), [])
  | SocketError :: rest => (Throw (Error "socket error"), rest)
  | Message chunk :: rest =>
      let merged := merged ++ chunk in
      let total := total + Buf.length chunk in
      let target :=
        match target with
        | None =>
            if 8 <=? Buf.length merged
            then match Buf.readUInt32LE merged 4 with
                 | Ok len => Some (8 + len)
                 | _ => None
                 end
            else None
        | Some tg => Some tg
        end in
      match target with
      | Some tg =>
          if tg <=? total
          then (let* valid := _validateTcpTop merged in
                if valid
                then let* size := Buf.readUInt32LE merged 4 in
                     Ok (Buf.slice merged 8 (8 + size))
                else Throw (Error "TCP packet invalid"),
                rest)
          else onData rest merged total target
      | None => onData rest merged total target
      end
  end.

Definition _sendTcp (packet : Buffer) : M Buffer := fun z w =>
  match Utils.createTcpTop packet with
  | Ok top =>
      if negb (socket z) then (Throw TypeError, z, w) else
      let '(r, rest) := onData (inbox w) [] 0 None in
      (r, z, mkWorld (reachable w) (opened w) (closed w) (outbox w ++ [top]) rest)
  | Throw e => (Throw e, z, w)
  | OutOfFuel => (OutOfFuel, z, w)
  end.

(** *** Commands *)

Record response : Type := mkResponse {
  status : bool;
  code : Z;
  header : list Z;
  data : Buffer
}.

Definition _sendCommand (command : Z) (commandString : Buffer) : M response :=
  z <- this ;;
  if negb (command =? CMD_CONNECT) && negb (command =? CMD_AUTH) && negb (isConnected z)
  then throw (Error "Not connected")
  else
    packet <- lift (Utils.createHeader command commandString (sessionId z) (replyId z)) ;;
    raw <- (if tcp z then _sendTcp packet else _sendUdp packet) ;;
    header <- lift (Utils.readHeader (Buf.slice raw 0 8)) ;;
    update (set_sessionId (nth 2 header 0)) ;;;
    update (set_replyId (nth 3 header 0)) ;;;
    let data := Buf.sliceFrom raw 8 in
    let code := nth 0 header 0 in
    let status := JS.includes [CMD_ACK_OK; CMD_PREPARE_DATA; CMD_DATA] code in
    ret (mkResponse status code header data).

Definition connect : M t :=
  z <- this ;;
  if isConnected z then ret z else
  _createSocket ;;;
  update (set_sessionId 0) ;;;
  update (set_replyId (USHRT_MAX - 1)) ;;;
  response <- _sendCommand CMD_CONNECT [] ;;
  update (set_sessionId (nth 2 (header response) 0)) ;;;
  z <- this ;;
  response <- (if code response =? CMD_ACK_UNAUTH
               then _sendCommand CMD_AUTH (Utils.makeCommKey (password z) (sessionId z) 50)
               else ret response) ;;
  if negb (status response) && negb (code response =? CMD_ACK_OK)
  then throw (Error "Invalid response while connecting")
  else update (set_isConnected true) ;;; this.

Definition refreshData : M bool :=
  r <- _sendCommand CMD_REFRESHDATA [] ;;
  if negb (status r) then throw (Error "Cannot refresh data") else ret true.

Definition readSizes : M bool :=
  r <- _sendCommand CMD_GET_FREE_SIZES (Buf.alloc 0) ;;
  if negb (status r) then throw (Error "Cannot read sizes") else
  let data := data r in
  (if 80 <=? Buf.length data
   then
     fields <- lift (res_mapM (fun i => Buf.readInt32LE data (Z.of_nat i * 4)) (seq 0 20)) ;;
     update (set_usersCount (nth 4 fields 0)) ;;;
     update (set_recordsCount (nth 8 fields 0)) ;;;
     update (fun z => set_userPacketSize
               (if JS.truthy (userPacketSize z) then userPacketSize z else 28) z)
   else ret tt) ;;;
  ret true.

(** *** Buffered read *)

Definition _readChunk (start size : Z) : M Buffer :=
  let payload := Buf.alloc 8 in
  payload <- lift (Buf.writeInt32LE payload start 0) ;;
  payload <- lift (Buf.writeInt32LE payload size 4) ;;
  r <- _sendCommand _CMD_READ_BUFFER payload ;;
  if negb (status r) && negb (code r =? CMD_DATA)
  then throw (Error "Cannot read chunk")
  else ret (data r).

(** The [for] loop of [readWithBuffer]: [packets] turns. *)
Fixpoint readChunks (packets : nat) (MAX_CHUNK : Z) (start : Z) (chunks : list Buffer)
    : M (list Buffer * Z) :=
  match packets with
  | O => ret (chunks, start)
  | S packets' =>
      chunk <- _readChunk start MAX_CHUNK ;;
      readChunks packets' MAX_CHUNK (start + MAX_CHUNK) (chunks ++ [chunk])
  end.

Definition readWithBuffer (command fct ext : Z) : M (Buffer * Z) :=
  z <- this ;;
  let MAX_CHUNK := if tcp z then 65472 (* 0xffc0 *) else 16 * 1024 in
  let commandString := Buf.alloc 11 in
  commandString <- lift (Buf.writeInt8 commandString 1 0) ;;
  commandString <- lift (Buf.writeInt16LE commandString command 1) ;;
  commandString <- lift (Buf.writeInt32LE commandString fct 3) ;;
  commandString <- lift (Buf.writeInt32LE commandString ext 7) ;;
  prep <- _sendCommand _CMD_PREPARE_BUFFER commandString ;;
  if negb (status prep) then throw (Error "Buffered read not supported") else
  if code prep =? CMD_DATA then ret (data prep, Buf.length (data prep)) else
  size <- lift (Buf.readUInt32LE (data prep) 1) ;;
  let remain := size mod MAX_CHUNK in
  let packets := (size - remain) / MAX_CHUNK in
  '(chunks, start) <- readChunks (Z.to_nat packets) MAX_CHUNK 0 [] ;;
  '(chunks, start) <-
    (if JS.truthy remain
     then chunk <- _readChunk start remain ;;
          ret (chunks ++ [chunk], start + remain)
     else ret (chunks, start)) ;;
  _sendCommand CMD_FREE_DATA [] ;;;
  ret (List.concat chunks, start).

(** *** Device control *)

(** [try { await m } catch (err) { h(err) }] *)
Definition catch {A} (m : M A) (h : exn -> M A) : M A := fun z w =>
  match m z w with
  | (Throw e, z', w') => h e z' w'
  | out => out
  end.

Definition disconnect : M bool :=
  z <- this ;;
  if negb (socket z) then ret true else
  catch (_sendCommand CMD_EXIT [] ;;; ret tt) (fun _ => ret tt) ;;;
  _closeSocket ;;;
  update (set_isConnected false) ;;;
  ret true.

Definition enableDevice : M bool :=
  r <- _sendCommand CMD_ENABLEDEVICE [] ;;
  if negb (status r) then throw (Error "Cannot enable device") else ret true.

Definition disableDevice : M bool :=
  r <- _sendCommand CMD_DISABLEDEVICE [] ;;
  if negb (status r) then throw (Error "Cannot disable device") else ret true.

Definition getTime : M Date.t :=
  r <- _sendCommand CMD_GET_TIME (Buf.alloc 0) ;;
  if negb (status r) then throw (Error "Cannot get time") else
  lift (Utils.decodeTime (Buf.slice (data r) 0 4)).

Definition setTime (date : Date.t) : M bool :=
  let encoded := Utils.encodeTime date in
  payload <- lift (Buf.writeUInt32LE (Buf.allocUnsafe 4) encoded 0) ;;
  r <- _sendCommand CMD_SET_TIME payload ;;
  if negb (status r) then throw (Error "Cannot set time") else ret true.

Definition testVoice (index : Z) : M bool :=
  payload <- lift (Buf.writeUInt32LE (Buf.allocUnsafe 4) (JS.ushr index 0) 0) ;;
  r <- _sendCommand CMD_TESTVOICE payload ;;
  ret (status r).

Definition restart : M bool :=
  r <- _sendCommand CMD_RESTART [] ;;
  if negb (status r) then throw (Error "Cannot restart device") else
  update (set_isConnected false) ;;;
  ret true.

Definition powerOff : M bool :=
  r <- _sendCommand CMD_POWEROFF [] ;;
  if negb (status r) then throw (Error "Cannot power off device") else
  update (set_isConnected false) ;;;
  ret true.

(** *** Users *)

Section WithRuntime.
Context {rt : JS.Runtime}.

Definition _trimString (buf : Buffer) (start end_ : Z) : string :=
  JS.trim (JS.splitNul (JS.toStringUtf8 (Buf.slice buf start end_))).

(** The body of the loop over the 28-byte records. *)
Definition parseUser28 (data : Buffer) (offset : Z) : res User.t :=
  let* uid := Buf.readUInt16LE data offset in
  let* privilege := Buf.readUInt8 data (offset + 2) in
  let password := _trimString data (offset + 3) (offset + 8) in
  let name := _trimString data (offset + 8) (offset + 16) in
  let name := if JS.nonEmpty name then name else ("NN-" ++ JS.StringOf uid)%string in
  let* card := Buf.readUInt32LE data (offset + 16) in
  let* g := Buf.readUInt8 data (offset + 21) in
  let groupId := JS.StringOf g in
  let* u := Buf.readUInt32LE data (offset + 24) in
  let userId := JS.StringOf u in
  Ok (User.mk uid privilege password name card groupId userId).

(** The body of the loop over the 72-byte records. *)
Definition parseUser72 (data : Buffer) (offset : Z) : res User.t :=
  let* uid := Buf.readUInt16LE data offset in
  let* privilege := Buf.readUInt8 data (offset + 2) in
  let password := _trimString data (offset + 3) (offset + 11) in
  let name := _trimString data (offset + 11) (offset + 35) in
  let name := if JS.nonEmpty name then name else ("NN-" ++ JS.StringOf uid)%string in
  let* card := Buf.readUInt32LE data (offset + 35) in
  let groupId := _trimString data (offset + 40) (offset + 47) in
  let userId := _trimString data (offset + 48) (offset + 72) in
  Ok (User.mk uid privilege password name card groupId userId).

(** [for (let offset = 0; offset + width <= data.length; offset += width)]:
    the loop takes [data.length / width] turns. *)
Fixpoint parseLoop (body : Buffer -> Z -> res User.t) (width : Z) (turns : nat)
    (data : Buffer) (offset : Z) (users : list User.t) (maxUid : Z)
    : res (list User.t * Z) :=
  match turns with
  | O => Ok (users, maxUid)
  | S turns' =>
      let* u := body data offset in
      parseLoop body width turns' data (offset + width) (users ++ [u])
                (if User.uid u >? maxUid then User.uid u else maxUid)
  end.

(** [while (users.find((u) => u.userId === this.nextUserId)) { ... }] *)
Fixpoint freshLoop (fuel : nat) (users : list User.t) : M unit :=
  match fuel with
  | O => fun z w => (OutOfFuel, z, w)
  | S fuel' =>
      z <- this ;;
      if existsb (fun u => String.eqb (User.userId u) (nextUserId z)) users
      then
        update (fun z => set_nextUid (nextUid z + 1) z) ;;;
        update (fun z => set_nextUserId (JS.StringOf (nextUid z)) z) ;;;
        freshLoop fuel' users
      else ret tt
  end.

Definition getUsers (fuel : nat) : M (list User.t) :=
  readSizes ;;;
  z <- this ;;
  if negb (JS.truthy (usersCount z))
  then update (set_nextUid 1) ;;; update (set_nextUserId "1") ;;; ret []
  else
    '(buffer, size) <- readWithBuffer CMD_USERTEMP_RRQ FCT_USER 0 ;;
    if size <=? 4 then ret [] else
    totalSize <- lift (Buf.readUInt32LE buffer 0) ;;
    update (fun z => set_userPacketSize
              (let q := totalSize / usersCount z in if JS.truthy q then q else 28) z) ;;;
    let data := Buf.sliceFrom buffer 4 in
    z <- this ;;
    '(users, maxUid) <- lift
      (if userPacketSize z =? 28
       then parseLoop parseUser28 28 (Z.to_nat (Buf.length data / 28)) data 0 [] 0
       else parseLoop parseUser72 72 (Z.to_nat (Buf.length data / 72)) data 0 [] 0) ;;
    update (set_nextUid (maxUid + 1)) ;;;
    update (fun z => set_nextUserId (JS.StringOf (nextUid z)) z) ;;;
    freshLoop fuel users ;;;
    ret users.

(** The argument object of [setUser]; [uid] is 0 and the strings are empty
    when the caller leaves them out. *)
Record userArgs : Type := mkArgs {
  a_uid : Z;
  a_name : string;
  a_privilege : Z;
  a_password : string;
  a_groupId : string;
  a_userId : string;
  a_card : Z
}.

(** The 28-byte record of [setUser].  [writeUInt8(NaN)] stores 0. *)
Definition pack28 (uid priv : Z) (password name : string) (card : Z)
    (groupId userId : string) : res Buffer :=
  let payload := Buf.alloc 28 in
  let* payload := Buf.writeUInt16LE payload uid 0 in
  let* payload := Buf.writeUInt8 payload priv 2 in
  let payload := Buf.copy (Buf.slice (Buf.fromString password) 0 5) payload 3 in
  let payload := Buf.copy (Buf.slice (Buf.fromString name) 0 8) payload 8 in
  let* payload := Buf.writeUInt32LE payload (JS.ushr card 0) 16 in
  let group :=
    if JS.nonEmpty groupId
    then match JS.Number groupId with Some g => g | None => 0 end
    else 0 in
  let* payload := Buf.writeUInt8 payload group 21 in
  let* payload := Buf.writeUInt16LE payload 0 22 in
  let idNumber := match JS.Number userId with Some v => v | None => 0 end in
  let* payload := Buf.writeUInt32LE payload idNumber 24 in
  Ok payload.

(** The 72-byte record of [setUser]. *)
Definition pack72 (uid priv : Z) (password name : string) (card : Z)
    (groupId userId : string) : res Buffer :=
  let payload := Buf.alloc 72 in
  let* payload := Buf.writeUInt16LE payload uid 0 in
  let* payload := Buf.writeUInt8 payload priv 2 in
  let payload := Buf.copy (Buf.slice (Buf.fromString password) 0 8) payload 3 in
  let payload := Buf.copy (Buf.slice (Buf.fromString name) 0 24) payload 11 in
  let* payload := Buf.writeUInt32LE payload (JS.ushr card 0) 35 in
  let payload := Buf.copy (Buf.slice (Buf.fromString groupId) 0 7) payload 40 in
  let payload := Buf.copy (Buf.slice (Buf.fromString userId) 0 24) payload 48 in
  Ok payload.

Definition setUser (fuel : nat) (a : userArgs) : M bool :=
  users <- getUsers fuel ;;
  z <- this ;;
  let uid :=
    if JS.truthy (a_uid a) then a_uid a
    else if JS.truthy (nextUid z) then nextUid z else 1 in
  let userId := if JS.nonEmpty (a_userId a) then a_userId a else JS.StringOf uid in
  let priv :=
    if JS.includes [USER_DEFAULT; USER_ADMIN] (a_privilege a)
    then a_privilege a else USER_DEFAULT in
  payload <- lift
    (if userPacketSize z =? 28
     then pack28 uid priv (a_password a) (a_name a) (a_card a) (a_groupId a) userId
     else pack72 uid priv (a_password a) (a_name a) (a_card a) (a_groupId a) userId) ;;
  r <- _sendCommand CMD_USER_WRQ payload ;;
  if negb (status r) then throw (Error "Cannot set user") else
  refreshData ;;;
  z <- this ;;
  (if uid =? nextUid z
   then update (fun z => set_nextUid (nextUid z + 1) z) ;;;
        update (fun z => set_nextUserId (JS.StringOf (nextUid z)) z)
   else ret tt) ;;;
  ret true.

(** [deleteUser({uid, userId})]; [uid] is 0 and [userId] is empty when the
    caller leaves them out.  [None] stands for the early [return false] of
    the lookup. *)
Definition deleteUser (fuel : nat) (uid : Z) (userId : string) : M bool :=
  target <-
    (if negb (JS.truthy uid) && JS.nonEmpty userId
     then
       users <- getUsers fuel ;;
       match find (fun u => String.eqb (User.userId u) userId) users with
       | None => ret None
       | Some found => ret (Some (User.uid found))
       end
     else ret (Some uid)) ;;
  match target with
  | None => ret false
  | Some uid =>
      if negb (JS.truthy uid) then ret false else
      let payload := Buf.alloc 2 in
      payload <- lift (Buf.writeInt16LE payload uid 0) ;;
      r <- _sendCommand CMD_DELETE_USER payload ;;
      if negb (status r) then throw (Error "Cannot delete user") else
      refreshData ;;;
      ret true
  end.

(** *** Attendance *)

(** The rows [{uid, userId, status, punch, timestamp}] of [getAttendance]. *)
Record row : Type := mkRow {
  r_uid : Z;
  r_userId : string;
  r_status : Z;
  r_punch : Z;
  r_timestamp : Date.t
}.

(** The body of the loop over 8-byte records. *)
Definition attendance8 (users : list User.t) (data : Buffer) (offset : Z) : res row :=
  let* uid := Buf.readUInt16LE data offset in
  let* status := Buf.readUInt8 data (offset + 2) in
  let* timestamp := Utils.decodeTime (Buf.slice data (offset + 3) (offset + 7)) in
  let* punch := Buf.readUInt8 data (offset + 7) in
  let user := find (fun u => User.uid u =? uid) users in
  let userId := match user with Some u => User.userId u | None => JS.StringOf uid end in
  Ok (mkRow uid userId status punch timestamp).

(** The body of the loop over 16-byte records. *)
Definition attendance16 (users : list User.t) (data : Buffer) (offset : Z) : res row :=
  let* userIdNum := Buf.readUInt32LE data offset in
  let* timestamp := Utils.decodeTime (Buf.slice data (offset + 4) (offset + 8)) in
  let* status := Buf.readUInt8 data (offset + 8) in
  let* punch := Buf.readUInt8 data (offset + 9) in
  let userIdStr := JS.StringOf userIdNum in
  let user := find (fun u => String.eqb (User.userId u) userIdStr
                             || (User.uid u =? userIdNum)) users in
  let uid := match user with Some u => User.uid u | None => userIdNum end in
  Ok (mkRow uid (match user with Some u => User.userId u | None => userIdStr end)
            status punch timestamp).

(** The body of the loop over records of any other size. *)
Definition attendanceWide (data : Buffer) (offset : Z) : res row :=
  let* uid := Buf.readUInt16LE data offset in
  let userId := _trimString data (offset + 2) (offset + 26) in
  let* status := Buf.readUInt8 data (offset + 26) in
  let* timestamp := Utils.decodeTime (Buf.slice data (offset + 27) (offset + 31)) in
  let* punch := Buf.readUInt8 data (offset + 31) in
  Ok (mkRow uid userId status punch timestamp).

(** [for (let offset = 0; offset + width <= data.length; offset += width)]
    for the constant widths 8 and 16: [data.length / width] turns. *)
Fixpoint rowsLoop (body : Buffer -> Z -> res row) (width : Z) (turns : nat)
    (data : Buffer) (offset : Z) (rows : list row) : res (list row) :=
  match turns with
  | O => Ok rows
  | S turns' =>
      let* r := body data offset in
      rowsLoop body width turns' data (offset + width) (rows ++ [r])
  end.

(** [for (let offset = 0; offset + recordSize <= data.length;
         offset += recordSize)] for the record size computed from the reply,
    which need not be positive: the loop is run on fuel. *)
Fixpoint rowsLoopWide (fuel : nat) (recordSize : Z) (data : Buffer) (offset : Z)
    (rows : list row) : res (list row) :=
  match fuel with
  | O => OutOfFuel
  | S fuel' =>
      if offset + recordSize <=? Buf.length data
      then let* r := attendanceWide data offset in
           rowsLoopWide fuel' recordSize data (offset + recordSize) (rows ++ [r])
      else Ok rows
  end.

(** [this.recordsCount] is an int32 read from the device, [totalSize] a
    uint32.  When the count has become 0 in the meantime the quotient is
    [Infinity] or [NaN], which is neither 8 nor 16 and makes the loop
    condition of the last branch false at once. *)
Definition getAttendance (fuel : nat) : M (list row) :=
  readSizes ;;;
  z <- this ;;
  if negb (JS.truthy (recordsCount z)) then ret [] else
  users <- getUsers fuel ;;
  '(buffer, size) <- readWithBuffer CMD_ATTLOG_RRQ 0 0 ;;
  if size <? 4 then ret [] else
  totalSize <- lift (Buf.readUInt32LE buffer 0) ;;
  z <- this ;;
  if recordsCount z =? 0 then ret [] else
  let recordSize := totalSize / recordsCount z in
  let data := Buf.sliceFrom buffer 4 in
  lift (if recordSize =? 8
        then rowsLoop (attendance8 users) 8 (Z.to_nat (Buf.length data / 8)) data 0 []
        else if recordSize =? 16
        then rowsLoop (attendance16 users) 16 (Z.to_nat (Buf.length data / 16)) data 0 []
        else rowsLoopWide fuel recordSize data 0 []).

(** *** The public methods of the first listing, as a caller uses them *)

Inductive call : Type :=
| Connect
| Disconnect
| EnableDevice
| DisableDevice
| GetTime
| SetTime (date : Date.t)
| TestVoice (index : Z)
| Restart
| PowerOff
| ReadSizes
| RefreshData
| GetUsers
| SetUser (a : userArgs)
| DeleteUser (uid : Z) (userId : string)
| GetAttendance.

(** [await zk.method(...)], the value dropped. *)
Definition perform (fuel : nat) (c : call) : M unit :=
  match c with
  | Connect => connect ;;; ret tt
  | Disconnect => disconnect ;;; ret tt
  | EnableDevice => enableDevice ;;; ret tt
  | DisableDevice => disableDevice ;;; ret tt
  | GetTime => getTime ;;; ret tt
  | SetTime date => setTime date ;;; ret tt
  | TestVoice index => testVoice index ;;; ret tt
  | Restart => restart ;;; ret tt
  | PowerOff => powerOff ;;; ret tt
  | ReadSizes => readSizes ;;; ret tt
  | RefreshData => refreshData ;;; ret tt
  | GetUsers => getUsers fuel ;;; ret tt
  | SetUser a => setUser fuel a ;;; ret tt
  | DeleteUser uid userId => deleteUser fuel uid userId ;;; ret tt
  | GetAttendance => getAttendance fuel ;;; ret tt
  end.

(** A caller that makes the calls one after the other and goes on after a
    call that threw: the outcomes in order, and where it ends. *)
Fixpoint script (fuel : nat) (calls : list call) (z : t) (w : world)
    : list (res unit) * t * world :=
  match calls with
  | [] => ([], z, w)
  | c :: calls' =>
      let '(r, z1, w1) := perform fuel c z w in
      let '(rs, z2, w2) := script fuel calls' z1 w1 in
      (r :: rs, z2, w2)
  end.

End WithRuntime.

End Zk.

(** ** Concrete inputs used by the examples below *)

Module Scenario.

(** The header of a connect request: command 1000, checksum field zero,
    session 0, reply id 65534. *)
Definition connectHeader : Buffer :=
  Buf.from [0xE8; 0x03; 0x00; 0x00; 0x00; 0x00; 0xFE; 0xFF].

(** The packet both header functions compose for it. *)
Definition connectPacket : Buffer :=
  Buf.from [0xE8; 0x03; 0x17; 0xFC; 0x00; 0x00; 0x00; 0x00].

End Scenario.

(** ** The auth key as the specification words it

    "1. Reverse the low 32 bits of P bit-by-bit into K.  2. Add S to K; take
    the low 32 bits.  3. XOR the 4 bytes of K (little-endian) with the ASCII
    letters 'Z', 'K', 'S', 'O' respectively.  4. Swap the two 16-bit halves.
    5. XOR bytes 0, 1, 3 with ticks & 0xFF; byte 2 is set to ticks & 0xFF
    unconditionally."  This definition follows these words, not the code. *)

Module AuthKeySpec.

(** The low [n] bits of [x], least significant first. *)
Definition bitsLE (n : nat) (x : Z) : list bool :=
  map (fun i => Z.testbit x (Z.of_nat i)) (seq 0 n).

(** The number whose bits, least significant first, are [l]. *)
Fixpoint ofBitsLE (l : list bool) : Z :=
  match l with
  | [] => 0
  | b :: l' => Z.b2z b + 2 * ofBitsLE l'
  end.

Definition reverse32 (P : Z) : Z := ofBitsLE (rev (bitsLE 32 P)).

Definition referenceKey (P S ticks : Z) : Buffer :=
  let K := reverse32 P in
  let K := (K + S) mod 2 ^ 32 in
  match le_split 4 K with
  | [k0; k1; k2; k3] =>
      let x0 := byte.xor k0 (byte.of_Z 90) (* 'Z' *) in
      let x1 := byte.xor k1 (byte.of_Z 75) (* 'K' *) in
      let x2 := byte.xor k2 (byte.of_Z 83) (* 'S' *) in
      let x3 := byte.xor k3 (byte.of_Z 79) (* 'O' *) in
      let '(s0, s1, s2, s3) := (x2, x3, x0, x1) in
      let B := byte.of_Z (Z.land ticks 255) in
      [byte.xor s0 B; byte.xor s1 B; B; byte.xor s3 B]
  | _ => []
  end.

End AuthKeySpec.

(** ** Device timestamps that name a day of the calendar *)

Module TimeDomain.

(** The device timestamp of the tuple (Y, M, D, h, m, s), Y counted from 2000. *)
Definition timestamp (Y M D h m s : Z) : Z :=
  ((((Y * 12 + (M - 1)) * 31 + (D - 1)) * 24 + h) * 60 + m) * 60 + s.

(** Does the day field of the timestamp [x] exist in its month, i.e. is it at
    most the length of that month in that year? *)
Definition realCalendarDay (x : Z) : bool :=
  let t := x / 60 / 60 / 24 in
  let day := t mod 31 + 1 in
  let t := t / 31 in
  let month := t mod 12 + 1 in
  let year := t / 12 + 2000 in
  day <=? Date.daysInMonth year month.

(** One entry of the table check of the calendar functions of [Date] over
    2000-01-01 .. 2099-12-31: the date with year offset [Y], month index [M]
    and day index [D] is read back unchanged whenever it exists. *)
Definition dateOk (Y M D : nat) : bool :=
  let y := 2000 + Z.of_nat Y in
  let m := Z.of_nat M + 1 in
  let d := Z.of_nat D + 1 in
  if d <=? Date.daysInMonth y m
  then let '(y', m', d') := Date.civilFromDays (Date.daysFromCivil y m 1 + d - 1) in
       (y' =? y) && (m' =? m) && (d' =? d)
  else true.

(** One entry of the table check of the calendar functions over the day
    numbers of 2000-01-01 .. 2099-12-31 (10957 .. 47481): the civil date of
    the day is in range and gives the day number back. *)
Definition dayOk (day : Z) : bool :=
  let '(y, m, d) := Date.civilFromDays day in
  (2000 <=? y) && (y <=? 2099) && (1 <=? m) && (m <=? 12) && (1 <=? d) && (d <=? 31)
  && (Date.daysFromCivil y m 1 + d - 1 =? day).

(** The entries of [count] days from [day] on. *)
Fixpoint daysOk (count : nat) (day : Z) : bool :=
  match count with
  | O => true
  | S count' => dayOk day && daysOk count' (day + 1)
  end.

(** [decodeTime] of the 4 bytes that [setTime] sends for a date. *)
Definition redate (date : Date.t) : res Date.t :=
  Utils.decodeTime (le_split 4 (Utils.encodeTime date)).

(** [encodeTime(decodeTime(x))] for the 4-byte little-endian form of [x]. *)
Definition recode (x : Z) : res Z :=
  let* d := Utils.decodeTime (le_split 4 x) in
  Ok (Utils.encodeTime d).

End TimeDomain.

(** ** What goes over the wire

    Vocabulary for statements about runs of the client: the packets the
    device sends, the socket events that deliver them, and the requests read
    off the bytes the client has written. *)

Module Wire.
Import CONST.

(** A reply packet: header, then data. *)
Definition reply (code session replyId : Z) (data : Buffer) : Buffer :=
  le_split 2 code ++ le_split 2 0 ++ le_split 2 session ++ le_split 2 replyId ++ data.

(** The fields of a received packet. *)
Definition codeOf (raw : Buffer) : Z := le_combine (firstn 2 raw).
Definition checksumOf (raw : Buffer) : Z := le_combine (firstn 2 (skipn 2 raw)).
Definition sessionOf (raw : Buffer) : Z := le_combine (firstn 2 (skipn 4 raw)).
Definition replyOf (raw : Buffer) : Z := le_combine (firstn 2 (skipn 6 raw)).
Definition dataOf (raw : Buffer) : Buffer := skipn 8 raw.

(** A field of [n] bytes that holds the bytes [b]: cut off at [n], filled up
    with NUL bytes. *)
Definition pad (n : nat) (b : Buffer) : Buffer :=
  firstn n b ++ Buf.alloc (n - List.length b).

(** What [_trimString] gives on a field of [n] bytes that holds the text [s]. *)
Definition field {rt : JS.Runtime} (n : nat) (s : string) : string :=
  JS.trim (JS.splitNul (JS.toStringUtf8 (pad n (Buf.fromString s)))).

(** The codes the client takes for success. *)
Definition okCode (code : Z) : bool :=
  JS.includes [CMD_ACK_OK; CMD_PREPARE_DATA; CMD_DATA] code.

(** The stream envelope around a packet: the two magic words and the length. *)
Definition envelope (raw : Buffer) : Buffer :=
  le_split 2 MACHINE_PREPARE_DATA_1 ++ le_split 2 MACHINE_PREPARE_DATA_2
  ++ le_split 4 (Buf.length raw) ++ raw.

(** The socket event that delivers the packet [raw] in one piece; on the
    stream carrier it comes inside the envelope. *)
Definition frame (tcp : bool) (raw : Buffer) : Zk.event :=
  Zk.Message (if tcp then envelope raw else raw).

(** A packet that fits one frame. *)
Definition framed (raw : Buffer) : Prop := 8 <= Buf.length raw < 4294967296.

(** The request (command code, payload) inside bytes written to the socket. *)
Definition request (tcp : bool) (written : Buffer) : Z * Buffer :=
  let packet := if tcp then skipn 8 written else written in
  (le_combine (firstn 2 packet), skipn 8 packet).

(** The chunk requests (start, size) that read [N] bytes in chunks of at most
    [C] bytes: full chunks at 0, C, 2C, ..., then the remainder if any. *)
Definition chunkPlan (N C : Z) : list (Z * Z) :=
  map (fun i => (Z.of_nat i * C, C)) (seq 0 (Z.to_nat (N / C)))
  ++ (if N mod C =? 0 then [] else [(N / C * C, N mod C)]).

Definition readRequest (chunk : Z * Z) : Z * Buffer :=
  (_CMD_READ_BUFFER, le_split 4 (fst chunk) ++ le_split 4 (snd chunk)).

(** The argument of the prepare-buffer command. *)
Definition prepareArgument (command fct ext : Z) : Buffer :=
  byte.of_Z 1 :: le_split 2 command ++ le_split 4 fct ++ le_split 4 ext.

(** The ranges [plan] tile [from, to) contiguously with non-empty pieces. *)
Fixpoint tiles (from to : Z) (plan : list (Z * Z)) : Prop :=
  match plan with
  | [] => from = to
  | (start, size) :: plan' => start = from /\ 0 < size /\ tiles (from + size) to plan'
  end.

(** May the client send [command]?  ([_sendCommand] refuses anything but
    connect and auth on a client that is not connected.) *)
Definition allowed (z : Zk.t) (command : Z) : Prop :=
  command = CMD_CONNECT \/ command = CMD_AUTH \/ Zk.isConnected z = true.

(** A framed reply whose code the client takes for success. *)
Definition okReply (raw : Buffer) : Prop := framed raw /\ okCode (codeOf raw) = true.


(** The call comes back, with a value or an exception, from every state. *)
Definition returns {A} (m : Zk.M A) : Prop :=
  forall z w, fst (fst (m z w)) <> OutOfFuel.

(** A request that is not a user record. *)
Definition reading (rq : Z * Buffer) : Prop := fst rq <> CMD_USER_WRQ.

(** On a client on the carrier [carrier], running [m] keeps the carrier and
    appends to what has been written to the socket only requests that
    satisfy [P]. *)
Definition writes (carrier : bool) (P : Z * Buffer -> Prop) {A} (m : Zk.M A) : Prop :=
  forall z w,
    Zk.tcp z = carrier ->
    Zk.tcp (snd (fst (m z w))) = carrier /\
    exists sent,
      Zk.outbox (snd (m z w)) = Zk.outbox w ++ sent /\
      Forall (fun written => P (request carrier written)) sent.

(** A connected client has a socket. *)
Definition linked (z : Zk.t) : Prop := Zk.isConnected z = true -> Zk.socket z = true.

(** From a client that satisfies [I] the call does not come upon a missing
    socket (the [TypeError] of [this.socket.once] on [null]) and leaves a
    client that satisfies [I]. *)
Definition keeps (I : Zk.t -> Prop) {A} (m : Zk.M A) : Prop :=
  forall z w, I z ->
    fst (fst (m z w)) <> Throw TypeError /\ I (snd (fst (m z w))).

(** A client that can send: connected, with a socket and u16 identifiers. *)
Definition ready (z : Zk.t) : Prop :=
  Zk.isConnected z = true /\ Zk.socket z = true /\
  0 <= Zk.sessionId z < 65536 /\ 0 <= Zk.replyId z < 65536.

End Wire.

(** ** Clients, replies and networks of the examples *)

Module Demo.
Import CONST.

(** A connected client on the datagram carrier, and one on the stream carrier. *)
Definition udpClient : Zk.t :=
  Zk.set_isConnected true (Zk.set_socket true (Zk.new 0 true)).
Definition tcpClient : Zk.t :=
  Zk.set_isConnected true (Zk.set_socket true (Zk.new 0 false)).

(** Replies of the device. *)
Definition ackReply : Buffer := Wire.reply CMD_ACK_OK 7 3 [].
Definition dataReply : Buffer := Wire.reply CMD_DATA 7 3 [].
(** The reply to prepare-buffer that announces [N] bytes. *)
Definition announce (N : Z) : Buffer :=
  Wire.reply CMD_ACK_OK 7 3 (le_split 1 0 ++ le_split 4 N).

(** A network with one open socket on which the device is going to send the
    packets [raws], one frame each. *)
Definition net (tcp : bool) (raws : list Buffer) : Zk.world :=
  Zk.mkWorld true 1 0 [] (map (Wire.frame tcp) raws).

(** The command codes of what a client has written. *)
Definition sentCommands (tcp : bool) (w : Zk.world) : list Z :=
  map (fun written => fst (Wire.request tcp written)) (Zk.outbox w).

(** The reply to the free-sizes command of a device that stores [users] users. *)
Definition sizes (users : Z) : Buffer :=
  Wire.reply CMD_ACK_OK 7 3 (le_split 16 0 ++ le_split 4 users ++ le_split 60 0).

(** A 28-byte and a 72-byte user record with the given uid and user id. *)
Definition rec28 (uid userId : Z) : Buffer :=
  le_split 2 uid ++ le_split 22 0 ++ le_split 4 userId.
Definition rec72 (uid : Z) (userId : string) : Buffer :=
  le_split 2 uid ++ le_split 46 0 ++ Buf.fromString userId
  ++ Buf.alloc (24 - String.length userId).

(** The user table sent in one data packet: total size, then the records. *)
Definition userData (records : list Buffer) : Buffer :=
  Wire.reply CMD_DATA 7 3
    (le_split 4 (Buf.length (List.concat records)) ++ List.concat records).

(** [setUser({name: 'ann', privilege})] *)
Definition newUser (privilege : Z) : Zk.userArgs :=
  Zk.mkArgs 0 "ann" privilege "" "" "" 0.

(** A runtime for the examples: bytes are characters, nothing is trimmed and
    only decimal numerals are numbers. *)
#[export] Instance asciiRuntime : JS.Runtime := {|
  JS.toStringUtf8 := fun b => string_of_list_ascii (map Ascii.ascii_of_byte b);
  JS.trim := fun s => s;
  JS.Number := fun s =>
    match NilEmpty.uint_of_string s with
    | Some u => Some (Z.of_N (N.of_uint u))
    | None => None
    end
|}.

End Demo.

(** ** The arithmetic behind the checksum *)

Module SumSpec.

(** The sum of the little-endian 16-bit words of a buffer, a trailing odd
    byte counted as it is. *)
Fixpoint total (buffer : Buffer) : Z :=
  match buffer with
  | b0 :: b1 :: rest => byte.unsigned b0 + 256 * byte.unsigned b1 + total rest
  | [b0] => byte.unsigned b0
  | [] => 0
  end.

(** The representative of a non-negative sum in 0..65535 that the folding
    loops arrive at: 0 only for 0, otherwise the one in 1..65535 that is
    congruent modulo 65535. *)
Definition fold (sum : Z) : Z :=
  if sum =? 0 then 0 else (sum - 1) mod 65535 + 1.

End SumSpec.

(** ** The methods that the second definition of [ZK] adds

    zk.js defines the class a second time.  The second definition repeats
    the methods of the first ([_sendCommand], the transports, [refreshData],
    [getUsers], ... are the same code) and adds the methods below, which are
    modelled on top of the ones above. *)

Module Zk2.
Import CONST Zk.

Definition freeData : M bool :=
  r <- _sendCommand CMD_FREE_DATA [] ;;
  if negb (status r) then throw (Error "Cannot free data") else ret true.

(** *** Upload of a buffer in chunks *)

Definition _sendChunk (chunk : Buffer) : M bool :=
  r <- _sendCommand CMD_DATA chunk ;;
  if negb (status r) then throw (Error "Cannot send chunk") else ret true.

(** [while (start + MAX_CHUNK <= buffer.length) { ...; start += MAX_CHUNK }]
    from [start = 0]: [buffer.length / 1024] turns; the result is [start]. *)
Fixpoint sendLoop (turns : nat) (buffer : Buffer) (start : Z) : M Z :=
  match turns with
  | O => ret start
  | S turns' =>
      _sendChunk (Buf.slice buffer start (start + 1024)) ;;;
      sendLoop turns' buffer (start + 1024)
  end.

Definition _sendWithBuffer (buffer : Buffer) : M unit :=
  freeData ;;;
  prep <- lift (Buf.writeUInt32LE (Buf.alloc 4) (Buf.length buffer) 0) ;;
  ok <- _sendCommand CMD_PREPARE_DATA prep ;;
  if negb (status ok) then throw (Error "Cannot prepare data") else
  start <- sendLoop (Z.to_nat (Buf.length buffer / 1024)) buffer 0 ;;
  if start <? Buf.length buffer
  then _sendChunk (Buf.sliceFrom buffer start) ;;; ret tt
  else ret tt.

(** *** Packing users and fingerprint templates *)

(** A finger object [{fid, template}] whose template is a Buffer. *)
Record finger : Type := mkFinger {
  f_fid : Z;
  f_template : Buffer
}.

Definition _fingerRepackOnly (f : finger) : res Buffer :=
  let template := f_template f in
  let buf := Buf.alloc (2 + List.length template) in
  let* buf := Buf.writeUInt16LE buf (Buf.length template) 0 in
  Ok (Buf.copy template buf 2).

Section WithRuntime.
Context {rt : JS.Runtime}.

Definition _userRepack29 (user : User.t) : res Buffer :=
  let buf := Buf.alloc 29 in
  let* buf := Buf.writeUInt8 buf 2 0 in
  let* buf := Buf.writeUInt16LE buf (User.uid user) 1 in
  let* buf := Buf.writeUInt8 buf (User.privilege user) 3 in
  let buf := Buf.copy (Buf.slice (Buf.fromString (User.password user)) 0 5) buf 4 in
  let buf := Buf.copy (Buf.slice (Buf.fromString (User.name user)) 0 8) buf 9 in
  let* buf := Buf.writeUInt32LE buf (JS.ushr (User.card user) 0) 17 in
  let group :=
    if JS.nonEmpty (User.groupId user)
    then match JS.Number (User.groupId user) with Some g => g | None => 0 end
    else 0 in
  let* buf := Buf.writeUInt8 buf group 22 in
  let* buf := Buf.writeInt16LE buf 0 23 in
  let idNumber := match JS.Number (User.userId user) with Some v => v | None => 0 end in
  let* buf := Buf.writeUInt32LE buf idNumber 25 in
  Ok buf.

Definition _userRepack73 (user : User.t) : res Buffer :=
  let buf := Buf.alloc 73 in
  let* buf := Buf.writeUInt8 buf 2 0 in
  let* buf := Buf.writeUInt16LE buf (User.uid user) 1 in
  let* buf := Buf.writeUInt8 buf (User.privilege user) 3 in
  let buf := Buf.copy (Buf.slice (Buf.fromString (User.password user)) 0 8) buf 4 in
  let buf := Buf.copy (Buf.slice (Buf.fromString (User.name user)) 0 24) buf 12 in
  let* buf := Buf.writeUInt32LE buf (JS.ushr (User.card user) 0) 36 in
  let* buf := Buf.writeUInt8 buf 1 40 in
  let buf := Buf.copy (Buf.slice (Buf.fromString (User.groupId user)) 0 7) buf 41 in
  let buf := Buf.copy (Buf.slice (Buf.fromString (User.userId user)) 0 24) buf 49 in
  Ok buf.

(** The table entry of one finger: [entry] of the inner loop. *)
Definition tableEntry (uid fid tstart : Z) : res Buffer :=
  let entry := Buf.alloc 8 in
  let* entry := Buf.writeInt8 entry 2 0 in
  let* entry := Buf.writeUInt16LE entry uid 1 in
  let* entry := Buf.writeInt8 entry (16 + fid) 3 in
  let* entry := Buf.writeUInt32LE entry tstart 4 in
  Ok entry.

(** The variables of the two loops of [HRSaveUserTemplates]. *)
Record parts : Type := mkParts {
  upack : Buffer;
  fpack : Buffer;
  table : Buffer;
  tstart : Z
}.

(** [for (const finger of fingers) { ... }] *)
Fixpoint fingersLoop (u : User.t) (fingers : list finger) (p : parts) : res parts :=
  match fingers with
  | [] => Ok p
  | f :: fingers' =>
      let* tfp := _fingerRepackOnly f in
      let* entry := tableEntry (User.uid u) (f_fid f) (tstart p) in
      fingersLoop u fingers'
        (mkParts (upack p) (fpack p ++ tfp) (table p ++ entry) (tstart p + Buf.length tfp))
  end.

(** [for (const [user, fingers] of userTemplates) { ... }] *)
Fixpoint usersLoop (packetSize : Z) (userTemplates : list (User.t * list finger))
    (p : parts) : res parts :=
  match userTemplates with
  | [] => Ok p
  | (u, fingers) :: rest =>
      let* record := if packetSize =? 28 then _userRepack29 u else _userRepack73 u in
      let* p := fingersLoop u fingers
                  (mkParts (upack p ++ record) (fpack p) (table p) (tstart p)) in
      usersLoop packetSize rest p
  end.

(** The packet that [HRSaveUserTemplates] uploads: [head], [upack], [table],
    [fpack]. *)
Definition templatesPacket (packetSize : Z) (userTemplates : list (User.t * list finger))
    : res Buffer :=
  let* p := usersLoop packetSize userTemplates (mkParts [] [] [] 0) in
  let head := Buf.alloc 12 in
  let* head := Buf.writeUInt32LE head (Buf.length (upack p)) 0 in
  let* head := Buf.writeUInt32LE head (Buf.length (table p)) 4 in
  let* head := Buf.writeUInt32LE head (Buf.length (fpack p)) 8 in
  Ok (head ++ upack p ++ table p ++ fpack p).

Definition HRSaveUserTemplates (userTemplates : list (User.t * list finger)) : M unit :=
  z <- this ;;
  packet <- lift (templatesPacket (userPacketSize z) userTemplates) ;;
  _sendWithBuffer packet ;;;
  let payload := Buf.alloc 8 in
  payload <- lift (Buf.writeUInt32LE payload 12 0) ;;
  payload <- lift (Buf.writeUInt16LE payload 0 4) ;;
  payload <- lift (Buf.writeUInt16LE payload 8 6) ;;
  r <- _sendCommand _CMD_SAVE_USERTEMPS payload ;;
  if negb (status r) then throw (Error "Cannot save user templates") else
  refreshData ;;; ret tt.

End WithRuntime.

(** *** The display *)

(** A byte of the form 10xxxxxx continues a UTF-8 character. *)
Definition continuation (b : byte) : bool :=
  (128 <=? byte.unsigned b) && (byte.unsigned b <? 192).

(** The characters of a UTF-8 byte sequence: each byte that is not a
    continuation byte, with the continuation bytes behind it. *)
Fixpoint chars (bs : list byte) : list (list byte) :=
  match bs with
  | [] => []
  | b :: bs' =>
      match chars bs' with
      | (c0 :: c) :: cs => if continuation c0 then (b :: c0 :: c) :: cs
                           else [b] :: (c0 :: c) :: cs
      | cs => [b] :: cs
      end
  end.

(** The bytes of the characters that fit into [room] bytes: the first
    character that does not fit ends the writing. *)
Fixpoint fitting (room : nat) (cs : list (list byte)) : list byte :=
  match cs with
  | [] => []
  | c :: cs' =>
      if (List.length c <=? room)%nat
      then c ++ fitting (room - List.length c) cs'
      else []
  end.

(** [buf.write(string, offset)]: characters are written as long as they fit;
    a character is not written in part. *)
Definition write (s : string) (buf : Buffer) (offset : Z) : Buffer :=
  Buf.copy (fitting (List.length buf - Z.to_nat offset) (chars (Buf.fromString s))) buf offset.

Definition writeLcd (lineNumber : Z) (text : string) : M bool :=
  let payload := Buf.alloc (3 + List.length (Buf.fromString text)) in
  payload <- lift (Buf.writeInt16LE payload lineNumber 0) ;;
  payload <- lift (Buf.writeInt8 payload 0 2) ;;
  let payload := write (String " " text) payload 3 in
  r <- _sendCommand CMD_WRITE_LCD payload ;;
  if negb (status r) then throw (Error "Cannot write LCD") else ret true.

(** *** Reading the templates *)

(** A template object [{uid, fid, valid, template}]. *)
Record template : Type := mkTemplate {
  t_uid : Z;
  t_fid : Z;
  t_valid : Z;
  t_template : Buffer
}.

(** [while (total > 0 && data.length >= 6) { ... }] of [getTemplates]. *)
Fixpoint templatesLoop (fuel : nat) (total : Z) (data : Buffer) (templates : list template)
    : res (list template) :=
  match fuel with
  | O => OutOfFuel
  | S fuel' =>
      if (total >? 0) && (6 <=? Buf.length data)
      then
        let* sizeRec := Buf.readUInt16LE data 0 in
        let* uid := Buf.readUInt16LE data 2 in
        let* fid := Buf.readIntLE 1 data 4 in
        let* valid := Buf.readIntLE 1 data 5 in
        let tpl := Buf.slice data 6 sizeRec in
        templatesLoop fuel' (total - sizeRec) (Buf.sliceFrom data sizeRec)
                      (templates ++ [mkTemplate uid fid valid tpl])
      else Ok templates
  end.

(** *** Enrolment events *)

(** [_extractEnrollCode(buffer)] on the carrier [tcp]; [None] is [null]. *)
Definition _extractEnrollCode (tcp : bool) (buffer : option Buffer) : res (option Z) :=
  match buffer with
  | None => Ok None
  | Some buffer =>
      if tcp
      then
        let* valid := _validateTcpTop buffer in
        if negb valid then Ok None else
        if Buf.length buffer <? 18 then Ok None else
        let* code := Buf.readUInt16LE buffer 16 in
        Ok (Some code)
      else
        if Buf.length buffer <? 10 then Ok None else
        let* code := Buf.readUInt16LE buffer 8 in
        Ok (Some code)
  end.

(** *** Receiving without a request *)

Definition _recvUdpOnce : M Buffer := fun z w =>
  if negb (socket z) then (Throw TypeError, z, w) else
  match inbox w with
  | [] => (Throw (Error "UDP receive timeout"), z, w)
  | SocketError :: rest =>
      (Throw (Error "socket error"), z,
       mkWorld (reachable w) (opened w) (closed w) (outbox w) rest)
  | Message msg :: rest =>
      (Ok msg, z, mkWorld (reachable w) (opened w) (closed w) (outbox w) rest)
  end.

(** The ['data'] listener of [_recvTcpRaw], run over the coming events: it
    resolves with everything received once the announced length is there. *)
Fixpoint onRaw (events : list event) (merged : Buffer) (total : Z) (target : option Z)
    : res Buffer * list event :=
  match events with
  | [] => (Throw (Error "TCP receive timeout"), [])
  | SocketError :: rest => (Throw (Error "socket error"), rest)
  | Message chunk :: rest =>
      let merged := merged ++ chunk in
      let total := total + Buf.length chunk in
      let target :=
        match target with
        | None =>
            if 8 <=? Buf.length merged
            then match Buf.readUInt32LE merged 4 with
                 | Ok len => Some (8 + len)
                 | _ => None
                 end
            else None
        | Some tg => Some tg
        end in
      match target with
      | Some tg => if tg <=? total then (Ok merged, rest) else onRaw rest merged total target
      | None => onRaw rest merged total target
      end
  end.

Definition _recvTcpRaw : M Buffer := fun z w =>
  if negb (socket z) then (Throw TypeError, z, w) else
  let '(r, rest) := onRaw (inbox w) [] 0 None in
  (r, z, mkWorld (reachable w) (opened w) (closed w) (outbox w) rest).

(** [while (remaining > 0) { ... }] of [_receiveChunk]; the result is
    [chunks]. *)
Fixpoint receiveLoop (fuel : nat) (remaining : Z) (chunks : list Buffer)
    : M (list Buffer) :=
  match fuel with
  | O => fun z w => (OutOfFuel, z, w)
  | S fuel' =>
      if remaining >? 0
      then
        z <- this ;;
        packet <- (if tcp z then _recvTcpRaw else _recvUdpOnce) ;;
        let offset := if tcp z then 8 else 0 in
        header <- lift (Utils.readHeader (Buf.slice packet offset (offset + 8))) ;;
        let body := Buf.sliceFrom packet (offset + 8) in
        if nth 0 header 0 =? CMD_DATA
        then receiveLoop fuel' (remaining - Buf.length body) (chunks ++ [body])
        else ret chunks
      else ret chunks
  end.

(** [_receiveChunk(initialResponse)]; [None] is [null]. *)
Definition _receiveChunk (fuel : nat) (initialResponse : response) : M (option Buffer) :=
  if code initialResponse =? CMD_DATA then ret (Some (data initialResponse)) else
  if negb (code initialResponse =? CMD_PREPARE_DATA) then ret None else
  size <- lift (Buf.readUInt32LE (data initialResponse) 0) ;;
  chunks <- receiveLoop fuel size [] ;;
  ret (Some (Buf.slice (List.concat chunks) 0 size)).

(** *** Reading one template *)

(** [buf.slice(0, -n)] and [buf.slice(-n)] *)
Definition dropLast (n : nat) (b : Buffer) : Buffer := firstn (List.length b - n) b.
Definition takeLast (n : nat) (b : Buffer) : Buffer := skipn (List.length b - n) b.

(** [a.equals(b)] *)
Definition equals (a b : Buffer) : bool :=
  (List.length a =? List.length b)%nat
  && forallb (fun p => Byte.eqb (fst p) (snd p)) (combine a b).

(** The template inside the received data: the last byte is dropped, and six
    zero bytes in front of it too. *)
Definition templateOf (data : Buffer) : Buffer :=
  let tpl := dropLast 1 data in
  if (6 <=? Buf.length tpl) && equals (takeLast 6 tpl) (Buf.alloc 6)
  then dropLast 6 tpl
  else tpl.

(** [for (let attempt = 0; attempt < 3; attempt += 1) { ... }] with
    [attempts] turns left. *)
Fixpoint templateAttempts (attempts fuel : nat) (payload : Buffer) (uid tempId : Z)
    : M (option template) :=
  match attempts with
  | O => ret None
  | S attempts' =>
      r <- _sendCommand _CMD_GET_USERTEMP payload ;;
      received <- _receiveChunk fuel r ;;
      match received with
      | Some received => ret (Some (mkTemplate uid tempId 1 (templateOf received)))
      | None => templateAttempts attempts' fuel payload uid tempId
      end
  end.

Section WithUsers.
Context {rt : JS.Runtime}.

(** [getUserTemplate({uid, tempId, userId})]; [uid] and [tempId] are 0 and
    [userId] is empty when the caller leaves them out.  [fuelUsers] is for
    the loop of [getUsers], [fuel] for the one of [_receiveChunk]. *)
Definition getUserTemplate (fuelUsers fuel : nat) (uid tempId : Z) (userId : string)
    : M (option template) :=
  target <-
    (if negb (JS.truthy uid) && JS.nonEmpty userId
     then
       users <- getUsers fuelUsers ;;
       match find (fun u => String.eqb (User.userId u) userId) users with
       | None => ret None
       | Some found => ret (Some (User.uid found))
       end
     else ret (Some uid)) ;;
  match target with
  | None => ret None
  | Some uid =>
      let payload := Buf.alloc 3 in
      payload <- lift (Buf.writeInt16LE payload uid 0) ;;
      payload <- lift (Buf.writeInt8 payload tempId 2) ;;
      templateAttempts 3 fuel payload uid tempId
  end.

End WithUsers.

(** *** Options *)

(** Does the character occur in the string? *)
Fixpoint occurs (c : ascii) (s : string) : bool :=
  match s with
  | EmptyString => false
  | String d s' => Ascii.eqb d c || occurs c s'
  end.

(** [s.split('=')[0]]: the part of [s] before its first '='. *)
Fixpoint untilEquals (s : string) : string :=
  match s with
  | EmptyString => EmptyString
  | String c s' => if Ascii.eqb c "=" then EmptyString else String c (untilEquals s')
  end.

(** [s.split('=', 2)[1] || '']: the part of [s] between its first and its
    second '='. *)
Fixpoint secondPiece (s : string) : string :=
  match s with
  | EmptyString => EmptyString
  | String c s' => if Ascii.eqb c "=" then untilEquals s' else secondPiece s'
  end.

(** [s.replace('=', '')]: [s] without its first '='. *)
Fixpoint dropEquals (s : string) : string :=
  match s with
  | EmptyString => EmptyString
  | String c s' => if Ascii.eqb c "=" then s' else String c (dropEquals s')
  end.

(** The name of an option as it is sent: the text and a NUL byte. *)
Definition optionName (name : string) : Buffer :=
  Buf.fromString (name ++ String Ascii.zero EmptyString).

Section WithText.
Context {rt : JS.Runtime}.

Definition getSerialNumber : M string :=
  r <- _sendCommand CMD_OPTIONS_RRQ (optionName "~SerialNumber") ;;
  if negb (status r) then throw (Error "Cannot get serial number") else
  let raw := secondPiece (JS.toStringUtf8 (data r)) in
  ret (dropEquals (JS.splitNul raw)).

Definition getMac : M string :=
  r <- _sendCommand CMD_OPTIONS_RRQ (optionName "MAC") ;;
  if negb (status r) then throw (Error "Cannot get MAC address") else
  let raw := secondPiece (JS.toStringUtf8 (data r)) in
  ret (JS.splitNul raw).

Definition getDeviceName : M string :=
  r <- _sendCommand CMD_OPTIONS_RRQ (optionName "~DeviceName") ;;
  if negb (status r) then ret EmptyString else
  let raw := secondPiece (JS.toStringUtf8 (data r)) in
  ret (JS.splitNul raw).

End WithText.

End Zk2.

(** ** The packet of a template upload *)

Module UploadSpec.
Import Zk2.

(** The fingers of an upload with their users, in the order of the loops. *)
Definition owned (userTemplates : list (User.t * list finger)) : list (User.t * finger) :=
  flat_map (fun ut => map (pair (fst ut)) (snd ut)) userTemplates.

(** The table indexes the template pack: its [k]-th entry of 8 bytes holds
    the tag 2, the uid of the user, the finger index plus 16 and an offset,
    and at that offset the pack holds the length of the template of the
    [k]-th finger and then the template. *)
Definition indexes (table fpack : Buffer) (items : list (User.t * finger)) : Prop :=
  forall k u f, nth_error items k = Some (u, f) ->
    exists off,
      0 <= off /\ off + 2 + Buf.length (f_template f) <= Buf.length fpack /\
      Buf.slice table (8 * Z.of_nat k) (8 * Z.of_nat k + 8)
      = Byte.x02 :: le_split 2 (User.uid u) ++ le_split 1 (16 + f_fid f) ++ le_split 4 off /\
      Buf.slice fpack off (off + 2 + Buf.length (f_template f))
      = le_split 2 (Buf.length (f_template f)) ++ f_template f.

(** A record of the template table that [getTemplates] reads: the size of
    the record, the uid, the finger index, the valid flag and the template. *)
Definition templateRecord (t : template) : Buffer :=
  le_split 2 (6 + Buf.length (t_template t)) ++ le_split 2 (t_uid t)
  ++ le_split 1 (t_fid t) ++ le_split 1 (t_valid t) ++ t_template t.

(** The fields of a template fit their places in a record. *)
Definition fitsRecord (t : template) : Prop :=
  0 <= t_uid t < 65536 /\ -128 <= t_fid t < 128 /\ -128 <= t_valid t < 128 /\
  6 + Buf.length (t_template t) < 65536.

End UploadSpec.

(** ** The connection of zk/base.js

    The class [ZK] of base.js keeps the bytes that the stream socket has
    delivered in [__tcpBuffer] and reads replies from it by length.  The
    network is the one of the model above: the events that the socket is
    going to deliver, an exhausted list meaning that the timer fires. *)

Module BaseZk.
Import CONST.

Record t : Type := mkZk {
  password : Z;
  tcp : bool;   (* [!forceUdp] *)
  ommit_ping : bool;
  session_id : Z;
  reply_id : Z;
  sock : bool;   (* [this.__sock] is not null *)
  tcpBuffer : Buffer;   (* bytes received and not yet read *)
  header : option (Z * Z * Z * Z);   (* [this.__header] *)
  data_recv : Buffer;
  data : Buffer;
  tcp_length : Z;
  response : Z;
  is_connect : bool;
  user_packet_size : Z
}.

Definition set_session_id (v : Z) (z : t) : t :=
  mkZk (password z) (tcp z) (ommit_ping z) v (reply_id z) (sock z) (tcpBuffer z)
       (header z) (data_recv z) (data z) (tcp_length z) (response z) (is_connect z)
       (user_packet_size z).
Definition set_reply_id (v : Z) (z : t) : t :=
  mkZk (password z) (tcp z) (ommit_ping z) (session_id z) v (sock z) (tcpBuffer z)
       (header z) (data_recv z) (data z) (tcp_length z) (response z) (is_connect z)
       (user_packet_size z).
Definition set_sock (v : bool) (z : t) : t :=
  mkZk (password z) (tcp z) (ommit_ping z) (session_id z) (reply_id z) v (tcpBuffer z)
       (header z) (data_recv z) (data z) (tcp_length z) (response z) (is_connect z)
       (user_packet_size z).
Definition set_tcpBuffer (v : Buffer) (z : t) : t :=
  mkZk (password z) (tcp z) (ommit_ping z) (session_id z) (reply_id z) (sock z) v
       (header z) (data_recv z) (data z) (tcp_length z) (response z) (is_connect z)
       (user_packet_size z).
Definition set_header (v : option (Z * Z * Z * Z)) (z : t) : t :=
  mkZk (password z) (tcp z) (ommit_ping z) (session_id z) (reply_id z) (sock z)
       (tcpBuffer z) v (data_recv z) (data z) (tcp_length z) (response z) (is_connect z)
       (user_packet_size z).
Definition set_data_recv (v : Buffer) (z : t) : t :=
  mkZk (password z) (tcp z) (ommit_ping z) (session_id z) (reply_id z) (sock z)
       (tcpBuffer z) (header z) v (data z) (tcp_length z) (response z) (is_connect z)
       (user_packet_size z).
Definition set_data (v : Buffer) (z : t) : t :=
  mkZk (password z) (tcp z) (ommit_ping z) (session_id z) (reply_id z) (sock z)
       (tcpBuffer z) (header z) (data_recv z) v (tcp_length z) (response z)
       (is_connect z) (user_packet_size z).
Definition set_tcp_length (v : Z) (z : t) : t :=
  mkZk (password z) (tcp z) (ommit_ping z) (session_id z) (reply_id z) (sock z)
       (tcpBuffer z) (header z) (data_recv z) (data z) v (response z) (is_connect z)
       (user_packet_size z).
Definition set_response (v : Z) (z : t) : t :=
  mkZk (password z) (tcp z) (ommit_ping z) (session_id z) (reply_id z) (sock z)
       (tcpBuffer z) (header z) (data_recv z) (data z) (tcp_length z) v (is_connect z)
       (user_packet_size z).
Definition set_is_connect (v : bool) (z : t) : t :=
  mkZk (password z) (tcp z) (ommit_ping z) (session_id z) (reply_id z) (sock z)
       (tcpBuffer z) (header z) (data_recv z) (data z) (tcp_length z) (response z) v
       (user_packet_size z).
Definition set_user_packet_size (v : Z) (z : t) : t :=
  mkZk (password z) (tcp z) (ommit_ping z) (session_id z) (reply_id z) (sock z)
       (tcpBuffer z) (header z) (data_recv z) (data z) (tcp_length z) (response z)
       (is_connect z) v.

(** [new ZK(ip, port, timeout, password, forceUdp, ommitPing)] *)
Definition new (password : Z) (forceUdp ommitPing : bool) : t :=
  mkZk password (negb forceUdp) ommitPing 0 (USHRT_MAX - 1) false [] None [] [] 0 0 false 28.

(** *** Async methods: state and exception passing *)
Definition M (A : Type) : Type := t -> Zk.world -> res A * t * Zk.world.

Definition ret {A} (a : A) : M A := fun z w => (Ok a, z, w).
Definition throw {A} (e : exn) : M A := fun z w => (Throw e, z, w).
Definition lift {A} (r : res A) : M A := fun z w => (r, z, w).
Definition bind {A B} (m : M A) (k : A -> M B) : M B := fun z w =>
  match m z w with
  | (Ok a, z', w') => k a z' w'
  | (Throw e, z', w') => (Throw e, z', w')
  | (OutOfFuel, z', w') => (OutOfFuel, z', w')
  end.
Definition this : M t := fun z w => (Ok z, z, w).
Definition update (f : t -> t) : M unit := fun z w => (Ok tt, f z, w).

Notation "x <- m ;; k" := (bind m (fun x => k))
  (at level 61, m at next level, right associativity).
Notation "m ;;; k" := (bind m (fun _ => k))
  (at level 61, right associativity).

(** *** The socket *)

(** [__create_socket]: the stream socket is stored before it connects; the
    datagram socket is only created. *)
Definition __create_socket : M unit := fun z w =>
  let w' := Zk.mkWorld (Zk.reachable w) (S (Zk.opened w)) (Zk.closed w)
                       (Zk.outbox w) (Zk.inbox w) in
  if tcp z
  then
    let z' := set_tcpBuffer [] (set_sock true z) in
    if Zk.reachable w then (Ok tt, z', w') else (Throw (Error "socket error"), z', w')
  else (Ok tt, set_sock true z, w').

(** [__write_tcp] and [__send_udp] *)
Definition socketWrite (b : Buffer) : M unit := fun z w =>
  if negb (sock z) then (Throw TypeError, z, w) else
  (Ok tt, z, Zk.mkWorld (Zk.reachable w) (Zk.opened w) (Zk.closed w)
                        (Zk.outbox w ++ [b]) (Zk.inbox w)).

(** [while (this.__tcpBuffer.length < length) await this.__wait_for_tcp(deadline)]
    over the coming events: every ['data'] event is appended to the buffer. *)
Fixpoint waitTcp (events : list Zk.event) (buffer : Buffer) (length : Z)
    : res unit * Buffer * list Zk.event :=
  if Buf.length buffer <? length
  then
    match events with
    | [] => (Throw (Error "TCP receive timeout"), buffer, [])
    | Zk.SocketError :: rest => (Throw (Error "socket error"), buffer, rest)
    | Zk.Message chunk :: rest => waitTcp rest (buffer ++ chunk) length
    end
  else (Ok tt, buffer, events).

Definition __read_tcp (length : Z) : M Buffer := fun z w =>
  let '(r, buffer, rest) := waitTcp (Zk.inbox w) (tcpBuffer z) length in
  let w' := Zk.mkWorld (Zk.reachable w) (Zk.opened w) (Zk.closed w) (Zk.outbox w) rest in
  match r with
  | Ok _ =>
      (Ok (Buf.slice buffer 0 length), set_tcpBuffer (Buf.sliceFrom buffer length) z, w')
  | Throw e => (Throw e, set_tcpBuffer buffer z, w')
  | OutOfFuel => (OutOfFuel, set_tcpBuffer buffer z, w')
  end.

Definition __receive_udp : M Buffer := fun z w =>
  match Zk.inbox w with
  | [] => (Throw (Error "UDP receive timeout"), z, w)
  | Zk.SocketError :: rest =>
      (Throw (Error "socket error"), z,
       Zk.mkWorld (Zk.reachable w) (Zk.opened w) (Zk.closed w) (Zk.outbox w) rest)
  | Zk.Message msg :: rest =>
      (Ok msg, z, Zk.mkWorld (Zk.reachable w) (Zk.opened w) (Zk.closed w) (Zk.outbox w) rest)
  end.

Definition __create_tcp_top (packet : Buffer) : res Buffer :=
  let top := Buf.alloc 8 in
  let* top := Buf.writeUInt16LE top MACHINE_PREPARE_DATA_1 0 in
  let* top := Buf.writeUInt16LE top MACHINE_PREPARE_DATA_2 2 in
  let* top := Buf.writeUInt32LE top (Buf.length packet) 4 in
  Ok (top ++ packet).

Definition __test_tcp_top (packet : Buffer) : res Z :=
  if Buf.length packet <=? 8 then Ok 0 else
  let* first := Buf.readUInt16LE packet 0 in
  let* second := Buf.readUInt16LE packet 2 in
  if (first =? MACHINE_PREPARE_DATA_1) && (second =? MACHINE_PREPARE_DATA_2)
  then Buf.readUInt32LE packet 4
  else Ok 0.

(** *** Commands *)

(** The object [{status, code}] that [__send_command] returns. *)
Record reply : Type := mkReply {
  status : bool;
  code : Z
}.

Definition __send_command (command : Z) (commandString : Buffer) (responseSize : Z)
    : M reply :=
  z <- this ;;
  if negb (JS.includes [CMD_CONNECT; CMD_AUTH] command) && negb (is_connect z)
  then throw (Error "instance are not connected.")
  else
    hd <- lift (Base.__create_header command commandString (session_id z) (reply_id z)) ;;
    (if tcp z
     then
       packet <- lift (__create_tcp_top hd) ;;
       socketWrite packet ;;;
       response <- __read_tcp (responseSize + 8) ;;
       tcp_length <- lift (__test_tcp_top response) ;;
       update (set_tcp_length tcp_length) ;;;
       if negb (JS.truthy tcp_length) then throw (Error "TCP packet invalid") else
       update (set_data_recv (Buf.sliceFrom response 8)) ;;;
       z <- this ;;
       h <- lift (Base.__unpack_header (Buf.slice (data_recv z) 0 8)) ;;
       update (set_header (Some h))
     else
       socketWrite hd ;;;
       response <- __receive_udp ;;
       update (set_data_recv response) ;;;
       z <- this ;;
       h <- lift (Base.__unpack_header (Buf.slice (data_recv z) 0 8)) ;;
       update (set_header (Some h))) ;;;
    z <- this ;;
    match header z with
    | None => throw TypeError
    | Some (received, _, _, replyId) =>
        update (set_response received) ;;;
        update (set_reply_id replyId) ;;;
        update (fun z => set_data (Buf.sliceFrom (data_recv z) 8) z) ;;;
        ret (mkReply (JS.includes [CMD_ACK_OK; CMD_PREPARE_DATA; CMD_DATA] received) received)
    end.

(** [connect()]; [ping] and [probe] are what [helper.testPing()] and
    [helper.testTcp() === 0] give. *)
Definition connect (ping probe : bool) : M t :=
  z <- this ;;
  if negb (ommit_ping z) && negb ping
  then throw (Error "can't reach device")
  else
    (if tcp z && probe then update (set_user_packet_size 72) else ret tt) ;;;
    __create_socket ;;;
    update (set_session_id 0) ;;;
    update (set_reply_id (USHRT_MAX - 1)) ;;;
    response <- __send_command CMD_CONNECT [] 8 ;;
    z <- this ;;
    match header z with
    | None => throw TypeError
    | Some (_, _, sessionId, _) =>
        update (set_session_id sessionId) ;;;
        (if code response =? CMD_ACK_UNAUTH
         then
           z <- this ;;
           let commandString := Base.makeCommKey (password z) (session_id z) 50 in
           __send_command CMD_AUTH commandString 8 ;;; ret tt
         else ret tt) ;;;
        if status response
        then update (set_is_connect true) ;;; this
        else if code response =? CMD_ACK_UNAUTH
        then throw (Error "Unauthenticated")
        else throw (Error "Invalid response: Can't connect")
    end.

(** [this.__sock.end()] / [this.__sock.close()]; [__sock] keeps the socket. *)
Definition closeSocket : M unit := fun z w =>
  if sock z
  then (Ok tt, z, Zk.mkWorld (Zk.reachable w) (Zk.opened w) (S (Zk.closed w))
                             (Zk.outbox w) (Zk.inbox w))
  else (Ok tt, z, w).

Definition disconnect : M bool :=
  cmd <- __send_command CMD_EXIT [] 8 ;;
  if status cmd
  then update (set_is_connect false) ;;; closeSocket ;;; ret true
  else throw (Error "can't disconnect").

(** *** Users *)

Section WithRuntime.
Context {rt : JS.Runtime}.

(** The body of the loop of [get_users] over the 28-byte blocks, with the
    default encoding. *)
Definition parseUser28 (block : Buffer) : res User.t :=
  let* uid := Buf.readUInt16LE block 0 in
  let* privilege := Buf.readUInt8 block 2 in
  let password := JS.splitNul (JS.toStringUtf8 (Buf.slice block 3 8)) in
  let name := JS.trim (JS.splitNul (JS.toStringUtf8 (Buf.slice block 8 16))) in
  let* card := Buf.readUInt32LE block 16 in
  let* g := Buf.readUInt16LE block 20 in
  let groupId := JS.StringOf g in
  let* u := Buf.readUInt32LE block 24 in
  let userId := JS.StringOf u in
  let resolvedName := if JS.nonEmpty name then name else ("NN-" ++ userId)%string in
  Ok (User.mk uid privilege password resolvedName card groupId userId).

End WithRuntime.

End BaseZk.

(* ===================================================================== *)
(** * Part II: properties                                                 *)
(* ===================================================================== *)

(** ** Buffers *)

Module BufFacts.

Lemma length_store n (b : Buffer) v off :
  0 <= off -> off + Z.of_nat n <= Buf.length b ->
  Buf.length (Buf.store n b v off) = Buf.length b.
Proof.
  unfold Buf.length, Buf.store. intros.
  rewrite !length_app, length_le_split, length_firstn, length_skipn. lia.
Qed.

Lemma length_alloc n : Buf.length (Buf.alloc n) = Z.of_nat n.
Proof. unfold Buf.length, Buf.alloc. now rewrite repeat_length. Qed.

Lemma length_app (a b : Buffer) : Buf.length (a ++ b) = Buf.length a + Buf.length b.
Proof. unfold Buf.length. rewrite List.length_app. lia. Qed.

Lemma length_nonneg (b : Buffer) : 0 <= Buf.length b.
Proof. unfold Buf.length. lia. Qed.

Lemma inBounds_true (b : Buffer) off n :
  0 <= off -> off + Z.of_nat n <= Buf.length b -> Buf.inBounds b off n = true.
Proof.
  intros. unfold Buf.inBounds. apply andb_true_iff. split; apply Z.leb_le; lia.
Qed.

Lemma writeUIntLE_ok n (b : Buffer) (v off : Z) :
  0 <= v < 2 ^ (8 * Z.of_nat n) -> 0 <= off -> off + Z.of_nat n <= Buf.length b ->
  Buf.writeUIntLE n b v off = Ok (Buf.store n b v off).
Proof.
  intros Hv Ho Hl. unfold Buf.writeUIntLE. rewrite inBounds_true by lia.
  replace ((0 <=? v) && (v <? 2 ^ (8 * Z.of_nat n))) with true; [reflexivity|].
  symmetry. apply andb_true_iff. split; [apply Z.leb_le | apply Z.ltb_lt]; lia.
Qed.

Lemma writeUInt16LE_ok (b : Buffer) (v off : Z) :
  0 <= v < 65536 -> 0 <= off -> off + 2 <= Buf.length b ->
  Buf.writeUInt16LE b v off = Ok (Buf.store 2 b v off).
Proof. intros. apply writeUIntLE_ok; assumption. Qed.

Lemma writeIntLE_ok n (b : Buffer) (v off : Z) :
  - 2 ^ (8 * Z.of_nat n - 1) <= v < 2 ^ (8 * Z.of_nat n - 1) ->
  0 <= off -> off + Z.of_nat n <= Buf.length b ->
  Buf.writeIntLE n b v off = Ok (Buf.store n b v off).
Proof.
  intros Hv Ho Hl. unfold Buf.writeIntLE. rewrite inBounds_true by lia.
  cbv zeta.
  replace ((- 2 ^ (8 * Z.of_nat n - 1) <=? v) && (v <? 2 ^ (8 * Z.of_nat n - 1))) with true;
    [reflexivity|].
  symmetry. apply andb_true_iff. split; [apply Z.leb_le | apply Z.ltb_lt]; lia.
Qed.

Lemma store_app n (b1 b2 : Buffer) v off :
  0 <= off -> off + Z.of_nat n <= Buf.length b1 ->
  Buf.store n (b1 ++ b2) v off = Buf.store n b1 v off ++ b2.
Proof.
  unfold Buf.store, Buf.length. intros Ho Hl.
  rewrite firstn_app, skipn_app.
  replace (Z.to_nat off - List.length b1)%nat with 0%nat by lia.
  replace (Z.to_nat off + n - List.length b1)%nat with 0%nat by lia.
  cbn [firstn skipn]. rewrite app_nil_r, <- !app_assoc. reflexivity.
Qed.

Lemma alloc_add n m : Buf.alloc (n + m) = Buf.alloc n ++ Buf.alloc m.
Proof. unfold Buf.alloc. apply repeat_app. Qed.

(** Copying a payload behind an 8-byte header that was allocated with room
    for exactly that payload. *)
Lemma copy_payload (hd fill src : Buffer) :
  List.length hd = 8%nat -> List.length fill = List.length src ->
  Buf.copy src (hd ++ fill) 8 = hd ++ src.
Proof.
  intros Hh Hf. unfold Buf.copy. change (Z.to_nat 8) with 8%nat.
  rewrite List.length_app, Hh, Hf.
  replace (Nat.min (List.length src) (8 + List.length src - 8)) with (List.length src) by lia.
  rewrite firstn_all.
  rewrite <- Hh at 1.
  rewrite firstn_app, Nat.sub_diag, firstn_all, firstn_O, app_nil_r.
  rewrite skipn_all2 by (rewrite List.length_app; lia).
  now rewrite app_nil_r.
Qed.

Lemma readUIntLE_le_split n (tl : Buffer) v :
  Buf.readUIntLE n (le_split n v ++ tl) 0 = Ok (v mod 2 ^ (Z.of_nat n * 8)).
Proof.
  unfold Buf.readUIntLE. rewrite inBounds_true.
  - change (Z.to_nat 0) with 0%nat. cbn [skipn].
    rewrite firstn_app, length_le_split, Nat.sub_diag. cbn [firstn].
    rewrite app_nil_r. rewrite <- (length_le_split n v) at 1.
    rewrite firstn_all. now rewrite le_combine_split.
  - lia.
  - rewrite length_app. unfold Buf.length at 1. rewrite length_le_split.
    pose proof (length_nonneg tl). lia.
Qed.

Lemma readUIntLE_skip n (pre b : Buffer) off :
  0 <= off ->
  Buf.readUIntLE n (pre ++ b) (Buf.length pre + off) = Buf.readUIntLE n b off.
Proof.
  intros Ho. unfold Buf.readUIntLE, Buf.inBounds. rewrite length_app.
  pose proof (length_nonneg pre).
  replace (0 <=? Buf.length pre + off) with (0 <=? off)
    by (symmetry; rewrite !(proj2 (Z.leb_le _ _)); [reflexivity | lia | lia]).
  replace (Buf.length pre + off + Z.of_nat n <=? Buf.length pre + Buf.length b)
    with (off + Z.of_nat n <=? Buf.length b)
    by (destruct (Z.leb_spec (off + Z.of_nat n) (Buf.length b));
        symmetry; [apply Z.leb_le | apply Z.leb_gt]; lia).
  replace (Z.to_nat (Buf.length pre + off)) with (List.length pre + Z.to_nat off)%nat
    by (unfold Buf.length; lia).
  now rewrite skipn_app, skipn_all2, Nat.add_comm, Nat.add_sub by lia.
Qed.

End BufFacts.

(** ** The checksum and the header (src/utils.js, zk/base.js) *)

Module CodecFacts.
Import BufFacts.

Lemma createChecksum_range b : 0 <= Utils.createChecksum b < 65536.
Proof.
  unfold Utils.createChecksum. destruct (Utils.sumWords b 0) as [c r].
  unfold JS.band. change (JS.ToInt32 65535) with (Z.ones 16).
  rewrite Z.land_ones by lia. apply Z.mod_pos_bound. lia.
Qed.

Lemma __create_checksum_range b : 0 <= Base.__create_checksum b < 65536.
Proof.
  unfold Base.__create_checksum. destruct (Base.sumWords b 0) as [c r].
  unfold JS.band. change (JS.ToInt32 65535) with (Z.ones 16).
  rewrite Z.land_ones by lia. apply Z.mod_pos_bound. lia.
Qed.

(** [reply + 1], wrapped as both header functions do it. *)
Lemma next_reply reply :
  0 <= reply < 65536 ->
  (if reply + 1 >=? CONST.USHRT_MAX then reply + 1 - CONST.USHRT_MAX else reply + 1)
  = (reply + 1) mod 65535.
Proof.
  intros Hr. unfold CONST.USHRT_MAX. destruct (Z.geb_spec (reply + 1) 65535).
  - apply Z.mod_unique with (q := 1); lia.
  - symmetry. apply Z.mod_small. lia.
Qed.

Ltac buf_len :=
  repeat match goal with
    | |- context [Buf.length (_ ++ _)] => rewrite length_app
    | |- context [Buf.length (Buf.alloc _)] => rewrite length_alloc
    | |- context [Buf.length (Buf.store _ _ _ _)] => rewrite length_store
    end.
Ltac buf_side := unfold Buf.allocUnsafe; buf_len; lia.

(** The packet [createHeader] builds, field by field. *)
Lemma createHeader_eq command payload session reply :
  0 <= command < 65536 -> 0 <= session < 65536 -> 0 <= reply < 65536 ->
  let next := (reply + 1) mod 65535 in
  let zeroed := le_split 2 command ++ le_split 2 0 ++ le_split 2 session
                ++ le_split 2 next ++ payload in
  Utils.createHeader command payload session reply =
  Ok (le_split 2 command ++ le_split 2 (Utils.createChecksum zeroed)
      ++ le_split 2 session ++ le_split 2 next ++ payload).
Proof.
  intros Hc Hs Hr next zeroed.
  assert (Hn' : 0 <= next < 65536)
    by (unfold next; pose proof (Z.mod_pos_bound (reply + 1) 65535); lia).
  unfold Utils.createHeader. rewrite next_reply by assumption. fold next.
  do 4 (rewrite writeUInt16LE_ok by buf_side; cbn [res_bind]).
  match goal with
  | |- context [Utils.createChecksum ?m] => replace m with zeroed by reflexivity
  end.
  pose proof (createChecksum_range zeroed).
  rewrite writeUInt16LE_ok by buf_side. cbn [res_bind].
  reflexivity.
Qed.

(** The packet [__create_header] builds: its checksum is taken over the
    header that still carries the caller's reply id. *)
Lemma __create_header_eq command payload session reply :
  0 <= command < 65536 -> 0 <= session < 65536 -> 0 <= reply < 65536 ->
  let next := (reply + 1) mod 65535 in
  let summed := le_split 2 command ++ le_split 2 0 ++ le_split 2 session
                ++ le_split 2 reply ++ payload in
  Base.__create_header command payload session reply =
  Ok (le_split 2 command ++ le_split 2 (Base.__create_checksum summed)
      ++ le_split 2 session ++ le_split 2 next ++ payload).
Proof.
  intros Hc Hs Hr next summed.
  assert (Hn' : 0 <= next < 65536)
    by (unfold next; pose proof (Z.mod_pos_bound (reply + 1) 65535); lia).
  unfold Base.__create_header. rewrite next_reply by assumption. fold next.
  rewrite alloc_add.
  repeat (rewrite writeUInt16LE_ok by buf_side; cbn [res_bind]).
  rewrite !store_app by buf_side.
  rewrite copy_payload by (try reflexivity; unfold Buf.alloc; now rewrite repeat_length).
  match goal with
  | |- context [Base.__create_checksum ?m] => replace m with summed by reflexivity
  end.
  pose proof (__create_checksum_range summed).
  repeat (rewrite writeUInt16LE_ok by buf_side; cbn [res_bind]).
  rewrite !store_app by buf_side.
  rewrite copy_payload by (try reflexivity; unfold Buf.alloc; now rewrite repeat_length).
  reflexivity.
Qed.

Lemma readHeader_fields c k s r (tl : Buffer) :
  Utils.readHeader (le_split 2 c ++ le_split 2 k ++ le_split 2 s ++ le_split 2 r ++ tl)
  = Ok [c mod 65536; k mod 65536; s mod 65536; r mod 65536].
Proof.
  unfold Utils.readHeader, Buf.readUInt16LE.
  rewrite readUIntLE_le_split. cbn [res_bind].
  rewrite (readUIntLE_skip 2 (le_split 2 c) _ 0) by lia.
  rewrite readUIntLE_le_split. cbn [res_bind].
  rewrite (app_assoc (le_split 2 c)).
  rewrite (readUIntLE_skip 2 (le_split 2 c ++ le_split 2 k) _ 0) by lia.
  rewrite readUIntLE_le_split. cbn [res_bind].
  rewrite (app_assoc _ (le_split 2 s)).
  rewrite (readUIntLE_skip 2 ((le_split 2 c ++ le_split 2 k) ++ le_split 2 s) _ 0) by lia.
  rewrite readUIntLE_le_split. reflexivity.
Qed.

End CodecFacts.

Module HeaderTheorems.
Import BufFacts CodecFacts.

(** C1 (as amended).  On the eight header bytes E8 03 00 00 00 00 FE FF the
    checksum of src/utils.js is 0xFC18 and the one of zk/base.js is 0xFC17,
    and the packet composed for command 1000, session 0, reply id 65534 and
    an empty payload is E8 03 17 FC 00 00 00 00 with both header functions. *)
Theorem checksum_scenario :
  Utils.createChecksum Scenario.connectHeader = 0xFC18 /\
  Base.__create_checksum Scenario.connectHeader = 0xFC17 /\
  Utils.createHeader 1000 [] 0 65534 = Ok Scenario.connectPacket /\
  Base.__create_header 1000 [] 0 65534 = Ok Scenario.connectPacket.
Proof. split; [|split; [|split]]; (vm_compute; reflexivity). Qed.

(** C1 as stated fails: neither checksum function returns 0x17F5 on these
    bytes, and neither header function composes E8 03 F5 17 00 00 FE FF. *)
Lemma checksum_scenario_spec_value_refuted :
  Utils.createChecksum Scenario.connectHeader <> 0x17F5 /\
  Base.__create_checksum Scenario.connectHeader <> 0x17F5 /\
  Utils.createHeader 1000 [] 0 65534
    <> Ok (Buf.from [0xE8; 0x03; 0xF5; 0x17; 0x00; 0x00; 0xFE; 0xFF]) /\
  Base.__create_header 1000 [] 0 65534
    <> Ok (Buf.from [0xE8; 0x03; 0xF5; 0x17; 0x00; 0x00; 0xFE; 0xFF]).
Proof. split; [|split; [|split]]; (vm_compute; discriminate). Qed.




End HeaderTheorems.

(** ** The auth key (src/utils.js, zk/base.js) *)

Module AuthKeyFacts.
Import AuthKeySpec.

Lemma ToInt32_range z : -2147483648 <= JS.ToInt32 z < 2147483648.
Proof. unfold JS.ToInt32. pose proof (Z.mod_pos_bound (z + 2147483648) 4294967296). lia. Qed.

Lemma ToInt32_mod z : JS.ToInt32 z mod 4294967296 = z mod 4294967296.
Proof.
  unfold JS.ToInt32.
  rewrite Zminus_mod, Zmod_mod, <- Zminus_mod.
  f_equal. lia.
Qed.

Lemma ToInt32_small z : -2147483648 <= z < 2147483648 -> JS.ToInt32 z = z.
Proof. intros. unfold JS.ToInt32. rewrite Z.mod_small; lia. Qed.

Lemma mod32_lor a b :
  Z.lor a b mod 4294967296 = Z.lor (a mod 4294967296) (b mod 4294967296).
Proof.
  change 4294967296 with (2 ^ 32). rewrite <- !Z.land_ones by lia.
  apply Z.bits_inj'. intros n Hn. rewrite !Z.land_spec, !Z.lor_spec, !Z.land_spec.
  destruct (Z.testbit a n), (Z.testbit b n), (Z.testbit (Z.ones 32) n); reflexivity.
Qed.

Lemma testbit_ToInt32 z i : 0 <= i < 32 -> Z.testbit (JS.ToInt32 z) i = Z.testbit z i.
Proof.
  intros Hi. change 4294967296 with (2 ^ 32).
  rewrite <- (Z.mod_pow2_bits_low (JS.ToInt32 z) 32 i) by lia.
  rewrite <- (Z.mod_pow2_bits_low z 32 i) by lia.
  change (2 ^ 32) with 4294967296. now rewrite ToInt32_mod.
Qed.

Lemma land_pow2_truthy a i : 0 <= i -> JS.truthy (Z.land a (2 ^ i)) = Z.testbit a i.
Proof.
  intros Hi. unfold JS.truthy. destruct (Z.testbit a i) eqn:E.
  - apply negb_true_iff, Z.eqb_neq. intros H0.
    assert (Hb : Z.testbit (Z.land a (2 ^ i)) i = true)
      by (rewrite Z.land_spec, E, Z.pow2_bits_true; auto).
    rewrite H0, Z.bits_0 in Hb. discriminate.
  - apply negb_false_iff, Z.eqb_eq, Z.bits_inj'. intros n Hn.
    rewrite Z.land_spec, Z.bits_0, Z.pow2_bits_eqb by lia.
    destruct (Z.eqb_spec i n) as [->|]; [now rewrite E | apply andb_false_r].
Qed.

Lemma land_sign_truthy a :
  -2147483648 <= a < 2147483648 ->
  JS.truthy (Z.land a (-2147483648)) = Z.testbit a 31.
Proof.
  intros Ha. change (-2147483648) with (Z.lnot (Z.ones 31)).
  rewrite <- Z.ldiff_land, Z.ldiff_ones_r by lia.
  rewrite Z.testbit_odd, !Z.shiftr_div_pow2, Z.shiftl_mul_pow2 by lia.
  change (2 ^ 31) with 2147483648.
  pose proof (Z.div_mod a 2147483648 ltac:(lia)) as Hd.
  pose proof (Z.mod_pos_bound a 2147483648 ltac:(lia)) as Hm.
  assert (Hq : a / 2147483648 = 0 \/ a / 2147483648 = -1) by lia.
  unfold JS.truthy. destruct Hq as [-> | ->]; reflexivity.
Qed.

Lemma shl_one i :
  0 <= i < 32 ->
  JS.shl 1 i = if i =? 31 then -2147483648 else 2 ^ i.
Proof.
  intros Hi. unfold JS.shl, JS.ToUint32.
  rewrite (Z.mod_small i 4294967296), (Z.mod_small i 32) by lia.
  rewrite (ToInt32_small 1), Z.shiftl_1_l by lia.
  destruct (Z.eqb_spec i 31) as [->|Hne]; [reflexivity|].
  apply ToInt32_small.
  assert (2 ^ i <= 2 ^ 30) by (apply Z.pow_le_mono_r; lia).
  assert (0 < 2 ^ i) by (apply Z.pow_pos_nonneg; lia).
  change (2 ^ 30) with 1073741824 in *. lia.
Qed.

(** The test of the bit loop reads bit [i] of the password. *)
Lemma bit_test pass i :
  0 <= i < 32 -> JS.truthy (JS.band pass (JS.shl 1 i)) = Z.testbit pass i.
Proof.
  intros Hi. unfold JS.band. rewrite shl_one by assumption.
  rewrite <- (testbit_ToInt32 pass i) by assumption.
  pose proof (ToInt32_range pass).
  destruct (Z.eqb_spec i 31) as [->|Hne].
  - rewrite (ToInt32_small (-2147483648)) by lia. now apply land_sign_truthy.
  - assert (2 ^ i <= 2 ^ 30) by (apply Z.pow_le_mono_r; lia).
    assert (0 < 2 ^ i) by (apply Z.pow_pos_nonneg; lia).
    rewrite (ToInt32_small (2 ^ i)) by (change (2 ^ 30) with 1073741824 in *; lia).
    apply land_pow2_truthy. lia.
Qed.

Lemma shl_by_one k : JS.shl k 1 mod 4294967296 = (2 * (k mod 4294967296)) mod 4294967296.
Proof.
  unfold JS.shl. rewrite ToInt32_mod. change (JS.ToUint32 1 mod 32) with 1.
  rewrite Z.shiftl_mul_pow2 by lia. change (2 ^ 1) with 2.
  rewrite Z.mul_comm, Zmult_mod, ToInt32_mod, <- Zmult_mod. 
  rewrite Zmult_mod_idemp_r. reflexivity.
Qed.

Lemma lor_even_one y : Z.lor (2 * y) 1 = 2 * y + 1.
Proof.
  apply Z.bits_inj'. intros n Hn. rewrite Z.lor_spec.
  destruct (Z.eq_dec n 0) as [->|Hne].
  - rewrite Z.testbit_odd_0, Z.testbit_even_0. reflexivity.
  - assert (H1 : Z.testbit 1 n = false)
      by (change 1 with (2 ^ 0); apply Z.pow2_bits_false; lia).
    rewrite H1, orb_false_r.
    replace n with (Z.succ (n - 1)) by lia.
    now rewrite Z.testbit_even_succ, Z.testbit_odd_succ by lia.
Qed.

Lemma keyStep_mod pass k i :
  0 <= Z.of_nat i < 32 ->
  Utils.keyStep pass k i mod 4294967296
  = (2 * (k mod 4294967296) + Z.b2z (Z.testbit pass (Z.of_nat i))) mod 4294967296.
Proof.
  intros Hi. unfold Utils.keyStep. rewrite bit_test by assumption.
  destruct (Z.testbit pass (Z.of_nat i)); cbn [Z.b2z].
  - unfold JS.bor. rewrite mod32_lor, !ToInt32_mod, shl_by_one.
    change (1 mod 4294967296) with 1.
    pose proof (Z.mod_pos_bound k 4294967296 ltac:(lia)) as Hk.
    set (u := k mod 4294967296) in *.
    replace ((2 * u) mod 4294967296) with (2 * (u mod 2147483648)).
    + rewrite lor_even_one.
      pose proof (Z.div_mod u 2147483648 ltac:(lia)).
      pose proof (Z.mod_pos_bound u 2147483648 ltac:(lia)).
      apply Z.mod_unique with (q := u / 2147483648); lia.
    + pose proof (Z.div_mod u 2147483648 ltac:(lia)).
      pose proof (Z.mod_pos_bound u 2147483648 ltac:(lia)).
      apply Z.mod_unique with (q := u / 2147483648); lia.
  - rewrite shl_by_one, Z.add_0_r. reflexivity.
Qed.


Lemma ofBitsLE_app l b : ofBitsLE (rev (l ++ [b])) = Z.b2z b + 2 * ofBitsLE (rev l).
Proof. rewrite rev_app_distr. reflexivity. Qed.

Lemma bitsLE_S n x : bitsLE (S n) x = bitsLE n x ++ [Z.testbit x (Z.of_nat n)].
Proof. unfold bitsLE. rewrite seq_S, map_app. reflexivity. Qed.

(** After [n] turns the loop variable holds, modulo 2^32, the first [n]
    bits of the password in reverse order. *)
Lemma bitLoop pass n :
  (n <= 32)%nat ->
  fold_left (Utils.keyStep pass) (seq 0 n) 0 mod 4294967296
    = ofBitsLE (rev (bitsLE n pass)) /\
  0 <= ofBitsLE (rev (bitsLE n pass)) < 2 ^ Z.of_nat n.
Proof.
  induction n as [|n IH]; intros Hn.
  - split; [reflexivity | cbn; lia].
  - destruct IH as [IH1 IH2]; [lia|].
    rewrite seq_S, fold_left_app, bitsLE_S, ofBitsLE_app. cbn [fold_left Nat.add].
    rewrite keyStep_mod, IH1 by lia.
    rewrite Nat2Z.inj_succ, Z.pow_succ_r by lia.
    assert (Hb : 0 <= Z.b2z (Z.testbit pass (Z.of_nat n)) <= 1)
      by (destruct (Z.testbit pass (Z.of_nat n)); cbn; lia).
    assert (Hp : 2 ^ Z.of_nat n <= 2 ^ 31) by (apply Z.pow_le_mono_r; lia).
    change (2 ^ 31) with 2147483648 in Hp.
    split; [|lia]. rewrite Z.mod_small by lia. lia.
Qed.

Lemma ushr_zero z : JS.ushr z 0 = z mod 4294967296.
Proof. unfold JS.ushr. change (JS.ToUint32 0 mod 32) with 0. now rewrite Z.shiftr_0_r. Qed.

(** Steps 1 and 2: the number stored in [tmp]. *)
Lemma key_number pass sid :
  JS.ushr (fold_left (Utils.keyStep pass) (seq 0 32) 0 + sid) 0
  = (reverse32 pass + sid) mod 2 ^ 32.
Proof.
  rewrite ushr_zero. destruct (bitLoop pass 32) as [H _]; [lia|].
  unfold reverse32. rewrite <- H. change (2 ^ 32) with 4294967296.
  now rewrite Zplus_mod_idemp_l.
Qed.

Lemma xor_byte (b : byte) (c : Z) :
  0 <= c < 256 -> byte.of_Z (JS.bxor (byte.unsigned b) c) = byte.xor b (byte.of_Z c).
Proof.
  intros Hc. pose proof (byte.unsigned_range b) as Hb. change (2 ^ 8) with 256 in Hb.
  unfold JS.bxor, byte.xor. rewrite !ToInt32_small by lia.
  rewrite byte.unsigned_of_Z. unfold byte.wrap. change (2 ^ 8) with 256.
  now rewrite (Z.mod_small c) by lia.
Qed.

Lemma ticks_byte t : JS.band 255 t = Z.land t 255 /\ JS.band t 255 = Z.land t 255 /\ 0 <= Z.land t 255 < 256.
Proof.
  unfold JS.band. rewrite (ToInt32_small 255) by lia.
  rewrite (Z.land_comm 255). change 255 with (Z.ones 8). rewrite !Z.land_ones by lia.
  change (2 ^ 8) with 256.
  rewrite <- (Z.mod_mod_divide (JS.ToInt32 t) 4294967296 256), ToInt32_mod,
    Z.mod_mod_divide by (exists 16777216; reflexivity).
  repeat split; try apply Z.mod_pos_bound; lia.
Qed.

Lemma store_pair (a b : byte) (buf : Buffer) off :
  Buf.store 2 buf (le_combine [a; b]) off
  = firstn (Z.to_nat off) buf ++ [a; b] ++ skipn (Z.to_nat off + 2) buf.
Proof.
  unfold Buf.store. change 2%nat with (List.length [a; b]) at 1.
  now rewrite split_le_combine.
Qed.

Lemma makeCommKey_reference P S t : Utils.makeCommKey P S t = referenceKey P S t.
Proof.
  unfold Utils.makeCommKey, referenceKey. rewrite key_number.
  destruct (ticks_byte t) as (-> & _ & HB).
  generalize dependent ((reverse32 P + S) mod 2 ^ 32). intros K.
  generalize dependent (Z.land t 255). intros B HB.
  change (Buf.store 4 (Buf.allocUnsafe 4) K 0) with (le_split 4 K).
  change (le_split 4 K) with
    [byte.of_Z K; byte.of_Z (Z.shiftr K 8); byte.of_Z (Z.shiftr (Z.shiftr K 8) 8);
     byte.of_Z (Z.shiftr (Z.shiftr (Z.shiftr K 8) 8) 8)].
  generalize (byte.of_Z K) (byte.of_Z (Z.shiftr K 8)) (byte.of_Z (Z.shiftr (Z.shiftr K 8) 8))
    (byte.of_Z (Z.shiftr (Z.shiftr (Z.shiftr K 8) 8) 8)).
  intros k0 k1 k2 k3.
  unfold Buf.get, Buf.from. cbn [nth map].
  rewrite !xor_byte by lia.
  generalize (byte.xor k0 (byte.of_Z 90)) (byte.xor k1 (byte.of_Z 75))
    (byte.xor k2 (byte.of_Z 83)) (byte.xor k3 (byte.of_Z 79)).
  intros x0 x1 x2 x3.
  change (Buf.slice [x0; x1; x2; x3] 2 4) with [x2; x3].
  change (Buf.slice [x0; x1; x2; x3] 0 2) with [x0; x1].
  rewrite !store_pair.
  unfold Buf.allocUnsafe, Buf.alloc.
  reflexivity.
Qed.

Lemma base_makeCommKey_reference P S t : Base.makeCommKey P S t = referenceKey P S t.
Proof.
  rewrite <- makeCommKey_reference. unfold Base.makeCommKey, Utils.makeCommKey.
  destruct (ticks_byte t) as (-> & -> & _). reflexivity.
Qed.

Example reverse32_low_bit : reverse32 1 = 2147483648.
Proof. reflexivity. Qed.

Example reverse32_nibble : reverse32 0x0000000B = 0xD0000000.
Proof. reflexivity. Qed.

Example referenceKey_vector :
  referenceKey 0 1 50 = Buf.from [0x61; 0x7D; 0x32; 0x79].
Proof. reflexivity. Qed.

(** C6.  For every password [P], session id [S] and ticks value [t]
    (integers), both [makeCommKey] functions return the key of the reference
    algorithm: the low 32 bits of [P] reversed bit by bit, plus [S] modulo
    2^32, its four little-endian bytes XORed with 'Z', 'K', 'S', 'O', the two
    16-bit halves swapped, bytes 0, 1 and 3 XORed with [t & 0xFF] and byte 2
    set to [t & 0xFF]. *)
Theorem makeCommKey_refines_reference (P S t : Z) :
  Utils.makeCommKey P S t = referenceKey P S t /\
  Base.makeCommKey P S t = referenceKey P S t.
Proof. split; [apply makeCommKey_reference | apply base_makeCommKey_reference]. Qed.

End AuthKeyFacts.

(** ** The time codec (src/utils.js) *)

Module TimeFacts.
Import TimeDomain BufFacts.

Lemma forallb_seq (f : nat -> bool) (n i : nat) :
  forallb f (seq 0 n) = true -> (i < n)%nat -> f i = true.
Proof.
  intros H Hi. rewrite forallb_forall in H. apply H, in_seq. lia.
Qed.

(** All 37200 entries of the table hold. *)
Lemma calendar_table :
  forallb (fun Y => forallb (fun M => forallb (dateOk Y M) (seq 0 31)) (seq 0 12))
          (seq 0 100) = true.
Proof. vm_compute. reflexivity. Qed.

Lemma dateOk_all Y M D :
  (Y < 100)%nat -> (M < 12)%nat -> (D < 31)%nat -> dateOk Y M D = true.
Proof.
  intros HY HM HD.
  exact (forallb_seq _ _ _ (forallb_seq _ _ _ (forallb_seq _ _ _ calendar_table HY) HM) HD).
Qed.

(** A day that exists in its month is read back from its day number. *)
Lemma civil_roundtrip y m d :
  2000 <= y < 2100 -> 1 <= m <= 12 -> 1 <= d <= 31 -> d <= Date.daysInMonth y m ->
  Date.civilFromDays (Date.daysFromCivil y m 1 + d - 1) = (y, m, d).
Proof.
  intros Hy Hm Hd Hdim.
  pose proof (dateOk_all (Z.to_nat (y - 2000)) (Z.to_nat (m - 1)) (Z.to_nat (d - 1))
                ltac:(lia) ltac:(lia) ltac:(lia)) as H.
  unfold dateOk in H.
  replace (2000 + Z.of_nat (Z.to_nat (y - 2000))) with y in H by lia.
  replace (Z.of_nat (Z.to_nat (m - 1)) + 1) with m in H by lia.
  replace (Z.of_nat (Z.to_nat (d - 1)) + 1) with d in H by lia.
  rewrite (proj2 (Z.leb_le _ _) Hdim) in H.
  destruct (Date.civilFromDays _) as [[y' m'] d'].
  apply andb_true_iff in H. destruct H as [H H3].
  apply andb_true_iff in H. destruct H as [H1 H2].
  apply Z.eqb_eq in H1, H2, H3. now subst.
Qed.

(** The getters of a date built from in-range time fields. *)
Lemma make_fields N h mi s :
  0 <= h < 24 -> 0 <= mi < 60 -> 0 <= s < 60 ->
  let d := N * Date.msPerDay + (h * 3600000 + mi * 60000 + s * 1000) in
  d / Date.msPerDay = N /\ (d / 3600000) mod 24 = h /\
  (d / 60000) mod 60 = mi /\ (d / 1000) mod 60 = s.
Proof.
  intros Hh Hm Hs d. subst d. unfold Date.msPerDay.
  repeat split; Z.div_mod_to_equations; lia.
Qed.

(** Every u32 is the timestamp of the tuple [decodeTime] splits it into, and
    that tuple is in the legal ranges. *)
Lemma timestamp_fields x :
  0 <= x < 4294967296 ->
  let t := x / 60 / 60 / 24 in
  let Y := t / 31 / 12 in
  let M := (t / 31) mod 12 + 1 in
  let D := t mod 31 + 1 in
  let h := (x / 60 / 60) mod 24 in
  let m := (x / 60) mod 60 in
  let s := x mod 60 in
  x = timestamp Y M D h m s /\
  0 <= Y /\ 1 <= M <= 12 /\ 1 <= D <= 31 /\ 0 <= h < 24 /\ 0 <= m < 60 /\ 0 <= s < 60.
Proof.
  intros Hx. cbv zeta. unfold timestamp. Z.div_mod_to_equations. lia.
Qed.

Example recode_2024 : recode 783513045 = Ok 783513045.
Proof. vm_compute. reflexivity. Qed.

Example decode_epoch :
  Utils.decodeTime (le_split 4 0) = Ok (Date.make 2000 0 1 0 0 0).
Proof. reflexivity. Qed.

Example recode_feb_31_2000 :
  timestamp 0 2 31 0 0 0 = 5270400 /\ recode 5270400 = Ok (timestamp 0 3 2 0 0 0).
Proof. split; vm_compute; reflexivity. Qed.

Example recode_jan_1_2100 :
  timestamp 100 1 1 0 0 0 = 3214080000 /\ recode 3214080000 = Ok 0.
Proof. split; vm_compute; reflexivity. Qed.

(** C3 (as amended).  For every u32 [x] whose year is below 2100 and whose
    day exists in its month of the calendar, [encodeTime(decodeTime(x))] is
    [x] (on a host whose local time has no daylight-saving jumps). *)
Theorem time_roundtrip (x : Z) :
  0 <= x < 3214080000 -> realCalendarDay x = true -> recode x = Ok x.
Proof.
  intros Hx Hday. unfold recode, Utils.decodeTime, Buf.readUInt32LE.
  rewrite <- (app_nil_r (le_split 4 x)), readUIntLE_le_split.
  change (2 ^ (Z.of_nat 4 * 8)) with 4294967296. rewrite (Z.mod_small x) by lia.
  cbn [res_bind]. cbv zeta. f_equal.
  unfold realCalendarDay in Hday. cbv zeta in Hday. apply Z.leb_le in Hday.
  set (s := x mod 60) in *. set (t1 := x / 60) in *.
  set (mi := t1 mod 60) in *. set (t2 := t1 / 60) in *.
  set (h := t2 mod 24) in *. set (t3 := t2 / 24) in *.
  set (D := t3 mod 31 + 1) in *. set (t4 := t3 / 31) in *.
  set (M := t4 mod 12 + 1) in *. set (Y := t4 / 12 + 2000) in *.
  assert (Hs : 0 <= s < 60) by (apply Z.mod_pos_bound; lia).
  assert (Hmi : 0 <= mi < 60) by (apply Z.mod_pos_bound; lia).
  assert (Hh : 0 <= h < 24) by (apply Z.mod_pos_bound; lia).
  assert (HD : 1 <= D <= 31) by (unfold D; pose proof (Z.mod_pos_bound t3 31); lia).
  assert (HM : 1 <= M <= 12) by (unfold M; pose proof (Z.mod_pos_bound t4 12); lia).
  assert (HY : 2000 <= Y < 2100).
  { unfold Y, t4, t3, t2, t1. Z.div_mod_to_equations. lia. }
  unfold Utils.encodeTime, Date.getFullYear, Date.getMonth, Date.getDate,
    Date.getHours, Date.getMinutes, Date.getSeconds, Date.make.
  replace (M - 1 + 1) with M by lia.
  rewrite (Z.div_small (M - 1) 12), (Z.mod_small (M - 1) 12), Z.add_0_r by lia.
  replace (M - 1 + 1) with M by lia.
  destruct (make_fields (Date.daysFromCivil Y M 1 + D - 1) h mi s Hh Hmi Hs)
    as (E1 & E2 & E3 & E4).
  rewrite E1, E2, E3, E4, civil_roundtrip by assumption.
  cbn [fst snd].
  rewrite AuthKeyFacts.ushr_zero.
  replace (Y mod 100) with (Y - 2000) by (Z.div_mod_to_equations; lia).
  rewrite Z.mod_small.
  - unfold Y, M, D, h, mi, s, t4, t3, t2, t1. Z.div_mod_to_equations. lia.
  - unfold Y, M, D, h, mi, s, t4, t3, t2, t1 in *. Z.div_mod_to_equations. lia.
Qed.

Lemma time_roundtrip_witness :
  0 <= 783513045 < 3214080000 /\ realCalendarDay 783513045 = true /\
  recode 783513045 = Ok 783513045.
Proof.
  split; [lia|]. split; [reflexivity|].
  apply (time_roundtrip 783513045); [lia | reflexivity].
Defined.

(** C3 as stated fails on two legal tuples: 2000-02-31 00:00:00 is decoded
    to a [Date], which is 2000-03-02, and 2100-01-01 00:00:00 is encoded with
    its year modulo 100. *)
Lemma time_roundtrip_refuted :
  recode (timestamp 0 2 31 0 0 0) <> Ok (timestamp 0 2 31 0 0 0) /\
  recode (timestamp 100 1 1 0 0 0) <> Ok (timestamp 100 1 1 0 0 0).
Proof. split; vm_compute; discriminate. Qed.

End TimeFacts.

(** ** The transport and [_sendCommand] (node-zk/src/zk.js) *)

Module TransportFacts.
Import CONST Zk Wire BufFacts CodecFacts.

Lemma le_combine_firstn2_range (b : Buffer) : 0 <= le_combine (firstn 2 b) < 65536.
Proof.
  pose proof (le_combine_bound (firstn 2 b)) as H.
  pose proof (length_firstn 2 b).
  assert (2 ^ (8 * Z.of_nat (List.length (firstn 2 b))) <= 2 ^ 16)
    by (apply Z.pow_le_mono_r; lia).
  change (2 ^ 16) with 65536 in *. lia.
Qed.

Lemma readUInt16LE_ok (b : Buffer) off :
  0 <= off -> off + 2 <= Buf.length b ->
  Buf.readUInt16LE b off = Ok (le_combine (firstn 2 (skipn (Z.to_nat off) b))).
Proof.
  intros. unfold Buf.readUInt16LE, Buf.readUIntLE. now rewrite inBounds_true by (change (Z.of_nat 2) with 2; lia).
Qed.

Lemma length_slice_head (raw : Buffer) :
  8 <= Buf.length raw -> Buf.length (Buf.slice raw 0 8) = 8.
Proof.
  unfold Buf.length, Buf.slice. intros. change (Z.to_nat 8 - Z.to_nat 0)%nat with 8%nat.
  change (Z.to_nat 0) with 0%nat. cbn [skipn]. rewrite length_firstn. lia.
Qed.

(** Parsing the header of a received packet. *)
Lemma readHeader_raw (raw : Buffer) :
  8 <= Buf.length raw ->
  Utils.readHeader (Buf.slice raw 0 8)
  = Ok [codeOf raw; checksumOf raw; sessionOf raw; replyOf raw].
Proof.
  intros H. pose proof (length_slice_head raw H) as HL.
  unfold Utils.readHeader.
  rewrite !readUInt16LE_ok by lia. cbn [res_bind].
  unfold codeOf, checksumOf, sessionOf, replyOf, Buf.slice.
  change (Z.to_nat 8 - Z.to_nat 0)%nat with 8%nat.
  change (Z.to_nat 0) with 0%nat. cbn [skipn].
  change (Z.to_nat 2) with 2%nat. change (Z.to_nat 4) with 4%nat. change (Z.to_nat 6) with 6%nat.
  rewrite !skipn_firstn_comm, !firstn_firstn. reflexivity.
Qed.

Lemma sendUdp_frame z w packet raw rest :
  socket z = true -> inbox w = Message raw :: rest ->
  _sendUdp packet z w
  = (Ok raw, z, mkWorld (reachable w) (opened w) (closed w) (outbox w ++ [packet]) rest).
Proof.
  intros Hs Hi. unfold _sendUdp. rewrite Hs. cbn [negb inbox]. rewrite Hi. reflexivity.
Qed.

Lemma createTcpTop_eq packet :
  Buf.length packet < 4294967296 ->
  Utils.createTcpTop packet = Ok (envelope packet).
Proof.
  intros H. pose proof (length_nonneg packet). unfold Utils.createTcpTop.
  repeat (rewrite writeUInt16LE_ok
            by (try (unfold MACHINE_PREPARE_DATA_1, MACHINE_PREPARE_DATA_2); buf_side);
          cbn [res_bind]).
  unfold Buf.writeUInt32LE. rewrite writeUIntLE_ok; [reflexivity | | |].
  - change (2 ^ (8 * Z.of_nat 4)) with 4294967296. lia.
  - lia.
  - buf_side.
Qed.

Lemma envelope_reads (raw : Buffer) :
  Buf.length raw < 4294967296 ->
  Buf.length (envelope raw) = 8 + Buf.length raw /\
  Buf.readUInt32LE (envelope raw) 4 = Ok (Buf.length raw) /\
  _validateTcpTop (envelope raw) = Ok true /\
  Buf.slice (envelope raw) 8 (8 + Buf.length raw) = raw /\
  skipn 8 (envelope raw) = raw.
Proof.
  intros H. pose proof (length_nonneg raw) as Hn.
  assert (HL : Buf.length (envelope raw) = 8 + Buf.length raw).
  { unfold envelope. rewrite !length_app. unfold Buf.length at 1 2 3.
    rewrite !length_le_split. lia. }
  split; [exact HL|]. split; [|split; [|split]].
  - unfold envelope, Buf.readUInt32LE. rewrite app_assoc.
    rewrite (readUIntLE_skip 4 (le_split 2 MACHINE_PREPARE_DATA_1 ++ le_split 2 MACHINE_PREPARE_DATA_2) _ 0) by lia.
    rewrite readUIntLE_le_split. change (2 ^ (Z.of_nat 4 * 8)) with 4294967296.
    now rewrite Z.mod_small by lia.
  - unfold _validateTcpTop. rewrite HL.
    replace (8 + Buf.length raw <? 8) with false by (symmetry; apply Z.ltb_ge; lia).
    unfold envelope, Buf.readUInt16LE. rewrite readUIntLE_le_split. cbn [res_bind].
    rewrite (readUIntLE_skip 2 (le_split 2 MACHINE_PREPARE_DATA_1) _ 0) by lia.
    rewrite readUIntLE_le_split. reflexivity.
  - unfold Buf.slice, envelope.
    replace (Z.to_nat (8 + Buf.length raw) - Z.to_nat 8)%nat with (List.length raw)
      by (unfold Buf.length; lia).
    change (Z.to_nat 8) with 8%nat. cbn [le_split app skipn]. apply firstn_all.
  - reflexivity.
Qed.

Lemma sendTcp_frame z w packet raw rest :
  socket z = true -> Buf.length packet < 4294967296 -> framed raw ->
  inbox w = frame true raw :: rest ->
  exists top,
    skipn 8 top = packet /\
    _sendTcp packet z w
    = (Ok raw, z, mkWorld (reachable w) (opened w) (closed w) (outbox w ++ [top]) rest).
Proof.
  intros Hs Hp [Hr1 Hr2] Hi. exists (envelope packet).
  split; [apply envelope_reads; assumption|].
  unfold _sendTcp. rewrite createTcpTop_eq by assumption. rewrite Hs. cbn [negb].
  rewrite Hi. unfold frame. cbn [onData app].
  destruct (envelope_reads raw Hr2) as (HL & HR & HV & HS & _).
  rewrite HL, HR.
  replace (8 <=? 8 + Buf.length raw) with true by (symmetry; apply Z.leb_le; lia).
  rewrite Z.add_0_l, Z.leb_refl, HV. cbn [res_bind].
  rewrite HS. reflexivity.
Qed.

(** The carrier hands a framed reply to [_sendCommand] and records the
    request. *)
Lemma transport_frame z w packet raw rest :
  socket z = true -> Buf.length packet < 4294967296 -> framed raw ->
  inbox w = frame (tcp z) raw :: rest ->
  exists written,
    (if tcp z then skipn 8 written else written) = packet /\
    (if tcp z then _sendTcp packet else _sendUdp packet) z w
    = (Ok raw, z, mkWorld (reachable w) (opened w) (closed w) (outbox w ++ [written]) rest).
Proof.
  intros Hs Hp Hr Hi. destruct (tcp z).
  - apply sendTcp_frame; assumption.
  - exists packet. split; [reflexivity|]. apply sendUdp_frame; assumption.
Qed.

Lemma length_packet command cs session reply k :
  Buf.length (le_split 2 command ++ le_split 2 k ++ le_split 2 session
              ++ le_split 2 reply ++ cs) = 8 + Buf.length cs.
Proof. rewrite !length_app. unfold Buf.length at 1 2 3 4. rewrite !length_le_split. lia. Qed.

Lemma allowed_guard z command :
  allowed z command ->
  negb (command =? CMD_CONNECT) && negb (command =? CMD_AUTH) && negb (isConnected z) = false.
Proof.
  intros [-> | [-> | ->]]; [reflexivity | reflexivity |].
  now rewrite andb_false_r.
Qed.

(** One command answered by one framed reply. *)
Lemma sendCommand_frame z w command cs raw rest :
  allowed z command -> socket z = true ->
  0 <= sessionId z < 65536 -> 0 <= replyId z < 65536 ->
  0 <= command < 65536 -> Buf.length cs + 8 < 4294967296 ->
  framed raw -> inbox w = frame (tcp z) raw :: rest ->
  exists written,
    request (tcp z) written = (command, cs) /\
    _sendCommand command cs z w
    = (Ok (mkResponse (okCode (codeOf raw)) (codeOf raw)
             [codeOf raw; checksumOf raw; sessionOf raw; replyOf raw] (dataOf raw)),
       set_replyId (replyOf raw) (set_sessionId (sessionOf raw) z),
       mkWorld (reachable w) (opened w) (closed w) (outbox w ++ [written]) rest).
Proof.
  intros Ha Hs Hsid Hrid Hc Hcs Hraw Hi.
  pose proof (createHeader_eq command cs (sessionId z) (replyId z) Hc Hsid Hrid) as Hh.
  cbv zeta in Hh.
  set (packet := le_split 2 command ++ _) in Hh.
  assert (Hlen : Buf.length packet < 4294967296)
    by (unfold packet; rewrite length_packet; lia).
  destruct (transport_frame z w packet raw rest Hs Hlen Hraw Hi) as (written & Hw & Ht).
  exists written. split.
  - unfold request. rewrite Hw. unfold packet.
    rewrite firstn_app, length_le_split, Nat.sub_diag, firstn_O, app_nil_r.
    rewrite <- (length_le_split 2 command) at 1.
    rewrite firstn_all, le_combine_split.
    change (2 ^ (Z.of_nat 2 * 8)) with 65536. rewrite Z.mod_small by assumption.
    reflexivity.
  - unfold _sendCommand, bind, this, lift, update, ret.
    rewrite allowed_guard by assumption. rewrite Hh, Ht.
    rewrite readHeader_raw by apply Hraw. reflexivity.
Qed.
End TransportFacts.

(** ** Buffered reads and the session (node-zk/src/zk.js) *)

Module BulkReadFacts.
Import CONST Zk Wire BufFacts CodecFacts TransportFacts.

Lemma field_range (b : Buffer) n : 0 <= le_combine (firstn 2 (skipn n b)) < 65536.
Proof. apply le_combine_firstn2_range. Qed.

(** A framed reply leaves the client ready, on the same carrier. *)
Lemma ready_after z raw :
  ready z -> ready (set_replyId (replyOf raw) (set_sessionId (sessionOf raw) z)).
Proof.
  intros (Hc & Hs & _ & _). unfold ready. cbn.
  repeat split; try assumption; apply field_range.
Qed.

Lemma okCode_not_data_guard c :
  okCode c = true -> negb (okCode c) && negb (c =? CMD_DATA) = false.
Proof. intros ->. reflexivity. Qed.


Lemma chunk_payload start size :
  - 2147483648 <= start < 2147483648 -> - 2147483648 <= size < 2147483648 ->
  (let* payload := Buf.writeInt32LE (Buf.alloc 8) start 0 in
   Buf.writeInt32LE payload size 4)
  = Ok (le_split 4 start ++ le_split 4 size).
Proof.
  intros Hs Hz. unfold Buf.writeInt32LE.
  rewrite writeIntLE_ok by (change (2 ^ (8 * Z.of_nat 4 - 1)) with 2147483648; buf_side).
  cbn [res_bind].
  rewrite writeIntLE_ok by (change (2 ^ (8 * Z.of_nat 4 - 1)) with 2147483648; buf_side).
  reflexivity.
Qed.

(** One chunk request answered by a success reply. *)
Lemma readChunk_ok z w start size raw rest :
  ready z ->
  - 2147483648 <= start < 2147483648 -> - 2147483648 <= size < 2147483648 ->
  okReply raw -> inbox w = frame (tcp z) raw :: rest ->
  exists written,
    request (tcp z) written = readRequest (start, size) /\
    _readChunk start size z w
    = (Ok (dataOf raw),
       set_replyId (replyOf raw) (set_sessionId (sessionOf raw) z),
       mkWorld (reachable w) (opened w) (closed w) (outbox w ++ [written]) rest).
Proof.
  intros (Hc & Hs & Hsid & Hrid) Hst Hsz [Hf Hok] Hi.
  pose proof (chunk_payload start size Hst Hsz) as Hp.
  destruct (Buf.writeInt32LE (Buf.alloc 8) start 0) as [p1| |] eqn:E1; try discriminate.
  cbn [res_bind] in Hp.
  destruct (sendCommand_frame z w _CMD_READ_BUFFER (le_split 4 start ++ le_split 4 size)
              raw rest) as (written & Hreq & Hsend); try assumption.
  - right. right. exact Hc.
  - unfold _CMD_READ_BUFFER. lia.
  - rewrite length_app. unfold Buf.length. rewrite !length_le_split. lia.
  - exists written. split; [exact Hreq|].
    unfold _readChunk, bind, lift, ret, throw. rewrite E1, Hp, Hsend.
    cbn [status code data]. rewrite okCode_not_data_guard by assumption. reflexivity.
Qed.

Lemma shift_requests C start n :
  readRequest (start, C)
  :: map (fun i => readRequest (start + C + Z.of_nat i * C, C)) (seq 0 n)
  = map (fun i => readRequest (start + Z.of_nat i * C, C)) (seq 0 (S n)).
Proof.
  cbn [seq map]. f_equal.
  - f_equal. f_equal. lia.
  - rewrite <- seq_shift, map_map. apply map_ext. intros i. f_equal. f_equal. lia.
Qed.

(** The [for] loop of [readWithBuffer] when every chunk is answered. *)
Lemma readChunks_ok C : 0 < C < 2147483648 ->
  forall packets start chunks z w replies rest,
  ready z -> 0 <= start -> start + (Z.of_nat packets - 1) * C < 2147483648 ->
  List.length replies = packets -> Forall okReply replies ->
  inbox w = map (frame (tcp z)) replies ++ rest ->
  exists z' w' written,
    readChunks packets C start chunks z w
      = (Ok (chunks ++ map dataOf replies, start + Z.of_nat packets * C), z', w') /\
    ready z' /\ tcp z' = tcp z /\ inbox w' = rest /\
    outbox w' = outbox w ++ written /\
    map (request (tcp z)) written
      = map (fun i => readRequest (start + Z.of_nat i * C, C)) (seq 0 packets).
Proof.
  intros HC. induction packets as [|packets IH]; intros start chunks z w replies rest
    Hr Hs Hb Hl Hok Hi.
  - destruct replies; [|discriminate]. exists z, w, []. cbn [readChunks ret map seq].
    rewrite !app_nil_r, Z.add_0_r. cbn [app] in Hi.
    split; [reflexivity|]. split; [assumption|]. split; [reflexivity|].
    split; [assumption|]. split; reflexivity.
  - destruct replies as [|raw replies]; [discriminate|].
    injection Hl as Hl. inversion Hok as [|? ? Hraw Hoks]; subst.
    cbn [map app] in Hi.
    destruct (readChunk_ok z w start C raw (map (frame (tcp z)) replies ++ rest))
      as (wr & Hreq & Hstep); try assumption; try nia.
    set (z1 := set_replyId (replyOf raw) (set_sessionId (sessionOf raw) z)) in *.
    set (w1 := mkWorld (reachable w) (opened w) (closed w) (outbox w ++ [wr])
                 (map (frame (tcp z)) replies ++ rest)) in *.
    destruct (IH (start + C) (chunks ++ [dataOf raw]) z1 w1 replies rest)
      as (z' & w' & written & Hrun & Hr' & Ht' & Hi' & Ho' & Hq'); try assumption.
    + now apply ready_after.
    + lia.
    + lia.
    + reflexivity.
    + reflexivity.
    + exists z', w', (wr :: written). cbn [readChunks]. unfold bind at 1.
      rewrite Hstep, Hrun.
      split; [|split; [assumption|split; [assumption|split; [assumption|split]]]].
      * rewrite <- app_assoc. cbn [map app].
        replace (start + C + Z.of_nat (List.length replies) * C)
          with (start + Z.of_nat (S (List.length replies)) * C) by lia.
        reflexivity.
      * rewrite Ho'. unfold w1. cbn [outbox]. now rewrite <- app_assoc.
      * change (tcp z1) with (tcp z) in Hq'. cbn [map]. rewrite Hreq, Hq'.
        apply shift_requests.
Qed.

Lemma prepare_payload command fct ext :
  - 32768 <= command < 32768 ->
  - 2147483648 <= fct < 2147483648 -> - 2147483648 <= ext < 2147483648 ->
  Buf.writeInt8 (Buf.alloc 11) 1 0 = Ok (Buf.store 1 (Buf.alloc 11) 1 0) /\
  Buf.writeInt16LE (Buf.store 1 (Buf.alloc 11) 1 0) command 1
    = Ok (Buf.store 2 (Buf.store 1 (Buf.alloc 11) 1 0) command 1) /\
  Buf.writeInt32LE (Buf.store 2 (Buf.store 1 (Buf.alloc 11) 1 0) command 1) fct 3
    = Ok (Buf.store 4 (Buf.store 2 (Buf.store 1 (Buf.alloc 11) 1 0) command 1) fct 3) /\
  Buf.writeInt32LE
    (Buf.store 4 (Buf.store 2 (Buf.store 1 (Buf.alloc 11) 1 0) command 1) fct 3) ext 7
    = Ok (prepareArgument command fct ext).
Proof.
  intros Hc Hf He. unfold Buf.writeInt8, Buf.writeInt16LE, Buf.writeInt32LE.
  split; [|split; [|split]].
  - reflexivity.
  - rewrite writeIntLE_ok; [reflexivity | | |].
    + change (2 ^ (8 * Z.of_nat 2 - 1)) with 32768. lia.
    + lia.
    + buf_side.
  - rewrite writeIntLE_ok; [reflexivity | | |].
    + change (2 ^ (8 * Z.of_nat 4 - 1)) with 2147483648. lia.
    + lia.
    + buf_side.
  - rewrite writeIntLE_ok; [reflexivity | | |].
    + change (2 ^ (8 * Z.of_nat 4 - 1)) with 2147483648. lia.
    + lia.
    + buf_side.
Qed.

Lemma chunkPlan_length N C :
  0 < C -> 0 <= N -> Z.of_nat (List.length (chunkPlan N C)) = (N + C - 1) / C.
Proof.
  intros HC HN. unfold chunkPlan. rewrite List.length_app, length_map, length_seq.
  pose proof (Z.div_mod N C ltac:(lia)) as Hd.
  pose proof (Z.mod_pos_bound N C HC) as Hm.
  assert (0 <= N / C) by (apply Z.div_pos; lia).
  destruct (Z.eqb_spec (N mod C) 0) as [E|E]; cbn [List.length].
  - replace (Z.of_nat (Z.to_nat (N / C) + 0)) with (N / C) by lia.
    apply Z.div_unique with (r := C - 1); [left; lia | nia].
  - replace (Z.of_nat (Z.to_nat (N / C) + 1)) with (N / C + 1) by lia.
    apply Z.div_unique with (r := N mod C - 1); [left; lia | nia].
Qed.

Lemma tiles_full C : 0 < C -> forall n from to plan,
  tiles (from + Z.of_nat n * C) to plan ->
  tiles from to (map (fun i => (from + Z.of_nat i * C, C)) (seq 0 n) ++ plan).
Proof.
  intros HC. induction n as [|n IH]; intros from to plan H.
  - cbn [seq map app]. now rewrite Z.add_0_r in H.
  - cbn [seq map app tiles]. split; [lia|]. split; [exact HC|].
    rewrite <- seq_shift, map_map.
    replace (map (fun x => (from + Z.of_nat (S x) * C, C)) (seq 0 n))
      with (map (fun i => (from + C + Z.of_nat i * C, C)) (seq 0 n))
      by (apply map_ext; intros i; f_equal; lia).
    apply IH. replace (from + C + Z.of_nat n * C) with (from + Z.of_nat (S n) * C) by lia.
    exact H.
Qed.

Lemma chunkPlan_tiles N C : 0 < C -> 0 <= N -> tiles 0 N (chunkPlan N C).
Proof.
  intros HC HN. unfold chunkPlan.
  pose proof (Z.div_mod N C ltac:(lia)) as Hd.
  pose proof (Z.mod_pos_bound N C HC) as Hm.
  assert (0 <= N / C) by (apply Z.div_pos; lia).
  replace (map (fun i => (Z.of_nat i * C, C)) (seq 0 (Z.to_nat (N / C))))
    with (map (fun i => (0 + Z.of_nat i * C, C)) (seq 0 (Z.to_nat (N / C))))
    by (apply map_ext; intros i; f_equal).
  apply tiles_full; [exact HC|]. rewrite Z2Nat.id by assumption.
  destruct (Z.eqb_spec (N mod C) 0) as [E|E]; cbn [tiles]; nia.
Qed.

Lemma Forall_split {A} (P : A -> Prop) n l :
  Forall P l -> Forall P (firstn n l) /\ Forall P (skipn n l).
Proof. intros H. rewrite <- (firstn_skipn n l) in H. now apply Forall_app in H. Qed.

Lemma packets_count N C : 0 < C -> (N - N mod C) / C = N / C.
Proof.
  intros HC. pose proof (Z.div_mod N C ltac:(lia)) as Hd.
  symmetry. apply Z.div_unique with (r := 0); [left; lia | lia].
Qed.

(** What is left of [readWithBuffer] once the prepare request has been
    answered by a success reply other than CMD_DATA that announces [N] bytes. *)
Lemma prepare_phase z w command fct ext N prep evs :
  let C := if tcp z then 65472 else 16384 in
  ready z ->
  - 32768 <= command < 32768 ->
  - 2147483648 <= fct < 2147483648 -> - 2147483648 <= ext < 2147483648 ->
  framed prep -> codeOf prep = CMD_ACK_OK -> Buf.readUInt32LE (dataOf prep) 1 = Ok N ->
  inbox w = frame (tcp z) prep :: evs ->
  exists z1 w0,
    request (tcp z) w0 = (_CMD_PREPARE_BUFFER, prepareArgument command fct ext) /\
    ready z1 /\ tcp z1 = tcp z /\
    readWithBuffer command fct ext z w
    = ('(chunks, start) <- readChunks (Z.to_nat (N / C)) C 0 [] ;;
       '(chunks, start) <-
         (if JS.truthy (N mod C)
          then chunk <- _readChunk start (N mod C) ;;
               ret (chunks ++ [chunk], start + N mod C)
          else ret (chunks, start)) ;;
       _sendCommand CMD_FREE_DATA [] ;;;
       ret (List.concat chunks, start))
        z1 (mkWorld (reachable w) (opened w) (closed w) (outbox w ++ [w0]) evs).
Proof.
  intros C Hr Hc Hf He Hprep Hcode Hsize Hi.
  assert (HC : 0 < C) by (unfold C; destruct (tcp z); lia).
  destruct (prepare_payload command fct ext Hc Hf He) as (P1 & P2 & P3 & P4).
  pose proof Hr as (Hcon & Hsock & Hsid & Hrid).
  destruct (sendCommand_frame z w _CMD_PREPARE_BUFFER (prepareArgument command fct ext)
              prep evs) as (w0 & Hreq0 & Hsend0); try assumption.
  { right. right. exact Hcon. }
  { unfold _CMD_PREPARE_BUFFER. lia. }
  { unfold prepareArgument, Buf.length. cbn [List.length].
    rewrite !List.length_app, !length_le_split. lia. }
  eexists. exists w0. split; [exact Hreq0|]. split; [apply ready_after; exact Hr|].
  split; [reflexivity|].
  unfold readWithBuffer. unfold bind at 1. unfold this at 1.
  change (if tcp z then 65472 else 16 * 1024) with C.
  unfold bind at 1, lift at 1. rewrite P1.
  unfold bind at 1, lift at 1. rewrite P2.
  unfold bind at 1, lift at 1. rewrite P3.
  unfold bind at 1, lift at 1. rewrite P4.
  unfold bind at 1. rewrite Hsend0. cbn [status code data].
  replace (okCode (codeOf prep)) with true by (symmetry; rewrite Hcode; reflexivity).
  rewrite Hcode. cbn [negb]. change (CMD_ACK_OK =? CMD_DATA) with false. cbv iota.
  unfold bind at 1, lift at 1. rewrite Hsize.
  rewrite packets_count by lia. reflexivity.
Qed.

(** The remainder chunk, when it is answered. *)
Lemma remainder_ok z w start remain chunks replies rest :
  ready z -> 0 <= start < 2147483648 -> 0 <= remain < 2147483648 ->
  List.length replies = (if (remain =? 0)%Z then 0 else 1)%nat -> Forall okReply replies ->
  inbox w = map (frame (tcp z)) replies ++ rest ->
  exists z' w' written,
    (if JS.truthy remain
     then chunk <- _readChunk start remain ;; ret (chunks ++ [chunk], start + remain)
     else ret (chunks, start)) z w
    = (Ok (chunks ++ map dataOf replies, start + remain), z', w') /\
    ready z' /\ tcp z' = tcp z /\ inbox w' = rest /\
    outbox w' = outbox w ++ written /\
    map (request (tcp z)) written
    = map readRequest (if remain =? 0 then [] else [(start, remain)]).
Proof.
  intros Hr Hs Hm Hl Hok Hi. unfold JS.truthy.
  destruct (Z.eqb_spec remain 0) as [E|E]; cbn [negb].
  - destruct replies; [|discriminate]. exists z, w, []. cbn [map app] in *.
    unfold ret. rewrite !app_nil_r, E, Z.add_0_r.
    split; [reflexivity|]. split; [assumption|]. split; [reflexivity|].
    split; [assumption|]. split; reflexivity.
  - destruct replies as [|raw [|? ?]]; try discriminate.
    inversion Hok as [|? ? Hraw _]; subst. cbn [map app] in Hi.
    destruct (readChunk_ok z w start remain raw rest)
      as (wr & Hreq & Hstep); try assumption; try lia.
    eexists. eexists. exists [wr]. unfold bind, ret. rewrite Hstep.
    split; [reflexivity|]. split; [now apply ready_after|]. split; [reflexivity|].
    split; [reflexivity|]. split; [reflexivity|]. cbn [map]. now rewrite Hreq.
Qed.

(** C4 (as amended).  Let the reply to the prepare request be CMD_ACK_OK
    announcing [N] bytes with 0 < N < 2^31, let [C] be 0xFFC0 on the stream
    carrier and 16384 on the datagram carrier, and let every chunk request be
    answered by a success reply.  Then [readWithBuffer] sends, after the
    prepare request, exactly the chunk requests of [chunkPlan N C] - N / C
    requests of size C at 0, C, 2C, ..., then one of size N mod C when that is
    not 0 - followed by CMD_FREE_DATA; these are ceil(N / C) requests whose
    ranges tile [0, N); and it returns the concatenated data with size [N]. *)
Theorem readWithBuffer_chunks z w command fct ext N prep replies free rest :
  let C := if tcp z then 65472 else 16384 in
  ready z ->
  - 32768 <= command < 32768 ->
  - 2147483648 <= fct < 2147483648 -> - 2147483648 <= ext < 2147483648 ->
  0 < N < 2147483648 ->
  framed prep -> codeOf prep = CMD_ACK_OK -> Buf.readUInt32LE (dataOf prep) 1 = Ok N ->
  List.length replies = List.length (chunkPlan N C) -> Forall okReply replies ->
  framed free ->
  inbox w = map (frame (tcp z)) (prep :: replies ++ [free]) ++ rest ->
  exists z' w' written,
    readWithBuffer command fct ext z w
      = (Ok (List.concat (map dataOf replies), N), z', w') /\
    inbox w' = rest /\
    outbox w' = outbox w ++ written /\
    map (request (tcp z)) written
      = (_CMD_PREPARE_BUFFER, prepareArgument command fct ext)
        :: map readRequest (chunkPlan N C) ++ [(CMD_FREE_DATA, [])] /\
    Z.of_nat (List.length (chunkPlan N C)) = (N + C - 1) / C /\
    tiles 0 N (chunkPlan N C).
Proof.
  intros C Hr Hc Hf He HN Hprep Hcode Hsize Hlen Hok Hfree Hi.
  assert (HC : 0 < C < 2147483648) by (unfold C; destruct (tcp z); lia).
  pose proof (Z.div_mod N C ltac:(lia)) as Hd.
  pose proof (Z.mod_pos_bound N C ltac:(lia)) as Hm.
  assert (Hq : 0 <= N / C) by (apply Z.div_pos; lia).
  cbn [map app] in Hi.
  destruct (prepare_phase z w command fct ext N prep _ Hr Hc Hf He Hprep Hcode Hsize Hi)
    as (z1 & w0 & Hreq0 & Hr1 & Ht1 & Hrun). fold C in Hrun.
  set (w1 := mkWorld _ _ _ _ _) in Hrun.
  set (packets := Z.to_nat (N / C)) in *.
  assert (Hplan : List.length replies
                  = (packets + (if (N mod C =? 0)%Z then 0 else 1))%nat).
  { rewrite Hlen. unfold chunkPlan. rewrite List.length_app, length_map, length_seq.
    destruct (N mod C =? 0); reflexivity. }
  destruct (Forall_split okReply packets replies Hok) as [Hok1 Hok2].
  (* the full chunks *)
  destruct (readChunks_ok C HC packets 0 [] z1 w1 (firstn packets replies)
              (map (frame (tcp z)) (skipn packets replies) ++ frame (tcp z) free :: rest))
    as (z2 & w2 & wr2 & Hrun2 & Hr2 & Ht2 & Hi2 & Ho2 & Hq2); try assumption.
  { lia. }
  { unfold packets. rewrite Z2Nat.id by assumption. nia. }
  { rewrite length_firstn. lia. }
  { unfold w1. cbn [inbox]. rewrite Ht1. rewrite <- (firstn_skipn packets replies) at 1.
    rewrite <- !app_assoc, !map_app, <- !app_assoc. reflexivity. }
  rewrite Ht1 in *. rewrite Z.add_0_l in Hrun2. cbn [app] in Hrun2.
  (* the remainder chunk *)
  destruct (remainder_ok z2 w2 (Z.of_nat packets * C) (N mod C)
              (map dataOf (firstn packets replies)) (skipn packets replies)
              (frame (tcp z) free :: rest))
    as (z3 & w3 & wr3 & Hrun3 & Hr3 & Ht3 & Hi3 & Ho3 & Hq3); try assumption.
  { unfold packets. rewrite Z2Nat.id by assumption. nia. }
  { lia. }
  { rewrite length_skipn. lia. }
  { now rewrite Ht2. }
  rewrite Ht2 in *.
  assert (HN' : Z.of_nat packets * C + N mod C = N)
    by (unfold packets; rewrite Z2Nat.id by assumption; lia).
  (* the free request *)
  pose proof Hr3 as (Hcon3 & Hsock3 & Hsid3 & Hrid3).
  destruct (sendCommand_frame z3 w3 CMD_FREE_DATA [] free rest)
    as (w4 & Hreq4 & Hsend4); try assumption.
  { right. right. exact Hcon3. }
  { unfold CMD_FREE_DATA. lia. }
  { cbn. lia. }
  { now rewrite Ht3. }
  rewrite Ht3 in *.
  eexists. eexists. exists (w0 :: wr2 ++ wr3 ++ [w4]).
  split; [|split; [|split; [|split; [|split]]]].
  - rewrite Hrun. unfold bind at 1. rewrite Hrun2.
    unfold bind at 1. rewrite Hrun3.
    unfold bind at 1. rewrite Hsend4. unfold ret.
    rewrite <- map_app, firstn_skipn, HN'. reflexivity.
  - reflexivity.
  - cbn [outbox]. rewrite Ho3, Ho2. unfold w1. cbn [outbox].
    rewrite <- !app_assoc. reflexivity.
  - cbn [map]. rewrite Hreq0. f_equal. rewrite !map_app. cbn [map].
    rewrite Hq2, Hq3, Hreq4.
    unfold chunkPlan. fold packets. rewrite map_app, map_map, <- app_assoc.
    replace (N / C * C) with (Z.of_nat packets * C)
      by (unfold packets; now rewrite Z2Nat.id by assumption).
    f_equal.
  - apply chunkPlan_length; lia.
  - apply chunkPlan_tiles; lia.
Qed.

(** *** When a chunk read fails *)








Lemma readWithBuffer_chunks_witness :
  let z := Demo.udpClient in
  let N := 20000 in
  let replies := [Demo.dataReply; Demo.dataReply] in
  let w := Demo.net false (Demo.announce N :: replies ++ [Demo.ackReply]) in
  exists z' w' written,
    readWithBuffer CMD_USERTEMP_RRQ FCT_USER 0 z w
      = (Ok (List.concat (map dataOf replies), N), z', w') /\
    inbox w' = [] /\
    outbox w' = outbox w ++ written /\
    map (request (tcp z)) written
      = (_CMD_PREPARE_BUFFER, prepareArgument CMD_USERTEMP_RRQ FCT_USER 0)
        :: map readRequest (chunkPlan N 16384) ++ [(CMD_FREE_DATA, [])] /\
    Z.of_nat (List.length (chunkPlan N 16384)) = (N + 16384 - 1) / 16384 /\
    tiles 0 N (chunkPlan N 16384).
Proof.
  intros z N replies w.
  apply (readWithBuffer_chunks z w CMD_USERTEMP_RRQ FCT_USER 0 N (Demo.announce N)
           replies Demo.ackReply []).
  - repeat split; vm_compute; congruence.
  - vm_compute. split; congruence.
  - vm_compute. split; congruence.
  - lia.
  - lia.
  - vm_compute. split; congruence.
  - reflexivity.
  - reflexivity.
  - reflexivity.
  - repeat constructor; vm_compute; congruence.
  - vm_compute. split; congruence.
  - reflexivity.
Defined.

Example chunkPlan_spec_scenario :
  chunkPlan 0x12345 0xFFC0 = [(0, 0xFFC0); (0xFFC0, 0x2385)].
Proof. reflexivity. Qed.

(** A chunk whose start does not fit a signed 32-bit field cannot be requested. *)
Lemma readChunk_start_overflow start size z w :
  2147483648 <= start -> _readChunk start size z w = (Throw RangeError, z, w).
Proof.
  intros H. unfold _readChunk, bind, lift, Buf.writeInt32LE, Buf.writeIntLE.
  change (2 ^ (8 * Z.of_nat 4 - 1)) with 2147483648.
  replace (start <? 2147483648) with false by (symmetry; apply Z.ltb_ge; lia).
  now rewrite andb_false_r.
Qed.

(** The run of the counterexample below up to the chunk loop. *)
Lemma overflow_run_prepare :
  let N := 2147547073 in
  let w := Demo.net true (Demo.announce N
                          :: repeat Demo.dataReply (Z.to_nat 32801)
                             ++ [Demo.dataReply; Demo.ackReply]) in
  exists z1 w1, ready z1 /\ tcp z1 = true /\
    inbox w1 = map (frame true) (repeat Demo.dataReply (Z.to_nat 32801)
                                 ++ [Demo.dataReply; Demo.ackReply]) /\
    readWithBuffer CMD_USERTEMP_RRQ FCT_USER 0 Demo.tcpClient w
    = ('(chunks, start) <- readChunks (Z.to_nat 32801) 65472 0 [] ;;
       '(chunks, start) <-
         (if JS.truthy 1
          then chunk <- _readChunk start 1 ;;
               ret (chunks ++ [chunk], start + 1)
          else ret (chunks, start)) ;;
       _sendCommand CMD_FREE_DATA [] ;;;
       ret (List.concat chunks, start)) z1 w1.
Proof.
  intros N w.
  assert (Hr : ready Demo.tcpClient) by (repeat split; vm_compute; congruence).
  destruct (prepare_phase Demo.tcpClient w CMD_USERTEMP_RRQ FCT_USER 0 N (Demo.announce N)
              (map (frame true) (repeat Demo.dataReply (Z.to_nat 32801)
                                 ++ [Demo.dataReply; Demo.ackReply])) Hr)
    as (z1 & w0 & _ & Hr1 & Ht1 & Hrun).
  - vm_compute; split; congruence.
  - vm_compute; split; congruence.
  - vm_compute; split; congruence.
  - vm_compute; split; congruence.
  - reflexivity.
  - reflexivity.
  - reflexivity.
  - eexists. eexists. split; [exact Hr1|]. split; [exact Ht1|]. split; [|exact Hrun].
    reflexivity.
Qed.

(** The 32801 full chunks of that run are read. *)
Lemma overflow_run_full_chunks z1 w1 : ready z1 -> tcp z1 = true ->
  inbox w1 = map (frame true) (repeat Demo.dataReply (Z.to_nat 32801)
                                 ++ [Demo.dataReply; Demo.ackReply]) ->
  exists z2 w2 chunks,
    readChunks (Z.to_nat 32801) 65472 0 [] z1 w1 = (Ok (chunks, 2147547072), z2, w2) /\
    inbox w2 = map (frame true) [Demo.dataReply; Demo.ackReply].
Proof.
  intros Hr1 Ht1 Hi.
  destruct (readChunks_ok 65472 ltac:(lia) (Z.to_nat 32801) 0 [] z1 w1
              (repeat Demo.dataReply (Z.to_nat 32801))
              (map (frame true) [Demo.dataReply; Demo.ackReply]))
    as (z2 & w2 & wr2 & Hrun2 & Hr2 & Ht2 & Hi2 & Ho2 & Hq2); try assumption.
  { lia. }
  { rewrite Z2Nat.id by lia. lia. }
  { apply repeat_length. }
  { apply Forall_forall. intros x Hx. apply repeat_spec in Hx. subst x.
    split; [vm_compute; split; congruence | reflexivity]. }
  { rewrite Ht1, Hi. now rewrite map_app. }
  rewrite Z2Nat.id, Z.add_0_l in Hrun2 by lia. change (32801 * 65472) with 2147547072 in Hrun2.
  exists z2, w2. eexists. split; [exact Hrun2 | exact Hi2].
Qed.

(** C4 as stated fails when the announced length does not fit the signed
    32-bit start field: for N = 32801 * 0xFFC0 + 1 on the stream carrier, with
    every request answered, the call raises [RangeError] at the last chunk,
    whose start is 2147547072, and leaves the last chunk's answer unread. *)
Lemma readWithBuffer_start_beyond_int32 :
  let N := 2147547073 in
  let w := Demo.net true (Demo.announce N
                          :: repeat Demo.dataReply (Z.to_nat 32801)
                             ++ [Demo.dataReply; Demo.ackReply]) in
  0 < N < 4294967296 /\
  (N + 65472 - 1) / 65472 = 32802 /\
  exists z' w',
    readWithBuffer CMD_USERTEMP_RRQ FCT_USER 0 Demo.tcpClient w
      = (Throw RangeError, z', w') /\
    inbox w' = map (frame true) [Demo.dataReply; Demo.ackReply].
Proof.
  intros N w. split; [lia|]. split; [reflexivity|].
  destruct overflow_run_prepare as (z1 & w1 & Hr1 & Ht1 & Hi1 & Hrun).
  destruct (overflow_run_full_chunks z1 w1 Hr1 Ht1 Hi1) as (z2 & w2 & chunks & Hrun2 & Hi2).
  exists z2, w2. split; [|exact Hi2].
  subst w. subst N. cbv zeta in Hrun. rewrite Hrun. unfold bind at 1. rewrite Hrun2.
  change (JS.truthy 1) with true. cbv iota.
  unfold bind at 1. unfold bind at 1.
  rewrite readChunk_start_overflow by lia. reflexivity.
Qed.


End BulkReadFacts.
Module SessionFacts.
Import CONST Zk Wire BufFacts CodecFacts TransportFacts.




(** C10.  On a connected client [connect] returns the instance at once: the
    instance (session id, reply id and all other fields) and the network (no
    socket opened or closed, nothing written, nothing read) are unchanged. *)
Theorem connect_when_connected z w :
  isConnected z = true -> connect z w = (Ok z, z, w).
Proof. intros H. unfold connect, bind, this, ret. now rewrite H. Qed.

Lemma connect_when_connected_witness :
  isConnected Demo.tcpClient = true /\
  connect Demo.tcpClient (Demo.net true [])
  = (Ok Demo.tcpClient, Demo.tcpClient, Demo.net true []).
Proof.
  split; [reflexivity|].
  apply (connect_when_connected Demo.tcpClient (Demo.net true [])). reflexivity.
Defined.

(** On a client that is not connected, [connect] opens a socket and sends
    CMD_CONNECT. *)
Example connect_fresh :
  let run := connect (new 0 true) (mkWorld true 0 0 [] [Message Demo.ackReply]) in
  fst (fst run) = Ok (snd (fst run)) /\
  isConnected (snd (fst run)) = true /\ sessionId (snd (fst run)) = 7 /\
  opened (snd run) = 1%nat /\ Demo.sentCommands false (snd run) = [CMD_CONNECT].
Proof. vm_compute. repeat split. Qed.
End SessionFacts.

(** ** Calls that come back, users and the requests of [setUser] *)

Module ReturnFacts.
Import CONST Zk Wire.

Lemma res_bind_total {A B} (r : res A) (k : A -> res B) :
  r <> OutOfFuel -> (forall a, k a <> OutOfFuel) -> res_bind r k <> OutOfFuel.
Proof. intros Hr Hk. destruct r; cbn; [apply Hk | discriminate | now elim Hr]. Qed.

Lemma readUIntLE_total n b off : Buf.readUIntLE n b off <> OutOfFuel.
Proof. unfold Buf.readUIntLE. destruct (Buf.inBounds b off n); discriminate. Qed.

Lemma readIntLE_total n b off : Buf.readIntLE n b off <> OutOfFuel.
Proof.
  unfold Buf.readIntLE. apply res_bind_total; [apply readUIntLE_total | discriminate].
Qed.

Lemma writeUIntLE_total n b v off : Buf.writeUIntLE n b v off <> OutOfFuel.
Proof.
  unfold Buf.writeUIntLE.
  destruct ((0 <=? v) && (v <? 2 ^ (8 * Z.of_nat n))), (Buf.inBounds b off n); discriminate.
Qed.

Lemma writeIntLE_total n b v off : Buf.writeIntLE n b v off <> OutOfFuel.
Proof.
  unfold Buf.writeIntLE. cbv zeta.
  destruct ((- 2 ^ (8 * Z.of_nat n - 1) <=? v) && (v <? 2 ^ (8 * Z.of_nat n - 1))),
    (Buf.inBounds b off n); discriminate.
Qed.

Lemma res_mapM_total {A B} (f : A -> res B) l :
  (forall a, f a <> OutOfFuel) -> res_mapM f l <> OutOfFuel.
Proof.
  intros Hf. induction l as [|a l IH]; cbn [res_mapM]; [discriminate|].
  specialize (Hf a). destruct (f a); try congruence.
  apply res_bind_total; [exact IH | discriminate].
Qed.

Ltac pure_total :=
  repeat first
    [ discriminate
    | apply readUIntLE_total | apply readIntLE_total
    | apply writeUIntLE_total | apply writeIntLE_total
    | apply res_mapM_total; intros ?
    | apply res_bind_total; [|intros ?]
    | match goal with
      | |- (if ?c then _ else _) <> OutOfFuel => destruct c
      | |- (match ?c with _ => _ end) <> OutOfFuel => destruct c
      end ].

Lemma createHeader_total command cs session reply :
  Utils.createHeader command cs session reply <> OutOfFuel.
Proof. unfold Utils.createHeader. pure_total. Qed.

Lemma createTcpTop_total packet : Utils.createTcpTop packet <> OutOfFuel.
Proof. unfold Utils.createTcpTop. pure_total. Qed.

Lemma readHeader_total b : Utils.readHeader b <> OutOfFuel.
Proof. unfold Utils.readHeader. pure_total. Qed.

Lemma validateTcpTop_total b : _validateTcpTop b <> OutOfFuel.
Proof. unfold _validateTcpTop. pure_total. Qed.

(** *** Calls that come back *)

Lemma returns_ret {A} (a : A) : returns (ret a).
Proof. intros z w. discriminate. Qed.

Lemma returns_throw {A} e : returns (@throw A e).
Proof. intros z w. discriminate. Qed.

Lemma returns_lift {A} (r : res A) : r <> OutOfFuel -> returns (lift r).
Proof. intros H z w. exact H. Qed.

Lemma returns_this : returns this.
Proof. intros z w. discriminate. Qed.

Lemma returns_update f : returns (update f).
Proof. intros z w. discriminate. Qed.

Lemma returns_bind {A B} (m : M A) (k : A -> M B) :
  returns m -> (forall a, returns (k a)) -> returns (bind m k).
Proof.
  intros Hm Hk z w. unfold bind. specialize (Hm z w).
  destruct (m z w) as [[[a| |] z'] w']; cbn in *; [apply Hk | discriminate | congruence].
Qed.

Lemma onData_total events : forall merged total target,
  fst (onData events merged total target) <> OutOfFuel.
Proof.
  induction events as [|[chunk|] events IH]; intros merged total target;
    cbn [onData]; try discriminate.
  destruct (match target with Some tg => Some tg | None => _ end) as [tg|]; [|apply IH].
  destruct (tg <=? total + Buf.length chunk); [|apply IH].
  cbn [fst]. apply res_bind_total; [apply validateTcpTop_total|].
  intros []; pure_total.
Qed.

Lemma returns_sendTcp packet : returns (_sendTcp packet).
Proof.
  intros z w. unfold _sendTcp.
  pose proof (createTcpTop_total packet) as H.
  destruct (Utils.createTcpTop packet); try congruence; [|discriminate].
  destruct (negb (socket z)); [discriminate|].
  pose proof (onData_total (inbox w) [] 0 None) as H'.
  destruct (onData (inbox w) [] 0 None). exact H'.
Qed.

Lemma returns_sendUdp packet : returns (_sendUdp packet).
Proof.
  intros z w. unfold _sendUdp. destruct (negb (socket z)); [discriminate|].
  cbn [inbox]. destruct (inbox w) as [|[|] ?]; discriminate.
Qed.

Ltac returns_step :=
  first
    [ apply returns_ret | apply returns_throw | apply returns_this | apply returns_update
    | apply returns_sendTcp | apply returns_sendUdp
    | apply returns_lift; pure_total
    | apply returns_bind; [|intros ?]
    | match goal with
      | |- returns (if ?c then _ else _) => destruct c
      | |- returns (match ?c with _ => _ end) => destruct c
      end ].

Lemma returns_sendCommand command cs : returns (_sendCommand command cs).
Proof.
  unfold _sendCommand. repeat returns_step.
Qed.

Lemma returns_readSizes : returns readSizes.
Proof.
  unfold readSizes. apply returns_bind; [apply returns_sendCommand|]. intros r.
  repeat returns_step.
Qed.

Lemma returns_readChunk start size : returns (_readChunk start size).
Proof.
  unfold _readChunk.
  apply returns_bind; [apply returns_lift, writeIntLE_total|]. intros p1.
  apply returns_bind; [apply returns_lift, writeIntLE_total|]. intros p2.
  apply returns_bind; [apply returns_sendCommand|]. intros r.
  repeat returns_step.
Qed.

Lemma returns_readChunks C packets : forall start chunks,
  returns (readChunks packets C start chunks).
Proof.
  induction packets as [|packets IH]; intros start chunks; cbn [readChunks].
  - apply returns_ret.
  - apply returns_bind; [apply returns_readChunk|]. intros chunk. apply IH.
Qed.

Lemma returns_readWithBuffer command fct ext : returns (readWithBuffer command fct ext).
Proof.
  unfold readWithBuffer.
  apply returns_bind; [apply returns_this|]. intros z.
  do 4 (apply returns_bind; [apply returns_lift, writeIntLE_total|]; intros ?).
  apply returns_bind; [apply returns_sendCommand|]. intros prep.
  destruct (negb (status prep)); [apply returns_throw|].
  destruct (code prep =? CMD_DATA); [apply returns_ret|].
  apply returns_bind; [apply returns_lift, readUIntLE_total|]. intros size.
  apply returns_bind; [apply returns_readChunks|]. intros [chunks start].
  apply returns_bind.
  - destruct (JS.truthy _); [|apply returns_ret].
    apply returns_bind; [apply returns_readChunk|]. intros chunk. apply returns_ret.
  - intros [chunks' start'].
    apply returns_bind; [apply returns_sendCommand|]. intros _. apply returns_ret.
Qed.
End ReturnFacts.

Module UsersFacts.
Import CONST Zk Wire ReturnFacts.

Lemma StringOf_inj n m : 0 <= n -> 0 <= m -> JS.StringOf n = JS.StringOf m -> n = m.
Proof.
  intros Hn Hm. unfold JS.StringOf.
  rewrite (proj2 (Z.ltb_ge n 0) Hn), (proj2 (Z.ltb_ge m 0) Hm). intros H.
  assert (Hu : N.to_uint (Z.to_N n) = N.to_uint (Z.to_N m)).
  { apply (f_equal NilEmpty.uint_of_string) in H. rewrite !NilEmpty.usu in H. congruence. }
  apply DecimalN.Unsigned.to_uint_inj in Hu. lia.
Qed.

Section WithRuntime.
Context {rt : JS.Runtime}.

Lemma parseUser28_total data offset : parseUser28 data offset <> OutOfFuel.
Proof. unfold parseUser28. pure_total. Qed.

Lemma parseUser72_total data offset : parseUser72 data offset <> OutOfFuel.
Proof. unfold parseUser72. pure_total. Qed.

Lemma parseLoop_total body width turns data :
  (forall d o, body d o <> OutOfFuel) ->
  forall offset users maxUid,
    parseLoop body width turns data offset users maxUid <> OutOfFuel.
Proof.
  intros Hb. induction turns as [|turns IH]; intros offset users maxUid;
    cbn [parseLoop]; [discriminate|].
  apply res_bind_total; [apply Hb|]. intros u. apply IH.
Qed.

(** The running maximum bounds the uid of every parsed record. *)
Lemma parseLoop_max body width turns data :
  forall offset users maxUid users' maxUid',
    parseLoop body width turns data offset users maxUid = Ok (users', maxUid') ->
    Forall (fun u => User.uid u <= maxUid) users ->
    Forall (fun u => User.uid u <= maxUid') users' /\ maxUid <= maxUid'.
Proof.
  induction turns as [|turns IH]; intros offset users maxUid users' maxUid' H Hall;
    cbn [parseLoop] in H.
  - injection H as <- <-. split; [assumption | lia].
  - destruct (body data offset) as [u| |]; cbn [res_bind] in H; try discriminate.
    apply IH in H.
    + destruct H as [H1 H2]. split; [exact H1|].
      destruct (Z.gtb_spec (User.uid u) maxUid); lia.
    + apply Forall_app. split.
      * eapply Forall_impl; [|exact Hall]. cbv beta. intros v Hv.
        destruct (Z.gtb_spec (User.uid u) maxUid); lia.
      * constructor; [|constructor].
        destruct (Z.gtb_spec (User.uid u) maxUid); lia.
Qed.

(** The collision loop comes to an end: every turn that finds a collision
    uses up one of the user-id strings that later candidates can still hit. *)
Lemma freshLoop_terminates users :
  forall fuel (pool : list string) z w,
    (List.length pool < fuel)%nat ->
    0 <= nextUid z ->
    nextUserId z = JS.StringOf (nextUid z) ->
    (forall m, nextUid z <= m ->
       In (JS.StringOf m) (map User.userId users) -> In (JS.StringOf m) pool) ->
    exists z',
      freshLoop fuel users z w = (Ok tt, z', w) /\
      nextUid z <= nextUid z' /\
      existsb (fun u => String.eqb (User.userId u) (nextUserId z')) users = false.
Proof.
  induction fuel as [|fuel IH]; intros pool z w Hlen Hpos Hid Hpool; [lia|].
  cbn [freshLoop]. unfold bind at 1, this.
  destruct (existsb _ users) eqn:Hex.
  - apply existsb_exists in Hex. destruct Hex as (u & Hu & Heq).
    apply String.eqb_eq in Heq.
    assert (Hin : In (JS.StringOf (nextUid z)) pool).
    { apply Hpool; [lia|]. rewrite <- Hid, <- Heq. now apply in_map. }
    set (z1 := set_nextUserId (JS.StringOf (nextUid z + 1)) (set_nextUid (nextUid z + 1) z)).
    destruct (IH (remove string_dec (JS.StringOf (nextUid z)) pool) z1 w)
      as (z' & Hrun & Hle & Hfresh).
    + pose proof (remove_length_lt string_dec pool _ Hin). lia.
    + cbn. lia.
    + reflexivity.
    + intros m Hm Hi. cbn in Hm. apply in_in_remove.
      * intros E. apply StringOf_inj in E; lia.
      * apply Hpool; [lia | exact Hi].
    + exists z'. split; [exact Hrun|]. split; [cbn in Hle; lia | exact Hfresh].
  - exists z. split; [reflexivity|]. split; [lia | exact Hex].
Qed.

(** More turns than needed change nothing. *)
Lemma freshLoop_more users :
  forall fuel z w z' w',
    freshLoop fuel users z w = (Ok tt, z', w') ->
    forall fuel', (fuel <= fuel')%nat -> freshLoop fuel' users z w = (Ok tt, z', w').
Proof.
  induction fuel as [|fuel IH]; intros z w z' w' H fuel' Hle; [discriminate H|].
  destruct fuel' as [|fuel']; [lia|].
  cbn [freshLoop] in *. unfold bind at 1, this in H. unfold bind at 1, this.
  destruct (existsb _ users); [|exact H].
  unfold bind at 1, update in H. unfold bind at 1, update in H.
  unfold bind at 1, update. unfold bind at 1, update.
  eapply IH; [exact H | lia].
Qed.

(** C8: [getUsers] comes back when the collision loop is given enough turns,
    and when it returns users the [nextUid] hint is above the uid of each of
    them and the [nextUserId] hint is the user-id string of none of them. *)
Theorem getUsers_hints z w :
  exists fuel0 out z' w',
    (forall fuel, (fuel0 <= fuel)%nat -> getUsers fuel z w = (out, z', w')) /\
    out <> OutOfFuel /\
    forall users, out = Ok users ->
      Forall (fun u => User.uid u < nextUid z') users /\
      Forall (fun u => User.userId u <> nextUserId z') users.
Proof.
  unfold getUsers.
  pose proof (returns_readSizes z w) as T1. unfold bind at 1.
  destruct (readSizes z w) as [[[b1| |] z1] w1]; cbn [fst] in T1; [| |congruence];
    [|exists 0%nat; do 3 eexists; split; [intros; reflexivity|]; split; [discriminate|];
      intros ? [=]].
  clear T1. unfold bind at 1, this.
  destruct (negb (JS.truthy (usersCount z1))).
  { exists 0%nat. do 3 eexists. split; [intros; reflexivity|]. split; [discriminate|].
    intros users [= <-]. split; constructor. }
  pose proof (returns_readWithBuffer CMD_USERTEMP_RRQ FCT_USER 0 z1 w1) as T2.
  unfold bind at 1.
  destruct (readWithBuffer CMD_USERTEMP_RRQ FCT_USER 0 z1 w1) as [[[[buffer size]| |] z2] w2];
    cbn [fst] in T2; [| |congruence];
    [|exists 0%nat; do 3 eexists; split; [intros; reflexivity|]; split; [discriminate|];
      intros ? [=]].
  clear T2. destruct (size <=? 4).
  { exists 0%nat. do 3 eexists. split; [intros; reflexivity|]. split; [discriminate|].
    intros users [= <-]. split; constructor. }
  unfold bind at 1, lift.
  pose proof (readUIntLE_total 4 buffer 0) as T3. unfold Buf.readUInt32LE.
  destruct (Buf.readUIntLE 4 buffer 0) as [totalSize| |]; [| |congruence];
    [|exists 0%nat; do 3 eexists; split; [intros; reflexivity|]; split; [discriminate|];
      intros ? [=]].
  clear T3. unfold bind at 1, update. unfold bind at 1, this.
  set (z3 := set_userPacketSize _ z2).
  set (data := Buf.sliceFrom buffer 4).
  set (parsed := if userPacketSize z3 =? 28 then _ else _).
  assert (T4 : parsed <> OutOfFuel).
  { unfold parsed. destruct (userPacketSize z3 =? 28); apply parseLoop_total;
      [apply parseUser28_total | apply parseUser72_total]. }
  assert (Hmax : forall users maxUid, parsed = Ok (users, maxUid) ->
            Forall (fun u => User.uid u <= maxUid) users /\ 0 <= maxUid).
  { unfold parsed. intros users maxUid H.
    destruct (userPacketSize z3 =? 28); apply parseLoop_max in H; auto. }
  unfold bind at 1, lift.
  destruct parsed as [[users maxUid]| |]; [| |congruence];
    [|exists 0%nat; do 3 eexists; split; [intros; reflexivity|]; split; [discriminate|];
      intros ? [=]].
  destruct (Hmax users maxUid eq_refl) as [Hall Hpos]. clear T4 Hmax.
  unfold bind at 1, update. unfold bind at 1.
  set (z4 := set_nextUserId _ (set_nextUid (maxUid + 1) z3)).
  destruct (freshLoop_terminates users (S (List.length users)) (map User.userId users) z4 w2)
    as (z' & Hrun & Hle & Hfresh).
  - rewrite length_map. lia.
  - cbn. lia.
  - reflexivity.
  - intros m _ H. exact H.
  - exists (S (List.length users)), (Ok users), z', w2.
    split; [|split; [discriminate|]].
    + intros fuel Hfuel. unfold bind.
      rewrite (freshLoop_more users _ _ _ _ _ Hrun fuel Hfuel). reflexivity.
    + intros ? [= <-]. cbn in Hle. split.
      * eapply Forall_impl; [|exact Hall]. cbv beta. intros u Hu. lia.
      * apply Forall_forall. intros u Hu E.
        assert (Hex : existsb (fun u => String.eqb (User.userId u) (nextUserId z')) users
                      = true).
        { apply existsb_exists. exists u. split; [exact Hu|]. now apply String.eqb_eq. }
        congruence.
Qed.

End WithRuntime.

(** The same loop in [get_users] of zk/base.js, which leaves [next_uid] at
    the maximum plus one and advances only [next_user_id]. *)
Lemma base_freshLoop_terminates ids :
  forall fuel (pool : list string) m,
    (List.length pool < fuel)%nat -> 0 <= m ->
    (forall k, m <= k -> In (JS.StringOf k) ids -> In (JS.StringOf k) pool) ->
    exists m', Base.freshLoop fuel ids m = Some m' /\ m <= m' /\
               ~ In (JS.StringOf m') ids.
Proof.
  induction fuel as [|fuel IH]; intros pool m Hlen Hpos Hpool; [lia|].
  cbn [Base.freshLoop]. destruct (existsb _ ids) eqn:Hex.
  - apply existsb_exists in Hex. destruct Hex as (s & Hs & Heq).
    apply String.eqb_eq in Heq. subst s.
    pose proof (Hpool m (Z.le_refl m) Hs) as Hin.
    destruct (IH (remove string_dec (JS.StringOf m) pool) (m + 1)) as (m' & Hrun & Hle & Hfresh).
    + pose proof (remove_length_lt string_dec pool _ Hin). lia.
    + lia.
    + intros k Hk Hi. apply in_in_remove.
      * intros E. apply StringOf_inj in E; lia.
      * apply Hpool; [lia | exact Hi].
    + exists m'. split; [exact Hrun|]. split; [lia | exact Hfresh].
  - exists m. split; [reflexivity|]. split; [lia|].
    intros Hin. assert (Ht : existsb (String.eqb (JS.StringOf m)) ids = true).
    { apply existsb_exists. exists (JS.StringOf m). split; [exact Hin|]. apply String.eqb_refl. }
    congruence.
Qed.

Lemma base_nextHints_fresh ids maxUid fuel :
  0 <= maxUid -> (List.length ids < fuel)%nat ->
  exists m, Base.nextHints fuel ids maxUid = Some (maxUid + 1, JS.StringOf m) /\
            ~ In (JS.StringOf m) ids.
Proof.
  intros Hpos Hfuel. unfold Base.nextHints. cbv zeta.
  destruct (base_freshLoop_terminates ids fuel ids (maxUid + 1)) as (m & Hrun & _ & Hfresh);
    [assumption | lia | auto |].
  exists m. now rewrite Hrun.
Qed.

Import Demo.

(** Two 28-byte records with uids 1, 2 and user ids 3, 4: the hint starts at
    3 and is advanced twice. *)
Example getUsers_collisions :
  let w := net false [sizes 2; userData [rec28 1 3; rec28 2 4]] in
  let run := getUsers 3 udpClient w in
  (match fst (fst run) with
   | Ok users => map (fun u => (User.uid u, User.userId u)) users
   | _ => []
   end) = [(1, "3"%string); (2, "4"%string)] /\
  nextUid (snd (fst run)) = 5 /\ nextUserId (snd (fst run)) = "5"%string /\
  fst (fst (getUsers 2 udpClient w)) = OutOfFuel.
Proof. split; [|split; [|split]]; vm_compute; reflexivity. Qed.

End UsersFacts.

Module TraceFacts.
Import CONST Zk Wire BufFacts.

Lemma writeUIntLE_inv n b v off b' :
  Buf.writeUIntLE n b v off = Ok b' ->
  b' = Buf.store n b v off /\ 0 <= v < 2 ^ (8 * Z.of_nat n) /\
  0 <= off /\ off + Z.of_nat n <= Buf.length b.
Proof.
  unfold Buf.writeUIntLE, Buf.inBounds.
  destruct (Z.leb_spec 0 v), (Z.ltb_spec v (2 ^ (8 * Z.of_nat n))); cbn [andb];
    try discriminate.
  destruct (Z.leb_spec 0 off), (Z.leb_spec (off + Z.of_nat n) (Buf.length b)); cbn [andb];
    try discriminate.
  intros [= <-]. repeat split; assumption.
Qed.

Lemma le_split_2 v : le_split 2 v = [byte.of_Z v; byte.of_Z (Z.shiftr v 8)].
Proof. reflexivity. Qed.

(** A composed packet is an 8-byte header that starts with the command,
    followed by the payload. *)
Lemma createHeader_shape command cs session reply packet :
  Utils.createHeader command cs session reply = Ok packet ->
  Wire.request false packet = (command, cs).
Proof.
  unfold Utils.createHeader, Buf.writeUInt16LE, Buf.allocUnsafe. intros H.
  destruct (Buf.writeUIntLE 2 (Buf.alloc 8) command 0) as [h1| |] eqn:E1;
    cbn [res_bind] in H; try discriminate.
  destruct (Buf.writeUIntLE 2 h1 0 2) as [h2| |] eqn:E2; cbn [res_bind] in H; try discriminate.
  destruct (Buf.writeUIntLE 2 h2 session 4) as [h3| |] eqn:E3;
    cbn [res_bind] in H; try discriminate.
  cbv zeta in H.
  destruct (Buf.writeUIntLE 2 h3 _ 6) as [h4| |] eqn:E4; cbn [res_bind] in H; try discriminate.
  destruct (Buf.writeUIntLE 2 h4 _ 2) as [h5| |] eqn:E5; cbn [res_bind] in H; try discriminate.
  injection H as <-.
  apply writeUIntLE_inv in E1, E2, E3, E4, E5.
  destruct E1 as (-> & Hc & _), E2 as (-> & _), E3 as (-> & _), E4 as (-> & _), E5 as (-> & _).
  unfold Wire.request, Buf.store, Buf.alloc.
  change (8 * Z.of_nat 2) with 16 in Hc. change (2 ^ 16) with 65536 in Hc.
  rewrite !le_split_2.
  change (Z.to_nat 0) with 0%nat. change (Z.to_nat 2) with 2%nat.
  change (Z.to_nat 4) with 4%nat. change (Z.to_nat 6) with 6%nat.
  cbn [Nat.add repeat firstn skipn app].
  rewrite <- le_split_2, le_combine_split.
  change (2 ^ (Z.of_nat 2 * 8)) with 65536. now rewrite Z.mod_small by assumption.
Qed.

Lemma createTcpTop_shape packet top :
  Utils.createTcpTop packet = Ok top -> skipn 8 top = packet.
Proof.
  unfold Utils.createTcpTop, Buf.writeUInt16LE, Buf.writeUInt32LE, Buf.allocUnsafe. intros H.
  destruct (Buf.writeUIntLE 2 (Buf.alloc 8) _ 0) as [h1| |] eqn:E1;
    cbn [res_bind] in H; try discriminate.
  destruct (Buf.writeUIntLE 2 h1 _ 2) as [h2| |] eqn:E2; cbn [res_bind] in H; try discriminate.
  destruct (Buf.writeUIntLE 4 h2 _ 4) as [h3| |] eqn:E3; cbn [res_bind] in H; try discriminate.
  injection H as <-.
  apply writeUIntLE_inv in E1, E2, E3.
  destruct E1 as (-> & _), E2 as (-> & _), E3 as (-> & _).
  unfold Buf.store, Buf.alloc.
  rewrite !le_split_2.
  change (le_split 4 (Buf.length packet))
    with [byte.of_Z (Buf.length packet); byte.of_Z (Z.shiftr (Buf.length packet) 8);
          byte.of_Z (Z.shiftr (Z.shiftr (Buf.length packet) 8) 8);
          byte.of_Z (Z.shiftr (Z.shiftr (Z.shiftr (Buf.length packet) 8) 8) 8)].
  change (Z.to_nat 0) with 0%nat. change (Z.to_nat 2) with 2%nat.
  change (Z.to_nat 4) with 4%nat.
  reflexivity.
Qed.

(** What one exchange on the carrier writes: nothing, or the packet (inside
    the envelope on the stream carrier). *)
Lemma transport_writes z w packet :
  let run := (if tcp z then _sendTcp packet else _sendUdp packet) z w in
  snd (fst run) = z /\
  (outbox (snd run) = outbox w ++ [] \/
   exists written, outbox (snd run) = outbox w ++ [written] /\
                   (if tcp z then skipn 8 written else written) = packet).
Proof.
  cbv zeta. destruct (tcp z).
  - unfold _sendTcp.
    destruct (Utils.createTcpTop packet) as [top| |] eqn:E;
      [|split; [reflexivity | left; now rewrite app_nil_r]..].
    destruct (negb (socket z)); [split; [reflexivity | left; now rewrite app_nil_r]|].
    destruct (onData (inbox w) [] 0 None) as [r rest]. split; [reflexivity|].
    right. exists top. split; [reflexivity|]. now apply createTcpTop_shape.
  - unfold _sendUdp.
    destruct (negb (socket z)); [split; [reflexivity | left; now rewrite app_nil_r]|].
    cbn [inbox]. destruct (inbox w) as [|[msg|] rest]; (split; [reflexivity|]);
      right; exists packet; split; reflexivity.
Qed.

(** *** The requests a call writes *)

Section Carrier.
Variable carrier : bool.
Variable P : Z * Buffer -> Prop.

Lemma writes_ret {A} (a : A) : writes carrier P (ret a).
Proof. intros z w Hc. split; [exact Hc|]. exists []. now rewrite app_nil_r. Qed.

Lemma writes_throw {A} e : writes carrier P (@throw A e).
Proof. intros z w Hc. split; [exact Hc|]. exists []. now rewrite app_nil_r. Qed.

Lemma writes_lift {A} (r : res A) : writes carrier P (lift r).
Proof. intros z w Hc. split; [exact Hc|]. exists []. now rewrite app_nil_r. Qed.

Lemma writes_this : writes carrier P this.
Proof. intros z w Hc. split; [exact Hc|]. exists []. now rewrite app_nil_r. Qed.

Lemma writes_update f : (forall z, tcp (f z) = tcp z) -> writes carrier P (update f).
Proof.
  intros Hf z w Hc. split; [cbn; now rewrite Hf|]. exists []. now rewrite app_nil_r.
Qed.

Lemma writes_bind {A B} (m : M A) (k : A -> M B) :
  writes carrier P m -> (forall a, writes carrier P (k a)) -> writes carrier P (bind m k).
Proof.
  intros Hm Hk z w Hc. unfold bind.
  destruct (Hm z w Hc) as (Ht & sent & Ho & HF).
  destruct (m z w) as [[[a| |] z1] w1]; cbn [fst snd] in *;
    [|split; [exact Ht | exists sent; split; assumption]..].
  destruct (Hk a z1 w1 Ht) as (Ht' & sent' & Ho' & HF').
  split; [exact Ht'|]. exists (sent ++ sent'). split.
  - rewrite Ho', Ho. now rewrite app_assoc.
  - apply Forall_app. split; assumption.
Qed.

(** The value of a pure step is known to the rest of the call. *)
Lemma writes_bind_lift {A B} (r : res A) (k : A -> M B) :
  (forall a, r = Ok a -> writes carrier P (k a)) -> writes carrier P (bind (lift r) k).
Proof.
  intros Hk z w Hc. unfold bind, lift. destruct r as [a| |].
  - now apply Hk.
  - split; [exact Hc|]. exists []. now rewrite app_nil_r.
  - split; [exact Hc|]. exists []. now rewrite app_nil_r.
Qed.

(** So is the carrier of the instance. *)
Lemma writes_bind_this {B} (k : t -> M B) :
  (forall z, tcp z = carrier -> writes carrier P (k z)) -> writes carrier P (bind this k).
Proof. intros Hk z w Hc. unfold bind, this. now apply Hk. Qed.

(** [_sendCommand] writes at most its own request. *)
Lemma writes_sendCommand command cs :
  P (command, cs) -> writes carrier P (_sendCommand command cs).
Proof.
  intros HP. unfold _sendCommand. apply writes_bind_this. intros z Hz.
  destruct (_ && negb (isConnected z)); [apply writes_throw|].
  apply writes_bind_lift. intros packet Hpacket.
  apply createHeader_shape in Hpacket.
  apply writes_bind.
  - intros z0 w Hc. rewrite Hz, <- Hc.
    assert (Hrq : forall written : Buffer,
               (if tcp z0 then skipn 8 written else written) = packet ->
               request (tcp z0) written = (command, cs)).
    { intros written Hw. rewrite <- Hpacket. unfold request. now rewrite Hw. }
    destruct (transport_writes z0 w packet) as (Hz0 & Hout). cbv zeta in Hz0, Hout.
    split; [now rewrite Hz0|].
    destruct Hout as [Hout | (written & Hout & Hw)].
    + exists []. split; [exact Hout | constructor].
    + exists [written]. split; [exact Hout|]. constructor; [|constructor].
      now rewrite (Hrq written Hw).
  - intros raw. apply writes_bind; [apply writes_lift|]. intros hdr.
    apply writes_bind; [apply writes_update; reflexivity|]. intros _.
    apply writes_bind; [apply writes_update; reflexivity|]. intros _.
    apply writes_ret.
Qed.

End Carrier.

Lemma writes_weaken carrier (P Q : Z * Buffer -> Prop) {A} (m : M A) :
  (forall rq, P rq -> Q rq) -> writes carrier P m -> writes carrier Q m.
Proof.
  intros HPQ Hm z w Hc. destruct (Hm z w Hc) as (Ht & sent & Ho & HF).
  split; [exact Ht|]. exists sent. split; [exact Ho|].
  eapply Forall_impl; [|exact HF]. intros written. apply HPQ.
Qed.

(** *** The packed user record *)

Lemma length_copy (src b : Buffer) t :
  0 <= t <= Buf.length b -> Buf.length (Buf.copy src b t) = Buf.length b.
Proof.
  unfold Buf.copy, Buf.length. intros H. cbv zeta.
  rewrite !List.length_app, !length_firstn, length_skipn. lia.
Qed.

Lemma get_copy (src b : Buffer) t i :
  Z.of_nat i < t <= Buf.length b -> Buf.get (Buf.copy src b t) i = Buf.get b i.
Proof.
  unfold Buf.copy, Buf.get, Buf.length. intros H. cbv zeta.
  rewrite app_nth1 by (rewrite length_firstn; lia).
  now rewrite nth_firstn, (proj2 (Nat.ltb_lt _ _)) by lia.
Qed.

Lemma get_store n (b : Buffer) v off i :
  Z.of_nat i < off <= Buf.length b -> Buf.get (Buf.store n b v off) i = Buf.get b i.
Proof.
  unfold Buf.store, Buf.get, Buf.length. intros H.
  rewrite app_nth1 by (rewrite length_firstn; lia).
  now rewrite nth_firstn, (proj2 (Nat.ltb_lt _ _)) by lia.
Qed.

(** A write behind offset 2 keeps the length and the byte at offset 2. *)
Lemma write_behind n b v off b' :
  Buf.writeUIntLE n b v off = Ok b' -> 2 < off ->
  Buf.length b' = Buf.length b /\ Buf.get b' 2 = Buf.get b 2.
Proof.
  intros H Ho. apply writeUIntLE_inv in H. destruct H as (-> & _ & H0 & H1). split.
  - now apply length_store.
  - apply get_store. change (Z.of_nat 2) with 2. lia.
Qed.

Lemma copy_behind (src b : Buffer) t :
  2 < t <= Buf.length b ->
  Buf.length (Buf.copy src b t) = Buf.length b /\ Buf.get (Buf.copy src b t) 2 = Buf.get b 2.
Proof.
  intros H. split; [apply length_copy; lia | apply get_copy].
  change (Z.of_nat 2) with 2. lia.
Qed.

(** [writeUInt8(v, 2)] *)
Lemma write_at_2 b v b' :
  Buf.writeUInt8 b v 2 = Ok b' -> Buf.length b' = Buf.length b /\ Buf.get b' 2 = v.
Proof.
  intros H. apply writeUIntLE_inv in H. destruct H as (-> & Hv & H0 & H1). split.
  - now apply length_store.
  - unfold Buf.store, Buf.get, Buf.length in *.
    rewrite app_nth2 by (rewrite length_firstn; lia).
    rewrite length_firstn.
    replace (2 - Nat.min (Z.to_nat 2) (List.length b))%nat with 0%nat by lia.
    change (le_split 1 v) with [byte.of_Z v]. cbn [app nth].
    rewrite byte.unsigned_of_Z. unfold byte.wrap.
    apply Z.mod_small. exact Hv.
Qed.

Section WithRuntime.
Context {rt : JS.Runtime}.

Lemma pack28_privilege uid priv password name card groupId userId payload :
  pack28 uid priv password name card groupId userId = Ok payload ->
  Buf.length payload = 28 /\ Buf.get payload 2 = priv.
Proof.
  unfold pack28, Buf.writeUInt16LE, Buf.writeUInt32LE. intros H.
  destruct (Buf.writeUIntLE 2 (Buf.alloc 28) uid 0) as [p1| |] eqn:E1;
    cbn [res_bind] in H; try discriminate.
  destruct (Buf.writeUInt8 p1 priv 2) as [p2| |] eqn:E2; cbn [res_bind] in H; try discriminate.
  cbv zeta in H.
  destruct (Buf.writeUIntLE 4 _ (JS.ushr card 0) 16) as [p3| |] eqn:E3;
    cbn [res_bind] in H; try discriminate.
  destruct (Buf.writeUInt8 p3 _ 21) as [p4| |] eqn:E4; cbn [res_bind] in H; try discriminate.
  destruct (Buf.writeUIntLE 2 p4 0 22) as [p5| |] eqn:E5; cbn [res_bind] in H; try discriminate.
  destruct (Buf.writeUIntLE 4 p5 _ 24) as [p6| |] eqn:E6; cbn [res_bind] in H; try discriminate.
  injection H as <-.
  apply writeUIntLE_inv in E1. destruct E1 as (-> & _ & _ & _).
  apply write_at_2 in E2. destruct E2 as [L2 G2].
  rewrite length_store, length_alloc in L2 by (rewrite ?length_alloc; lia).
  change (Z.of_nat 28) with 28 in L2.
  destruct (copy_behind (Buf.slice (Buf.fromString password) 0 5) p2 3) as [La Ga]; [lia|].
  destruct (copy_behind (Buf.slice (Buf.fromString name) 0 8)
              (Buf.copy (Buf.slice (Buf.fromString password) 0 5) p2 3) 8) as [Lb Gb]; [lia|].
  apply write_behind in E3; [|lia]. apply write_behind in E4; [|lia].
  apply write_behind in E5; [|lia]. apply write_behind in E6; [|lia].
  destruct E3, E4, E5, E6. split; congruence.
Qed.

Lemma pack72_privilege uid priv password name card groupId userId payload :
  pack72 uid priv password name card groupId userId = Ok payload ->
  Buf.length payload = 72 /\ Buf.get payload 2 = priv.
Proof.
  unfold pack72, Buf.writeUInt16LE, Buf.writeUInt32LE. intros H.
  destruct (Buf.writeUIntLE 2 (Buf.alloc 72) uid 0) as [p1| |] eqn:E1;
    cbn [res_bind] in H; try discriminate.
  destruct (Buf.writeUInt8 p1 priv 2) as [p2| |] eqn:E2; cbn [res_bind] in H; try discriminate.
  cbv zeta in H.
  destruct (Buf.writeUIntLE 4 _ (JS.ushr card 0) 35) as [p3| |] eqn:E3;
    cbn [res_bind] in H; try discriminate.
  injection H as <-.
  apply writeUIntLE_inv in E1. destruct E1 as (-> & _ & _ & _).
  apply write_at_2 in E2. destruct E2 as [L2 G2].
  rewrite length_store, length_alloc in L2 by (rewrite ?length_alloc; lia).
  change (Z.of_nat 72) with 72 in L2.
  destruct (copy_behind (Buf.slice (Buf.fromString password) 0 8) p2 3) as [La Ga]; [lia|].
  destruct (copy_behind (Buf.slice (Buf.fromString name) 0 24)
              (Buf.copy (Buf.slice (Buf.fromString password) 0 8) p2 3) 11) as [Lb Gb]; [lia|].
  apply write_behind in E3; [|lia]. destruct E3 as [L3 G3].
  destruct (copy_behind (Buf.slice (Buf.fromString groupId) 0 7) p3 40) as [Lc Gc]; [lia|].
  destruct (copy_behind (Buf.slice (Buf.fromString userId) 0 24)
              (Buf.copy (Buf.slice (Buf.fromString groupId) 0 7) p3 40) 48) as [Ld Gd]; [lia|].
  split; congruence.
Qed.

(** *** The requests of [getUsers] and [setUser] *)

Ltac writes_step :=
  first
    [ apply writes_ret | apply writes_throw | apply writes_this | apply writes_lift
    | apply writes_update; reflexivity
    | apply writes_sendCommand; unfold reading; cbn [fst]; discriminate
    | apply writes_bind; [|intros ?]
    | match goal with
      | |- writes _ _ (if ?c then _ else _) => destruct c
      | |- writes _ _ (match ?c with _ => _ end) => destruct c
      end ].

Section Reads.
Variable carrier : bool.

Lemma writes_readSizes : writes carrier reading readSizes.
Proof. unfold readSizes. repeat writes_step. Qed.

Lemma writes_readChunk start size : writes carrier reading (_readChunk start size).
Proof. unfold _readChunk. repeat writes_step. Qed.

Lemma writes_readChunks C packets : forall start chunks,
  writes carrier reading (readChunks packets C start chunks).
Proof.
  induction packets as [|packets IH]; intros start chunks; cbn [readChunks].
  - apply writes_ret.
  - apply writes_bind; [apply writes_readChunk|]. intros chunk. apply IH.
Qed.

Lemma writes_readWithBuffer command fct ext :
  writes carrier reading (readWithBuffer command fct ext).
Proof.
  unfold readWithBuffer.
  apply writes_bind; [apply writes_this|]. intros z.
  do 4 (apply writes_bind; [apply writes_lift|]; intros ?).
  apply writes_bind; [writes_step|]. intros prep.
  destruct (negb (status prep)); [apply writes_throw|].
  destruct (code prep =? CMD_DATA); [apply writes_ret|].
  apply writes_bind; [apply writes_lift|]. intros size.
  apply writes_bind; [apply writes_readChunks|]. intros [chunks start].
  apply writes_bind.
  - destruct (JS.truthy _); [|apply writes_ret].
    apply writes_bind; [apply writes_readChunk|]. intros chunk. apply writes_ret.
  - intros [chunks' start']. repeat writes_step.
Qed.

Lemma writes_freshLoop users : forall fuel, writes carrier reading (freshLoop fuel users).
Proof.
  induction fuel as [|fuel IH]; cbn [freshLoop].
  - intros z w Hc. split; [exact Hc|]. exists []. now rewrite app_nil_r.
  - apply writes_bind; [apply writes_this|]. intros z.
    destruct (existsb _ users); [|apply writes_ret].
    do 2 (apply writes_bind; [apply writes_update; reflexivity|]; intros _).
    apply IH.
Qed.

Lemma writes_getUsers fuel : writes carrier reading (getUsers fuel).
Proof.
  unfold getUsers.
  apply writes_bind; [apply writes_readSizes|]. intros _.
  apply writes_bind; [apply writes_this|]. intros z.
  destruct (negb (JS.truthy (usersCount z))); [repeat writes_step|].
  apply writes_bind; [apply writes_readWithBuffer|]. intros [buffer size].
  destruct (size <=? 4); [apply writes_ret|].
  apply writes_bind; [apply writes_lift|]. intros totalSize.
  apply writes_bind; [apply writes_update; reflexivity|]. intros _.
  apply writes_bind; [apply writes_this|]. intros z'.
  apply writes_bind; [apply writes_lift|]. intros [users maxUid].
  do 2 (apply writes_bind; [apply writes_update; reflexivity|]; intros _).
  apply writes_bind; [apply writes_freshLoop|]. intros _. apply writes_ret.
Qed.

(** Every user record that [setUser] writes carries at offset 2 the
    privilege if it is one of the two known values, and 0 otherwise. *)
Lemma writes_setUser fuel a :
  writes carrier
    (fun rq => forall record, rq = (CMD_USER_WRQ, record) ->
       (Buf.length record = 28 \/ Buf.length record = 72) /\
       Buf.get record 2
       = if JS.includes [USER_DEFAULT; USER_ADMIN] (a_privilege a)
         then a_privilege a else USER_DEFAULT)
    (setUser fuel a).
Proof.
  unfold setUser.
  apply writes_bind.
  { eapply writes_weaken; [|apply writes_getUsers].
    intros [c p] Hc record [= -> _]. now elim Hc. }
  intros users. apply writes_bind_this. intros z Hz. cbv zeta.
  apply writes_bind_lift. intros payload Hp.
  apply writes_bind.
  { apply writes_sendCommand. intros record [= <-].
    destruct (userPacketSize z =? 28);
      [apply pack28_privilege in Hp | apply pack72_privilege in Hp];
      destruct Hp as [Hl Hg]; (split; [auto | exact Hg]). }
  intros r. destruct (negb (status r)); [apply writes_throw|].
  apply writes_bind.
  { unfold refreshData. apply writes_bind.
    - apply writes_sendCommand. intros record H. discriminate H.
    - intros r'. destruct (negb (status r')); [apply writes_throw | apply writes_ret]. }
  intros _. apply writes_bind_this. intros z' Hz'.
  apply writes_bind; [|intros _; apply writes_ret].
  destruct (_ =? nextUid z'); [|apply writes_ret].
  apply writes_bind; [apply writes_update; reflexivity|]. intros _.
  apply writes_update; reflexivity.
Qed.

End Reads.


(** A privilege that is one of the two known values is written as it is. *)
Lemma setUser_privilege_kept fuel a z w :
  a_privilege a = USER_DEFAULT \/ a_privilege a = USER_ADMIN ->
  exists sent,
    outbox (snd (setUser fuel a z w)) = outbox w ++ sent /\
    Forall (fun written => forall record,
              request (tcp z) written = (CMD_USER_WRQ, record) ->
              Buf.get record 2 = a_privilege a) sent.
Proof.
  intros H.
  destruct (writes_setUser (tcp z) fuel a z w eq_refl) as (_ & sent & Ho & HF).
  exists sent. split; [exact Ho|].
  eapply Forall_impl; [|exact HF]. cbv beta. intros written Hw record Hrq.
  destruct (Hw record Hrq) as [_ Hg]. rewrite Hg.
  destruct H as [-> | ->]; reflexivity.
Qed.

End WithRuntime.

Import Demo.


(** The requests of [setUser({name: 'ann', privilege: 5})] on a device without
    users: the record goes out with privilege 0; with privilege 14 it goes
    out with 14. *)
Example setUser_requests :
  let w := net false [sizes 0; ackReply; ackReply] in
  let record p := Buf.from [1; 0; p; 0; 0; 0; 0; 0; 97; 110; 110; 0; 0; 0;
                            0; 0; 0; 0; 0; 0; 0; 0; 0; 0; 1; 0; 0; 0] in
  map (request false) (outbox (snd (setUser 3 (newUser 5) udpClient w)))
  = [(CMD_GET_FREE_SIZES, []); (CMD_USER_WRQ, record 0); (CMD_REFRESHDATA, [])] /\
  map (request false) (outbox (snd (setUser 3 (newUser 14) udpClient w)))
  = [(CMD_GET_FREE_SIZES, []); (CMD_USER_WRQ, record 14); (CMD_REFRESHDATA, [])].
Proof. split; vm_compute; reflexivity. Qed.

(** The same on the stream carrier with 72-byte records. *)
Example setUser_requests_72 :
  let w := net true [sizes 1; userData [rec72 1 "2"]; ackReply; ackReply] in
  let run := setUser 3 (newUser 5) tcpClient w in
  fst (fst run) = Ok true /\
  map (fun written => fst (request true written)) (outbox (snd run))
  = [CMD_GET_FREE_SIZES; _CMD_PREPARE_BUFFER; CMD_USER_WRQ; CMD_REFRESHDATA] /\
  map (fun written => (Buf.length (snd (request true written)),
                       Buf.get (snd (request true written)) 2))
      (firstn 1 (skipn 2 (outbox (snd run))))
  = [(72, 0)].
Proof. split; [|split]; vm_compute; reflexivity. Qed.

End TraceFacts.

(** ** Further properties: codec, transport, session and users *)

Module ChecksumFacts.
Import CONST SumSpec BufFacts TraceFacts.

Lemma fold_range s : 0 <= s -> 0 <= fold s <= 65535.
Proof.
  intros H. unfold fold. destruct (Z.eqb_spec s 0); [lia|].
  pose proof (Z.mod_pos_bound (s - 1) 65535). lia.
Qed.

Lemma fold_small w : 0 <= w <= 65535 -> fold w = w.
Proof.
  intros H. unfold fold. destruct (Z.eqb_spec w 0); [lia|].
  rewrite Z.mod_small; lia.
Qed.

(** One turn of the folding: add a word, take 65535 off when above it. *)
Lemma fold_step s w :
  0 <= s -> 0 <= w <= 65535 ->
  (if fold s + w >? 65535 then fold s + w - 65535 else fold s + w) = fold (s + w).
Proof.
  intros Hs Hw. unfold fold.
  destruct (Z.eqb_spec s 0) as [->|Hs0].
  - cbn [Z.add]. destruct (Z.gtb_spec w 65535); [lia|].
    destruct (Z.eqb_spec w 0); [lia|]. rewrite Z.mod_small; lia.
  - destruct (Z.eqb_spec (s + w) 0); [lia|].
    pose proof (Z.mod_pos_bound (s - 1) 65535 ltac:(lia)) as Hb.
    pose proof (Z.div_mod (s - 1) 65535 ltac:(lia)) as Hd.
    destruct (Z.gtb_spec ((s - 1) mod 65535 + 1 + w) 65535).
    + assert ((s - 1) mod 65535 + w - 65535 = (s + w - 1) mod 65535)
        by (apply Z.mod_unique with (q := (s - 1) / 65535 + 1); lia).
      lia.
    + assert ((s - 1) mod 65535 + w = (s + w - 1) mod 65535)
        by (apply Z.mod_unique with (q := (s - 1) / 65535); lia).
      lia.
Qed.

Lemma byte_range (b : byte) : 0 <= byte.unsigned b < 256.
Proof. exact (byte.unsigned_range b). Qed.

(** Induction over a buffer two bytes at a time. *)
Lemma pairs_ind (P : Buffer -> Prop) :
  P [] -> (forall b0, P [b0]) -> (forall b0 b1 rest, P rest -> P (b0 :: b1 :: rest)) ->
  forall b, P b.
Proof.
  intros H0 H1 H2.
  refine (fix go (b : Buffer) : P b :=
            match b with
            | [] => H0
            | [b0] => H1 b0
            | b0 :: b1 :: rest => H2 b0 b1 rest (go rest)
            end).
Qed.

Lemma total_nonneg b : 0 <= total b.
Proof.
  induction b as [|b0|b0 b1 rest IH] using pairs_ind; cbn [total]; [lia | |].
  - pose proof (byte_range b0). lia.
  - pose proof (byte_range b0). pose proof (byte_range b1). lia.
Qed.

Lemma shl8 b : JS.shl (byte.unsigned b) 8 = 256 * byte.unsigned b.
Proof.
  pose proof (byte_range b).
  unfold JS.shl. change (JS.ToUint32 8 mod 32) with 8.
  rewrite (AuthKeyFacts.ToInt32_small (byte.unsigned b)) by lia.
  rewrite Z.shiftl_mul_pow2 by lia.
  change (2 ^ 8) with 256. rewrite AuthKeyFacts.ToInt32_small; lia.
Qed.

(** The first loop arrives at the folded sum of the words it has consumed. *)
Lemma sumWords_fold : forall (b : Buffer) s,
  0 <= s ->
  let left := if Nat.even (List.length b) then [] else [last b Byte.x00] in
  Utils.sumWords b (fold s) = (fold (s + (total b - total left)), left).
Proof.
  induction b as [|b0|b0 b1 rest IH] using pairs_ind; intros s Hs; cbv zeta.
  - cbn. now rewrite Z.add_0_r.
  - cbn. now rewrite Z.sub_diag, Z.add_0_r.
  - cbn [Utils.sumWords]. rewrite shl8. unfold USHRT_MAX.
    pose proof (byte_range b0). pose proof (byte_range b1).
    rewrite fold_step by lia.
    rewrite IH by lia.
    cbn [total List.length Nat.even].
    destruct rest as [|r0 rest'].
    + cbn [List.length Nat.even total]. f_equal. f_equal. lia.
    + change (last (b0 :: b1 :: r0 :: rest') Byte.x00) with (last (r0 :: rest') Byte.x00).
      f_equal. f_equal. lia.
Qed.

Lemma reduceLoop_step c :
  0 <= c <= 131070 ->
  Utils.reduceLoop (Z.to_nat c) c = if c >? 65535 then c - 65535 else c.
Proof.
  intros H. destruct (Z.to_nat c) as [|n] eqn:E.
  - cbn. destruct (Z.gtb_spec c 65535); lia.
  - cbn [Utils.reduceLoop]. unfold USHRT_MAX. destruct (Z.gtb_spec c 65535); [|reflexivity].
    destruct n as [|n]; [reflexivity|]. cbn [Utils.reduceLoop]. unfold USHRT_MAX.
    destruct (Z.gtb_spec (c - 65535) 65535); [lia | reflexivity].
Qed.

Lemma complement16 n : 0 <= n <= 65535 -> JS.band (JS.bnot n) 65535 = 65535 - n.
Proof.
  intros H. unfold JS.band, JS.bnot. rewrite (AuthKeyFacts.ToInt32_small n) by lia.
  rewrite AuthKeyFacts.ToInt32_small by (unfold Z.lnot; lia).
  change (JS.ToInt32 65535) with (Z.ones 16). rewrite Z.land_ones by lia.
  unfold Z.lnot. change (2 ^ 16) with 65536.
  symmetry. apply Z.mod_unique with (q := -1); lia.
Qed.

(** [createChecksum] is the complement of the folded sum of the words. *)
Lemma createChecksum_total b : Utils.createChecksum b = 65535 - fold (total b).
Proof.
  unfold Utils.createChecksum.
  pose proof (sumWords_fold b 0 (Z.le_refl 0)) as H. cbv zeta in H.
  change (fold 0) with 0 in H. rewrite H. clear H.
  pose proof (total_nonneg b) as Hb.
  destruct (Nat.even (List.length b)) eqn:Hev.
  - cbn [total]. rewrite Z.sub_0_r, Z.add_0_l.
    pose proof (fold_range (total b) Hb).
    rewrite reduceLoop_step by lia.
    destruct (Z.gtb_spec (fold (total b)) 65535); [lia|].
    now apply complement16.
  - cbn [total].
    assert (Hl : 0 <= total b - byte.unsigned (last b Byte.x00)).
    { clear Hb. induction b as [|b0|b0 b1 rest IH] using pairs_ind.
      - discriminate Hev.
      - cbn. lia.
      - destruct rest as [|r0 rest']; [discriminate Hev|].
        change (last (b0 :: b1 :: r0 :: rest') Byte.x00) with (last (r0 :: rest') Byte.x00).
        cbn [total]. pose proof (byte_range b0). pose proof (byte_range b1).
        specialize (IH Hev). cbn [total] in IH. lia. }
    rewrite Z.add_0_l.
    pose proof (byte_range (last b Byte.x00)) as Hlast.
    pose proof (fold_range _ Hl) as Hf.
    rewrite reduceLoop_step by lia.
    rewrite (fold_step _ (byte.unsigned (last b Byte.x00))) by lia.
    replace (total b - byte.unsigned (last b Byte.x00) + byte.unsigned (last b Byte.x00))
      with (total b) by lia.
    apply complement16. now apply fold_range.
Qed.

Lemma total_word v rest : total (le_split 2 v ++ rest) = v mod 65536 + total rest.
Proof.
  rewrite le_split_2. cbn [app total]. rewrite !byte.unsigned_of_Z. unfold byte.wrap.
  rewrite Z.shiftr_div_pow2 by lia. change (2 ^ 8) with 256.
  assert (v mod 65536 = v mod 256 + 256 * ((v / 256) mod 256)); [|lia].
  change 65536 with (256 * 256). rewrite Z.rem_mul_r by lia. reflexivity.
Qed.

(** What [createHeader] returns when it returns: the five header writes
    succeeded, so the fields are in range. *)
Lemma createHeader_inv command cs session reply packet :
  Utils.createHeader command cs session reply = Ok packet ->
  exists next,
    let zeroed := le_split 2 command ++ le_split 2 0 ++ le_split 2 session
                  ++ le_split 2 next ++ cs in
    packet = le_split 2 command ++ le_split 2 (Utils.createChecksum zeroed)
             ++ le_split 2 session ++ le_split 2 next ++ cs /\
    0 <= command < 65536 /\ 0 <= session < 65536 /\ 0 <= next < 65536 /\
    next = (if reply + 1 >=? USHRT_MAX then reply + 1 - USHRT_MAX else reply + 1).
Proof.
  unfold Utils.createHeader, Buf.writeUInt16LE, Buf.allocUnsafe. intros H.
  destruct (Buf.writeUIntLE 2 (Buf.alloc 8) command 0) as [h1| |] eqn:E1;
    cbn [res_bind] in H; try discriminate.
  destruct (Buf.writeUIntLE 2 h1 0 2) as [h2| |] eqn:E2; cbn [res_bind] in H; try discriminate.
  destruct (Buf.writeUIntLE 2 h2 session 4) as [h3| |] eqn:E3;
    cbn [res_bind] in H; try discriminate.
  cbv zeta in H.
  destruct (Buf.writeUIntLE 2 h3 _ 6) as [h4| |] eqn:E4; cbn [res_bind] in H; try discriminate.
  destruct (Buf.writeUIntLE 2 h4 _ 2) as [h5| |] eqn:E5; cbn [res_bind] in H; try discriminate.
  injection H as <-.
  apply writeUIntLE_inv in E1, E2, E3, E4, E5.
  destruct E1 as (-> & Hc & _), E2 as (-> & _), E3 as (-> & Hs & _), E4 as (-> & Hn & _),
    E5 as (-> & _).
  change (2 ^ (8 * Z.of_nat 2)) with 65536 in *.
  eexists. cbv zeta. split; [|split; [exact Hc|split; [exact Hs|split; [exact Hn|reflexivity]]]].
  unfold Buf.store, Buf.alloc. rewrite !le_split_2.
  change (Z.to_nat 0) with 0%nat. change (Z.to_nat 2) with 2%nat.
  change (Z.to_nat 4) with 4%nat. change (Z.to_nat 6) with 6%nat.
  cbn [Nat.add repeat firstn skipn app]. reflexivity.
Qed.

(** X1: the checksum validates.  The checksum function applied to a packet
    that [createHeader] has composed, checksum field included, gives 0. *)
Theorem createHeader_checksum_validates command cs session reply packet :
  Utils.createHeader command cs session reply = Ok packet ->
  Utils.createChecksum packet = 0.
Proof.
  intros H. apply createHeader_inv in H. destruct H as (next & Hp & Hc & Hs & Hn & _).
  cbv zeta in Hp. subst packet.
  set (tl := le_split 2 session ++ le_split 2 next ++ cs).
  rewrite !createChecksum_total.
  rewrite !total_word.
  pose proof (total_nonneg tl) as Ht.
  rewrite (Z.mod_small command) by lia. change (0 mod 65536) with 0.
  set (T := command + (0 + total tl)).
  assert (HT : 0 <= T) by (unfold T; lia).
  pose proof (fold_range T HT) as Hf.
  rewrite (Z.mod_small (65535 - fold T)) by lia.
  replace (command + (65535 - fold T + total tl)) with (T + 65535 - fold T) by (unfold T; lia).
  assert (fold (T + 65535 - fold T) = 65535); [|lia].
  unfold fold. destruct (Z.eqb_spec T 0) as [->|HT0].
  - reflexivity.
  - pose proof (Z.mod_pos_bound (T - 1) 65535 ltac:(lia)).
    pose proof (Z.div_mod (T - 1) 65535 ltac:(lia)).
    destruct (Z.eqb_spec (T + 65535 - ((T - 1) mod 65535 + 1)) 0); [lia|].
    assert (65534 = (T + 65535 - ((T - 1) mod 65535 + 1) - 1) mod 65535)
      by (apply Z.mod_unique with (q := (T - 1) / 65535); lia).
    lia.
Qed.

Lemma createHeader_checksum_validates_witness :
  Utils.createHeader 1000 [] 0 65534 = Ok (Buf.from [232; 3; 23; 252; 0; 0; 0; 0]) /\
  Utils.createChecksum (Buf.from [232; 3; 23; 252; 0; 0; 0; 0]) = 0.
Proof.
  split; [reflexivity|].
  apply (createHeader_checksum_validates 1000 [] 0 65534). reflexivity.
Defined.
End ChecksumFacts.

Module StreamFacts.
Import CONST Zk Wire BufFacts TransportFacts.

(** The 8 bytes in front of a reply of [len] bytes on the stream carrier. *)
Lemma top_reads (len : Z) (tl : Buffer) :
  0 <= len < 4294967296 ->
  let m := le_split 2 MACHINE_PREPARE_DATA_1 ++ le_split 2 MACHINE_PREPARE_DATA_2
           ++ le_split 4 len ++ tl in
  Buf.readUInt32LE m 4 = Ok len /\ _validateTcpTop m = Ok true /\
  Buf.length m = 8 + Buf.length tl.
Proof.
  intros H m. pose proof (length_nonneg tl) as Hn.
  assert (HL : Buf.length m = 8 + Buf.length tl).
  { unfold m. rewrite !length_app. unfold Buf.length at 1 2 3.
    rewrite !length_le_split. lia. }
  split; [|split; [|exact HL]].
  - unfold m, Buf.readUInt32LE. rewrite app_assoc.
    rewrite (readUIntLE_skip 4 (le_split 2 MACHINE_PREPARE_DATA_1
                                ++ le_split 2 MACHINE_PREPARE_DATA_2) _ 0) by lia.
    rewrite readUIntLE_le_split. change (2 ^ (Z.of_nat 4 * 8)) with 4294967296.
    now rewrite Z.mod_small by lia.
  - unfold _validateTcpTop. rewrite HL.
    replace (8 + Buf.length tl <? 8) with false by (symmetry; apply Z.ltb_ge; lia).
    unfold m, Buf.readUInt16LE. rewrite readUIntLE_le_split. cbn [res_bind].
    rewrite (readUIntLE_skip 2 (le_split 2 MACHINE_PREPARE_DATA_1) _ 0) by lia.
    rewrite readUIntLE_le_split. reflexivity.
Qed.

(** Bytes received so far that are at least 8 start with the whole top. *)
Lemma merged_top (merged later top body : Buffer) :
  merged ++ later = top ++ body -> (List.length top <= List.length merged)%nat ->
  exists tl, merged = top ++ tl /\ body = tl ++ later.
Proof.
  intros H Hl. apply app_eq_app in H. destruct H as (l & [[H1 H2] | [H1 H2]]).
  - exists l. split; assumption.
  - assert (l = []) as ->.
    { apply (f_equal (@List.length byte)) in H1. rewrite List.length_app in H1.
      destruct l; [reflexivity | cbn in H1; lia]. }
    exists []. rewrite app_nil_r in H1. cbn in H2. split; [now rewrite app_nil_r | now subst].
Qed.

(** The listener of [_sendTcp] puts a reply together from any segmentation
    of the stream. *)
Lemma onData_reassembles (raw extra : Buffer) rest :
  Buf.length raw < 4294967296 ->
  forall chunks merged,
    chunks <> [] ->
    merged ++ List.concat chunks = envelope raw ++ extra ->
    Buf.length merged + Buf.length (List.concat (removelast chunks)) < 8 + Buf.length raw ->
    onData (map Message chunks ++ rest) merged (Buf.length merged)
           (if 8 <=? Buf.length merged then Some (8 + Buf.length raw) else None)
    = (Ok raw, rest).
Proof.
  intros Hraw. pose proof (length_nonneg raw) as Hraw0.
  induction chunks as [|chunk chunks IH]; intros merged Hne Hcat Hlen; [congruence|].
  cbn [map app onData]. cbn [List.concat] in Hcat. rewrite app_assoc in Hcat.
  rewrite <- length_app.
  set (merged' := merged ++ chunk) in *.
  assert (Htarget :
    (match (if 8 <=? Buf.length merged then Some (8 + Buf.length raw) else None) with
     | Some tg => Some tg
     | None => if 8 <=? Buf.length merged'
               then match Buf.readUInt32LE merged' 4 with
                    | Ok len => Some (8 + len)
                    | _ => None
                    end
               else None
     end) = (if 8 <=? Buf.length merged' then Some (8 + Buf.length raw) else None)).
  { assert (Buf.length merged <= Buf.length merged')
      by (unfold merged'; rewrite length_app; pose proof (length_nonneg chunk); lia).
    destruct (Z.leb_spec 8 (Buf.length merged)).
    - now rewrite (proj2 (Z.leb_le 8 (Buf.length merged'))) by lia.
    - destruct (Z.leb_spec 8 (Buf.length merged')); [|reflexivity].
      unfold envelope in Hcat. rewrite !app_assoc in Hcat.
      rewrite <- (app_assoc _ raw extra) in Hcat.
      apply merged_top in Hcat;
        [|rewrite !List.length_app, !length_le_split; unfold Buf.length in *; lia].
      destruct Hcat as (tl & -> & _). rewrite <- !app_assoc.
      destruct (top_reads (Buf.length raw) tl) as (-> & _); [lia | reflexivity]. }
  rewrite Htarget. clear Htarget.
  destruct chunks as [|chunk2 chunks].
  - (* the last segment *)
    cbn [List.concat] in Hcat. rewrite app_nil_r in Hcat.
    assert (HL : Buf.length merged' = 8 + Buf.length raw + Buf.length extra).
    { rewrite Hcat, length_app. now rewrite (proj1 (envelope_reads raw Hraw)). }
    pose proof (length_nonneg extra).
    rewrite (proj2 (Z.leb_le 8 (Buf.length merged'))) by lia.
    rewrite (proj2 (Z.leb_le (8 + Buf.length raw) (Buf.length merged'))) by lia.
    rewrite Hcat. unfold envelope. rewrite <- !app_assoc.
    destruct (top_reads (Buf.length raw) (raw ++ extra)) as (HR & HV & _); [lia|].
    cbv zeta in HR, HV. rewrite HV. cbn [res_bind]. rewrite HR. cbn [res_bind].
    cbn [map app]. f_equal. f_equal.
    unfold Buf.slice.
    replace (Z.to_nat (8 + Buf.length raw) - Z.to_nat 8)%nat with (List.length raw)
      by (unfold Buf.length; lia).
    change (Z.to_nat 8) with 8%nat.
    change (skipn 8 (le_split 2 MACHINE_PREPARE_DATA_1 ++ le_split 2 MACHINE_PREPARE_DATA_2
                     ++ le_split 4 (Buf.length raw) ++ raw ++ extra))
      with (raw ++ extra).
    rewrite firstn_app, Nat.sub_diag, firstn_all. cbn [firstn]. apply app_nil_r.
  - (* more segments are needed *)
    assert (Hshort : Buf.length merged' < 8 + Buf.length raw).
    { change (removelast (chunk :: chunk2 :: chunks))
        with (chunk :: removelast (chunk2 :: chunks)) in Hlen.
      cbn [List.concat] in Hlen. rewrite length_app in Hlen.
      unfold merged'. rewrite length_app.
      pose proof (length_nonneg (List.concat (removelast (chunk2 :: chunks)))). lia. }
    assert (Hgo : onData (map Message (chunk2 :: chunks) ++ rest) merged' (Buf.length merged')
                    (if 8 <=? Buf.length merged' then Some (8 + Buf.length raw) else None)
                  = (Ok raw, rest)).
    { apply IH; [discriminate | exact Hcat |].
      change (removelast (chunk :: chunk2 :: chunks))
        with (chunk :: removelast (chunk2 :: chunks)) in Hlen.
      cbn [List.concat] in Hlen. rewrite length_app in Hlen.
      unfold merged'. rewrite length_app. lia. }
    destruct (8 <=? Buf.length merged').
    + rewrite (proj2 (Z.leb_gt _ _) Hshort). exact Hgo.
    + exact Hgo.
Qed.

(** X2: a reply on the stream carrier may arrive in any number of segments,
    and bytes may follow it in the last one: [_sendTcp] resolves with
    exactly the announced bytes once they are complete; what followed them
    in that segment is dropped. *)
Theorem sendTcp_reassembles z w packet raw extra chunks rest :
  socket z = true -> Buf.length packet < 4294967296 -> Buf.length raw < 4294967296 ->
  chunks <> [] ->
  List.concat chunks = envelope raw ++ extra ->
  Buf.length (List.concat (removelast chunks)) < 8 + Buf.length raw ->
  inbox w = map Message chunks ++ rest ->
  _sendTcp packet z w
  = (Ok raw, z,
     mkWorld (reachable w) (opened w) (closed w) (outbox w ++ [envelope packet]) rest).
Proof.
  intros Hs Hp Hraw Hne Hcat Hlen Hi.
  unfold _sendTcp. rewrite createTcpTop_eq by assumption. rewrite Hs. cbn [negb].
  rewrite Hi.
  pose proof (onData_reassembles raw extra rest Hraw chunks [] Hne Hcat) as H.
  change (Buf.length []) with 0 in H. cbn [Z.leb] in H.
  change (8 <=? 0) with false in H. rewrite H by lia. reflexivity.
Qed.

Lemma sendTcp_reassembles_witness :
  let raw := Demo.ackReply in
  let chunks := [firstn 3 (envelope raw); skipn 3 (firstn 10 (envelope raw));
                 skipn 10 (envelope raw) ++ Buf.from [1; 2; 3]] in
  let w := mkWorld true 1 0 [] (map Message chunks ++ [Message Demo.dataReply]) in
  _sendTcp [] Demo.tcpClient w
  = (Ok raw, Demo.tcpClient, mkWorld true 1 0 [envelope []] [Message Demo.dataReply]).
Proof.
  intros raw chunks w.
  apply (sendTcp_reassembles Demo.tcpClient w [] raw (Buf.from [1; 2; 3]) chunks
           [Message Demo.dataReply]).
  - reflexivity.
  - vm_compute. reflexivity.
  - vm_compute. reflexivity.
  - discriminate.
  - vm_compute. reflexivity.
  - vm_compute. reflexivity.
  - reflexivity.
Defined.
End StreamFacts.

Module SessionExtras.
Import CONST Zk Wire BufFacts CodecFacts TransportFacts ReturnFacts TraceFacts.



Lemma readHeader_short (raw : Buffer) :
  Buf.length raw < 8 -> Utils.readHeader (Buf.slice raw 0 8) = Throw RangeError.
Proof.
  intros H. unfold Buf.slice. change (Z.to_nat 0) with 0%nat. cbn [skipn].
  rewrite firstn_all2 by (unfold Buf.length in H; lia).
  unfold Utils.readHeader, Buf.readUInt16LE, Buf.readUIntLE, Buf.inBounds.
  change (Z.of_nat 2) with 2.
  destruct (Z.leb_spec (0 + 2) (Buf.length raw)); cbn [andb Z.leb res_bind];
    [|reflexivity].
  destruct (Z.leb_spec (2 + 2) (Buf.length raw)); cbn [andb Z.leb res_bind];
    [|reflexivity].
  destruct (Z.leb_spec (4 + 2) (Buf.length raw)); cbn [andb Z.leb res_bind];
    [|reflexivity].
  destruct (Z.leb_spec (6 + 2) (Buf.length raw)); cbn [andb Z.leb res_bind];
    [lia | reflexivity].
Qed.

(** X3: a reply shorter than the 8 header bytes.  The request has been
    written and the reply consumed, [_sendCommand] throws a [RangeError] and
    the instance (session id, reply id) is as before. *)
Theorem sendCommand_short_reply z w command cs packet raw z1 w1 :
  allowed z command ->
  Utils.createHeader command cs (sessionId z) (replyId z) = Ok packet ->
  (if tcp z then _sendTcp packet else _sendUdp packet) z w = (Ok raw, z1, w1) ->
  Buf.length raw < 8 ->
  _sendCommand command cs z w = (Throw RangeError, z, w1).
Proof.
  intros Ha Hh Ht Hlen.
  destruct (transport_writes z w packet) as [Hz _]. cbv zeta in Hz. rewrite Ht in Hz.
  cbn [fst snd] in Hz. subst z1.
  unfold _sendCommand, bind, this, lift, update, ret.
  rewrite allowed_guard by assumption. rewrite Hh, Ht, readHeader_short by assumption.
  reflexivity.
Qed.

Lemma sendCommand_short_reply_witness :
  let w := mkWorld true 1 0 [] [Message (Buf.from [208; 7; 0])] in
  _sendCommand CMD_GET_FREE_SIZES [] Demo.udpClient w
  = (Throw RangeError, Demo.udpClient,
     mkWorld true 1 0 [Buf.from [50; 0; 205; 255; 0; 0; 0; 0]] []).
Proof.
  intros w.
  apply (sendCommand_short_reply Demo.udpClient w CMD_GET_FREE_SIZES []
           (Buf.from [50; 0; 205; 255; 0; 0; 0; 0]) (Buf.from [208; 7; 0]) Demo.udpClient).
  - right. right. reflexivity.
  - reflexivity.
  - reflexivity.
  - vm_compute. reflexivity.
Defined.

(** A command changes the session id and the reply id only; it opens and
    closes no socket. *)
Lemma sendCommand_keeps command cs z w :
  let run := _sendCommand command cs z w in
  socket (snd (fst run)) = socket z /\ isConnected (snd (fst run)) = isConnected z /\
  tcp (snd (fst run)) = tcp z /\ password (snd (fst run)) = password z /\
  opened (snd run) = opened w /\ closed (snd run) = closed w /\
  reachable (snd run) = reachable w.
Proof.
  cbv zeta. unfold _sendCommand, bind, this, lift, update, ret, throw.
  destruct (_ && negb (isConnected z)); [repeat split|].
  destruct (Utils.createHeader _ _ _ _) as [packet| |]; [|repeat split..].
  assert (Ht : let run := (if tcp z then _sendTcp packet else _sendUdp packet) z w in
               snd (fst run) = z /\ opened (snd run) = opened w /\
               closed (snd run) = closed w /\ reachable (snd run) = reachable w).
  { cbv zeta. destruct (tcp z).
    - unfold _sendTcp. destruct (Utils.createTcpTop packet); [|repeat split..].
      destruct (negb (socket z)); [repeat split|].
      destruct (onData _ _ _ _). repeat split.
    - unfold _sendUdp. destruct (negb (socket z)); [repeat split|].
      cbn [inbox]. destruct (inbox w) as [|[|] ?]; repeat split. }
  cbv zeta in Ht.
  destruct ((if tcp z then _sendTcp packet else _sendUdp packet) z w) as [[[raw| |] z1] w1];
    cbn [fst snd] in Ht; destruct Ht as (-> & Ho & Hc & Hr); [|repeat split; assumption..].
  destruct (Utils.readHeader _); repeat split; assumption.
Qed.

Lemma disconnect_run z w :
  exists z' w',
    disconnect z w = (Ok true, z', w') /\
    socket z' = false /\
    (socket z = true ->
       isConnected z' = false /\ closed w' = S (closed w) /\ opened w' = opened w) /\
    (socket z = false -> z' = z /\ w' = w).
Proof.
  unfold disconnect. unfold bind at 1, this.
  destruct (socket z) eqn:Hs; cbn [negb].
  2:{ exists z, w. repeat split; congruence. }
  unfold bind at 1, catch. unfold bind at 1.
  pose proof (returns_sendCommand CMD_EXIT [] z w) as Hret.
  pose proof (sendCommand_keeps CMD_EXIT [] z w) as Hk. cbv zeta in Hk.
  destruct (_sendCommand CMD_EXIT [] z w) as [[[r| |] z1] w1]; cbn [fst snd] in *;
    [| |congruence];
    destruct Hk as (Hs1 & _ & _ & _ & Ho & Hc & _); rewrite Hs in Hs1;
    unfold ret, bind, _closeSocket, update; rewrite Hs1;
    (do 2 eexists; split; [reflexivity|]; cbn;
     split; [reflexivity|]; split; [intros _; repeat split; congruence | discriminate]).
Qed.


Lemma createSocket_opens z w :
  reachable w = true ->
  _createSocket z w
  = (Ok tt, set_socket true (if socket z then set_socket false z else z),
     mkWorld (reachable w) (S (opened w)) (if socket z then S (closed w) else closed w)
             (outbox w) (inbox w)).
Proof.
  intros Hr. unfold _createSocket, bind, this, _closeSocket, _openSocket, ret.
  destruct (socket z) eqn:Hs; cbn [reachable opened closed outbox inbox]; rewrite ?Hs, Hr;
    reflexivity.
Qed.

Lemma createSocket_fails z w :
  reachable w = false ->
  _createSocket z w
  = (Throw (Error "socket error"), (if socket z then set_socket false z else z),
     mkWorld (reachable w) (S (opened w)) (if socket z then S (closed w) else closed w)
             (outbox w) (inbox w)).
Proof.
  intros Hr. unfold _createSocket, bind, this, _closeSocket, _openSocket, ret.
  destruct (socket z) eqn:Hs; cbn [reachable opened closed outbox inbox]; rewrite ?Hs, Hr;
    reflexivity.
Qed.




End SessionExtras.

Module InvariantFacts.
Import CONST Zk Wire BufFacts ReturnFacts TraceFacts.

(** *** Pure steps throw range errors only *)

Lemma rethrow {A B} (e : exn) :
  @Throw A e <> Throw TypeError -> @Throw B e <> Throw TypeError.
Proof. intros H [= ->]. now apply H. Qed.

Lemma res_bind_range {A B} (r : res A) (k : A -> res B) :
  r <> Throw TypeError -> (forall a, k a <> Throw TypeError) ->
  res_bind r k <> Throw TypeError.
Proof.
  intros Hr Hk. destruct r; cbn; [apply Hk | | discriminate].
  intros [= ->]. now apply Hr.
Qed.

Lemma readUIntLE_range n b off : Buf.readUIntLE n b off <> Throw TypeError.
Proof. unfold Buf.readUIntLE. destruct (Buf.inBounds b off n); discriminate. Qed.

Lemma readIntLE_range n b off : Buf.readIntLE n b off <> Throw TypeError.
Proof.
  unfold Buf.readIntLE. apply res_bind_range; [apply readUIntLE_range | discriminate].
Qed.

Lemma writeUIntLE_range n b v off : Buf.writeUIntLE n b v off <> Throw TypeError.
Proof.
  unfold Buf.writeUIntLE.
  destruct ((0 <=? v) && (v <? 2 ^ (8 * Z.of_nat n))), (Buf.inBounds b off n); discriminate.
Qed.

Lemma writeIntLE_range n b v off : Buf.writeIntLE n b v off <> Throw TypeError.
Proof.
  unfold Buf.writeIntLE. cbv zeta.
  destruct ((- 2 ^ (8 * Z.of_nat n - 1) <=? v) && (v <? 2 ^ (8 * Z.of_nat n - 1))),
    (Buf.inBounds b off n); discriminate.
Qed.

Lemma res_mapM_range {A B} (f : A -> res B) l :
  (forall a, f a <> Throw TypeError) -> res_mapM f l <> Throw TypeError.
Proof.
  intros Hf. induction l as [|a l IH]; cbn [res_mapM]; [discriminate|].
  specialize (Hf a). destruct (f a) as [b|e|].
  - apply res_bind_range; [exact IH | discriminate].
  - intros [= ->]. now apply Hf.
  - discriminate.
Qed.

Ltac pure_range :=
  repeat first
    [ discriminate
    | apply readUIntLE_range | apply readIntLE_range
    | apply writeUIntLE_range | apply writeIntLE_range
    | apply res_mapM_range; intros ?
    | apply res_bind_range; [|intros ?]
    | match goal with
      | |- (if ?c then _ else _) <> Throw TypeError => destruct c
      | |- (match ?c with _ => _ end) <> Throw TypeError => destruct c
      end ].

Lemma createHeader_range command cs session reply :
  Utils.createHeader command cs session reply <> Throw TypeError.
Proof. unfold Utils.createHeader. pure_range. Qed.

Lemma readHeader_range b : Utils.readHeader b <> Throw TypeError.
Proof. unfold Utils.readHeader. pure_range. Qed.

Lemma decodeTime_range b : Utils.decodeTime b <> Throw TypeError.
Proof. unfold Utils.decodeTime. pure_range. Qed.

Lemma onData_range events : forall merged total target,
  fst (onData events merged total target) <> Throw TypeError.
Proof.
  induction events as [|[chunk|] events IH]; intros merged total target;
    cbn [onData]; try discriminate.
  destruct (match target with Some tg => Some tg | None => _ end) as [tg|]; [|apply IH].
  destruct (tg <=? total + Buf.length chunk); [|apply IH].
  cbn [fst]. apply res_bind_range; [unfold _validateTcpTop; pure_range|].
  intros []; pure_range.
Qed.

(** *** Calls that keep an invariant *)

Section Keeps.
Variable I : t -> Prop.

Lemma keeps_ret {A} (a : A) : keeps I (ret a).
Proof. intros z w H. split; [discriminate | exact H]. Qed.

Lemma keeps_throw {A} msg : keeps I (@throw A (Error msg)).
Proof. intros z w H. split; [discriminate | exact H]. Qed.

Lemma keeps_lift {A} (r : res A) : r <> Throw TypeError -> keeps I (lift r).
Proof. intros Hr z w H. split; [exact Hr | exact H]. Qed.

Lemma keeps_this : keeps I this.
Proof. intros z w H. split; [discriminate | exact H]. Qed.

Lemma keeps_update f : (forall z, I z -> I (f z)) -> keeps I (update f).
Proof. intros Hf z w H. split; [discriminate | now apply Hf]. Qed.

Lemma keeps_bind {A B} (m : M A) (k : A -> M B) :
  keeps I m -> (forall a, keeps I (k a)) -> keeps I (bind m k).
Proof.
  intros Hm Hk z w H. unfold bind. destruct (Hm z w H) as [Hr Hz].
  destruct (m z w) as [[[a| |] z'] w']; cbn [fst snd] in *.
  - now apply Hk.
  - split; [|assumption]. intros [= ->]. now apply Hr.
  - split; [discriminate | assumption].
Qed.

Lemma keeps_catch {A} (m : M A) (h : exn -> M A) :
  keeps I m -> (forall e, keeps I (h e)) -> keeps I (catch m h).
Proof.
  intros Hm Hh z w H. unfold catch. destruct (Hm z w H) as [Hr Hz].
  destruct (m z w) as [[[a| |] z'] w']; cbn [fst snd] in *.
  - split; assumption.
  - now apply Hh.
  - split; assumption.
Qed.

End Keeps.

(** With a socket no exchange comes upon a missing one. *)
Lemma transport_range z w packet :
  socket z = true ->
  fst (fst ((if tcp z then _sendTcp packet else _sendUdp packet) z w)) <> Throw TypeError.
Proof.
  intros Hs. destruct (tcp z).
  - unfold _sendTcp. destruct (Utils.createTcpTop packet) eqn:E; [| |discriminate].
    + rewrite Hs. cbn [negb]. pose proof (onData_range (inbox w) [] 0 None) as H.
      destruct (onData _ _ _ _). exact H.
    + cbn [fst]. intros H. rewrite H in E. revert E.
      unfold Utils.createTcpTop. pure_range.
  - unfold _sendUdp. rewrite Hs. cbn [negb inbox].
    destruct (inbox w) as [|[|] ?]; discriminate.
Qed.

Lemma sendCommand_range command cs z w :
  socket z = true \/ (isConnected z = false /\ command <> CMD_CONNECT /\ command <> CMD_AUTH) ->
  fst (fst (_sendCommand command cs z w)) <> Throw TypeError.
Proof.
  intros H. unfold _sendCommand, bind, this, lift, update, ret, throw.
  destruct (negb (command =? CMD_CONNECT) && negb (command =? CMD_AUTH)
            && negb (isConnected z)) eqn:Hg; [discriminate|].
  assert (Hs : socket z = true).
  { destruct H as [H | (Hc & H1 & H2)]; [exact H|].
    rewrite Hc, (proj2 (Z.eqb_neq _ _) H1), (proj2 (Z.eqb_neq _ _) H2) in Hg.
    discriminate Hg. }
  pose proof (createHeader_range command cs (sessionId z) (replyId z)) as Hh.
  destruct (Utils.createHeader _ _ _ _) as [packet| |];
    [|exact (rethrow _ Hh) | discriminate].
  pose proof (transport_range z w packet Hs) as Ht.
  destruct ((if tcp z then _sendTcp packet else _sendUdp packet) z w) as [[[raw| |] z1] w1];
    cbn [fst] in *; [|exact (rethrow _ Ht) | discriminate].
  pose proof (readHeader_range (Buf.slice raw 0 8)) as Hr.
  destruct (Utils.readHeader _); [discriminate | exact (rethrow _ Hr) | discriminate].
Qed.

Lemma keeps_sendCommand_open command cs :
  keeps (fun z => socket z = true) (_sendCommand command cs).
Proof.
  intros z w Hs. split; [apply sendCommand_range; now left|].
  destruct (SessionExtras.sendCommand_keeps command cs z w) as (H & _). now rewrite H.
Qed.

Lemma keeps_sendCommand command cs :
  command <> CMD_CONNECT -> command <> CMD_AUTH -> keeps linked (_sendCommand command cs).
Proof.
  intros H1 H2 z w Hl. split.
  - apply sendCommand_range. destruct (isConnected z) eqn:Hc; [left; now apply Hl|].
    right. repeat split; assumption.
  - destruct (SessionExtras.sendCommand_keeps command cs z w) as (Hs & Hc & _).
    unfold linked. now rewrite Hs, Hc.
Qed.

Lemma keeps_intro (I : t -> Prop) {A} (m : M A) :
  (forall z w r z' w', I z -> m z w = (r, z', w') -> r <> Throw TypeError /\ I z') ->
  keeps I m.
Proof.
  intros H z w Hz. destruct (m z w) as [[r z'] w'] eqn:E. cbn [fst snd].
  exact (H z w r z' w' Hz E).
Qed.

Ltac keeps_step :=
  first
    [ apply keeps_ret | apply keeps_throw | apply keeps_this
    | apply keeps_update; intros ? ?; assumption
    | apply keeps_sendCommand; discriminate
    | apply keeps_lift; pure_range
    | apply keeps_bind; [|intros ?]
    | match goal with
      | |- keeps _ (if ?c then _ else _) => destruct c
      | |- keeps _ (match ?c with _ => _ end) => destruct c
      end ].

Lemma keeps_enableDevice : keeps linked enableDevice.
Proof. unfold enableDevice. repeat keeps_step. Qed.

Lemma keeps_disableDevice : keeps linked disableDevice.
Proof. unfold disableDevice. repeat keeps_step. Qed.

Lemma keeps_getTime : keeps linked getTime.
Proof. unfold getTime. repeat keeps_step. Qed.

Lemma keeps_setTime date : keeps linked (setTime date).
Proof. unfold setTime. repeat keeps_step. Qed.

Lemma keeps_testVoice index : keeps linked (testVoice index).
Proof. unfold testVoice. repeat keeps_step. Qed.

Lemma keeps_off (f : t -> t) :
  (forall z, isConnected (f z) = false) -> keeps linked (update f).
Proof.
  intros Hf z w _. split; [discriminate|]. cbn. intros H. now rewrite Hf in H.
Qed.

Lemma keeps_restart : keeps linked restart.
Proof.
  unfold restart. apply keeps_bind; [keeps_step|]. intros r.
  destruct (negb (status r)); [apply keeps_throw|].
  apply keeps_bind; [apply keeps_off; reflexivity | intros _; apply keeps_ret].
Qed.

Lemma keeps_powerOff : keeps linked powerOff.
Proof.
  unfold powerOff. apply keeps_bind; [keeps_step|]. intros r.
  destruct (negb (status r)); [apply keeps_throw|].
  apply keeps_bind; [apply keeps_off; reflexivity | intros _; apply keeps_ret].
Qed.

Lemma keeps_readSizes : keeps linked readSizes.
Proof. unfold readSizes. repeat keeps_step. Qed.

Lemma keeps_refreshData : keeps linked refreshData.
Proof. unfold refreshData. repeat keeps_step. Qed.

Lemma keeps_readChunk start size : keeps linked (_readChunk start size).
Proof. unfold _readChunk. repeat keeps_step. Qed.

Lemma keeps_readChunks C packets : forall start chunks,
  keeps linked (readChunks packets C start chunks).
Proof.
  induction packets as [|packets IH]; intros start chunks; cbn [readChunks].
  - apply keeps_ret.
  - apply keeps_bind; [apply keeps_readChunk|]. intros chunk. apply IH.
Qed.

Lemma keeps_readWithBuffer command fct ext : keeps linked (readWithBuffer command fct ext).
Proof.
  unfold readWithBuffer.
  apply keeps_bind; [apply keeps_this|]. intros z.
  do 4 (apply keeps_bind; [apply keeps_lift, writeIntLE_range|]; intros ?).
  apply keeps_bind; [keeps_step|]. intros prep.
  destruct (negb (status prep)); [apply keeps_throw|].
  destruct (code prep =? CMD_DATA); [apply keeps_ret|].
  apply keeps_bind; [apply keeps_lift, readUIntLE_range|]. intros size.
  apply keeps_bind; [apply keeps_readChunks|]. intros [chunks start].
  apply keeps_bind.
  - destruct (JS.truthy _); [|apply keeps_ret].
    apply keeps_bind; [apply keeps_readChunk|]. intros chunk. apply keeps_ret.
  - intros [chunks' start']. repeat keeps_step.
Qed.

Section WithRuntime.
Context {rt : JS.Runtime}.

Lemma parseLoop_range body width turns data :
  (forall d o, body d o <> Throw TypeError) ->
  forall offset users maxUid,
    parseLoop body width turns data offset users maxUid <> Throw TypeError.
Proof.
  intros Hb. induction turns as [|turns IH]; intros offset users maxUid;
    cbn [parseLoop]; [discriminate|].
  apply res_bind_range; [apply Hb|]. intros u. apply IH.
Qed.

Lemma rowsLoop_range body width turns data :
  (forall d o, body d o <> Throw TypeError) ->
  forall offset rows, rowsLoop body width turns data offset rows <> Throw TypeError.
Proof.
  intros Hb. induction turns as [|turns IH]; intros offset rows;
    cbn [rowsLoop]; [discriminate|].
  apply res_bind_range; [apply Hb|]. intros u. apply IH.
Qed.

Lemma rowsLoopWide_range recordSize data fuel :
  forall offset rows, rowsLoopWide fuel recordSize data offset rows <> Throw TypeError.
Proof.
  induction fuel as [|fuel IH]; intros offset rows; cbn [rowsLoopWide]; [discriminate|].
  destruct (offset + recordSize <=? Buf.length data); [|discriminate].
  apply res_bind_range; [unfold attendanceWide, Utils.decodeTime; pure_range|].
  intros u. apply IH.
Qed.

Lemma keeps_freshLoop users : forall fuel, keeps linked (freshLoop fuel users).
Proof.
  induction fuel as [|fuel IH]; cbn [freshLoop].
  - intros z w H. split; [discriminate | exact H].
  - apply keeps_bind; [apply keeps_this|]. intros z.
    destruct (existsb _ users); [|apply keeps_ret].
    do 2 (apply keeps_bind; [apply keeps_update; intros ? ?; assumption|]; intros _).
    apply IH.
Qed.

Lemma keeps_getUsers fuel : keeps linked (getUsers fuel).
Proof.
  unfold getUsers.
  apply keeps_bind; [apply keeps_readSizes|]. intros _.
  apply keeps_bind; [apply keeps_this|]. intros z.
  destruct (negb (JS.truthy (usersCount z))); [repeat keeps_step|].
  apply keeps_bind; [apply keeps_readWithBuffer|]. intros [buffer size].
  destruct (size <=? 4); [apply keeps_ret|].
  apply keeps_bind; [apply keeps_lift, readUIntLE_range|]. intros totalSize.
  apply keeps_bind; [apply keeps_update; intros ? ?; assumption|]. intros _.
  apply keeps_bind; [apply keeps_this|]. intros z'.
  apply keeps_bind.
  { apply keeps_lift. destruct (userPacketSize z' =? 28); apply parseLoop_range; intros d o;
      [unfold parseUser28 | unfold parseUser72]; pure_range. }
  intros [users maxUid].
  do 2 (apply keeps_bind; [apply keeps_update; intros ? ?; assumption|]; intros _).
  apply keeps_bind; [apply keeps_freshLoop|]. intros _. apply keeps_ret.
Qed.

Lemma keeps_setUser fuel a : keeps linked (setUser fuel a).
Proof.
  unfold setUser.
  apply keeps_bind; [apply keeps_getUsers|]. intros users.
  apply keeps_bind; [apply keeps_this|]. intros z. cbv zeta.
  apply keeps_bind.
  { apply keeps_lift. destruct (userPacketSize z =? 28);
      [unfold pack28 | unfold pack72]; pure_range. }
  intros payload.
  apply keeps_bind; [keeps_step|]. intros r.
  destruct (negb (status r)); [apply keeps_throw|].
  apply keeps_bind; [apply keeps_refreshData|]. intros _.
  apply keeps_bind; [apply keeps_this|]. intros z'.
  apply keeps_bind; [|intros _; apply keeps_ret].
  destruct (_ =? nextUid z'); [|apply keeps_ret].
  apply keeps_bind; [apply keeps_update; intros ? ?; assumption|]. intros _.
  apply keeps_update; intros ? ?; assumption.
Qed.

Lemma keeps_deleteUser fuel uid userId : keeps linked (deleteUser fuel uid userId).
Proof.
  unfold deleteUser.
  apply keeps_bind.
  { destruct (_ && _); [|apply keeps_ret].
    apply keeps_bind; [apply keeps_getUsers|]. intros users.
    destruct (find _ users); apply keeps_ret. }
  intros [target|]; [|apply keeps_ret].
  destruct (negb (JS.truthy target)); [apply keeps_ret|]. cbv zeta.
  apply keeps_bind; [apply keeps_lift, writeIntLE_range|]. intros payload.
  apply keeps_bind; [keeps_step|]. intros r.
  destruct (negb (status r)); [apply keeps_throw|].
  apply keeps_bind; [apply keeps_refreshData|]. intros _. apply keeps_ret.
Qed.

Lemma keeps_getAttendance fuel : keeps linked (getAttendance fuel).
Proof.
  unfold getAttendance.
  apply keeps_bind; [apply keeps_readSizes|]. intros _.
  apply keeps_bind; [apply keeps_this|]. intros z.
  destruct (negb (JS.truthy (recordsCount z))); [apply keeps_ret|].
  apply keeps_bind; [apply keeps_getUsers|]. intros users.
  apply keeps_bind; [apply keeps_readWithBuffer|]. intros [buffer size].
  destruct (size <? 4); [apply keeps_ret|].
  apply keeps_bind; [apply keeps_lift, readUIntLE_range|]. intros totalSize.
  apply keeps_bind; [apply keeps_this|]. intros z'.
  destruct (recordsCount z' =? 0); [apply keeps_ret|]. cbv zeta.
  apply keeps_lift.
  destruct (_ =? 8); [|destruct (_ =? 16)].
  - apply rowsLoop_range. intros d o. unfold attendance8, Utils.decodeTime. pure_range.
  - apply rowsLoop_range. intros d o. unfold attendance16, Utils.decodeTime. pure_range.
  - apply rowsLoopWide_range.
Qed.

Lemma keeps_disconnect : keeps linked disconnect.
Proof.
  apply keeps_intro. intros z w r z' w' Hl E.
  destruct (SessionExtras.disconnect_run z w) as (z1 & w1 & E1 & Hs1 & Hc1 & Hn1).
  rewrite E1 in E. injection E as <- <- <-.
  split; [discriminate|]. intros H. destruct (socket z) eqn:Hs.
  - destruct (Hc1 eq_refl) as [Hc _]. congruence.
  - destruct (Hn1 eq_refl) as [-> _]. apply Hl in H. congruence.
Qed.

Lemma keeps_connect : keeps linked connect.
Proof.
  apply keeps_intro. intros z w r z' w' Hl E. unfold connect in E.
  unfold bind at 1, this in E. destruct (isConnected z) eqn:Hc.
  { injection E as <- <- <-. split; [discriminate | exact Hl]. }
  unfold bind at 1 in E.
  assert (Hopen : let run := _createSocket z w in
            (fst (fst run) = Ok tt /\ socket (snd (fst run)) = true) \/
            (exists msg, fst (fst run) = Throw (Error msg))
            /\ isConnected (snd (fst run)) = false).
  { cbv zeta. destruct (reachable w) eqn:Hr.
    - rewrite SessionExtras.createSocket_opens by assumption. left. split; reflexivity.
    - rewrite SessionExtras.createSocket_fails by assumption. right.
      split; [eexists; reflexivity|]. cbn [fst snd]. destruct (socket z); exact Hc. }
  cbv zeta in Hopen.
  destruct (_createSocket z w) as [[[[]| |] z0] w0]; cbn [fst snd] in Hopen.
  2:{ destruct Hopen as [[H _] | [[msg H] Hc0]]; [discriminate H|].
      injection H as ->. injection E as <- <- <-.
      split; [discriminate|]. intros H. congruence. }
  2:{ destruct Hopen as [[H _] | [[msg H] _]]; discriminate H. }
  destruct Hopen as [[_ Hs0] | [[msg H] _]]; [|discriminate H].
  assert (Htail : keeps (fun z => socket z = true)
    (update (set_sessionId 0) ;;;
     update (set_replyId (USHRT_MAX - 1)) ;;;
     response <- _sendCommand CMD_CONNECT [] ;;
     update (set_sessionId (nth 2 (header response) 0)) ;;;
     z <- this ;;
     response <- (if code response =? CMD_ACK_UNAUTH
                  then _sendCommand CMD_AUTH (Utils.makeCommKey (password z) (sessionId z) 50)
                  else ret response) ;;
     if negb (status response) && negb (code response =? CMD_ACK_OK)
     then throw (Error "Invalid response while connecting")
     else update (set_isConnected true) ;;; this)).
  { do 2 (apply keeps_bind; [apply keeps_update; intros ? ?; assumption|]; intros _).
    apply keeps_bind; [apply keeps_sendCommand_open|]. intros r1.
    apply keeps_bind; [apply keeps_update; intros ? ?; assumption|]. intros _.
    apply keeps_bind; [apply keeps_this|]. intros z1.
    apply keeps_bind.
    { destruct (code r1 =? CMD_ACK_UNAUTH); [apply keeps_sendCommand_open | apply keeps_ret]. }
    intros r2. destruct (_ && _); [apply keeps_throw|].
    apply keeps_bind; [apply keeps_update; intros ? ?; assumption|]. intros _.
    apply keeps_this. }
  unfold this in Htail.
  destruct (Htail z0 w0 Hs0) as [Hr Hs1]. rewrite E in Hr, Hs1. cbn [fst snd] in Hr, Hs1.
  split; [exact Hr|]. intros _. exact Hs1.
Qed.

Lemma keeps_perform fuel c : keeps linked (perform fuel c).
Proof.
  destruct c; cbn [perform]; (apply keeps_bind; [|intros _; apply keeps_ret]).
  - apply keeps_connect.
  - apply keeps_disconnect.
  - apply keeps_enableDevice.
  - apply keeps_disableDevice.
  - apply keeps_getTime.
  - apply keeps_setTime.
  - apply keeps_testVoice.
  - apply keeps_restart.
  - apply keeps_powerOff.
  - apply keeps_readSizes.
  - apply keeps_refreshData.
  - apply keeps_getUsers.
  - apply keeps_setUser.
  - apply keeps_deleteUser.
  - apply keeps_getAttendance.
Qed.

Lemma script_linked fuel calls : forall z w,
  linked z ->
  Forall (fun r => r <> Throw TypeError) (fst (fst (script fuel calls z w))) /\
  linked (snd (fst (script fuel calls z w))).
Proof.
  induction calls as [|c calls IH]; intros z w Hl; cbn [script].
  - split; [constructor | exact Hl].
  - destruct (keeps_perform fuel c z w Hl) as [Hr Hz].
    destruct (perform fuel c z w) as [[r z1] w1]. cbn [fst snd] in Hr, Hz.
    destruct (IH z1 w1 Hz) as [Hrs Hz2].
    destruct (script fuel calls z1 w1) as [[rs z2] w2]. cbn [fst snd] in *.
    split; [constructor; assumption | exact Hz2].
Qed.

(** X7: whatever a caller does with a new instance, in whatever order and
    whatever the network does, a connected instance has a socket, and no
    call ever fails on a missing socket. *)
Theorem connected_has_socket fuel calls password forceUdp w :
  let run := script fuel calls (new password forceUdp) w in
  Forall (fun r => r <> Throw TypeError) (fst (fst run)) /\
  (isConnected (snd (fst run)) = true -> socket (snd (fst run)) = true).
Proof. apply script_linked. intros H. discriminate H. Qed.

End WithRuntime.
End InvariantFacts.

Module IdleFacts.
Import CONST Zk Wire BufFacts.


Lemma ushr0_range x : 0 <= JS.ushr x 0 < 4294967296.
Proof.
  unfold JS.ushr, JS.ToUint32. change (0 mod 4294967296 mod 32) with 0.
  rewrite Z.shiftr_0_r. apply Z.mod_pos_bound. lia.
Qed.

Lemma writeUInt32_ushr x :
  Buf.writeUInt32LE (Buf.allocUnsafe 4) (JS.ushr x 0) 0
  = Ok (le_split 4 (JS.ushr x 0)).
Proof.
  unfold Buf.writeUInt32LE. rewrite writeUIntLE_ok.
  - unfold Buf.store, Buf.allocUnsafe, Buf.alloc. cbn [Z.to_nat firstn repeat Nat.add skipn app].
    now rewrite app_nil_r.
  - change (2 ^ (8 * Z.of_nat 4)) with 4294967296. apply ushr0_range.
  - lia.
  - vm_compute. discriminate.
Qed.

Section WithRuntime.
Context {rt : JS.Runtime}.



End WithRuntime.

Import Demo.


End IdleFacts.

Module TimeExtras.
Import TimeDomain BufFacts TimeFacts.

(** All 36525 days of the table hold. *)
Lemma day_table : daysOk (Z.to_nat 36525) 10957 = true.
Proof. vm_compute. reflexivity. Qed.

Lemma daysOk_all count : forall day n,
  daysOk count day = true -> day <= n < day + Z.of_nat count -> dayOk n = true.
Proof.
  induction count as [|count IH]; intros day n H Hn; [lia|].
  cbn [daysOk] in H. apply andb_true_iff in H. destruct H as [H1 H2].
  destruct (Z.eq_dec n day) as [->|]; [exact H1|].
  apply (IH (day + 1)); [exact H2 | lia].
Qed.

Lemma day_fields n :
  10957 <= n < 47482 ->
  exists y m d,
    Date.civilFromDays n = (y, m, d) /\ 2000 <= y <= 2099 /\ 1 <= m <= 12 /\
    1 <= d <= 31 /\ Date.daysFromCivil y m 1 + d - 1 = n.
Proof.
  intros Hn.
  pose proof (daysOk_all _ _ n day_table ltac:(lia)) as H.
  unfold dayOk in H.
  destruct (Date.civilFromDays n) as [[y m] d]. exists y, m, d.
  repeat (apply andb_true_iff in H; destruct H as [H ?]).
  repeat match goal with
         | H : (_ <=? _) = true |- _ => apply Z.leb_le in H
         | H : (_ =? _) = true |- _ => apply Z.eqb_eq in H
         end.
  repeat split; assumption.
Qed.

Lemma unpack a q r :
  0 <= r < q -> (a * q + r) / q = a /\ (a * q + r) mod q = r.
Proof.
  intros H. split.
  - rewrite Z.div_add_l by lia. rewrite Z.div_small by lia. lia.
  - rewrite Z.add_comm, Z.mod_add by lia. apply Z.mod_small. lia.
Qed.

(** The fields [decodeTime] splits the timestamp of a tuple into. *)
Lemma timestamp_split Y M D h mi s :
  1 <= M <= 12 -> 1 <= D <= 31 -> 0 <= h < 24 -> 0 <= mi < 60 -> 0 <= s < 60 ->
  let x := timestamp Y M D h mi s in
  x mod 60 = s /\ (x / 60) mod 60 = mi /\ (x / 60 / 60) mod 24 = h /\
  (x / 60 / 60 / 24) mod 31 + 1 = D /\ (x / 60 / 60 / 24 / 31) mod 12 + 1 = M /\
  x / 60 / 60 / 24 / 31 / 12 = Y.
Proof.
  intros HM HD Hh Hmi Hs x. unfold x, timestamp.
  destruct (unpack ((((Y * 12 + (M - 1)) * 31 + (D - 1)) * 24 + h) * 60 + mi) 60 s Hs)
    as [-> ->].
  destruct (unpack (((Y * 12 + (M - 1)) * 31 + (D - 1)) * 24 + h) 60 mi Hmi) as [-> ->].
  destruct (unpack ((Y * 12 + (M - 1)) * 31 + (D - 1)) 24 h Hh) as [-> ->].
  destruct (unpack (Y * 12 + (M - 1)) 31 (D - 1) ltac:(lia)) as [-> ->].
  destruct (unpack Y 12 (M - 1) ltac:(lia)) as [-> ->].
  repeat split; lia.
Qed.

Lemma date_roundtrip_helper (date : Date.t) :
  946684800000 <= date < 4102444800000 ->
  redate date = Ok (date - date mod 1000).
Proof.
  intros Hd. unfold redate.
  assert (Hn : 10957 <= date / Date.msPerDay < 47482)
    by (unfold Date.msPerDay; Z.div_mod_to_equations; lia).
  destruct (day_fields _ Hn) as (y & m & d & Hciv & Hy & Hm & Hdd & Hback).
  unfold Utils.encodeTime, Date.getFullYear, Date.getMonth, Date.getDate,
    Date.getHours, Date.getMinutes, Date.getSeconds.
  rewrite Hciv. cbn [fst snd]. replace (m - 1 + 1) with m by lia.
  replace (y mod 100) with (y - 2000) by (Z.div_mod_to_equations; lia).
  set (h := (date / 3600000) mod 24). set (mi := (date / 60000) mod 60).
  set (s := (date / 1000) mod 60).
  assert (Hh : 0 <= h < 24) by (apply Z.mod_pos_bound; lia).
  assert (Hmi : 0 <= mi < 60) by (apply Z.mod_pos_bound; lia).
  assert (Hs : 0 <= s < 60) by (apply Z.mod_pos_bound; lia).
  rewrite AuthKeyFacts.ushr_zero.
  replace (((y - 2000) * 12 * 31 + (m - 1) * 31 + d - 1) * (24 * 60 * 60)
           + (h * 60 + mi) * 60 + s)
    with (timestamp (y - 2000) m d h mi s) by (unfold timestamp; lia).
  assert (Hx : 0 <= timestamp (y - 2000) m d h mi s < 4294967296)
    by (unfold timestamp; lia).
  destruct (timestamp_split (y - 2000) m d h mi s Hm Hdd Hh Hmi Hs)
    as (E1 & E2 & E3 & E4 & E5 & E6).
  set (x := timestamp (y - 2000) m d h mi s) in *.
  rewrite (Z.mod_small x) by lia.
  unfold Utils.decodeTime, Buf.readUInt32LE.
  rewrite <- (app_nil_r (le_split 4 x)), readUIntLE_le_split.
  change (2 ^ (Z.of_nat 4 * 8)) with 4294967296. rewrite (Z.mod_small x) by lia.
  cbn [res_bind]. cbv zeta. f_equal.
  rewrite E1, E2, E3, E4, E5, E6.
  replace (y - 2000 + 2000) with y by lia.
  unfold Date.make.
  rewrite (Z.div_small (m - 1) 12), (Z.mod_small (m - 1) 12), Z.add_0_r by lia.
  replace (m - 1 + 1) with m by lia.
  rewrite Hback.
  unfold h, mi, s, Date.msPerDay. Z.div_mod_to_equations. lia.
Qed.

(** X9: a date of the years 2000 to 2099 that is encoded for the device and
    decoded again is the same date, to the second (on a host whose local
    time has no daylight-saving jumps). *)
Theorem date_roundtrip (date : Date.t) :
  946684800000 <= date < 4102444800000 ->
  redate date = Ok (date - date mod 1000).
Proof. apply date_roundtrip_helper. Qed.

Lemma date_roundtrip_witness :
  946684800000 <= 1730548800123 < 4102444800000 /\
  redate 1730548800123 = Ok (1730548800123 - 1730548800123 mod 1000).
Proof.
  split; [lia|]. apply (date_roundtrip 1730548800123). lia.
Defined.
End TimeExtras.

Module WrapperFacts.
Import CONST Zk Wire BufFacts CodecFacts TransportFacts BulkReadFacts.

(** X10: what [setTime] sends, [getTime] reads back.  [setTime] writes one
    request, CMD_SET_TIME with the 4 bytes of [encodeTime]; if a later
    CMD_GET_TIME is answered with data that starts with these bytes,
    [getTime] returns the date that was set, to the second. *)
Theorem setTime_then_getTime z w date ack echo rest :
  ready z -> 946684800000 <= date < 4102444800000 ->
  framed ack -> okCode (codeOf ack) = true ->
  framed echo -> okCode (codeOf echo) = true ->
  Buf.slice (dataOf echo) 0 4 = le_split 4 (Utils.encodeTime date) ->
  inbox w = frame (tcp z) ack :: frame (tcp z) echo :: rest ->
  exists z' w1 w2,
    (setTime date ;;; getTime) z w
    = (Ok (date - date mod 1000), z',
       mkWorld (reachable w) (opened w) (closed w) (outbox w ++ [w1; w2]) rest) /\
    request (tcp z) w1 = (CMD_SET_TIME, le_split 4 (Utils.encodeTime date)) /\
    request (tcp z) w2 = (CMD_GET_TIME, []).
Proof.
  intros Hr Hd Hack Hok1 Hecho Hok2 Hdata Hi.
  pose proof Hr as (Hcon & Hsock & Hsid & Hrid).
  destruct (sendCommand_frame z w CMD_SET_TIME (le_split 4 (Utils.encodeTime date))
              ack (frame (tcp z) echo :: rest)) as (w1 & Hreq1 & Hsend1);
    [ right; right; exact Hcon | exact Hsock | exact Hsid | exact Hrid
    | unfold CMD_SET_TIME; lia | unfold Buf.length; rewrite length_le_split; lia
    | exact Hack | exact Hi |].
  set (z1 := set_replyId (replyOf ack) (set_sessionId (sessionOf ack) z)) in *.
  pose proof (ready_after z ack Hr) as Hr1. fold z1 in Hr1.
  pose proof Hr1 as (Hcon1 & Hsock1 & Hsid1 & Hrid1).
  destruct (sendCommand_frame z1 (mkWorld (reachable w) (opened w) (closed w)
                                          (outbox w ++ [w1]) (frame (tcp z) echo :: rest))
              CMD_GET_TIME (Buf.alloc 0) echo rest) as (w2 & Hreq2 & Hsend2);
    [ right; right; exact Hcon1 | exact Hsock1 | exact Hsid1 | exact Hrid1
    | unfold CMD_GET_TIME; lia | reflexivity | exact Hecho | reflexivity |].
  eexists. exists w1, w2. split; [|split; [exact Hreq1 | exact Hreq2]].
  unfold bind at 1. unfold setTime. cbv zeta. unfold Utils.encodeTime at 1.
  rewrite IdleFacts.writeUInt32_ushr. unfold bind at 1, lift.
  fold (Utils.encodeTime date).
  unfold bind at 1. rewrite Hsend1. cbn [status]. rewrite Hok1. cbn [negb]. unfold ret at 1.
  unfold getTime. unfold bind at 1. rewrite Hsend2. cbn [status data]. rewrite Hok2.
  cbn [negb]. unfold lift. rewrite Hdata.
  change (Utils.decodeTime (le_split 4 (Utils.encodeTime date)))
    with (TimeDomain.redate date).
  rewrite TimeExtras.date_roundtrip_helper by assumption.
  cbn [reachable opened closed outbox]. rewrite <- app_assoc. reflexivity.
Qed.

Lemma setTime_then_getTime_witness :
  let date := 1730548800123 in
  let echo := reply CMD_ACK_OK 7 4 (le_split 4 (Utils.encodeTime date)) in
  let w := Demo.net false [Demo.ackReply; echo] in
  exists z' w1 w2,
    (setTime date ;;; getTime) Demo.udpClient w
    = (Ok (date - date mod 1000), z', mkWorld true 1 0 [w1; w2] []) /\
    request false w1 = (CMD_SET_TIME, le_split 4 (Utils.encodeTime date)) /\
    request false w2 = (CMD_GET_TIME, []).
Proof.
  intros date echo w.
  apply (setTime_then_getTime Demo.udpClient w date Demo.ackReply echo []).
  - repeat split; vm_compute; congruence.
  - unfold date. lia.
  - split; vm_compute; [discriminate | reflexivity].
  - reflexivity.
  - split; vm_compute; [discriminate | reflexivity].
  - reflexivity.
  - vm_compute. reflexivity.
  - reflexivity.
Defined.

(** X11: the buffered read that needs no chunks.  When the reply to the
    prepare request is CMD_DATA, [readWithBuffer] returns its data and their
    length; when it is not a success code, it throws.  Either way the
    prepare request is the only thing written: no chunk is requested and
    CMD_FREE_DATA is not sent. *)
Theorem readWithBuffer_inline z w command fct ext prep rest :
  ready z ->
  - 32768 <= command < 32768 ->
  - 2147483648 <= fct < 2147483648 -> - 2147483648 <= ext < 2147483648 ->
  framed prep -> codeOf prep = CMD_DATA \/ okCode (codeOf prep) = false ->
  inbox w = frame (tcp z) prep :: rest ->
  exists z' w0,
    readWithBuffer command fct ext z w
    = ((if okCode (codeOf prep)
        then Ok (dataOf prep, Buf.length (dataOf prep))
        else Throw (Error "Buffered read not supported")), z',
       mkWorld (reachable w) (opened w) (closed w) (outbox w ++ [w0]) rest) /\
    request (tcp z) w0 = (_CMD_PREPARE_BUFFER, prepareArgument command fct ext).
Proof.
  intros Hr Hc Hf He Hprep Hcode Hi.
  destruct (prepare_payload command fct ext Hc Hf He) as (P1 & P2 & P3 & P4).
  pose proof Hr as (Hcon & Hsock & Hsid & Hrid).
  destruct (sendCommand_frame z w _CMD_PREPARE_BUFFER (prepareArgument command fct ext)
              prep rest) as (w0 & Hreq0 & Hsend0);
    [ right; right; exact Hcon | exact Hsock | exact Hsid | exact Hrid
    | unfold _CMD_PREPARE_BUFFER; lia
    | unfold prepareArgument, Buf.length; cbn [List.length];
      rewrite !List.length_app, !length_le_split; lia
    | exact Hprep | exact Hi |].
  eexists. exists w0. split; [|exact Hreq0].
  unfold readWithBuffer. unfold bind at 1. unfold this at 1.
  unfold bind at 1, lift at 1. rewrite P1.
  unfold bind at 1, lift at 1. rewrite P2.
  unfold bind at 1, lift at 1. rewrite P3.
  unfold bind at 1, lift at 1. rewrite P4.
  unfold bind at 1. rewrite Hsend0. cbn [status code data].
  destruct Hcode as [Hcode | Hcode].
  - rewrite Hcode. reflexivity.
  - rewrite Hcode. reflexivity.
Qed.

Lemma readWithBuffer_inline_witness :
  let prep := reply CMD_DATA 7 4 (Buf.from [1; 2; 3; 4; 5]) in
  let w := Demo.net true [prep; Demo.ackReply] in
  exists z' w0,
    readWithBuffer CMD_USERTEMP_RRQ FCT_USER 0 Demo.tcpClient w
    = (Ok (Buf.from [1; 2; 3; 4; 5], 5), z',
       mkWorld true 1 0 [w0] [frame true Demo.ackReply]) /\
    request true w0 = (_CMD_PREPARE_BUFFER, prepareArgument CMD_USERTEMP_RRQ FCT_USER 0).
Proof.
  intros prep w.
  apply (readWithBuffer_inline Demo.tcpClient w CMD_USERTEMP_RRQ FCT_USER 0 prep
           [frame true Demo.ackReply]).
  - repeat split; vm_compute; congruence.
  - vm_compute. split; congruence.
  - vm_compute. split; congruence.
  - vm_compute. split; congruence.
  - split; vm_compute; [discriminate | reflexivity].
  - left. reflexivity.
  - reflexivity.
Defined.
End WrapperFacts.

Module DeleteFacts.
Import CONST Zk Wire BufFacts.

Section WithRuntime.
Context {rt : JS.Runtime}.

Lemma writeInt16_out uid :
  uid < -32768 \/ 32767 < uid ->
  Buf.writeInt16LE (Buf.alloc 2) uid 0 = Throw RangeError.
Proof.
  intros H. unfold Buf.writeInt16LE, Buf.writeIntLE. cbv zeta.
  destruct (_ && _) eqn:E; [|reflexivity].
  apply andb_true_iff in E. destruct E as [E1 E2].
  apply Z.leb_le in E1. apply Z.ltb_lt in E2.
  change (2 ^ (8 * Z.of_nat 2 - 1)) with 32768 in *. lia.
Qed.

(** X12: [deleteUser] writes the uid as an int16.  A target uid outside
    -32768..32767, given by the caller or found by the look-up of the user
    id among the users of the device (whose uids are uint16), makes the call
    throw a [RangeError]; CMD_DELETE_USER is not sent. *)
Theorem deleteUser_uid_int16 fuel uid userId z w z1 w1 target :
  (if negb (JS.truthy uid) && JS.nonEmpty userId
   then exists users u,
          getUsers fuel z w = (Ok users, z1, w1) /\
          find (fun u => String.eqb (User.userId u) userId) users = Some u /\
          User.uid u = target
   else z1 = z /\ w1 = w /\ target = uid) ->
  target < -32768 \/ 32767 < target ->
  deleteUser fuel uid userId z w = (Throw RangeError, z1, w1).
Proof.
  intros Hres Hout. unfold deleteUser. unfold bind at 1.
  assert (Ht : JS.truthy target = true).
  { unfold JS.truthy. destruct (Z.eqb_spec target 0); [lia | reflexivity]. }
  destruct (negb (JS.truthy uid) && JS.nonEmpty userId).
  - destruct Hres as (users & u & Hrun & Hfind & Hu).
    unfold bind at 1. rewrite Hrun, Hfind. unfold ret at 1. rewrite Hu, Ht. cbn [negb].
    cbv zeta. unfold bind at 1, lift. now rewrite writeInt16_out.
  - destruct Hres as (-> & -> & ->). unfold ret at 1. rewrite Ht. cbn [negb].
    cbv zeta. unfold bind at 1, lift. now rewrite writeInt16_out.
Qed.

End WithRuntime.

Import Demo.

Lemma deleteUser_uid_int16_witness :
  let w := net false [sizes 1; userData [rec28 40000 7]] in
  deleteUser 3 0 "7" udpClient w
  = (Throw RangeError, snd (fst (getUsers 3 udpClient w)), snd (getUsers 3 udpClient w)).
Proof.
  intros w.
  apply (deleteUser_uid_int16 3 0 "7" udpClient w _ _ 40000).
  - cbn [JS.truthy JS.nonEmpty negb andb Z.eqb String.eqb Ascii.eqb Bool.eqb].
    exists [User.mk 40000 0 "" "NN-40000" 0 "0" "7"], (User.mk 40000 0 "" "NN-40000" 0 "0" "7").
    split; [|split]; vm_compute; reflexivity.
  - right. lia.
Defined.

(** The requests of that call: the sizes and the user table are read; no
    delete request follows. *)
Example deleteUser_high_uid_requests :
  sentCommands false
    (snd (deleteUser 3 0 "7" udpClient (net false [sizes 1; userData [rec28 40000 7]])))
  = [CMD_GET_FREE_SIZES; _CMD_PREPARE_BUFFER].
Proof. vm_compute. reflexivity. Qed.
End DeleteFacts.

Module AttendanceFacts.
Import CONST Zk Wire BufFacts.

Section WithRuntime.
Context {rt : JS.Runtime}.

Lemma attendanceWide_negative data offset :
  offset < 0 -> attendanceWide data offset = Throw RangeError.
Proof.
  intros H. unfold attendanceWide, Buf.readUInt16LE, Buf.readUIntLE, Buf.inBounds.
  now rewrite (proj2 (Z.leb_gt 0 offset) H).
Qed.

Lemma attendanceWide_throws data offset e :
  attendanceWide data offset = Throw e -> e = RangeError.
Proof.
  unfold attendanceWide, Utils.decodeTime, Buf.readUInt16LE, Buf.readUInt8, Buf.readUInt32LE,
    Buf.readUIntLE.
  repeat match goal with
         | |- context [if ?c then _ else _] => destruct c; cbn [res_bind]
         end; congruence.
Qed.

(** A loop that does not advance does not return. *)
Lemma rowsLoopWide_stuck recordSize data :
  recordSize <= 0 ->
  forall fuel offset rows,
    offset <= 0 ->
    rowsLoopWide fuel recordSize data offset rows = OutOfFuel \/
    rowsLoopWide fuel recordSize data offset rows = Throw RangeError.
Proof.
  intros Hrs. induction fuel as [|fuel IH]; intros offset rows Ho; [now left|].
  cbn [rowsLoopWide]. pose proof (length_nonneg data).
  rewrite (proj2 (Z.leb_le (offset + recordSize) (Buf.length data))) by lia.
  destruct (attendanceWide data offset) as [r|e|] eqn:E; cbn [res_bind].
  - apply IH. lia.
  - right. now rewrite (attendanceWide_throws _ _ _ E).
  - now left.
Qed.

(** A loop that advances comes to an end within [data.length + 1] turns. *)
Lemma rowsLoopWide_ends recordSize data :
  0 < recordSize ->
  forall fuel offset rows,
    0 <= offset -> (1 <= fuel)%nat -> Buf.length data - offset < Z.of_nat fuel ->
    rowsLoopWide fuel recordSize data offset rows <> OutOfFuel.
Proof.
  intros Hrs. induction fuel as [|fuel IH]; intros offset rows Ho H1 Hf; [lia|].
  cbn [rowsLoopWide].
  destruct (Z.leb_spec (offset + recordSize) (Buf.length data)); [|discriminate].
  destruct (attendanceWide data offset) as [r|e|] eqn:E; cbn [res_bind].
  - apply IH; lia.
  - discriminate.
  - exfalso. revert E. unfold attendanceWide, Utils.decodeTime. ReturnFacts.pure_total.
Qed.

(** X13: the loop of [getAttendance] over records of a size other than 8
    and 16 steps by the record size computed from the reply.  With a
    positive size it ends, within [data.length + 1] turns; with a size that
    is zero or negative (a total size below the record count, or a negative
    count) it never returns the rows: it throws a [RangeError] or goes on
    for ever. *)
Theorem attendance_loop_progress recordSize data fuel :
  (0 < recordSize -> (Z.to_nat (Buf.length data) < fuel)%nat ->
     rowsLoopWide fuel recordSize data 0 [] <> OutOfFuel) /\
  (recordSize <= 0 ->
     rowsLoopWide fuel recordSize data 0 [] = OutOfFuel \/
     rowsLoopWide fuel recordSize data 0 [] = Throw RangeError).
Proof.
  split.
  - intros Hrs Hf. apply rowsLoopWide_ends; [exact Hrs | lia | lia |].
    pose proof (length_nonneg data). lia.
  - intros Hrs. apply rowsLoopWide_stuck; [exact Hrs | lia].
Qed.

End WithRuntime.

Import Demo.

Lemma attendance_loop_progress_witness :
  rowsLoopWide 42 40 (Buf.alloc 40) 0 [] <> OutOfFuel /\
  (rowsLoopWide 42 0 (Buf.alloc 40) 0 [] = OutOfFuel \/
   rowsLoopWide 42 0 (Buf.alloc 40) 0 [] = Throw RangeError).
Proof.
  split.
  - apply (proj1 (attendance_loop_progress 40 (Buf.alloc 40) 42)); [lia|].
    vm_compute. lia.
  - apply (proj2 (attendance_loop_progress 0 (Buf.alloc 40) 42)). lia.
Defined.

(** A device that reports 5 records and then sends a table whose total size
    is 0: the record size is 0 and [getAttendance] does not come back,
    however many turns it is given. *)
Example getAttendance_zero_record_size :
  let table := reply CMD_DATA 7 3 (le_split 4 0 ++ Buf.alloc 32) in
  let sizes5 := reply CMD_ACK_OK 7 3 (le_split 32 0 ++ le_split 4 5 ++ le_split 44 0) in
  fst (fst (getAttendance 50 udpClient (net false [sizes5; sizes5; table]))) = OutOfFuel.
Proof. vm_compute. reflexivity. Qed.

(** 8-byte records: uid 2 at 10:30:45 on 2024-11-02 and uid 9; the first
    belongs to the user with user id 77, the second to nobody. *)
Example getAttendance_rows :
  let stamp := TimeDomain.timestamp 24 11 2 10 30 45 in
  let record uid := le_split 2 uid ++ le_split 1 1 ++ le_split 4 stamp ++ le_split 1 0 in
  let table := reply CMD_DATA 7 3 (le_split 4 16 ++ record 2 ++ record 9) in
  let sizes2 := reply CMD_ACK_OK 7 3 (le_split 16 0 ++ le_split 4 1 ++ le_split 12 0
                                      ++ le_split 4 2 ++ le_split 44 0) in
  let run := getAttendance 3 udpClient
               (net false [sizes2; sizes2; userData [rec28 2 77]; table]) in
  match fst (fst run) with
  | Ok rows => map (fun r => (r_uid r, r_userId r, r_timestamp r)) rows
  | _ => []
  end
  = [(2, "77"%string, Date.make 2024 10 2 10 30 45);
     (9, "9"%string, Date.make 2024 10 2 10 30 45)].
Proof. vm_compute. reflexivity. Qed.
End AttendanceFacts.

Module RecordFacts.
Import CONST Zk Wire BufFacts TraceFacts.

(** *** Buffers as sequences of fields *)

Lemma store_skip n (f rest : Buffer) v off :
  Buf.length f <= off ->
  Buf.store n (f ++ rest) v off = f ++ Buf.store n rest v (off - Buf.length f).
Proof.
  intros H. unfold Buf.store, Buf.length in *.
  rewrite firstn_app, skipn_app.
  rewrite firstn_all2, skipn_all2 by lia.
  replace (Z.to_nat off - List.length f)%nat
    with (Z.to_nat (off - Z.of_nat (List.length f))) by lia.
  replace (Z.to_nat off + n - List.length f)%nat
    with (Z.to_nat (off - Z.of_nat (List.length f)) + n)%nat by lia.
  cbn [app]. now rewrite <- app_assoc.
Qed.

Lemma store_here n (old rest : Buffer) v :
  List.length old = n -> Buf.store n (old ++ rest) v 0 = le_split n v ++ rest.
Proof.
  intros H. unfold Buf.store. change (Z.to_nat 0) with 0%nat. cbn [firstn app Nat.add].
  rewrite skipn_app, skipn_all2, H, Nat.sub_diag by lia. reflexivity.
Qed.

Lemma copy_skip (src f rest : Buffer) off :
  Buf.length f <= off ->
  Buf.copy src (f ++ rest) off = f ++ Buf.copy src rest (off - Buf.length f).
Proof.
  intros H. unfold Buf.copy, Buf.length in *. cbv zeta.
  rewrite firstn_app, skipn_app, List.length_app.
  rewrite firstn_all2 by lia.
  replace (Z.to_nat off - List.length f)%nat
    with (Z.to_nat (off - Z.of_nat (List.length f))) by lia.
  replace (List.length f + List.length rest - Z.to_nat off)%nat
    with (List.length rest - Z.to_nat (off - Z.of_nat (List.length f)))%nat by lia.
  set (k := Nat.min _ _).
  rewrite skipn_all2 by lia.
  replace (Z.to_nat off + k - List.length f)%nat
    with (Z.to_nat (off - Z.of_nat (List.length f)) + k)%nat by lia.
  cbn [app]. now rewrite <- app_assoc.
Qed.

Lemma skipn_zeros k n : skipn k (Buf.alloc n) = Buf.alloc (n - k).
Proof.
  unfold Buf.alloc. revert k. induction n as [|n IH]; intros [|k]; cbn; try reflexivity.
  apply IH.
Qed.

Lemma copy_here n (b rest : Buffer) :
  Buf.copy (firstn n b) (Buf.alloc n ++ rest) 0 = pad n b ++ rest.
Proof.
  unfold Buf.copy, pad. cbv zeta. change (Z.to_nat 0) with 0%nat.
  cbn [firstn app Nat.add]. rewrite List.length_app, Nat.sub_0_r.
  assert (Hz : forall m, List.length (Buf.alloc m) = m) by (intros m; apply repeat_length).
  rewrite Hz.
  rewrite length_firstn.
  replace (Nat.min (Nat.min n (List.length b)) (n + List.length rest))
    with (Nat.min n (List.length b)) by lia.
  rewrite firstn_firstn.
  replace (Nat.min (Nat.min n (List.length b)) n) with (Nat.min n (List.length b)) by lia.
  rewrite skipn_app, Hz, skipn_zeros.
  replace (Nat.min n (List.length b) - n)%nat with 0%nat by lia. cbn [skipn].
  replace (n - Nat.min n (List.length b))%nat with (n - List.length b)%nat by lia.
  rewrite <- app_assoc. f_equal.
  destruct (Nat.le_gt_cases n (List.length b)).
  - now rewrite Nat.min_l by lia.
  - rewrite Nat.min_r by lia. now rewrite !firstn_all2 by lia.
Qed.

Lemma length_pad n b : Buf.length (pad n b) = Z.of_nat n.
Proof.
  unfold pad, Buf.length, Buf.alloc. rewrite List.length_app, length_firstn, repeat_length. lia.
Qed.

Lemma length_split n v : Buf.length (le_split n v) = Z.of_nat n.
Proof. unfold Buf.length. now rewrite length_le_split. Qed.

Lemma read_skip n (f rest : Buffer) off :
  Buf.length f <= off ->
  Buf.readUIntLE n (f ++ rest) off = Buf.readUIntLE n rest (off - Buf.length f).
Proof.
  intros H. replace off with (Buf.length f + (off - Buf.length f)) at 1 by lia.
  apply readUIntLE_skip. lia.
Qed.

Lemma read_here n v (rest : Buffer) :
  0 <= v < 2 ^ (Z.of_nat n * 8) -> Buf.readUIntLE n (le_split n v ++ rest) 0 = Ok v.
Proof. intros H. rewrite readUIntLE_le_split. now rewrite Z.mod_small. Qed.

Lemma slice_skip (f rest : Buffer) s e :
  Buf.length f <= s ->
  Buf.slice (f ++ rest) s e = Buf.slice rest (s - Buf.length f) (e - Buf.length f).
Proof.
  intros H. unfold Buf.slice, Buf.length in *. rewrite skipn_app, skipn_all2 by lia.
  cbn [app].
  replace (Z.to_nat (e - Z.of_nat (List.length f)) - Z.to_nat (s - Z.of_nat (List.length f)))%nat
    with (Z.to_nat e - Z.to_nat s)%nat by lia.
  replace (Z.to_nat (s - Z.of_nat (List.length f)))
    with (Z.to_nat s - List.length f)%nat by lia.
  reflexivity.
Qed.

Lemma slice_here (f rest : Buffer) e :
  Buf.length f = e -> Buf.slice (f ++ rest) 0 e = f.
Proof.
  intros H. unfold Buf.slice, Buf.length in *. change (Z.to_nat 0) with 0%nat.
  cbn [skipn]. rewrite Nat.sub_0_r, firstn_app.
  replace (Z.to_nat e - List.length f)%nat with 0%nat by lia.
  rewrite firstn_all2 by lia. cbn [firstn]. apply app_nil_r.
Qed.

(** Offsets behind a field whose length is known. *)
Ltac field_len :=
  rewrite ?length_split, ?length_pad, ?length_alloc; first [reflexivity | lia].

Ltac norm_off :=
  rewrite ?length_split, ?length_pad, ?length_alloc;
  repeat match goal with
         | |- context [?a - Z.of_nat ?n] =>
             let r := eval vm_compute in (a - Z.of_nat n) in
             change (a - Z.of_nat n) with r
         end.

Ltac into_field :=
  first [ rewrite store_skip by field_len
        | rewrite copy_skip by field_len
        | rewrite read_skip by field_len
        | rewrite slice_skip by field_len ];
  norm_off.

Lemma store_last n (old : Buffer) v :
  List.length old = n -> Buf.store n old v 0 = le_split n v.
Proof.
  intros H. rewrite <- (app_nil_r old), store_here by exact H. apply app_nil_r.
Qed.

Lemma copy_last n (b : Buffer) : Buf.copy (firstn n b) (Buf.alloc n) 0 = pad n b.
Proof.
  rewrite <- (app_nil_r (Buf.alloc n)), copy_here. apply app_nil_r.
Qed.

Lemma read_last n v :
  0 <= v < 2 ^ (Z.of_nat n * 8) -> Buf.readUIntLE n (le_split n v) 0 = Ok v.
Proof. intros H. rewrite <- (app_nil_r (le_split n v)). now apply read_here. Qed.

Lemma slice_last (f : Buffer) e : Buf.length f = e -> Buf.slice f 0 e = f.
Proof. intros H. rewrite <- (app_nil_r f) at 1. now apply slice_here. Qed.

Ltac copy_field k := rewrite (copy_skip (firstn k _)) by field_len; norm_off.

Lemma alloc28 :
  Buf.alloc 28 = Buf.alloc 2 ++ Buf.alloc 1 ++ Buf.alloc 5 ++ Buf.alloc 8 ++ Buf.alloc 4
                 ++ Buf.alloc 1 ++ Buf.alloc 1 ++ Buf.alloc 2 ++ Buf.alloc 4.
Proof. reflexivity. Qed.

Lemma alloc72 :
  Buf.alloc 72 = Buf.alloc 2 ++ Buf.alloc 1 ++ Buf.alloc 8 ++ Buf.alloc 24 ++ Buf.alloc 4
                 ++ Buf.alloc 1 ++ Buf.alloc 7 ++ Buf.alloc 1 ++ Buf.alloc 24.
Proof. reflexivity. Qed.

Lemma slice_head (b : Buffer) n : Buf.slice b 0 (Z.of_nat n) = firstn n b.
Proof.
  unfold Buf.slice. change (Z.to_nat 0) with 0%nat. cbn [skipn].
  now rewrite Nat.sub_0_r, Nat2Z.id.
Qed.

Section WithRuntime.
Context {rt : JS.Runtime}.

Local Opaque Buf.store Buf.copy Buf.slice Buf.readUIntLE.

(** The 28-byte record, field by field. *)
Lemma pack28_fields uid priv password name card groupId userId payload :
  pack28 uid priv password name card groupId userId = Ok payload ->
  let group := if JS.nonEmpty groupId
               then match JS.Number groupId with Some g => g | None => 0 end
               else 0 in
  let idNumber := match JS.Number userId with Some v => v | None => 0 end in
  payload = le_split 2 uid ++ le_split 1 priv ++ pad 5 (Buf.fromString password)
            ++ pad 8 (Buf.fromString name) ++ le_split 4 (JS.ushr card 0) ++ Buf.alloc 1
            ++ le_split 1 group ++ le_split 2 0 ++ le_split 4 idNumber /\
  0 <= uid < 65536 /\ 0 <= priv < 256 /\ 0 <= group < 256 /\ 0 <= idNumber < 4294967296.
Proof.
  unfold pack28, Buf.writeUInt16LE, Buf.writeUInt8, Buf.writeUInt32LE. intros H.
  destruct (Buf.writeUIntLE 2 (Buf.alloc 28) uid 0) as [p1| |] eqn:E1;
    cbn [res_bind] in H; try discriminate.
  destruct (Buf.writeUIntLE 1 p1 priv 2) as [p2| |] eqn:E2;
    cbn [res_bind] in H; try discriminate.
  cbv zeta in H.
  destruct (Buf.writeUIntLE 4 _ (JS.ushr card 0) 16) as [p3| |] eqn:E3;
    cbn [res_bind] in H; try discriminate.
  destruct (Buf.writeUIntLE 1 p3 _ 21) as [p4| |] eqn:E4;
    cbn [res_bind] in H; try discriminate.
  destruct (Buf.writeUIntLE 2 p4 0 22) as [p5| |] eqn:E5;
    cbn [res_bind] in H; try discriminate.
  destruct (Buf.writeUIntLE 4 p5 _ 24) as [p6| |] eqn:E6;
    cbn [res_bind] in H; try discriminate.
  injection H as <-.
  apply writeUIntLE_inv in E1, E2, E3, E4, E5, E6.
  destruct E1 as (-> & Hu & _), E2 as (-> & Hp & _), E3 as (-> & _), E4 as (-> & Hg & _),
    E5 as (-> & _), E6 as (-> & Hi & _).
  cbv zeta. split; [|repeat split; assumption || (apply Hu) || (apply Hp) || (apply Hg)
                                   || (apply Hi)].
  rewrite (slice_head _ 5), (slice_head _ 8), alloc28.
  rewrite store_here by reflexivity. repeat into_field.
  rewrite store_here by reflexivity. repeat into_field.
  rewrite copy_here. repeat into_field.
  rewrite copy_here. repeat into_field.
  rewrite store_here by reflexivity. repeat into_field.
  rewrite store_here by reflexivity. repeat into_field.
  rewrite store_here by reflexivity. repeat into_field.
  rewrite store_last by reflexivity.
  reflexivity.
Qed.

Ltac read_field :=
  repeat into_field;
  first [ rewrite read_here by (change (2 ^ (Z.of_nat _ * 8)) with 256 ||
                                change (2 ^ (Z.of_nat _ * 8)) with 65536 ||
                                change (2 ^ (Z.of_nat _ * 8)) with 4294967296; lia)
        | rewrite read_last by (change (2 ^ (Z.of_nat _ * 8)) with 256 ||
                                change (2 ^ (Z.of_nat _ * 8)) with 65536 ||
                                change (2 ^ (Z.of_nat _ * 8)) with 4294967296; lia)
        | rewrite slice_here by field_len
        | rewrite slice_last by field_len ];
  cbn [res_bind].

(** X14. A record that [setUser] packs in the 28-byte layout is read back by the parser of
    [getUsers] with the same uid and privilege, the card number as an unsigned 32-bit
    value, the group and the user id as the decimal text of the numbers that were stored,
    and the password and the name as the trimmed text of their first 5 and 8 bytes. *)
Theorem pack28_parse_roundtrip uid priv password name card groupId userId payload :
  pack28 uid priv password name card groupId userId = Ok payload ->
  parseUser28 payload 0 =
  Ok (User.mk uid priv (field 5 password)
        (if JS.nonEmpty (field 8 name) then field 8 name
         else ("NN-" ++ JS.StringOf uid)%string)
        (JS.ushr card 0)
        (JS.StringOf (if JS.nonEmpty groupId
                      then match JS.Number groupId with Some g => g | None => 0 end
                      else 0))
        (JS.StringOf match JS.Number userId with Some v => v | None => 0 end)).
Proof.
  intros H. apply pack28_fields in H. cbv zeta in H.
  destruct H as (-> & Hu & Hp & Hg & Hi).
  pose proof (IdleFacts.ushr0_range card) as Hc.
  unfold parseUser28, _trimString, field, Buf.readUInt16LE, Buf.readUInt8, Buf.readUInt32LE.
  rewrite !Z.add_0_l.
  rewrite read_here by (change (2 ^ (Z.of_nat 2 * 8)) with 65536; lia).
  cbn [res_bind]. cbv zeta. repeat read_field.
  reflexivity.
Qed.

(** The 72-byte record, field by field. *)
Lemma pack72_fields uid priv password name card groupId userId payload :
  pack72 uid priv password name card groupId userId = Ok payload ->
  payload = le_split 2 uid ++ le_split 1 priv ++ pad 8 (Buf.fromString password)
            ++ pad 24 (Buf.fromString name) ++ le_split 4 (JS.ushr card 0) ++ Buf.alloc 1
            ++ pad 7 (Buf.fromString groupId) ++ Buf.alloc 1
            ++ pad 24 (Buf.fromString userId) /\
  0 <= uid < 65536 /\ 0 <= priv < 256.
Proof.
  unfold pack72, Buf.writeUInt16LE, Buf.writeUInt8, Buf.writeUInt32LE. intros H.
  destruct (Buf.writeUIntLE 2 (Buf.alloc 72) uid 0) as [p1| |] eqn:E1;
    cbn [res_bind] in H; try discriminate.
  destruct (Buf.writeUIntLE 1 p1 priv 2) as [p2| |] eqn:E2;
    cbn [res_bind] in H; try discriminate.
  cbv zeta in H.
  destruct (Buf.writeUIntLE 4 _ (JS.ushr card 0) 35) as [p3| |] eqn:E3;
    cbn [res_bind] in H; try discriminate.
  injection H as <-.
  apply writeUIntLE_inv in E1, E2, E3.
  destruct E1 as (-> & Hu & _), E2 as (-> & Hp & _), E3 as (-> & _).
  split; [|split; [apply Hu | apply Hp]].
  rewrite (slice_head _ 8), !(slice_head _ 24), (slice_head _ 7), alloc72.
  rewrite store_here by reflexivity. repeat into_field.
  rewrite store_here by reflexivity. repeat into_field.
  rewrite copy_here. repeat into_field.
  rewrite copy_here. repeat into_field.
  rewrite store_here by reflexivity. repeat into_field.
  rewrite copy_here. repeat into_field.
  rewrite copy_last.
  reflexivity.
Qed.

(** X15. A record that [setUser] packs in the 72-byte layout is read back by the parser of
    [getUsers] with the same uid and privilege, the card number as an unsigned 32-bit
    value, and each text as the trimmed text of its field: 8 bytes of password, 24 of
    name, 7 of group and 24 of user id. *)
Theorem pack72_parse_roundtrip uid priv password name card groupId userId payload :
  pack72 uid priv password name card groupId userId = Ok payload ->
  parseUser72 payload 0 =
  Ok (User.mk uid priv (field 8 password)
        (if JS.nonEmpty (field 24 name) then field 24 name
         else ("NN-" ++ JS.StringOf uid)%string)
        (JS.ushr card 0) (field 7 groupId) (field 24 userId)).
Proof.
  intros H. apply pack72_fields in H.
  destruct H as (-> & Hu & Hp).
  pose proof (IdleFacts.ushr0_range card) as Hc.
  unfold parseUser72, _trimString, field, Buf.readUInt16LE, Buf.readUInt8, Buf.readUInt32LE.
  rewrite !Z.add_0_l.
  rewrite read_here by (change (2 ^ (Z.of_nat 2 * 8)) with 65536; lia).
  cbn [res_bind]. cbv zeta. repeat read_field.
  reflexivity.
Qed.
End WithRuntime.

Import Demo.

Lemma pack28_parse_roundtrip_witness :
  exists payload,
    pack28 7 14 "123456" "Ann" 99 "3" "42" = Ok payload /\
    parseUser28 payload 0 = Ok (User.mk 7 14 "12345" "Ann" 99 "3" "42").
Proof.
  eexists. split; [vm_compute; reflexivity|].
  refine (eq_trans (pack28_parse_roundtrip 7 14 "123456" "Ann" 99 "3" "42" _ _) _);
    vm_compute; reflexivity.
Defined.

Lemma pack72_parse_roundtrip_witness :
  exists payload,
    pack72 7 14 "123456789" "Ann" 99 "staff" "A-42" = Ok payload /\
    parseUser72 payload 0 = Ok (User.mk 7 14 "12345678" "Ann" 99 "staff" "A-42").
Proof.
  eexists. split; [vm_compute; reflexivity|].
  refine (eq_trans (pack72_parse_roundtrip 7 14 "123456789" "Ann" 99 "staff" "A-42" _ _) _);
    vm_compute; reflexivity.
Defined.
End RecordFacts.

Module FreshFacts.
Import CONST Zk Wire UsersFacts.

Lemma StringOf_nonEmpty n : JS.nonEmpty (JS.StringOf n) = true.
Proof.
  unfold JS.StringOf. destruct (n <? 0); [reflexivity|].
  destruct (Z.to_N n) as [|p]; [reflexivity|].
  pose proof (DecimalPos.Unsigned.to_uint_nonnil p) as H. cbn [N.to_uint].
  destruct (Pos.to_uint p); [congruence | reflexivity ..].
Qed.

Section WithRuntime.
Context {rt : JS.Runtime}.

(** What the collision loop leaves behind, for a run that ended. *)
Lemma freshLoop_run users :
  forall fuel z w z' w',
    freshLoop fuel users z w = (Ok tt, z', w') ->
    nextUserId z = JS.StringOf (nextUid z) ->
    nextUid z <= nextUid z' /\ nextUserId z' = JS.StringOf (nextUid z') /\
    existsb (fun u => String.eqb (User.userId u) (nextUserId z')) users = false.
Proof.
  induction fuel as [|fuel IH]; intros z w z' w' H Hid; [discriminate H|].
  cbn [freshLoop] in H. unfold bind at 1, this in H.
  destruct (existsb _ users) eqn:Hex.
  - unfold bind at 1, update in H. unfold bind at 1, update in H.
    apply IH in H; [|reflexivity]. cbn in H. split; [lia | apply H].
  - injection H as <- <-. split; [lia|]. split; assumption.
Qed.

(** The hints after a run of [getUsers] that returned users. *)
Lemma getUsers_run fuel z w users z1 w1 :
  getUsers fuel z w = (Ok users, z1, w1) ->
  users = [] \/
  (0 < nextUid z1 /\ nextUserId z1 = JS.StringOf (nextUid z1) /\
   Forall (fun u => User.uid u < nextUid z1) users /\
   existsb (fun u => String.eqb (User.userId u) (nextUserId z1)) users = false).
Proof.
  unfold getUsers. intros H. unfold bind at 1 in H.
  destruct (readSizes z w) as [[[b1| |] z2] w2]; try discriminate H.
  unfold bind at 1, this in H.
  destruct (negb (JS.truthy (usersCount z2))).
  { left. unfold bind, update, ret in H. congruence. }
  unfold bind at 1 in H.
  destruct (readWithBuffer CMD_USERTEMP_RRQ FCT_USER 0 z2 w2) as [[[[buffer size]| |] z3] w3];
    try discriminate H.
  destruct (size <=? 4). { left. unfold ret in H. congruence. }
  unfold bind at 1, lift in H.
  destruct (Buf.readUInt32LE buffer 0) as [totalSize| |]; try discriminate H.
  unfold bind at 1, update in H. unfold bind at 1, this in H.
  set (z4 := set_userPacketSize _ z3) in H.
  set (data := Buf.sliceFrom buffer 4) in H.
  set (parsed := if userPacketSize z4 =? 28 then _ else _) in H.
  assert (Hmax : forall users maxUid, parsed = Ok (users, maxUid) ->
            Forall (fun u => User.uid u <= maxUid) users /\ 0 <= maxUid).
  { unfold parsed. intros us maxUid E.
    destruct (userPacketSize z4 =? 28); apply parseLoop_max in E; auto. }
  unfold bind at 1, lift in H.
  destruct parsed as [[us maxUid]| |]; try discriminate H.
  destruct (Hmax us maxUid eq_refl) as [Hall Hpos]. clear Hmax.
  unfold bind at 1, update in H. unfold bind at 1, update in H. unfold bind at 1 in H.
  set (z5 := set_nextUserId _ _) in H.
  destruct (freshLoop fuel us z5 w3) as [[[[]| |] z6] w6] eqn:Hloop; try discriminate H.
  unfold ret in H. injection H as <- <- <-.
  apply freshLoop_run in Hloop; [|reflexivity]. cbn in Hloop.
  destruct Hloop as (Hle & Hid & Hfresh).
  right. split; [lia|]. split; [exact Hid|]. split; [|exact Hfresh].
  eapply Forall_impl; [|exact Hall]. cbv beta. intros u Hu. lia.
Qed.

(** X16. [setUser] without uid and user id picks a target that no user of
    the device has: with the users that its [getUsers] returned, the call
    is the call with an explicit uid above the uid of every user and with
    the user id [String(uid)], which is the user id of none of them. *)
Theorem setUser_default_target fuel a z w users z1 w1 :
  getUsers fuel z w = (Ok users, z1, w1) ->
  a_uid a = 0 -> a_userId a = ""%string ->
  exists uid,
    uid <> 0 /\
    Forall (fun u => User.uid u < uid /\ User.userId u <> JS.StringOf uid) users /\
    setUser fuel a z w
    = setUser fuel (mkArgs uid (a_name a) (a_privilege a) (a_password a) (a_groupId a)
                           (JS.StringOf uid) (a_card a)) z w.
Proof.
  intros Hrun Huid Hid.
  set (uid := if JS.truthy (nextUid z1) then nextUid z1 else 1).
  assert (Hnz : uid <> 0).
  { unfold uid, JS.truthy. destruct (Z.eqb_spec (nextUid z1) 0); cbn [negb]; lia. }
  assert (Hfresh :
            Forall (fun u => User.uid u < uid /\ User.userId u <> JS.StringOf uid) users).
  { destruct (getUsers_run _ _ _ _ _ _ Hrun) as [-> | (Hp & Hs & Hall & Hex)]; [constructor|].
    apply Forall_forall. intros u Hu.
    pose proof (proj1 (Forall_forall _ _) Hall u Hu) as Hlt. cbv beta in Hlt.
    assert (Hn : uid = nextUid z1).
    { unfold uid, JS.truthy. destruct (Z.eqb_spec (nextUid z1) 0); cbn [negb];
        [lia | reflexivity]. }
    rewrite Hn. split; [exact Hlt|]. rewrite <- Hs. intros E.
    assert (Hin : existsb (fun u => String.eqb (User.userId u) (nextUserId z1)) users = true).
    { apply existsb_exists. exists u. split; [exact Hu|]. now apply String.eqb_eq. }
    congruence. }
  exists uid. split; [exact Hnz|]. split; [exact Hfresh|].
  unfold setUser. unfold bind at 1. symmetry. unfold bind at 1. rewrite Hrun.
  unfold bind at 1, this. symmetry. unfold bind at 1, this.
  cbn [a_uid a_name a_privilege a_password a_groupId a_userId a_card].
  rewrite Huid, Hid, StringOf_nonEmpty.
  change (JS.truthy 0) with false. change (JS.nonEmpty "") with false. cbv iota.
  fold uid.
  assert (Ht : JS.truthy uid = true).
  { unfold JS.truthy. destruct (Z.eqb_spec uid 0); [lia | reflexivity]. }
  rewrite Ht. reflexivity.
Qed.
End WithRuntime.

Import Demo.

(** Two users, uid 5 with user id 6 and uid 3 with user id 7: the hints pass
    6 and 7 and the new user gets uid 8. *)
Lemma setUser_default_target_witness :
  let w := net false [sizes 2; userData [rec28 5 6; rec28 3 7]] in
  exists uid,
    uid <> 0 /\
    Forall (fun u => User.uid u < uid /\ User.userId u <> JS.StringOf uid)
      [User.mk 5 0 "" "NN-5" 0 "0" "6"; User.mk 3 0 "" "NN-3" 0 "0" "7"] /\
    setUser 4 (newUser 0) udpClient w
    = setUser 4 (mkArgs uid "ann" 0 "" "" (JS.StringOf uid) 0) udpClient w.
Proof.
  intros w.
  eapply (setUser_default_target 4 (newUser 0) udpClient w);
    [vm_compute; reflexivity | reflexivity | reflexivity].
Defined.

End FreshFacts.

Module RepackFacts.
Import CONST Zk Zk2 Wire BufFacts.

Lemma writeUIntLE_cons n x (b : Buffer) v off off' :
  0 <= off -> off' = off + 1 ->
  Buf.writeUIntLE n (x :: b) v off' = let* p := Buf.writeUIntLE n b v off in Ok (x :: p).
Proof.
  intros H ->. unfold Buf.writeUIntLE, Buf.inBounds, Buf.length, Buf.store.
  cbn [List.length]. rewrite Nat2Z.inj_succ.
  replace (Z.to_nat (off + 1)) with (S (Z.to_nat off)) by lia.
  destruct ((0 <=? v) && (v <? 2 ^ (8 * Z.of_nat n))); [|reflexivity].
  replace (0 <=? off + 1) with true by (symmetry; apply Z.leb_le; lia).
  replace (0 <=? off) with true by (symmetry; apply Z.leb_le; lia).
  replace (off + 1 + Z.of_nat n <=? Z.succ (Z.of_nat (List.length b)))
    with (off + Z.of_nat n <=? Z.of_nat (List.length b))
    by (destruct (Z.leb_spec (off + Z.of_nat n) (Z.of_nat (List.length b)));
        symmetry; [apply Z.leb_le | apply Z.leb_gt]; lia).
  cbn [andb]. destruct (_ <=? _); reflexivity.
Qed.


Lemma copy_cons (src : Buffer) x (b : Buffer) off off' :
  0 <= off -> off' = off + 1 ->
  Buf.copy src (x :: b) off' = x :: Buf.copy src b off.
Proof.
  intros H ->. unfold Buf.copy. cbv zeta.
  replace (Z.to_nat (off + 1)) with (S (Z.to_nat off)) by lia.
  reflexivity.
Qed.

Section WithRuntime.
Context {rt : JS.Runtime}.

Ltac shifted :=
  first [ erewrite writeUIntLE_cons by (first [reflexivity | lia])
        | erewrite copy_cons by (first [reflexivity | lia]) ].

End WithRuntime.
End RepackFacts.

Module UploadFacts.
Import CONST Zk Zk2 Wire BufFacts CodecFacts TransportFacts BulkReadFacts.

(** One chunk, acknowledged. *)
Lemma sendChunk_frame z w chunk ack rest :
  ready z -> Buf.length chunk + 8 < 4294967296 -> okReply ack ->
  inbox w = frame (tcp z) ack :: rest ->
  exists written z',
    request (tcp z) written = (CMD_DATA, chunk) /\
    ready z' /\ tcp z' = tcp z /\
    _sendChunk chunk z w
    = (Ok true, z', mkWorld (reachable w) (opened w) (closed w) (outbox w ++ [written]) rest).
Proof.
  intros Hr Hlen (Hf & Hok) Hi. pose proof Hr as (Hcon & Hsock & Hsid & Hrid).
  destruct (sendCommand_frame z w CMD_DATA chunk ack rest) as (written & Hreq & Hsend);
    [ right; right; exact Hcon | exact Hsock | exact Hsid | exact Hrid
    | unfold CMD_DATA; lia | exact Hlen | exact Hf | exact Hi |].
  exists written. eexists. split; [exact Hreq|].
  split; [apply (ready_after z ack Hr)|]. split; [reflexivity|].
  unfold _sendChunk. unfold bind at 1. rewrite Hsend. cbn [status]. rewrite Hok. reflexivity.
Qed.

Lemma firstn_plus {A} (a b : nat) (l : list A) :
  firstn (a + b) l = firstn a l ++ firstn b (skipn a l).
Proof.
  revert l. induction a as [|a IH]; intros l; [reflexivity|].
  destruct l as [|x l]; [now rewrite skipn_nil, !firstn_nil|].
  cbn [Nat.add firstn skipn app]. now rewrite IH.
Qed.

(** Consecutive slices of 1024 bytes. *)
Lemma slice_next (buffer : Buffer) start :
  0 <= start -> start + 1024 <= Buf.length buffer ->
  Buf.length (Buf.slice buffer start (start + 1024)) = 1024 /\
  forall n, 0 <= n ->
    Buf.slice buffer start (start + 1024) ++ Buf.slice buffer (start + 1024) (start + 1024 + n)
    = Buf.slice buffer start (start + 1024 + n).
Proof.
  intros Hs Hl. unfold Buf.slice, Buf.length in *. split.
  - rewrite length_firstn, length_skipn. lia.
  - intros n Hn.
    replace (Z.to_nat (start + 1024) - Z.to_nat start)%nat with 1024%nat by lia.
    replace (Z.to_nat (start + 1024 + n) - Z.to_nat (start + 1024))%nat with (Z.to_nat n)
      by lia.
    replace (Z.to_nat (start + 1024 + n) - Z.to_nat start)%nat
      with (1024 + Z.to_nat n)%nat by lia.
    replace (Z.to_nat (start + 1024)) with (1024 + Z.to_nat start)%nat by lia.
    rewrite <- skipn_skipn. symmetry. apply firstn_plus.
Qed.


(** The loop over the full chunks. *)
Lemma sendLoop_run buffer :
  forall turns z w start acks rest,
    ready z -> Forall okReply acks -> List.length acks = turns ->
    inbox w = map (frame (tcp z)) acks ++ rest ->
    0 <= start -> start + 1024 * Z.of_nat turns <= Buf.length buffer ->
    exists sent chunks z',
      sendLoop turns buffer start z w
      = (Ok (start + 1024 * Z.of_nat turns), z',
         mkWorld (reachable w) (opened w) (closed w) (outbox w ++ sent) rest) /\
      ready z' /\ tcp z' = tcp z /\
      map (request (tcp z)) sent = map (fun c => (CMD_DATA, c)) chunks /\
      List.concat chunks = Buf.slice buffer start (start + 1024 * Z.of_nat turns) /\
      Forall (fun c => Buf.length c = 1024) chunks.
Proof.
  induction turns as [|turns IH]; intros z w start acks rest Hr Hacks Hlen Hi Hs Hend.
  - destruct acks; [|discriminate Hlen]. cbn [map app] in Hi.
    exists [], [], z. cbn [sendLoop]. unfold ret.
    rewrite app_nil_r, Z.mul_0_r, Z.add_0_r.
    split; [destruct w; cbn in *; now subst|].
    split; [exact Hr|]. split; [reflexivity|]. split; [reflexivity|].
    split; [|constructor]. unfold Buf.slice. rewrite Nat.sub_diag. reflexivity.
  - destruct acks as [|ack acks]; [discriminate Hlen|]. injection Hlen as Hlen.
    apply Forall_cons_iff in Hacks. destruct Hacks as [Hack Hacks].
    cbn [map app] in Hi.
    destruct (slice_next buffer start Hs ltac:(lia)) as [Hl Hjoin].
    destruct (sendChunk_frame z w (Buf.slice buffer start (start + 1024)) ack
                (map (frame (tcp z)) acks ++ rest) Hr ltac:(lia) Hack Hi)
      as (written & z1 & Hreq & Hr1 & Htcp & Hrun).
    destruct (IH z1 (mkWorld (reachable w) (opened w) (closed w) (outbox w ++ [written])
                             (map (frame (tcp z)) acks ++ rest))
                (start + 1024) acks rest Hr1 Hacks Hlen)
      as (sent & chunks & z' & Hloop & Hr' & Htcp' & Hsent & Hcat & Hall);
      [ rewrite Htcp; reflexivity | lia | lia |].
    exists (written :: sent), (Buf.slice buffer start (start + 1024) :: chunks), z'.
    cbn [sendLoop]. unfold bind at 1. rewrite Hrun, Hloop.
    cbn [reachable opened closed outbox]. rewrite <- app_assoc. cbn [app].
    split; [do 3 f_equal; lia|].
    split; [exact Hr'|]. split; [congruence|].
    split; [cbn [map]; rewrite Hreq; rewrite Htcp in Hsent; now rewrite Hsent|].
    split; [|constructor; assumption].
    cbn [List.concat]. rewrite Hcat.
    replace (start + 1024 + 1024 * Z.of_nat turns) with (start + 1024 + (1024 * Z.of_nat turns)) by lia.
    rewrite Hjoin by lia. f_equal. lia.
Qed.

(** One command without a check of the reply code beyond success. *)
Lemma command_frame z w command cs ack rest :
  ready z -> 0 <= command < 65536 -> Buf.length cs + 8 < 4294967296 -> okReply ack ->
  inbox w = frame (tcp z) ack :: rest ->
  exists written z' r,
    request (tcp z) written = (command, cs) /\
    ready z' /\ tcp z' = tcp z /\ status r = true /\
    _sendCommand command cs z w
    = (Ok r, z', mkWorld (reachable w) (opened w) (closed w) (outbox w ++ [written]) rest).
Proof.
  intros Hr Hc Hlen (Hf & Hok) Hi. pose proof Hr as (Hcon & Hsock & Hsid & Hrid).
  destruct (sendCommand_frame z w command cs ack rest) as (written & Hreq & Hsend);
    [ right; right; exact Hcon | exact Hsock | exact Hsid | exact Hrid
    | exact Hc | exact Hlen | exact Hf | exact Hi |].
  exists written. do 2 eexists. split; [exact Hreq|].
  split; [apply (ready_after z ack Hr)|]. split; [reflexivity|].
  split; [|exact Hsend]. exact Hok.
Qed.

(** X18. [_sendWithBuffer] uploads the whole buffer, in order: with every
    request acknowledged it writes CMD_FREE_DATA, CMD_PREPARE_DATA with the
    length of the buffer, and then CMD_DATA chunks whose payloads put
    together are the buffer; no chunk is empty, none has more than 1024
    bytes and all but the last have exactly 1024. *)
Theorem sendWithBuffer_chunks z w buffer ackFree ackPrep acks rest :
  ready z -> Buf.length buffer < 4294967296 ->
  okReply ackFree -> okReply ackPrep -> Forall okReply acks ->
  Z.of_nat (List.length acks) = (Buf.length buffer + 1023) / 1024 ->
  inbox w = map (frame (tcp z)) (ackFree :: ackPrep :: acks) ++ rest ->
  exists sent chunks z',
    _sendWithBuffer buffer z w
    = (Ok tt, z', mkWorld (reachable w) (opened w) (closed w) (outbox w ++ sent) rest) /\
    map (request (tcp z)) sent
    = (CMD_FREE_DATA, []) :: (CMD_PREPARE_DATA, le_split 4 (Buf.length buffer))
      :: map (fun c => (CMD_DATA, c)) chunks /\
    List.concat chunks = buffer /\
    Forall (fun c => 0 < Buf.length c <= 1024) chunks /\
    Forall (fun c => Buf.length c = 1024) (removelast chunks).
Proof.
  intros Hr Hlen Hfree Hprep Hacks Hcount Hi. cbn [map app] in Hi.
  pose proof (length_nonneg buffer) as Hnn.
  set (N := Buf.length buffer) in *.
  set (q := Z.to_nat (N / 1024)).
  assert (Hq : N = 1024 * Z.of_nat q + N mod 1024 /\ 0 <= N mod 1024 < 1024).
  { unfold q. rewrite Z2Nat.id by (apply Z.div_pos; lia).
    split; [apply Z.div_mod; lia | apply Z.mod_pos_bound; lia]. }
  destruct Hq as [Hq Hm].
  assert (Hc : (N + 1023) / 1024 = Z.of_nat q + (if N mod 1024 =? 0 then 0 else 1)).
  { destruct (Z.eqb_spec (N mod 1024) 0) as [E|E].
    - rewrite Hq at 1. rewrite E.
      replace (1024 * Z.of_nat q + 0 + 1023) with (Z.of_nat q * 1024 + 1023) by lia.
      rewrite Z.div_add_l by lia. change (1023 / 1024) with 0. lia.
    - rewrite Hq at 1.
      replace (1024 * Z.of_nat q + N mod 1024 + 1023)
        with (1 * 1024 + (Z.of_nat q * 1024 + (N mod 1024 - 1))) by lia.
      rewrite Z.div_add_l, Z.div_add_l by lia. rewrite Z.div_small by lia. lia. }
  (* CMD_FREE_DATA *)
  destruct (command_frame z w CMD_FREE_DATA [] ackFree _ Hr ltac:(unfold CMD_FREE_DATA; lia)
              ltac:(cbn; lia) Hfree Hi)
    as (w1 & z1 & r1 & Hreq1 & Hr1 & Htcp1 & Hst1 & Hrun1).
  (* CMD_PREPARE_DATA *)
  assert (Hw : Buf.writeUInt32LE (Buf.alloc 4) N 0 = Ok (le_split 4 N)).
  { unfold Buf.writeUInt32LE. rewrite writeUIntLE_ok;
      [| change (2 ^ (8 * Z.of_nat 4)) with 4294967296; lia | lia | cbn; lia].
    now rewrite (RecordFacts.store_last 4 (Buf.alloc 4) N). }
  destruct (command_frame z1 (mkWorld (reachable w) (opened w) (closed w) (outbox w ++ [w1])
                                (frame (tcp z) ackPrep :: map (frame (tcp z)) acks ++ rest))
              CMD_PREPARE_DATA (le_split 4 N) ackPrep (map (frame (tcp z)) acks ++ rest) Hr1
              ltac:(unfold CMD_PREPARE_DATA; lia)
              ltac:(unfold Buf.length; rewrite length_le_split; lia) Hprep
              ltac:(rewrite Htcp1; reflexivity))
    as (w2 & z2 & r2 & Hreq2 & Hr2 & Htcp2 & Hst2 & Hrun2).
  cbn [reachable opened closed outbox] in Hrun2. rewrite Htcp1 in Hreq2.
  (* the full chunks *)
  assert (Hsplit : acks = firstn q acks ++ skipn q acks) by (symmetry; apply firstn_skipn).
  rewrite Hc in Hcount.
  assert (Hlq : List.length (firstn q acks) = q).
  { rewrite length_firstn. destruct (N mod 1024 =? 0); lia. }
  pose proof Hacks as Hacks'. rewrite Hsplit in Hacks'. apply Forall_app in Hacks'.
  destruct Hacks' as [Hfull Hlast].
  destruct (sendLoop_run buffer q z2
              (mkWorld (reachable w) (opened w) (closed w) ((outbox w ++ [w1]) ++ [w2])
                 (map (frame (tcp z)) acks ++ rest))
              0 (firstn q acks) (map (frame (tcp z)) (skipn q acks) ++ rest) Hr2 Hfull Hlq)
    as (sent & chunks & z3 & Hloop & Hr3 & Htcp3 & Hsent & Hcat & Hall);
    [ cbn [inbox]; rewrite Hsplit at 1; rewrite map_app, <- app_assoc;
      replace (tcp z2) with (tcp z) by congruence; reflexivity
    | lia | fold N; lia |].
  cbn [reachable opened closed outbox] in Hloop. rewrite Z.add_0_l in Hloop, Hcat.
  assert (Htz : tcp z2 = tcp z) by congruence.
  assert (Htz3 : tcp z3 = tcp z) by congruence.
  rewrite Htz in Hsent.
  unfold _sendWithBuffer. unfold bind at 1. unfold freeData. unfold bind at 1.
  rewrite Hrun1, Hst1. cbn [negb]. unfold ret at 1.
  unfold bind at 1, lift. fold N. rewrite Hw.
  unfold bind at 1. rewrite Hrun2, Hst2. cbn [negb].
  unfold bind at 1. fold q. rewrite Hloop.
  destruct (Z.eqb_spec (N mod 1024) 0) as [E|E].
  - (* no remainder *)
    replace (1024 * Z.of_nat q <? N) with false by (symmetry; apply Z.ltb_ge; lia).
    assert (Hnil : skipn q acks = []).
    { apply length_zero_iff_nil. rewrite length_skipn. lia. }
    rewrite Hnil. cbn [map app].
    exists (w1 :: w2 :: sent), chunks, z3. unfold ret.
    split; [rewrite <- !app_assoc; reflexivity|].
    split; [cbn [map]; now rewrite Hreq1, Hreq2, Hsent|].
    split; [rewrite Hcat; unfold Buf.slice; change (Z.to_nat 0) with 0%nat; cbn [skipn];
            rewrite Nat.sub_0_r; apply firstn_all2; unfold N, Buf.length in *; lia|].
    split; [eapply Forall_impl; [|exact Hall]; cbv beta; intros; lia|].
    clear - Hall. induction Hall as [|c l Hc Hl IH]; [constructor|].
    destruct l; [constructor|]. cbn [removelast]. constructor; [exact Hc | exact IH].
  - (* the remainder *)
    replace (1024 * Z.of_nat q <? N) with true by (symmetry; apply Z.ltb_lt; lia).
    destruct (skipn q acks) as [|ack [|ack' more]] eqn:Hsk;
      [ apply (f_equal (@List.length _)) in Hsk; rewrite length_skipn in Hsk;
        cbn [List.length] in Hsk; lia
      | | apply (f_equal (@List.length _)) in Hsk; rewrite length_skipn in Hsk;
          cbn [List.length] in Hsk; lia ].
    apply Forall_cons_iff in Hlast. destruct Hlast as [Hack _]. cbn [map app].
    set (tail := Buf.sliceFrom buffer (1024 * Z.of_nat q)).
    assert (Htail : Buf.length tail = N mod 1024).
    { unfold tail, Buf.sliceFrom, Buf.length. rewrite length_skipn.
      unfold N, Buf.length in *. lia. }
    destruct (sendChunk_frame z3
                (mkWorld (reachable w) (opened w) (closed w) (((outbox w ++ [w1]) ++ [w2]) ++ sent)
                   (frame (tcp z) ack :: rest))
                tail ack rest Hr3 ltac:(lia) Hack ltac:(rewrite Htz3; reflexivity))
      as (w4 & z4 & Hreq4 & Hr4 & Htcp4 & Hrun4).
    cbn [reachable opened closed outbox] in Hrun4. rewrite Htz3 in Hreq4.
    unfold bind at 1. rewrite Hrun4. unfold ret.
    exists (w1 :: w2 :: sent ++ [w4]), (chunks ++ [tail]), z4.
    split; [rewrite <- !app_assoc; reflexivity|].
    split; [cbn [map]; now rewrite Hreq1, Hreq2, !map_app, Hsent; cbn [map]; rewrite Hreq4|].
    split.
    { rewrite concat_app, Hcat. cbn [List.concat]. rewrite app_nil_r.
      unfold tail, Buf.slice, Buf.sliceFrom. change (Z.to_nat 0) with 0%nat. cbn [skipn].
      rewrite Nat.sub_0_r. apply firstn_skipn. }
    split.
    { apply Forall_app. split; [eapply Forall_impl; [|exact Hall]; cbv beta; intros; lia|].
      constructor; [lia | constructor]. }
    rewrite removelast_last. exact Hall.
Qed.

(** 1500 bytes on the stream carrier: two chunks, of 1024 and of 476 bytes. *)
Lemma sendWithBuffer_chunks_witness :
  let buffer := Buf.alloc 1500 in
  let ack := Demo.ackReply in
  let w := Demo.net true [ack; ack; ack; ack; ack] in
  exists sent chunks z',
    _sendWithBuffer buffer Demo.tcpClient w
    = (Ok tt, z', mkWorld true 1 0 sent [frame true ack]) /\
    map (request true) sent
    = (CMD_FREE_DATA, []) :: (CMD_PREPARE_DATA, le_split 4 1500)
      :: map (fun c => (CMD_DATA, c)) chunks /\
    List.concat chunks = buffer /\
    Forall (fun c => 0 < Buf.length c <= 1024) chunks /\
    Forall (fun c => Buf.length c = 1024) (removelast chunks).
Proof.
  intros buffer ack w.
  assert (Hack : okReply ack) by (split; vm_compute; [split; congruence | reflexivity]).
  apply (sendWithBuffer_chunks Demo.tcpClient w buffer ack ack [ack; ack] [frame true ack]).
  - repeat split; vm_compute; congruence.
  - vm_compute. reflexivity.
  - exact Hack.
  - exact Hack.
  - repeat constructor; apply Hack.
  - reflexivity.
  - reflexivity.
Defined.
End UploadFacts.

Module TableFacts.
Import CONST Zk Zk2 Wire BufFacts TraceFacts RecordFacts.

Lemma writeIntLE_inv n b v off b' :
  Buf.writeIntLE n b v off = Ok b' ->
  b' = Buf.store n b v off /\
  - 2 ^ (8 * Z.of_nat n - 1) <= v < 2 ^ (8 * Z.of_nat n - 1) /\
  0 <= off /\ off + Z.of_nat n <= Buf.length b.
Proof.
  unfold Buf.writeIntLE, Buf.inBounds. cbv zeta.
  destruct (Z.leb_spec (- 2 ^ (8 * Z.of_nat n - 1)) v),
    (Z.ltb_spec v (2 ^ (8 * Z.of_nat n - 1))); cbn [andb]; try discriminate.
  destruct (Z.leb_spec 0 off), (Z.leb_spec (off + Z.of_nat n) (Buf.length b)); cbn [andb];
    try discriminate.
  intros [= <-]. repeat split; assumption.
Qed.

(** A repacked template: its length, then its bytes. *)
Lemma fingerRepack_fields f tfp :
  _fingerRepackOnly f = Ok tfp ->
  tfp = le_split 2 (Buf.length (f_template f)) ++ f_template f.
Proof.
  unfold _fingerRepackOnly, Buf.writeUInt16LE. cbv zeta. intros H.
  destruct (Buf.writeUIntLE 2 _ _ 0) as [b1| |] eqn:E1; cbn [res_bind] in H;
    try discriminate.
  injection H as <-. apply writeUIntLE_inv in E1. destruct E1 as (-> & _).
  rewrite alloc_add, store_here by reflexivity.
  rewrite copy_skip by (rewrite length_split; lia).
  rewrite length_split. change (2 - Z.of_nat 2) with 0.
  f_equal.
  rewrite <- (firstn_all (f_template f)) at 1. rewrite copy_last.
  unfold pad. now rewrite firstn_all, Nat.sub_diag, app_nil_r.
Qed.

Local Opaque Buf.store.

(** A table entry: the tag 2, the uid, the finger index plus 16 and the
    offset of the template. *)
Lemma tableEntry_fields uid fid off entry :
  tableEntry uid fid off = Ok entry ->
  entry = Byte.x02 :: le_split 2 uid ++ le_split 1 (16 + fid) ++ le_split 4 off.
Proof.
  unfold tableEntry, Buf.writeInt8, Buf.writeUInt16LE, Buf.writeUInt32LE. cbv zeta.
  intros H.
  destruct (Buf.writeIntLE 1 (Buf.alloc 8) 2 0) as [b1| |] eqn:E1; cbn [res_bind] in H;
    try discriminate.
  destruct (Buf.writeUIntLE 2 b1 uid 1) as [b2| |] eqn:E2; cbn [res_bind] in H;
    try discriminate.
  destruct (Buf.writeIntLE 1 b2 (16 + fid) 3) as [b3| |] eqn:E3; cbn [res_bind] in H;
    try discriminate.
  destruct (Buf.writeUIntLE 4 b3 off 4) as [b4| |] eqn:E4; cbn [res_bind] in H;
    try discriminate.
  injection H as <-.
  apply writeIntLE_inv in E1, E3. apply writeUIntLE_inv in E2, E4.
  destruct E1 as (-> & _), E2 as (-> & _), E3 as (-> & _), E4 as (-> & _).
  change (Buf.alloc 8) with (Buf.alloc 1 ++ Buf.alloc 2 ++ Buf.alloc 1 ++ Buf.alloc 4).
  rewrite store_here by reflexivity. repeat into_field.
  rewrite store_here by reflexivity. repeat into_field.
  rewrite store_here by reflexivity. repeat into_field.
  rewrite store_last by reflexivity.
  reflexivity.
Qed.

Lemma slice_app_l (a b : Buffer) s e :
  e <= Buf.length a -> Buf.slice (a ++ b) s e = Buf.slice a s e.
Proof.
  intros He. unfold Buf.slice, Buf.length in *.
  rewrite skipn_app, firstn_app, length_skipn.
  replace (Z.to_nat e - Z.to_nat s - (List.length a - Z.to_nat s))%nat with 0%nat by lia.
  now rewrite firstn_O, app_nil_r.
Qed.

Lemma slice_app_r (a b : Buffer) s e :
  Buf.length a = s -> e = s + Buf.length b -> Buf.slice (a ++ b) s e = b.
Proof.
  intros Hs He. rewrite slice_skip by lia. rewrite Hs, He.
  replace (s - s) with 0 by lia. replace (s + Buf.length b - s) with (Buf.length b) by lia.
  now apply slice_last.
Qed.

Import UploadSpec.

(** The inner loop extends the table and the pack together. *)
Lemma fingersLoop_indexes u :
  forall fingers p p' items,
    fingersLoop u fingers p = Ok p' ->
    tstart p = Buf.length (fpack p) ->
    Buf.length (table p) = 8 * Z.of_nat (List.length items) ->
    indexes (table p) (fpack p) items ->
    upack p' = upack p /\
    tstart p' = Buf.length (fpack p') /\
    Buf.length (table p') = 8 * Z.of_nat (List.length (items ++ map (pair u) fingers)) /\
    indexes (table p') (fpack p') (items ++ map (pair u) fingers).
Proof.
  induction fingers as [|f fingers IH]; intros p p' items H Hts Hlen Hidx.
  - cbn [fingersLoop] in H. injection H as <-. cbn [map]. rewrite app_nil_r. auto.
  - cbn [fingersLoop] in H.
    destruct (_fingerRepackOnly f) as [tfp| |] eqn:Ef; cbn [res_bind] in H; try discriminate.
    destruct (tableEntry (User.uid u) (f_fid f) (tstart p)) as [entry| |] eqn:Ee;
      cbn [res_bind] in H; try discriminate.
    apply fingerRepack_fields in Ef. apply tableEntry_fields in Ee.
    assert (Hlt : Buf.length tfp = 2 + Buf.length (f_template f)).
    { rewrite Ef. unfold Buf.length. rewrite List.length_app, length_le_split. lia. }
    assert (Hle : Buf.length entry = 8).
    { rewrite Ee. unfold Buf.length. cbn [List.length].
      rewrite !List.length_app, !length_le_split. reflexivity. }
    apply (IH _ _ (items ++ [(u, f)])) in H; cbn [upack fpack table tstart] in *.
    + rewrite <- app_assoc in H. exact H.
    + unfold Buf.length in *. rewrite List.length_app. lia.
    + unfold Buf.length in *. rewrite !List.length_app. cbn [List.length]. lia.
    + intros k u' f' Hk.
      destruct (Nat.lt_ge_cases k (List.length items)) as [Hin|Hout].
      * rewrite nth_error_app1 in Hk by exact Hin.
        destruct (Hidx k u' f' Hk) as (off & Ho & Hb & Ht & Hf).
        exists off. split; [exact Ho|].
        split; [unfold Buf.length in *; rewrite List.length_app; lia|].
        rewrite !slice_app_l by lia. split; assumption.
      * rewrite nth_error_app2 in Hk by exact Hout.
        destruct (k - List.length items)%nat as [|more] eqn:Hd;
          [|destruct more; discriminate Hk].
        cbn [nth_error] in Hk. injection Hk as <- <-.
        assert (k = List.length items) by lia. subst k.
        exists (tstart p). split; [rewrite Hts; apply length_nonneg|].
        split; [unfold Buf.length in *; rewrite List.length_app; lia|].
        split.
        -- rewrite <- Ee. apply slice_app_r; lia.
        -- rewrite <- Ef. apply slice_app_r; lia.
Qed.

Lemma length_copy_any (src target : Buffer) off :
  Buf.length (Buf.copy src target off) = Buf.length target.
Proof.
  unfold Buf.copy, Buf.length. cbv zeta.
  rewrite !List.length_app, !length_firstn, length_skipn. lia.
Qed.

Lemma length_writeUIntLE n b v off b' :
  Buf.writeUIntLE n b v off = Ok b' -> Buf.length b' = Buf.length b.
Proof.
  intros H. apply writeUIntLE_inv in H. destruct H as (-> & _ & Ho & Hl).
  now apply length_store.
Qed.

Lemma length_writeIntLE n b v off b' :
  Buf.writeIntLE n b v off = Ok b' -> Buf.length b' = Buf.length b.
Proof.
  intros H. apply writeIntLE_inv in H. destruct H as (-> & _ & Ho & Hl).
  now apply length_store.
Qed.

Section WithRuntime.
Context {rt : JS.Runtime}.

Ltac next_write H :=
  match type of H with
  | res_bind ?r _ = Ok _ =>
      let b := fresh "b" in let E := fresh "E" in
      destruct r as [b| |] eqn:E; cbn [res_bind] in H; try discriminate H;
      first [apply length_writeUIntLE in E | apply length_writeIntLE in E]
  end.

Lemma length_userRepack29 u record : _userRepack29 u = Ok record -> Buf.length record = 29.
Proof.
  unfold _userRepack29, Buf.writeUInt8, Buf.writeUInt16LE, Buf.writeUInt32LE,
    Buf.writeInt16LE. cbv zeta. intros H.
  repeat next_write H. injection H as <-.
  rewrite !length_copy_any in *. rewrite length_alloc in *. lia.
Qed.

Lemma length_userRepack73 u record : _userRepack73 u = Ok record -> Buf.length record = 73.
Proof.
  unfold _userRepack73, Buf.writeUInt8, Buf.writeUInt16LE, Buf.writeUInt32LE. cbv zeta.
  intros H. repeat next_write H. injection H as <-.
  rewrite !length_copy_any in *. rewrite length_alloc in *. lia.
Qed.

(** The outer loop: one record per user, and the table of all fingers. *)
Lemma usersLoop_indexes packetSize :
  forall userTemplates p p' items,
    usersLoop packetSize userTemplates p = Ok p' ->
    tstart p = Buf.length (fpack p) ->
    Buf.length (table p) = 8 * Z.of_nat (List.length items) ->
    indexes (table p) (fpack p) items ->
    Buf.length (upack p')
    = Buf.length (upack p)
      + (if packetSize =? 28 then 29 else 73) * Z.of_nat (List.length userTemplates) /\
    Buf.length (table p') = 8 * Z.of_nat (List.length (items ++ owned userTemplates)) /\
    indexes (table p') (fpack p') (items ++ owned userTemplates).
Proof.
  induction userTemplates as [|[u fingers] uts IH]; intros p p' items H Hts Hlen Hidx.
  - cbn [usersLoop] in H. injection H as <-. cbn [owned flat_map List.length].
    rewrite app_nil_r. split; [lia|]. auto.
  - cbn [usersLoop] in H.
    destruct (if packetSize =? 28 then _userRepack29 u else _userRepack73 u)
      as [record| |] eqn:Er; cbn [res_bind] in H; try discriminate.
    assert (Hrec : Buf.length record = if packetSize =? 28 then 29 else 73).
    { destruct (packetSize =? 28);
        [now apply length_userRepack29 in Er | now apply length_userRepack73 in Er]. }
    destruct (fingersLoop u fingers _) as [p1| |] eqn:Ef; cbn [res_bind] in H;
      try discriminate.
    apply (fingersLoop_indexes u fingers _ p1 items) in Ef;
      cbn [upack fpack table tstart] in *; try assumption.
    destruct Ef as (Hup & Hts1 & Hlen1 & Hidx1).
    apply (IH p1 p' (items ++ map (pair u) fingers)) in H; try assumption.
    destruct H as (Hu' & Hl' & Hi').
    cbn [owned flat_map fst snd]. fold (owned uts). rewrite app_assoc.
    split; [|split; assumption].
    rewrite Hu', Hup. unfold Buf.length in *. rewrite List.length_app. cbn [List.length].
    destruct (packetSize =? 28); lia.
Qed.

(** X19. The packet that [HRSaveUserTemplates] uploads: three lengths, then
    the user records (29 or 73 bytes each), the table and the template
    pack; the table has one entry of 8 bytes for every finger, in order,
    and the offset in each entry is where the pack holds the length and the
    bytes of that template. *)
Theorem templatesPacket_layout packetSize userTemplates packet :
  templatesPacket packetSize userTemplates = Ok packet ->
  exists upack table fpack,
    packet = le_split 4 (Buf.length upack) ++ le_split 4 (Buf.length table)
             ++ le_split 4 (Buf.length fpack) ++ upack ++ table ++ fpack /\
    Buf.length upack
    = (if packetSize =? 28 then 29 else 73) * Z.of_nat (List.length userTemplates) /\
    Buf.length table = 8 * Z.of_nat (List.length (owned userTemplates)) /\
    indexes table fpack (owned userTemplates).
Proof.
  unfold templatesPacket. intros H.
  destruct (usersLoop packetSize userTemplates _) as [p| |] eqn:Ep; cbn [res_bind] in H;
    try discriminate.
  apply (usersLoop_indexes packetSize userTemplates _ p []) in Ep;
    cbn [upack fpack table tstart List.length app] in *;
    [| reflexivity | reflexivity | intros [|k] u f Hk; discriminate Hk].
  destruct Ep as (Hu & Ht & Hi). cbv zeta in H. unfold Buf.writeUInt32LE in H.
  destruct (Buf.writeUIntLE 4 (Buf.alloc 12) _ 0) as [h1| |] eqn:E1; cbn [res_bind] in H;
    try discriminate.
  destruct (Buf.writeUIntLE 4 h1 _ 4) as [h2| |] eqn:E2; cbn [res_bind] in H;
    try discriminate.
  destruct (Buf.writeUIntLE 4 h2 _ 8) as [h3| |] eqn:E3; cbn [res_bind] in H;
    try discriminate.
  injection H as <-.
  apply writeUIntLE_inv in E1, E2, E3.
  destruct E1 as (-> & _), E2 as (-> & _), E3 as (-> & _).
  exists (upack p), (table p), (fpack p).
  split; [|split; [rewrite Hu; unfold Buf.length; cbn [List.length]; lia | split; assumption]].
  change (Buf.alloc 12) with (Buf.alloc 4 ++ Buf.alloc 4 ++ Buf.alloc 4).
  rewrite store_here by reflexivity. repeat into_field.
  rewrite store_here by reflexivity. repeat into_field.
  rewrite store_last by reflexivity. now rewrite <- !app_assoc.
Qed.
End WithRuntime.

Import Demo.

(** One user with two templates, of 3 and of 2 bytes. *)
Lemma templatesPacket_layout_witness :
  let ann := User.mk 7 0 "" "Ann" 0 "" "7" in
  let userTemplates := [(ann, [mkFinger 0 (Buf.from [1; 2; 3]); mkFinger 1 (Buf.from [4; 5])])] in
  exists packet,
    templatesPacket 28 userTemplates = Ok packet /\
    exists upack table fpack,
      packet = le_split 4 (Buf.length upack) ++ le_split 4 (Buf.length table)
               ++ le_split 4 (Buf.length fpack) ++ upack ++ table ++ fpack /\
      Buf.length upack = 29 * 1 /\
      Buf.length table = 8 * Z.of_nat (List.length (owned userTemplates)) /\
      indexes table fpack (owned userTemplates).
Proof.
  intros ann userTemplates. eexists. split; [vm_compute; reflexivity|].
  apply (templatesPacket_layout 28 userTemplates). vm_compute. reflexivity.
Defined.
End TableFacts.

Module TemplateFacts.
Import CONST Zk Zk2 Wire BufFacts RecordFacts UploadSpec.

Lemma readIntLE_split v (rest : Buffer) :
  -128 <= v < 128 -> Buf.readIntLE 1 (le_split 1 v ++ rest) 0 = Ok v.
Proof.
  intros H. unfold Buf.readIntLE. rewrite readUIntLE_le_split. cbn [res_bind]. cbv zeta.
  change (2 ^ (8 * Z.of_nat 1 - 1)) with 128. change (2 ^ (Z.of_nat 1 * 8)) with 256.
  destruct (Z.ltb_spec (v mod 256) 128) as [L|L]; f_equal.
  - destruct (Z.lt_ge_cases v 0) as [N|N].
    + rewrite <- (Z.mod_add v 1 256) in L by lia. rewrite Z.mod_small in L; lia.
    + rewrite Z.mod_small; lia.
  - destruct (Z.lt_ge_cases v 0) as [N|N].
    + rewrite <- (Z.mod_add v 1 256) by lia. rewrite Z.mod_small; lia.
    + rewrite Z.mod_small in L; lia.
Qed.

Lemma readInt_skip n (f rest : Buffer) off :
  Buf.length f <= off ->
  Buf.readIntLE n (f ++ rest) off = Buf.readIntLE n rest (off - Buf.length f).
Proof. intros H. unfold Buf.readIntLE. now rewrite read_skip. Qed.

(** X20. The loop of [getTemplates] reads back a table of records: when
    the data are records of the form size, uid, finger index, valid flag,
    template, and the total is the sum of their sizes, the loop returns the
    templates of these records, in order, within one turn more than there
    are records; bytes behind the table are ignored. *)
Theorem templatesLoop_reads_table ts :
  forall fuel acc trailing,
    Forall fitsRecord ts -> (List.length ts < fuel)%nat ->
    templatesLoop fuel (Buf.length (List.concat (map templateRecord ts)))
      (List.concat (map templateRecord ts) ++ trailing) acc
    = Ok (acc ++ ts).
Proof.
  induction ts as [|t ts IH]; intros fuel acc trailing Hfit Hfuel.
  - destruct fuel; [lia|]. cbn [templatesLoop map List.concat]. rewrite app_nil_r.
    reflexivity.
  - destruct fuel; [cbn in Hfuel; lia|].
    apply Forall_cons_iff in Hfit. destruct Hfit as [(Hu & Hf & Hv & Hs) Hfit].
    cbn [map List.concat]. set (tail := List.concat (map templateRecord ts)).
    pose proof (length_nonneg (t_template t)) as Hn.
    pose proof (length_nonneg tail) as Hnt.
    assert (Hrl : Buf.length (templateRecord t) = 6 + Buf.length (t_template t)).
    { unfold templateRecord, Buf.length. rewrite !List.length_app, !length_le_split. lia. }
    cbn [templatesLoop].
    replace ((Buf.length (templateRecord t ++ tail) >? 0)
             && (6 <=? Buf.length ((templateRecord t ++ tail) ++ trailing))) with true.
    2:{ symmetry. apply andb_true_iff. unfold Buf.length in *.
        rewrite !List.length_app in *. split; [apply Z.gtb_gt | apply Z.leb_le]; lia. }
    rewrite <- app_assoc. unfold templateRecord at 1 2 3 4. rewrite <- !app_assoc.
    unfold Buf.readUInt16LE.
    rewrite read_here by (change (2 ^ (Z.of_nat 2 * 8)) with 65536; lia).
    cbn [res_bind].
    rewrite read_skip by (rewrite length_split; lia). rewrite length_split.
    change (2 - Z.of_nat 2) with 0.
    rewrite read_here by (change (2 ^ (Z.of_nat 2 * 8)) with 65536; lia).
    cbn [res_bind].
    do 2 (rewrite readInt_skip by field_len; norm_off).
    rewrite readIntLE_split by exact Hf. cbn [res_bind].
    do 3 (rewrite readInt_skip by field_len; norm_off).
    rewrite readIntLE_split by exact Hv. cbn [res_bind].
    assert (Hsl : Buf.sliceFrom (templateRecord t ++ tail ++ trailing)
                    (6 + Buf.length (t_template t)) = tail ++ trailing).
    { unfold Buf.sliceFrom. rewrite <- Hrl. unfold Buf.length. rewrite Nat2Z.id.
      rewrite skipn_app, skipn_all, Nat.sub_diag. reflexivity. }
    assert (Htp : Buf.slice (templateRecord t ++ tail ++ trailing) 6
                    (6 + Buf.length (t_template t)) = t_template t).
    { unfold templateRecord. rewrite <- !app_assoc.
      do 4 (rewrite slice_skip by (rewrite length_split; lia); rewrite length_split).
      replace (6 - Z.of_nat 2 - Z.of_nat 2 - Z.of_nat 1 - Z.of_nat 1) with 0 by lia.
      apply slice_here. lia. }
    rewrite Hsl, Htp.
    replace (Buf.length (templateRecord t ++ tail) - (6 + Buf.length (t_template t)))
      with (Buf.length tail)
      by (unfold Buf.length in *; rewrite List.length_app; lia).
    unfold tail. rewrite IH by (assumption || (cbn [List.length] in Hfuel; lia)).
    rewrite <- app_assoc. destruct t. reflexivity.
Qed.

Lemma templatesLoop_reads_table_witness :
  let ts := [mkTemplate 7 0 1 (Buf.from [1; 2; 3]); mkTemplate 9 (-1) 0 []] in
  templatesLoop 3 (Buf.length (List.concat (map templateRecord ts)))
    (List.concat (map templateRecord ts) ++ Buf.from [0; 0]) []
  = Ok ([] ++ ts).
Proof.
  intros ts. apply (templatesLoop_reads_table ts 3 [] (Buf.from [0; 0])).
  - repeat constructor; vm_compute; congruence.
  - cbn. lia.
Defined.

(** X21. A record that announces the size 0 stops [getTemplates] for good:
    with a positive total left and at least 6 bytes of data that begin with
    two zero bytes, the loop never ends, however many turns it is given. *)
Theorem templatesLoop_zero_size fuel :
  forall total rest acc,
    0 < total -> 4 <= Buf.length rest ->
    templatesLoop fuel total (Byte.x00 :: Byte.x00 :: rest) acc = OutOfFuel.
Proof.
  induction fuel as [|fuel IH]; intros total rest acc Ht Hl; [reflexivity|].
  cbn [templatesLoop].
  assert (Hlen : Buf.length (Byte.x00 :: Byte.x00 :: rest) = 2 + Buf.length rest).
  { unfold Buf.length. cbn [List.length]. lia. }
  replace ((total >? 0) && (6 <=? Buf.length (Byte.x00 :: Byte.x00 :: rest))) with true
    by (symmetry; apply andb_true_iff; split; [apply Z.gtb_gt | apply Z.leb_le]; lia).
  unfold Buf.readUInt16LE, Buf.readIntLE, Buf.readUIntLE.
  rewrite !inBounds_true
    by (rewrite ?Hlen; change (Z.of_nat 2) with 2; change (Z.of_nat 1) with 1; lia).
  cbn [res_bind]. cbv zeta.
  change (le_combine (firstn 2 (skipn (Z.to_nat 0) (Byte.x00 :: Byte.x00 :: rest)))) with 0.
  rewrite Z.sub_0_r. unfold Buf.sliceFrom. change (Z.to_nat 0) with 0%nat. cbn [skipn].
  apply IH; assumption.
Qed.

Lemma templatesLoop_zero_size_witness :
  templatesLoop 1000 10 (Byte.x00 :: Byte.x00 :: Buf.alloc 8) [] = OutOfFuel.
Proof.
  apply (templatesLoop_zero_size 1000 10 (Buf.alloc 8) []); [lia | cbn; lia].
Defined.
End TemplateFacts.

Module LcdFacts.
Import CONST Zk Zk2 Wire BufFacts TraceFacts RecordFacts.

(** Without continuation bytes every byte is a character. *)
Lemma chars_ascii bs :
  Forall (fun b => byte.unsigned b < 128) bs -> chars bs = map (fun b => [b]) bs.
Proof.
  induction 1 as [|b bs Hb Hall IH]; [reflexivity|].
  cbn [chars map]. rewrite IH. destruct Hall as [|c0 bs' Hc _]; [reflexivity|].
  cbn [map]. unfold continuation.
  replace (128 <=? byte.unsigned c0) with false by (symmetry; apply Z.leb_gt; lia).
  reflexivity.
Qed.

Lemma fitting_singletons bs :
  forall room, fitting room (map (fun b : byte => [b]) bs) = firstn room bs.
Proof.
  induction bs as [|b bs IH]; intros room; [now rewrite firstn_nil|].
  cbn [map fitting List.length]. destruct room as [|room]; [reflexivity|].
  cbn [Nat.leb firstn app Nat.sub]. now rewrite IH, Nat.sub_0_r.
Qed.

Lemma firstn_removelast {A} (l : list A) :
  firstn (List.length l - 1) l = removelast l.
Proof. rewrite removelast_firstn_len. f_equal. lia. Qed.

Lemma copy_full (src : Buffer) n :
  List.length src = n -> Buf.copy src (Buf.alloc n) 0 = src.
Proof.
  intros H. rewrite <- (firstn_all src) at 1. rewrite H, copy_last.
  unfold pad. now rewrite <- H, firstn_all, Nat.sub_diag, app_nil_r.
Qed.

Local Opaque Buf.store Buf.copy.

(** The payload of [writeLcd] for a text of single-byte characters. *)
Lemma lcd_payload lineNumber text :
  -32768 <= lineNumber < 32768 ->
  Forall (fun b => byte.unsigned b < 128) (Buf.fromString text) ->
  text <> ""%string ->
  exists p1 p2,
    Buf.writeInt16LE (Buf.alloc (3 + List.length (Buf.fromString text))) lineNumber 0 = Ok p1 /\
    Buf.writeInt8 p1 0 2 = Ok p2 /\
    write (String " " text) p2 3
    = le_split 2 lineNumber ++ [Byte.x00; Byte.x20] ++ removelast (Buf.fromString text).
Proof.
  intros Hl Hascii Hne.
  set (bs := Buf.fromString text) in *.
  assert (Hpos : (0 < List.length bs)%nat).
  { destruct text; [congruence|]. unfold bs, Buf.fromString. cbn. lia. }
  change (3 + List.length bs)%nat with (2 + (1 + List.length bs))%nat.
  rewrite !alloc_add.
  do 2 eexists. split; [|split].
  - unfold Buf.writeInt16LE. rewrite writeIntLE_ok;
      [ rewrite store_here by reflexivity; reflexivity
      | change (2 ^ (8 * Z.of_nat 2 - 1)) with 32768; lia | lia
      | unfold Buf.length; rewrite !List.length_app; cbn; lia ].
  - unfold Buf.writeInt8. rewrite writeIntLE_ok;
      [ rewrite store_skip by (rewrite length_split; lia); rewrite length_split;
        change (2 - Z.of_nat 2) with 0; rewrite store_here by reflexivity; reflexivity
      | change (2 ^ (8 * Z.of_nat 1 - 1)) with 128; lia | lia
      | unfold Buf.length; rewrite !List.length_app, length_le_split; cbn; lia ].
  - unfold write.
    change (Buf.fromString (String " " text)) with (Byte.x20 :: bs).
    rewrite chars_ascii by (constructor; [cbn; lia | exact Hascii]).
    rewrite fitting_singletons.
    rewrite !List.length_app, length_le_split. change (List.length (le_split 1 0)) with 1%nat.
    unfold Buf.alloc at 1. rewrite repeat_length.
    replace (2 + (1 + List.length bs) - Z.to_nat 3)%nat with (S (List.length bs - 1)) by lia.
    cbn [firstn]. rewrite firstn_removelast.
    rewrite copy_skip by (rewrite length_split; lia). rewrite length_split.
    change (3 - Z.of_nat 2) with 1.
    rewrite (copy_skip _ (le_split 1 0)) by (rewrite length_split; lia). rewrite length_split.
    change (1 - Z.of_nat 1) with 0.
    rewrite copy_full; [reflexivity|].
    cbn [List.length]. rewrite removelast_firstn_len, length_firstn. lia.
Qed.

(** X22. [writeLcd] does not send the last character of an ASCII text: the
    payload has room for the text but the text is written behind a space,
    so the request carries the line number, a zero byte, the space and the
    text without its last character. *)
Theorem writeLcd_drops_last z w lineNumber text ack rest :
  ready z -> -32768 <= lineNumber < 32768 ->
  Forall (fun b => byte.unsigned b < 128) (Buf.fromString text) ->
  text <> ""%string -> Buf.length (Buf.fromString text) < 4294967000 ->
  okReply ack -> inbox w = frame (tcp z) ack :: rest ->
  exists written z',
    writeLcd lineNumber text z w
    = (Ok true, z',
       mkWorld (reachable w) (opened w) (closed w) (outbox w ++ [written]) rest) /\
    request (tcp z) written
    = (CMD_WRITE_LCD,
       le_split 2 lineNumber ++ [Byte.x00; Byte.x20] ++ removelast (Buf.fromString text)).
Proof.
  intros Hr Hl Hascii Hne Hlen Hack Hi.
  destruct (lcd_payload lineNumber text Hl Hascii Hne) as (p1 & p2 & H1 & H2 & Hw).
  set (payload := le_split 2 lineNumber ++ _) in *.
  assert (Hpl : Buf.length payload + 8 < 4294967296).
  { unfold payload, Buf.length. rewrite !List.length_app, length_le_split. cbn [List.length].
    rewrite removelast_firstn_len, length_firstn. unfold Buf.length in Hlen. lia. }
  destruct (UploadFacts.command_frame z w CMD_WRITE_LCD payload ack rest Hr
              ltac:(unfold CMD_WRITE_LCD; lia) Hpl Hack Hi)
    as (written & z' & r & Hreq & _ & _ & Hst & Hrun).
  exists written, z'. split; [|exact Hreq].
  unfold writeLcd. cbv zeta. unfold bind at 1, lift. rewrite H1.
  unfold bind at 1, lift. rewrite H2. rewrite Hw. fold payload.
  unfold bind at 1. rewrite Hrun, Hst. reflexivity.
Qed.

(** The text HELLO for line 1 arrives as HELL behind a space. *)
Lemma writeLcd_drops_last_witness :
  let w := Demo.net false [Demo.ackReply] in
  exists written z',
    writeLcd 1 "HELLO" Demo.udpClient w = (Ok true, z', mkWorld true 1 0 [written] []) /\
    request false written
    = (CMD_WRITE_LCD, le_split 2 1 ++ [Byte.x00; Byte.x20] ++ Buf.fromString "HELL").
Proof.
  intros w.
  apply (writeLcd_drops_last Demo.udpClient w 1 "HELLO" Demo.ackReply []).
  - repeat split; vm_compute; congruence.
  - lia.
  - repeat constructor.
  - discriminate.
  - vm_compute. reflexivity.
  - split; vm_compute; [split; congruence | reflexivity].
  - reflexivity.
Defined.
End LcdFacts.

Module EnrollFacts.
Import CONST Zk Zk2 Wire BufFacts.

Lemma read16_inside (b : Buffer) off :
  0 <= off -> off + 2 <= Buf.length b ->
  exists v, 0 <= v < 65536 /\ Buf.readUInt16LE b off = Ok v.
Proof.
  intros Ho Hl. unfold Buf.readUInt16LE, Buf.readUIntLE.
  rewrite inBounds_true by (change (Z.of_nat 2) with 2; lia).
  eexists. split; [|reflexivity].
  pose proof (le_combine_bound (firstn 2 (skipn (Z.to_nat off) b))) as H.
  assert (Hlen : List.length (firstn 2 (skipn (Z.to_nat off) b)) = 2%nat).
  { rewrite length_firstn, length_skipn. unfold Buf.length in Hl. lia. }
  rewrite Hlen in H. change (2 ^ (8 * Z.of_nat 2)) with 65536 in H. exact H.
Qed.

(** X23. [_extractEnrollCode] never throws: the length checks come before
    every read, so for any buffer (or none) on either carrier the result is
    null or a 16-bit code. *)
Theorem extractEnrollCode_total tcp buffer :
  _extractEnrollCode tcp buffer = Ok None \/
  exists code, 0 <= code < 65536 /\ _extractEnrollCode tcp buffer = Ok (Some code).
Proof.
  destruct buffer as [buffer|]; [|left; reflexivity].
  unfold _extractEnrollCode. destruct tcp.
  - unfold _validateTcpTop.
    destruct (Z.ltb_spec (Buf.length buffer) 8) as [H8|H8]; [left; reflexivity|].
    destruct (read16_inside buffer 0) as (h1 & _ & ->); [lia | lia |].
    destruct (read16_inside buffer 2) as (h2 & _ & ->); [lia | lia |].
    cbn [res_bind]. destruct (_ && _); cbn [negb]; [|left; reflexivity].
    destruct (Z.ltb_spec (Buf.length buffer) 18) as [H18|H18]; [left; reflexivity|].
    destruct (read16_inside buffer 16) as (code & Hc & ->); [lia | lia |].
    right. exists code. split; [exact Hc | reflexivity].
  - destruct (Z.ltb_spec (Buf.length buffer) 10) as [H10|H10]; [left; reflexivity|].
    destruct (read16_inside buffer 8) as (code & Hc & ->); [lia | lia |].
    right. exists code. split; [exact Hc | reflexivity].
Qed.
End EnrollFacts.

Module BaseConnFacts.
Import CONST BaseZk.

(** Splitting a run at its first step. *)
Lemma bind_inv {A B} (m : M A) (k : A -> M B) z w b z' w' :
  bind m k z w = (Ok b, z', w') ->
  exists a z1 w1, m z w = (Ok a, z1, w1) /\ k a z1 w1 = (Ok b, z', w').
Proof.
  unfold bind. destruct (m z w) as [[[a| |] z1] w1]; try discriminate.
  intros H. now exists a, z1, w1.
Qed.

Lemma lift_inv {A} (r : res A) z w a z' w' :
  lift r z w = (Ok a, z', w') -> r = Ok a /\ z' = z /\ w' = w.
Proof. unfold lift. intros [= -> -> ->]. auto. Qed.

Lemma update_inv f z w u z' w' :
  update f z w = (Ok u, z', w') -> z' = f z /\ w' = w.
Proof. unfold update. intros H. inversion H; subst. auto. Qed.

Lemma this_inv z w a z' w' : this z w = (Ok a, z', w') -> a = z /\ z' = z /\ w' = w.
Proof. unfold this. intros [= <- <- <-]. auto. Qed.

Lemma ret_inv {A} (x : A) z w a z' w' :
  ret x z w = (Ok a, z', w') -> a = x /\ z' = z /\ w' = w.
Proof. unfold ret. intros [= <- <- <-]. auto. Qed.

Lemma socketWrite_inv b z w u z' w' :
  socketWrite b z w = (Ok u, z', w') ->
  z' = z /\ Zk.outbox w' = Zk.outbox w ++ [b].
Proof.
  unfold socketWrite. destruct (sock z); cbn [negb]; [|discriminate].
  intros H. inversion H; subst. split; reflexivity.
Qed.

Lemma read_tcp_inv n z w b z' w' :
  __read_tcp n z w = (Ok b, z', w') ->
  Zk.outbox w' = Zk.outbox w /\ is_connect z' = is_connect z.
Proof.
  unfold __read_tcp. destruct (waitTcp _ _ _) as [[[[]| |] buffer] rest]; try discriminate.
  intros H. inversion H; subst. split; reflexivity.
Qed.

Lemma receive_udp_inv z w b z' w' :
  __receive_udp z w = (Ok b, z', w') -> Zk.outbox w' = Zk.outbox w /\ z' = z.
Proof.
  unfold __receive_udp. destruct (Zk.inbox w) as [|[chunk|] rest]; try discriminate.
  intros H. inversion H; subst. split; reflexivity.
Qed.

Ltac run_step H :=
  match type of H with
  | bind (this) _ _ _ = _ => unfold bind at 1, this at 1 in H
  | bind (update _) _ _ _ = _ => unfold bind at 1, update at 1 in H
  | bind (ret _) _ _ _ = _ => unfold bind at 1, ret at 1 in H
  | bind (lift _) _ _ _ = _ =>
      let a := fresh "a" in let z := fresh "z" in let w := fresh "w" in
      let E := fresh "E" in
      apply bind_inv in H; destruct H as (a & z & w & E & H);
      apply lift_inv in E; destruct E as (E & -> & ->)
  end.

(** A command that comes back has written one packet; the code it returns
    is the one it stored, and it decides the status. *)
Lemma send_command_inv command cs size z w r z' w' :
  __send_command command cs size z w = (Ok r, z', w') ->
  (exists written, Zk.outbox w' = Zk.outbox w ++ [written]) /\
  response z' = code r /\
  status r = JS.includes [CMD_ACK_OK; CMD_PREPARE_DATA; CMD_DATA] (code r) /\
  is_connect z' = is_connect z /\ header z' <> None.
Proof.
  unfold __send_command. intros H. run_step H.
  destruct (negb _ && negb _); [discriminate H|].
  run_step H.
  apply bind_inv in H. destruct H as ([] & z1 & w1 & Hio & H).
  assert (Hout : (exists written, Zk.outbox w1 = Zk.outbox w ++ [written]) /\
                 is_connect z1 = is_connect z /\ header z1 <> None).
  { destruct (tcp z).
    - run_step Hio.
      apply bind_inv in Hio. destruct Hio as ([] & z2 & w2 & Hw & Hio).
      apply socketWrite_inv in Hw. destruct Hw as (-> & Hw).
      apply bind_inv in Hio. destruct Hio as (resp & z3 & w3 & Hr & Hio).
      apply read_tcp_inv in Hr. destruct Hr as (Hr & Hc).
      run_step Hio. run_step Hio.
      destruct (negb (JS.truthy a1)); [discriminate Hio|].
      run_step Hio. run_step Hio. run_step Hio.
      apply update_inv in Hio. destruct Hio as (-> & ->).
      split; [exists a0; congruence|]. split; [exact Hc | discriminate].
    - apply bind_inv in Hio. destruct Hio as ([] & z2 & w2 & Hw & Hio).
      apply socketWrite_inv in Hw. destruct Hw as (-> & Hw).
      apply bind_inv in Hio. destruct Hio as (resp & z3 & w3 & Hr & Hio).
      apply receive_udp_inv in Hr. destruct Hr as (Hr & ->).
      run_step Hio. run_step Hio. run_step Hio.
      apply update_inv in Hio. destruct Hio as (-> & ->).
      split; [exists a; congruence|]. split; [reflexivity | discriminate]. }
  destruct Hout as (Hout & Hc & Hh).
  run_step H. destruct (header z1) as [[[[received sum] session] replyId]|] eqn:Eh;
    [|discriminate H].
  run_step H. run_step H. run_step H.
  apply ret_inv in H. destruct H as (-> & -> & ->).
  cbn. split; [exact Hout|]. split; [reflexivity|]. split; [reflexivity|].
  split; [exact Hc | rewrite Eh; discriminate].
Qed.

Lemma create_socket_inv z w u z' w' :
  __create_socket z w = (Ok u, z', w') -> Zk.outbox w' = Zk.outbox w.
Proof.
  unfold __create_socket. destruct (tcp z); [destruct (Zk.reachable w)|];
    intros H; inversion H; subst; reflexivity.
Qed.

(** X24. [connect] of base.js cannot authenticate: it decides on the reply
    to CMD_CONNECT, also after it has sent CMD_AUTH.  So a [connect] that
    succeeds has sent one packet only, and the reply to it carried a
    success code; after CMD_ACK_UNAUTH the call always throws. *)
Theorem base_connect_without_auth ping probe z w c z' w' :
  connect ping probe z w = (Ok c, z', w') ->
  (exists written, Zk.outbox w' = Zk.outbox w ++ [written]) /\
  JS.includes [CMD_ACK_OK; CMD_PREPARE_DATA; CMD_DATA] (response z') = true /\
  response z' <> CMD_ACK_UNAUTH /\
  is_connect z' = true.
Proof.
  unfold connect. intros H. run_step H.
  destruct (negb (ommit_ping z) && negb ping); [discriminate H|].
  apply bind_inv in H. destruct H as ([] & z1 & w1 & Hp & H).
  assert (Hw1 : w1 = w).
  { destruct (tcp z && probe); [apply update_inv in Hp | apply ret_inv in Hp]; apply Hp. }
  subst w1.
  apply bind_inv in H. destruct H as ([] & z2 & w2 & Hs & H).
  apply create_socket_inv in Hs.
  run_step H. run_step H.
  apply bind_inv in H. destruct H as (r & z3 & w3 & Hc & H).
  apply send_command_inv in Hc. destruct Hc as (Hout & Hresp & Hst & _ & Hh).
  run_step H. destruct (header z3) as [[[[received sum] session] replyId]|]; [|congruence].
  run_step H.
  destruct (Z.eqb_spec (code r) CMD_ACK_UNAUTH) as [Eu|Eu].
  - (* the reply asks for authentication: the status is false *)
    assert (Hfalse : status r = false) by (rewrite Hst, Eu; reflexivity).
    rewrite Hfalse in H.
    unfold bind at 1 in H.
    destruct (bind this _ _ _) as [[[u| |] z4] w4]; discriminate H.
  - run_step H. destruct (status r) eqn:Es; [|discriminate H].
    run_step H. apply this_inv in H. destruct H as (-> & -> & ->).
    destruct Hout as (written & Hout). rewrite Hs in Hout.
    split; [now exists written|].
    change (response (set_is_connect true (set_session_id session z3))) with (response z3).
    rewrite Hresp. split; [now rewrite <- Hst|]. split; [exact Eu | reflexivity].
Qed.

(** A device that asks for the password and accepts the key: the call
    answers with CMD_AUTH and then fails. *)
Example base_connect_unauthenticated :
  let z := new 123 true true in
  let w := Demo.net false [Wire.reply CMD_ACK_UNAUTH 0 0 []; Wire.reply CMD_ACK_OK 77 1 []] in
  fst (fst (connect true false z w)) = Throw (Error "Unauthenticated") /\
  Demo.sentCommands false (snd (connect true false z w)) = [CMD_CONNECT; CMD_AUTH].
Proof. vm_compute. split; reflexivity. Qed.

Lemma base_connect_without_auth_witness :
  let z := new 0 true true in
  let w := Demo.net false [Wire.reply CMD_ACK_OK 77 0 []] in
  exists c z' w',
    connect true false z w = (Ok c, z', w') /\
    (exists written, Zk.outbox w' = Zk.outbox w ++ [written]) /\
    JS.includes [CMD_ACK_OK; CMD_PREPARE_DATA; CMD_DATA] (response z') = true /\
    response z' <> CMD_ACK_UNAUTH /\
    is_connect z' = true.
Proof.
  intros z w. do 3 eexists. split; [vm_compute; reflexivity|].
  eapply (base_connect_without_auth true false z w). vm_compute. reflexivity.
Defined.

(** Waiting for more bytes than are going to come ends with the timer. *)
Lemma waitTcp_short chunks :
  forall buffer n,
    Buf.length buffer + Buf.length (List.concat chunks) < n ->
    waitTcp (map Zk.Message chunks) buffer n
    = (Throw (Error "TCP receive timeout"), buffer ++ List.concat chunks, []).
Proof.
  induction chunks as [|chunk chunks IH]; intros buffer n H; cbn [map waitTcp List.concat].
  - pose proof (BufFacts.length_nonneg buffer).
    cbn [List.concat] in H. change (Buf.length []) with 0 in H.
    replace (Buf.length buffer <? n) with true by (symmetry; apply Z.ltb_lt; lia).
    now rewrite app_nil_r.
  - cbn [List.concat] in H. unfold Buf.length in *. rewrite List.length_app in H.
    replace (Z.of_nat (List.length buffer) <? n) with true
      by (symmetry; apply Z.ltb_lt; lia).
    rewrite IH by (rewrite List.length_app; lia). now rewrite app_assoc.
Qed.

(** X25. On the stream carrier [__send_command] of base.js waits for
    [responseSize + 8] bytes: when the bytes that arrive, with those left
    in the buffer, are fewer than that, the call fails with the receive
    timeout, whatever they are; the request has been written and the bytes
    stay in the buffer.  ([read_sizes] and [read_with_buffer] ask for 1024.) *)
Theorem base_tcp_reply_shorter_than_asked z w command cs responseSize chunks :
  tcp z = true -> sock z = true ->
  is_connect z = true \/ command = CMD_CONNECT \/ command = CMD_AUTH ->
  0 <= command < 65536 -> 0 <= session_id z < 65536 -> 0 <= reply_id z < 65536 ->
  Buf.length cs + 8 < 4294967296 ->
  Zk.inbox w = map Zk.Message chunks ->
  Buf.length (tcpBuffer z) + Buf.length (List.concat chunks) < responseSize + 8 ->
  exists written,
    __send_command command cs responseSize z w
    = (Throw (Error "TCP receive timeout"),
       set_tcpBuffer (tcpBuffer z ++ List.concat chunks) z,
       Zk.mkWorld (Zk.reachable w) (Zk.opened w) (Zk.closed w) (Zk.outbox w ++ [written]) []).
Proof.
  intros Htcp Hsock Hallowed Hc Hs Hr Hlen Hi Hshort.
  pose proof (CodecFacts.__create_header_eq command cs (session_id z) (reply_id z) Hc Hs Hr)
    as Hh. cbv zeta in Hh.
  set (packet := le_split 2 command ++ _) in Hh.
  assert (Hpl : Buf.length packet < 4294967296).
  { unfold packet, Buf.length in *. rewrite !List.length_app, !length_le_split. lia. }
  exists (Wire.envelope packet).
  unfold __send_command. unfold bind at 1, this at 1.
  replace (negb (JS.includes [CMD_CONNECT; CMD_AUTH] command) && negb (is_connect z))
    with false.
  2:{ symmetry. destruct Hallowed as [-> | [-> | ->]];
        [apply andb_false_r | reflexivity | reflexivity]. }
  unfold bind at 1, lift at 1. rewrite Hh. rewrite Htcp.
  unfold bind at 1. unfold bind at 1, lift at 1.
  change (__create_tcp_top packet) with (Utils.createTcpTop packet).
  rewrite (TransportFacts.createTcpTop_eq packet Hpl).
  unfold bind at 1. unfold socketWrite at 1. rewrite Hsock. cbn [negb].
  unfold bind at 1. unfold __read_tcp at 1. cbn [Zk.inbox].
  rewrite Hi, waitTcp_short by exact Hshort. reflexivity.
Qed.

(** A reply to free-sizes of 100 bytes, where 1032 are waited for. *)
Lemma base_tcp_reply_shorter_than_asked_witness :
  let z := set_is_connect true (set_sock true (new 0 false true)) in
  let reply := Wire.envelope (Demo.sizes 3) in
  let w := Zk.mkWorld true 1 0 [] (map Zk.Message [reply]) in
  exists written,
    __send_command CMD_GET_FREE_SIZES [] 1024 z w
    = (Throw (Error "TCP receive timeout"),
       set_tcpBuffer (tcpBuffer z ++ List.concat [reply]) z,
       Zk.mkWorld true 1 0 ([] ++ [written]) []).
Proof.
  intros z reply w.
  apply (base_tcp_reply_shorter_than_asked z w CMD_GET_FREE_SIZES [] 1024 [reply]);
    try reflexivity; try (vm_compute; split; congruence).
  left. reflexivity.
Defined.

Lemma waitTcp_enough events buffer n :
  n <= Buf.length buffer -> waitTcp events buffer n = (Ok tt, buffer, events).
Proof.
  intros H. destruct events as [|e events]; cbn [waitTcp];
    replace (Buf.length buffer <? n) with false by (symmetry; apply Z.ltb_ge; lia);
    reflexivity.
Qed.

Import RecordFacts.

Lemma unpack_header_fields c k s r (tl : Buffer) :
  0 <= c < 65536 -> 0 <= k < 65536 -> 0 <= s < 65536 -> 0 <= r < 65536 ->
  Base.__unpack_header (le_split 2 c ++ le_split 2 k ++ le_split 2 s ++ le_split 2 r ++ tl)
  = Ok (c, k, s, r).
Proof.
  intros Hc Hk Hs Hr. unfold Base.__unpack_header, Buf.readUInt16LE.
  rewrite read_here by (change (2 ^ (Z.of_nat 2 * 8)) with 65536; lia). cbn [res_bind].
  rewrite read_skip by field_len. norm_off.
  rewrite read_here by (change (2 ^ (Z.of_nat 2 * 8)) with 65536; lia). cbn [res_bind].
  do 2 (rewrite read_skip by field_len; norm_off).
  rewrite read_here by (change (2 ^ (Z.of_nat 2 * 8)) with 65536; lia). cbn [res_bind].
  do 3 (rewrite read_skip by field_len; norm_off).
  rewrite read_here by (change (2 ^ (Z.of_nat 2 * 8)) with 65536; lia). reflexivity.
Qed.

Lemma test_tcp_top_envelope len (tl : Buffer) :
  0 <= len < 4294967296 -> 0 < Buf.length tl ->
  __test_tcp_top (le_split 2 MACHINE_PREPARE_DATA_1 ++ le_split 2 MACHINE_PREPARE_DATA_2
                  ++ le_split 4 len ++ tl) = Ok len.
Proof.
  intros Hl Ht. unfold __test_tcp_top.
  replace (Buf.length _ <=? 8) with false.
  2:{ symmetry. apply Z.leb_gt. unfold Buf.length in *.
      rewrite !List.length_app, !length_le_split. lia. }
  unfold Buf.readUInt16LE, Buf.readUInt32LE.
  rewrite read_here by (vm_compute; split; congruence). cbn [res_bind].
  rewrite read_skip by field_len. norm_off.
  rewrite read_here by (vm_compute; split; congruence). cbn [res_bind].
  rewrite !Z.eqb_refl. cbn [andb].
  do 2 (rewrite read_skip by field_len; norm_off).
  apply read_here. change (2 ^ (Z.of_nat 4 * 8)) with 4294967296. lia.
Qed.

(** Cutting the stream behind the 16 bytes of envelope and header. *)
Lemma cut_stream (front payload extra : Buffer) n :
  List.length front = 16%nat -> 16 <= n <= 16 + Buf.length payload ->
  Buf.slice (front ++ payload ++ extra) 0 n = front ++ firstn (Z.to_nat (n - 16)) payload /\
  Buf.sliceFrom (front ++ payload ++ extra) n = skipn (Z.to_nat (n - 16)) payload ++ extra.
Proof.
  intros Hf Hn. unfold Buf.slice, Buf.sliceFrom, Buf.length in *.
  change (Z.to_nat 0) with 0%nat. cbn [skipn]. rewrite Nat.sub_0_r.
  replace (Z.to_nat n) with (16 + Z.to_nat (n - 16))%nat by lia.
  split.
  - rewrite firstn_app, Hf. rewrite firstn_all2 by lia.
    replace (16 + Z.to_nat (n - 16) - 16)%nat with (Z.to_nat (n - 16)) by lia.
    rewrite firstn_app.
    replace (Z.to_nat (n - 16) - List.length payload)%nat with 0%nat by lia.
    now rewrite firstn_O, app_nil_r.
  - rewrite skipn_app, Hf. rewrite skipn_all2 by lia.
    replace (16 + Z.to_nat (n - 16) - 16)%nat with (Z.to_nat (n - 16)) by lia.
    rewrite skipn_app.
    replace (Z.to_nat (n - 16) - List.length payload)%nat with 0%nat by lia.
    reflexivity.
Qed.

(** X26. On the stream carrier [__send_command] of base.js takes exactly
    [responseSize + 8] bytes of what has arrived: of a reply that is longer
    it keeps the first [responseSize - 8] bytes of data, and the other
    bytes stay in the buffer, in front of whatever comes next.  The reply
    id is taken from the reply, the session id is not. *)
Theorem base_tcp_reply_longer_than_asked z w command cs responseSize
    code sum session replyId payload extra rest :
  let raw := le_split 2 code ++ le_split 2 sum ++ le_split 2 session
             ++ le_split 2 replyId ++ payload in
  tcp z = true -> sock z = true -> tcpBuffer z = [] ->
  is_connect z = true \/ command = CMD_CONNECT \/ command = CMD_AUTH ->
  0 <= command < 65536 -> 0 <= session_id z < 65536 -> 0 <= reply_id z < 65536 ->
  Buf.length cs + 8 < 4294967296 ->
  0 <= code < 65536 -> 0 <= sum < 65536 -> 0 <= session < 65536 -> 0 <= replyId < 65536 ->
  Buf.length raw < 4294967296 ->
  8 <= responseSize <= Buf.length raw ->
  Zk.inbox w = Zk.Message (Wire.envelope raw ++ extra) :: rest ->
  exists written z',
    __send_command command cs responseSize z w
    = (Ok (mkReply (Wire.okCode code) code), z',
       Zk.mkWorld (Zk.reachable w) (Zk.opened w) (Zk.closed w) (Zk.outbox w ++ [written])
                  rest) /\
    data z' = firstn (Z.to_nat (responseSize - 8)) payload /\
    tcpBuffer z' = skipn (Z.to_nat (responseSize - 8)) payload ++ extra /\
    reply_id z' = replyId /\ session_id z' = session_id z.
Proof.
  intros raw Htcp Hsock Hbuf Hallowed Hc Hs Hr Hlen Hcode Hsum Hsession Hrid Hraw Hsize Hi.
  pose proof (CodecFacts.__create_header_eq command cs (session_id z) (reply_id z) Hc Hs Hr)
    as Hh. cbv zeta in Hh.
  set (packet := le_split 2 command ++ _) in Hh.
  assert (Hpl : Buf.length packet < 4294967296).
  { unfold packet, Buf.length in *. rewrite !List.length_app, !length_le_split. lia. }
  assert (Hrl : Buf.length raw = 8 + Buf.length payload).
  { unfold raw, Buf.length. rewrite !List.length_app, !length_le_split. lia. }
  pose proof (BufFacts.length_nonneg payload) as Hpn.
  set (front := le_split 2 MACHINE_PREPARE_DATA_1 ++ le_split 2 MACHINE_PREPARE_DATA_2
                ++ le_split 4 (Buf.length raw) ++ le_split 2 code ++ le_split 2 sum
                ++ le_split 2 session ++ le_split 2 replyId).
  assert (Hstream : Wire.envelope raw ++ extra = front ++ payload ++ extra).
  { unfold Wire.envelope, raw, front. now rewrite <- !app_assoc. }
  assert (Hfl : List.length front = 16%nat).
  { unfold front. rewrite !List.length_app, !length_le_split. reflexivity. }
  destruct (cut_stream front payload extra (responseSize + 8) Hfl ltac:(lia)) as [Hcut Hleft].
  replace (responseSize + 8 - 16) with (responseSize - 8) in Hcut, Hleft by lia.
  exists (Wire.envelope packet). eexists.
  unfold __send_command. unfold bind at 1, this at 1.
  replace (negb (JS.includes [CMD_CONNECT; CMD_AUTH] command) && negb (is_connect z))
    with false.
  2:{ symmetry. destruct Hallowed as [-> | [-> | ->]];
        [apply andb_false_r | reflexivity | reflexivity]. }
  unfold bind at 1, lift at 1. rewrite Hh. rewrite Htcp.
  unfold bind at 1. unfold bind at 1. unfold bind at 1, lift at 1.
  change (__create_tcp_top packet) with (Utils.createTcpTop packet).
  rewrite (TransportFacts.createTcpTop_eq packet Hpl).
  unfold bind at 1. unfold socketWrite at 1. rewrite Hsock. cbn [negb].
  unfold bind at 1. unfold __read_tcp at 1. cbn [Zk.inbox].
  rewrite Hi, Hbuf. cbn [waitTcp]. change (Buf.length []) with 0.
  replace (0 <? responseSize + 8) with true by (symmetry; apply Z.ltb_lt; lia).
  cbn [app]. rewrite waitTcp_enough.
  2:{ rewrite Hstream. unfold Buf.length in *. rewrite !List.length_app, Hfl. lia. }
  rewrite Hstream, Hcut, Hleft.
  cbn [Zk.reachable Zk.opened Zk.closed Zk.outbox].
  set (taken := firstn (Z.to_nat (responseSize - 8)) payload).
  assert (Htop : __test_tcp_top (front ++ taken) = Ok (Buf.length raw)).
  { unfold front. rewrite <- !app_assoc. apply test_tcp_top_envelope.
    - pose proof (BufFacts.length_nonneg raw). lia.
    - unfold Buf.length. rewrite !List.length_app, !length_le_split. lia. }
  assert (Hrecv : Buf.sliceFrom (front ++ taken) 8
                  = le_split 2 code ++ le_split 2 sum ++ le_split 2 session
                    ++ le_split 2 replyId ++ taken).
  { unfold front. rewrite <- !app_assoc. reflexivity. }
  assert (Hhead : Base.__unpack_header
                    (Buf.slice (le_split 2 code ++ le_split 2 sum ++ le_split 2 session
                                ++ le_split 2 replyId ++ taken) 0 8)
                  = Ok (code, sum, session, replyId)).
  { rewrite !app_assoc. rewrite slice_here
      by (unfold Buf.length; rewrite !List.length_app, !length_le_split; reflexivity).
    rewrite <- (app_nil_r (_ ++ le_split 2 replyId)), <- !app_assoc.
    now apply unpack_header_fields. }
  unfold lift at 1. rewrite Htop.
  unfold bind at 1, update at 1.
  replace (negb (JS.truthy (Buf.length raw))) with false
    by (unfold JS.truthy; destruct (Z.eqb_spec (Buf.length raw) 0); [lia | reflexivity]).
  unfold bind at 1, update at 1. rewrite Hrecv.
  unfold bind at 1, this at 1.
  cbn [data_recv set_data_recv set_tcp_length set_tcpBuffer].
  unfold bind at 1, lift at 1. rewrite Hhead.
  unfold update at 1.
  unfold bind at 1, this at 1. cbn [header set_header].
  unfold bind at 1, update at 1. unfold bind at 1, update at 1.
  unfold bind at 1, update at 1. unfold ret.
  split; [reflexivity|].
  cbn [data tcpBuffer reply_id session_id set_data set_reply_id set_response set_header
       set_data_recv set_tcp_length set_tcpBuffer data_recv].
  split; [|repeat split; reflexivity].
  unfold Buf.sliceFrom. change (Z.to_nat 8) with 8%nat.
  rewrite !app_assoc. rewrite skipn_app.
  rewrite skipn_all2 by (rewrite !List.length_app, !length_le_split; cbn; lia).
  rewrite !List.length_app, !length_le_split. reflexivity.
Qed.

(** A reply with 6 bytes of data to a command that asks for the default
    8 bytes: no data are taken, the 6 bytes stay behind. *)
Lemma base_tcp_reply_longer_than_asked_witness :
  let z := set_is_connect true (set_sock true (new 0 false true)) in
  let payload := Buf.from [1; 2; 3; 4; 5; 6] in
  let raw := le_split 2 CMD_ACK_OK ++ le_split 2 0 ++ le_split 2 77 ++ le_split 2 5
             ++ payload in
  let w := Zk.mkWorld true 1 0 [] [Zk.Message (Wire.envelope raw ++ [])] in
  exists written z',
    __send_command CMD_ENABLEDEVICE [] 8 z w
    = (Ok (mkReply (Wire.okCode CMD_ACK_OK) CMD_ACK_OK), z',
       Zk.mkWorld true 1 0 ([] ++ [written]) []) /\
    data z' = firstn (Z.to_nat (8 - 8)) payload /\
    tcpBuffer z' = skipn (Z.to_nat (8 - 8)) payload ++ [] /\
    reply_id z' = 5 /\ session_id z' = session_id z.
Proof.
  intros z payload raw w.
  apply (base_tcp_reply_longer_than_asked z w CMD_ENABLEDEVICE [] 8
           CMD_ACK_OK 0 77 5 payload [] []);
    try reflexivity; try (vm_compute; split; congruence).
  left. reflexivity.
Defined.
End BaseConnFacts.

Module ReceiveFacts.
Import CONST Zk Zk2 Wire BufFacts CodecFacts RecordFacts.

(** One framed packet, received without a request. *)
Lemma recv_frame z w raw rest :
  socket z = true -> framed raw -> inbox w = frame (tcp z) raw :: rest ->
  (if tcp z then _recvTcpRaw else _recvUdpOnce) z w
  = (Ok (if tcp z then envelope raw else raw), z,
     mkWorld (reachable w) (opened w) (closed w) (outbox w) rest).
Proof.
  intros Hs [Hlo Hhi] Hi. unfold frame in Hi. destruct (tcp z).
  - unfold _recvTcpRaw. rewrite Hs, Hi. cbn [negb onRaw app].
    destruct (StreamFacts.top_reads (Buf.length raw) raw ltac:(lia)) as (Hlen & _ & Hl).
    cbv zeta in Hlen, Hl. fold (envelope raw) in Hlen, Hl.
    rewrite Hlen, Hl.
    replace (8 <=? 8 + Buf.length raw) with true by (symmetry; apply Z.leb_le; lia).
    replace (8 + Buf.length raw <=? 0 + (8 + Buf.length raw)) with true
      by (symmetry; apply Z.leb_le; lia).
    reflexivity.
  - unfold _recvUdpOnce. rewrite Hs, Hi. reflexivity.
Qed.

(** The header and the body of a received data packet. *)
Lemma data_packet (tcp : bool) session replyId body :
  let raw := reply CMD_DATA session replyId body in
  let packet := if tcp then envelope raw else raw in
  let offset := if tcp then 8 else 0 in
  exists header,
    Utils.readHeader (Buf.slice packet offset (offset + 8)) = Ok header /\
    nth 0 header 0 = CMD_DATA /\
    Buf.sliceFrom packet (offset + 8) = body.
Proof.
  intros raw packet offset. eexists. split; [|split].
  - unfold packet, offset, raw, reply, envelope. destruct tcp.
    + do 3 (rewrite slice_skip by field_len; norm_off).
      rewrite !app_assoc.
      rewrite slice_here
        by (unfold Buf.length; rewrite !List.length_app, !length_le_split; reflexivity).
      rewrite <- (app_nil_r (_ ++ le_split 2 replyId)), <- !app_assoc.
      apply readHeader_fields.
    + rewrite !app_assoc.
      rewrite slice_here
        by (unfold Buf.length; rewrite !List.length_app, !length_le_split; reflexivity).
      rewrite <- (app_nil_r (_ ++ le_split 2 replyId)), <- !app_assoc.
      apply readHeader_fields.
  - reflexivity.
  - unfold packet, offset, raw, reply, envelope, Buf.sliceFrom. destruct tcp; reflexivity.
Qed.

(** The loop takes the data packets one by one until their bodies make up
    what is missing. *)
Lemma receiveLoop_collects session replyId bodies :
  forall fuel z w chunks rest,
    socket z = true -> (List.length bodies < fuel)%nat ->
    Forall (fun body => 0 < Buf.length body < 4294967000) bodies ->
    inbox w = map (fun body => frame (tcp z) (reply CMD_DATA session replyId body)) bodies
              ++ rest ->
    receiveLoop fuel (Buf.length (List.concat bodies)) chunks z w
    = (Ok (chunks ++ bodies), z,
       mkWorld (reachable w) (opened w) (closed w) (outbox w) rest).
Proof.
  induction bodies as [|body bodies IH]; intros fuel z w chunks rest Hs Hf Hall Hi;
    (destruct fuel as [|fuel]; [cbn in Hf; lia|]); cbn [receiveLoop].
  - cbn [List.concat map app] in *. change (Buf.length [] >? 0) with false. cbv iota.
    unfold ret. rewrite app_nil_r. destruct w; cbn in *; now subst.
  - apply Forall_cons_iff in Hall. destruct Hall as [Hb Hall]. cbn [List.concat map app] in *.
    pose proof (length_nonneg (List.concat bodies)) as Hn.
    assert (Hl : Buf.length (body ++ List.concat bodies)
                 = Buf.length body + Buf.length (List.concat bodies))
      by (unfold Buf.length; rewrite List.length_app; lia).
    replace (Buf.length (body ++ List.concat bodies) >? 0) with true
      by (symmetry; apply Z.gtb_gt; lia).
    unfold bind at 1, this at 1. unfold bind at 1.
    rewrite (recv_frame z w (reply CMD_DATA session replyId body) _ Hs) by
      (first [exact Hi | unfold framed, reply, Buf.length in *;
                         rewrite !List.length_app, !length_le_split; lia]).
    destruct (data_packet (tcp z) session replyId body) as (header & Hh & Hc & Hbody).
    cbv zeta in Hh, Hbody.
    unfold bind at 1, lift at 1. rewrite Hh, Hc, Z.eqb_refl, Hbody.
    replace (Buf.length (body ++ List.concat bodies) - Buf.length body)
      with (Buf.length (List.concat bodies)) by lia.
    rewrite (IH fuel z (mkWorld (reachable w) (opened w) (closed w) (outbox w)
                          (map (fun body => frame (tcp z) (reply CMD_DATA session replyId body))
                               bodies ++ rest))
                (chunks ++ [body]) rest Hs ltac:(cbn in Hf; lia) Hall eq_refl).
    cbn [reachable opened closed outbox]. now rewrite <- app_assoc.
Qed.



Section WithRuntime.
Context {rt : JS.Runtime}.

(** X29. [getUserTemplate] for a given uid: one request
    [_CMD_GET_USERTEMP] with the uid and the template index is written;
    when the device announces the data with CMD_PREPARE_DATA and then sends
    data packets that add up to the announced size, the call returns the
    template with that uid and index and with valid 1, whose bytes are the
    received data without the last byte and without six zero bytes in front
    of it, if they are there. *)
Theorem getUserTemplate_reads z w fuelUsers fuel uid tempId userId
    session replyId session' replyId' bodies rest :
  let size := Buf.length (List.concat bodies) in
  let prep := reply CMD_PREPARE_DATA session replyId (le_split 4 size) in
  ready z -> uid <> 0 -> -32768 <= uid < 32768 -> -128 <= tempId < 128 ->
  (List.length bodies < fuel)%nat ->
  Forall (fun body => 0 < Buf.length body < 4294967000) bodies ->
  size < 4294967296 ->
  inbox w = frame (tcp z) prep
            :: map (fun body => frame (tcp z) (reply CMD_DATA session' replyId' body)) bodies
            ++ rest ->
  exists written z',
    getUserTemplate fuelUsers fuel uid tempId userId z w
    = (Ok (Some (mkTemplate uid tempId 1 (templateOf (List.concat bodies)))), z',
       mkWorld (reachable w) (opened w) (closed w) (outbox w ++ [written]) rest) /\
    request (tcp z) written = (_CMD_GET_USERTEMP, le_split 2 uid ++ le_split 1 tempId).
Proof.
  intros size prep Hr Hu Huid Htemp Hf Hall Hsize Hi.
  pose proof Hr as (Hcon & Hsock & Hsid & Hrid).
  pose proof (length_nonneg (List.concat bodies)) as Hn. fold size in Hn.
  set (payload := le_split 2 uid ++ le_split 1 tempId).
  assert (Hp1 : Buf.writeInt16LE (Buf.alloc 3) uid 0 = Ok (le_split 2 uid ++ Buf.alloc 1)).
  { unfold Buf.writeInt16LE. rewrite writeIntLE_ok;
      [| change (2 ^ (8 * Z.of_nat 2 - 1)) with 32768; lia | lia | cbn; lia].
    change (Buf.alloc 3) with (Buf.alloc 2 ++ Buf.alloc 1).
    now rewrite store_here by reflexivity. }
  assert (Hp2 : Buf.writeInt8 (le_split 2 uid ++ Buf.alloc 1) tempId 2 = Ok payload).
  { unfold Buf.writeInt8. rewrite writeIntLE_ok;
      [| change (2 ^ (8 * Z.of_nat 1 - 1)) with 128; lia | lia
       | unfold Buf.length; rewrite List.length_app, length_le_split; cbn; lia].
    rewrite store_skip by (rewrite length_split; lia). rewrite length_split.
    change (2 - Z.of_nat 2) with 0. now rewrite store_last by reflexivity. }
  assert (Hprep : framed prep).
  { unfold framed, prep, reply, Buf.length. rewrite !List.length_app, !length_le_split. lia. }
  destruct (TransportFacts.sendCommand_frame z w _CMD_GET_USERTEMP payload prep
              (map (fun body => frame (tcp z) (reply CMD_DATA session' replyId' body)) bodies
               ++ rest))
    as (written & Hreq & Hsend);
    [ right; right; exact Hcon | exact Hsock | exact Hsid | exact Hrid
    | unfold _CMD_GET_USERTEMP; lia
    | unfold payload, Buf.length; rewrite List.length_app, !length_le_split; lia
    | exact Hprep | exact Hi |].
  exists written. eexists. split; [|exact Hreq].
  unfold getUserTemplate.
  replace (negb (JS.truthy uid) && JS.nonEmpty userId) with false.
  2:{ unfold JS.truthy. destruct (Z.eqb_spec uid 0); [contradiction | reflexivity]. }
  unfold bind at 1, ret at 1. unfold bind at 1, lift at 1. rewrite Hp1.
  unfold bind at 1, lift at 1. rewrite Hp2.
  cbn [templateAttempts]. unfold bind at 1. rewrite Hsend.
  unfold bind at 1. unfold _receiveChunk. cbn [code data].
  change (codeOf prep) with CMD_PREPARE_DATA.
  change (CMD_PREPARE_DATA =? CMD_DATA) with false.
  change (negb (CMD_PREPARE_DATA =? CMD_PREPARE_DATA)) with false. cbv iota.
  change (dataOf prep) with (le_split 4 size).
  unfold bind at 1, lift at 1. unfold Buf.readUInt32LE.
  rewrite read_last by (change (2 ^ (Z.of_nat 4 * 8)) with 4294967296; lia).
  unfold bind at 1.
  rewrite (receiveLoop_collects session' replyId' bodies fuel _ _ [] rest);
    [ | exact Hsock | exact Hf | exact Hall | reflexivity ].
  unfold ret. cbn [app reachable opened closed outbox].
  now rewrite slice_last.
Qed.
End WithRuntime.

Import Demo.

(** A template of 4 bytes arrives with its trailer of six zero bytes and one
    more byte. *)
Lemma getUserTemplate_reads_witness :
  let bodies := [Buf.from [9; 8; 7; 6; 0; 0]; Buf.from [0; 0; 0; 0; 1]] in
  let prep := reply CMD_PREPARE_DATA 7 3 (le_split 4 11) in
  let w := Demo.net false (prep :: map (reply CMD_DATA 7 4) bodies) in
  exists written z',
    getUserTemplate 1 3 5 0 "" Demo.udpClient w
    = (Ok (Some (mkTemplate 5 0 1 (Buf.from [9; 8; 7; 6]))), z',
       mkWorld true 1 0 [written] []) /\
    request false written = (_CMD_GET_USERTEMP, le_split 2 5 ++ le_split 1 0).
Proof.
  intros bodies prep w.
  apply (getUserTemplate_reads Demo.udpClient w 1 3 5 0 "" 7 3 7 4 bodies []).
  - repeat split; vm_compute; congruence.
  - discriminate.
  - lia.
  - lia.
  - cbn. lia.
  - repeat constructor.
  - reflexivity.
  - reflexivity.
Defined.
End ReceiveFacts.

Module CrossFacts.
Import CONST Zk Wire BufFacts RecordFacts.

(** A zero byte and a byte are the 16-bit word of 256 times the byte. *)
Lemma word_of_high_byte g :
  0 <= g < 256 -> Buf.alloc 1 ++ le_split 1 g = le_split 2 (256 * g).
Proof.
  intros H. cbn [le_split Buf.alloc repeat app].
  assert (H0 : byte.of_Z (256 * g) = Byte.x00).
  { apply byte.unsigned_inj. rewrite byte.unsigned_of_Z. unfold byte.wrap.
    replace (256 * g) with (g * 2 ^ 8) by lia. now rewrite Z.mod_mul. }
  assert (H1 : Z.shiftr (256 * g) 8 = g).
  { rewrite Z.shiftr_div_pow2 by lia. replace (256 * g) with (g * 2 ^ 8) by lia.
    now rewrite Z.div_mul. }
  change (le_split 1 g) with [byte.of_Z g].
  change (le_split 2 (256 * g))
    with [byte.of_Z (256 * g); byte.of_Z (Z.shiftr (256 * g) 8)].
  now rewrite H0, H1.
Qed.

Section WithRuntime.
Context {rt : JS.Runtime}.

Local Opaque Buf.slice Buf.readUIntLE.

Ltac read_next :=
  repeat into_field;
  first [ rewrite read_here by (change (2 ^ (Z.of_nat _ * 8)) with 256 ||
                                change (2 ^ (Z.of_nat _ * 8)) with 65536 ||
                                change (2 ^ (Z.of_nat _ * 8)) with 4294967296; lia)
        | rewrite read_last by (change (2 ^ (Z.of_nat _ * 8)) with 256 ||
                                change (2 ^ (Z.of_nat _ * 8)) with 65536 ||
                                change (2 ^ (Z.of_nat _ * 8)) with 4294967296; lia)
        | rewrite slice_here by field_len
        | rewrite slice_last by field_len ];
  cbn [res_bind].

(** X28. [get_users] of base.js reads the group of a 28-byte record as a
    16-bit number at offset 20, where [setUser] of zk.js has stored it as
    one byte at offset 21: a record that [setUser] packs is read back with
    the same uid, privilege, card and user id, but with 256 times its group
    as the group id. *)
Theorem base_reads_group_times_256 uid priv password name card groupId userId payload :
  pack28 uid priv password name card groupId userId = Ok payload ->
  let group := if JS.nonEmpty groupId
               then match JS.Number groupId with Some g => g | None => 0 end
               else 0 in
  let idText := JS.StringOf match JS.Number userId with Some v => v | None => 0 end in
  let nameText := JS.trim (JS.splitNul (JS.toStringUtf8 (pad 8 (Buf.fromString name)))) in
  BaseZk.parseUser28 payload
  = Ok (User.mk uid priv (JS.splitNul (JS.toStringUtf8 (pad 5 (Buf.fromString password))))
          (if JS.nonEmpty nameText then nameText else ("NN-" ++ idText)%string)
          (JS.ushr card 0) (JS.StringOf (256 * group)) idText).
Proof.
  intros H. apply pack28_fields in H. cbv zeta in H.
  destruct H as (-> & Hu & Hp & Hg & Hi).
  pose proof (IdleFacts.ushr0_range card) as Hc.
  cbv zeta. rewrite (app_assoc (Buf.alloc 1)), word_of_high_byte by exact Hg.
  unfold BaseZk.parseUser28, Buf.readUInt16LE, Buf.readUInt8, Buf.readUInt32LE.
  rewrite read_here by (change (2 ^ (Z.of_nat 2 * 8)) with 65536; lia).
  cbn [res_bind]. cbv zeta. repeat read_next.
  reflexivity.
Qed.
End WithRuntime.

Import Demo.

(** The user of group 3 comes back with the group id 768. *)
Lemma base_reads_group_times_256_witness :
  exists payload,
    pack28 7 14 "123456" "Ann" 99 "3" "42" = Ok payload /\
    BaseZk.parseUser28 payload = Ok (User.mk 7 14 "12345" "Ann" 99 "768" "42").
Proof.
  eexists. split; [vm_compute; reflexivity|].
  refine (eq_trans (base_reads_group_times_256 7 14 "123456" "Ann" 99 "3" "42" _ _) _);
    vm_compute; reflexivity.
Defined.
End CrossFacts.

Module OptionFacts.
Import CONST Zk Zk2 Wire.

Lemma secondPiece_behind key s :
  occurs "=" key = false -> secondPiece (key ++ String "=" s) = untilEquals s.
Proof.
  induction key as [|c key IH]; intros H; [reflexivity|].
  cbn [occurs] in H. apply orb_false_iff in H. destruct H as [Hc Hk].
  cbn [append secondPiece]. rewrite Hc. now apply IH.
Qed.

(** The text in front of the next NUL or '='. *)
Lemma value_in_front value tail :
  occurs "=" value = false -> occurs Ascii.zero value = false ->
  tail = EmptyString \/
  (exists c t, tail = String c t /\ (c = Ascii.zero \/ c = "="%char)) ->
  JS.splitNul (untilEquals (value ++ tail)) = value.
Proof.
  induction value as [|c value IH]; intros He Hz Ht.
  - cbn [append]. destruct Ht as [-> | (c & t & -> & [-> | ->])]; reflexivity.
  - cbn [occurs] in He, Hz. apply orb_false_iff in He, Hz.
    destruct He as [He1 He2], Hz as [Hz1 Hz2].
    cbn [append untilEquals]. rewrite He1. cbn [JS.splitNul]. rewrite Hz1.
    now rewrite IH.
Qed.

Lemma dropEquals_none s : occurs "=" s = false -> dropEquals s = s.
Proof.
  induction s as [|c s IH]; intros H; [reflexivity|].
  cbn [occurs] in H. apply orb_false_iff in H. destruct H as [Hc Hs].
  cbn [dropEquals]. rewrite Hc. now rewrite IH.
Qed.

Section WithRuntime.
Context {rt : JS.Runtime}.

(** X30. [getSerialNumber] returns the value of the option: one request
    CMD_OPTIONS_RRQ with the name and a NUL byte is written, and when the
    text of the reply is a key, '=', a value without '=' and NUL, and then
    nothing, a NUL or a further '=', the value is returned.  (So a value is
    cut at a '=' in it, and the later removal of a '=' finds none.) *)
Theorem getSerialNumber_value z w raw rest key value tail :
  ready z -> okReply raw -> inbox w = frame (tcp z) raw :: rest ->
  JS.toStringUtf8 (dataOf raw) = (key ++ String "=" (value ++ tail))%string ->
  occurs "=" key = false ->
  occurs "=" value = false -> occurs Ascii.zero value = false ->
  tail = EmptyString \/
  (exists c t, tail = String c t /\ (c = Ascii.zero \/ c = "="%char)) ->
  exists written z',
    getSerialNumber z w
    = (Ok value, z',
       mkWorld (reachable w) (opened w) (closed w) (outbox w ++ [written]) rest) /\
    request (tcp z) written = (CMD_OPTIONS_RRQ, optionName "~SerialNumber").
Proof.
  intros Hr (Hf & Hok) Hi Htext Hkey Hv Hvz Htail.
  pose proof Hr as (Hcon & Hsock & Hsid & Hrid).
  destruct (TransportFacts.sendCommand_frame z w CMD_OPTIONS_RRQ (optionName "~SerialNumber")
              raw rest) as (written & Hreq & Hrun);
    [ right; right; exact Hcon | exact Hsock | exact Hsid | exact Hrid
    | unfold CMD_OPTIONS_RRQ; lia | vm_compute; reflexivity | exact Hf | exact Hi |].
  exists written. eexists. split; [|exact Hreq].
  unfold getSerialNumber. unfold bind at 1. rewrite Hrun. cbn [status data]. rewrite Hok.
  cbn [negb]. cbv zeta. unfold ret.
  rewrite Htext, secondPiece_behind, value_in_front, dropEquals_none by assumption.
  reflexivity.
Qed.
End WithRuntime.

Import Demo.

(** The reply [~SerialNumber=AB12] and a NUL byte. *)
Lemma getSerialNumber_value_witness :
  let raw := reply CMD_ACK_OK 7 3 (optionName "~SerialNumber=AB12") in
  let w := net false [raw] in
  exists written z',
    getSerialNumber udpClient w = (Ok "AB12"%string, z', mkWorld true 1 0 [written] []) /\
    request false written = (CMD_OPTIONS_RRQ, optionName "~SerialNumber").
Proof.
  intros raw w.
  apply (getSerialNumber_value udpClient w raw [] "~SerialNumber" "AB12"
           (String Ascii.zero EmptyString)).
  - repeat split; vm_compute; congruence.
  - split; vm_compute; [split; congruence | reflexivity].
  - reflexivity.
  - vm_compute. reflexivity.
  - reflexivity.
  - reflexivity.
  - reflexivity.
  - right. exists Ascii.zero, EmptyString. split; [reflexivity | left; reflexivity].
Defined.
End OptionFacts.
